(** * Scoping bot: the schedule normalizer, the cost aggregator and the
      response guards of [app/utils/scope_engine.py]

    A shallow embedding of [clean_scope], [get_rate_map_for_project],
    [_extract_json] and of the guards of [generate_project_scope] and
    [regenerate_from_instructions], followed by the properties the
    specification states about them; then more of the code: the retrieval
    of [_rag_retrieve] and the embeddings of [embed_text_ollama], the token
    budgets of [generate_project_scope] and [_build_scope_prompt], the
    questionnaire of [_extract_questions_from_text] and
    [update_questions_with_user_input], and the file names of the
    exports.

    Conventions of the embedding.
    - A Python [str] is a [string] of 8-bit characters; the text handled here
      (role names, ISO dates) is ASCII.
    - Every [datetime] the normalizer handles is at midnight and naive
      ([strptime] with a date-only format, and [today] truncated to midnight),
      so it is represented by its proleptic Gregorian ordinal, a [Z] between
      1 (0001-01-01) and [MAXORD] (9999-12-31).  Comparison is comparison of
      ordinals, [(e - s).days] is [e - s], and [s + timedelta(days=k)] is
      [s + k], which raises [OverflowError] past [MAXORD].
    - A Python exception that leaves the function is the result [None].
    - The accumulated day counts are floats that only ever hold small whole
      numbers ([0.0] plus [int]s): they are [Z].
    - Effort units, rates, discounts and costs are binary64 floats in the
      source.  Here such a number is a rational [Q] that stands for the
      binary64 number nearest to it, [PyNum.fl]: an effort (a whole number of
      quarters) and a built-in rate stand for themselves, a rate of a rate
      card for [float(monthly_rate)], a cost for the float that
      [round(x, 2)] answers, which is the one nearest to the hundredth it
      picks.  A multiplication, division or subtraction of the source is the
      exact operation on the [fl] of its operands followed by [fl], and
      [round(x, 2)] rounds the exact value of the float [x] to the nearest
      hundredth, ties to even, as CPython does.  The exponent range of
      binary64 is not modelled: no overflow, no subnormal numbers.  The
      quotients [days / 30.0] of whole numbers of days are rounded to
      hundredths at once and are written as exact quotients: the binary64
      quotient rounds to the same hundredth ([round2_days_over_30]).
    - The integer-against-product threshold tests of the guards
      ([count > n * 0.7]) are modelled bit-exactly. *)

From Stdlib Require Import ZArith QArith Qround Qabs Qpower Lia Lqa String Ascii
  List.
From stdpp Require Import base option list gmap strings sorting.

Local Open Scope Z_scope.

(** ** Python's calendar ([datetime], proleptic Gregorian) *)

Module PyDate.

Definition MINYEAR : Z := 1.
Definition MAXYEAR : Z := 9999.

(** [date(9999, 12, 31).toordinal()] *)
Definition MAXORD : Z := 3652059.

Definition is_leap (y : Z) : bool :=
  (y mod 4 =? 0) && (negb (y mod 100 =? 0) || (y mod 400 =? 0)).

Definition days_before_year (y : Z) : Z :=
  let y' := y - 1 in y' * 365 + y' / 4 - y' / 100 + y' / 400.

Definition DAYS_IN_MONTH (m : Z) : Z :=
  match m with
  | 1 => 31 | 2 => 28 | 3 => 31 | 4 => 30 | 5 => 31 | 6 => 30
  | 7 => 31 | 8 => 31 | 9 => 30 | 10 => 31 | 11 => 30 | 12 => 31
  | _ => 0
  end.

Definition DAYS_BEFORE_MONTH (m : Z) : Z :=
  match m with
  | 1 => 0 | 2 => 31 | 3 => 59 | 4 => 90 | 5 => 120 | 6 => 151
  | 7 => 181 | 8 => 212 | 9 => 243 | 10 => 273 | 11 => 304 | 12 => 334
  | _ => 0
  end.

Definition days_in_month (y m : Z) : Z :=
  if (m =? 2) && is_leap y then 29 else DAYS_IN_MONTH m.

Definition days_before_month (y m : Z) : Z :=
  DAYS_BEFORE_MONTH m + (if (2 <? m) && is_leap y then 1 else 0).

(** [_ymd2ord]: 0001-01-01 is day 1. *)
Definition ymd2ord (y m d : Z) : Z :=
  days_before_year y + days_before_month y m + d.

Definition DI400Y : Z := 146097.
Definition DI100Y : Z := 36524.
Definition DI4Y : Z := 1461.

(** [_ord2ymd], with its 400/100/4/1-year cycles and its month estimate. *)
Definition ord2ymd (ord : Z) : Z * Z * Z :=
  let n := ord - 1 in
  let n400 := n / DI400Y in
  let n := n mod DI400Y in
  let n100 := n / DI100Y in
  let n := n mod DI100Y in
  let n4 := n / DI4Y in
  let n := n mod DI4Y in
  let n1 := n / 365 in
  let n := n mod 365 in
  let year := n400 * 400 + 1 + n100 * 100 + n4 * 4 + n1 in
  if (n1 =? 4) || (n100 =? 4) then (year - 1, 12, 31)
  else
    let leapyear := (n1 =? 3) && (negb (n4 =? 24) || (n100 =? 3)) in
    let month := Z.shiftr (n + 50) 5 in
    let preceding :=
      DAYS_BEFORE_MONTH month + (if (2 <? month) && leapyear then 1 else 0) in
    if n <? preceding then
      let month := month - 1 in
      let preceding :=
        preceding
        - (DAYS_IN_MONTH month + (if (month =? 2) && leapyear then 1 else 0)) in
      (year, month, n - preceding + 1)
    else (year, month, n - preceding + 1).

(** The month estimate of [_ord2ymd] on its own: month and day of the
    [n]-th day (from 0) of a year. *)
Definition md_of (leapyear : bool) (n : Z) : Z * Z :=
  let month := Z.shiftr (n + 50) 5 in
  let preceding :=
    DAYS_BEFORE_MONTH month + (if (2 <? month) && leapyear then 1 else 0) in
  if n <? preceding then
    let month := month - 1 in
    let preceding :=
      preceding
      - (DAYS_IN_MONTH month + (if (month =? 2) && leapyear then 1 else 0)) in
    (month, n - preceding + 1)
  else (month, n - preceding + 1).

(** A value a [datetime] can hold. *)
Definition valid_ord (n : Z) : Prop := 1 ≤ n ≤ MAXORD.

(** [dt + timedelta(days=k)]; [None] is Python's [OverflowError]. *)
Definition add_days (dt k : Z) : option Z :=
  let r := dt + k in
  if (1 <=? r) && (r <=? MAXORD) then Some r else None.

(** The value of an ASCII digit, and the digit of a value below ten. *)
Definition digit_val (c : ascii) : option Z :=
  let code := Z.of_nat (nat_of_ascii c) in
  if (48 <=? code) && (code <=? 57) then Some (code - 48) else None.

Definition digit_char (n : Z) : ascii :=
  ascii_of_nat (Z.to_nat (48 + n)).

(** The [%m] group of [strptime]: [1[0-2]|0[1-9]|[1-9]], followed by the
    literal [-] of the format.  Returns the month and what follows the
    dash. *)
Definition parse_month (l : list ascii) : option (Z * list ascii) :=
  match l with
  | c1 :: "-"%char :: rest =>
      m ← digit_val c1;
      if 1 <=? m then Some (m, rest) else None
  | c1 :: c2 :: "-"%char :: rest =>
      a ← digit_val c1;
      b ← digit_val c2;
      if (a =? 1) && (b <=? 2) then Some (10 + b, rest)
      else if (a =? 0) && (1 <=? b) then Some (b, rest)
      else None
  | _ => None
  end.

(** The [%d] group: [3[0-1]|[1-2]\d|0[1-9]|[1-9]| [1-9]]; nothing may
    follow it ("unconverted data remains" otherwise). *)
Definition parse_day (l : list ascii) : option Z :=
  match l with
  | [c1] =>
      d ← digit_val c1;
      if 1 <=? d then Some d else None
  | [" "%char; c2] =>
      d ← digit_val c2;
      if 1 <=? d then Some d else None
  | [c1; c2] =>
      a ← digit_val c1;
      b ← digit_val c2;
      if (a =? 3) && (b <=? 1) then Some (30 + b)
      else if (1 <=? a) && (a <=? 2) then Some (10 * a + b)
      else if (a =? 0) && (1 <=? b) then Some b
      else None
  | _ => None
  end.

(** [datetime.strptime(s, "%Y-%m-%d")] as an ordinal; [None] is its
    [ValueError] (no match, year 0, or a day the month does not have). *)
Definition strptime (s : string) : option Z :=
  match list_ascii_of_string s with
  | y1 :: y2 :: y3 :: y4 :: "-"%char :: rest =>
      a ← digit_val y1;
      b ← digit_val y2;
      c ← digit_val y3;
      d ← digit_val y4;
      '(m, rest') ← parse_month rest;
      day ← parse_day rest';
      let y := 1000 * a + 100 * b + 10 * c + d in
      if (MINYEAR <=? y) && (day <=? days_in_month y m)
      then Some (ymd2ord y m day) else None
  | _ => None
  end.

(** [%Y] as the C library prints it: decimal, not padded. *)
Definition fmt_year (y : Z) : list ascii :=
  if y <? 10 then [digit_char y]
  else if y <? 100 then [digit_char (y / 10); digit_char (y mod 10)]
  else if y <? 1000 then
    [digit_char (y / 100); digit_char (y / 10 mod 10); digit_char (y mod 10)]
  else
    [digit_char (y / 1000); digit_char (y / 100 mod 10);
     digit_char (y / 10 mod 10); digit_char (y mod 10)].

(** [%m] and [%d]: two digits, zero padded. *)
Definition fmt_2d (n : Z) : list ascii :=
  [digit_char (n / 10); digit_char (n mod 10)].

(** [dt.strftime("%Y-%m-%d")] *)
Definition strftime (dt : Z) : string :=
  let '(y, m, d) := ord2ymd dt in
  string_of_list_ascii
    (fmt_year y ++ "-"%char :: fmt_2d m ++ "-"%char :: fmt_2d d).

(** First day of the years with four digits: [date(1000,1,1).toordinal()]. *)
Definition ORD_Y1000 : Z := 364878.

(** [date(9999, 12, 1).toordinal()] *)
Definition ORD_DEC_9999 : Z := 3652029.

End PyDate.

(** ** Python's [str] methods used by the source *)

Module PyStr.

(** [str.isspace] on the ASCII range: TAB..CR, FS..US and the blank. *)
Definition is_space (c : ascii) : bool :=
  let n := nat_of_ascii c in
  ((9 <=? n)%nat && (n <=? 13)%nat) || ((28 <=? n)%nat && (n <=? 32)%nat).

Fixpoint lstrip_l (l : list ascii) : list ascii :=
  match l with
  | [] => []
  | c :: l' => if is_space c then lstrip_l l' else l
  end.

Fixpoint rstrip_l (l : list ascii) : list ascii :=
  match l with
  | [] => []
  | c :: l' =>
      match rstrip_l l' with
      | [] => if is_space c then [] else [c]
      | r => c :: r
      end
  end.

Definition strip_l (l : list ascii) : list ascii := rstrip_l (lstrip_l l).

(** [s.strip()] *)
Definition strip (s : string) : string :=
  string_of_list_ascii (strip_l (list_ascii_of_string s)).

Definition lower_char (c : ascii) : ascii :=
  let n := nat_of_ascii c in
  if (65 <=? n)%nat && (n <=? 90)%nat then ascii_of_nat (n + 32) else c.

(** [s.lower()] *)
Definition lower (s : string) : string :=
  string_of_list_ascii (map lower_char (list_ascii_of_string s)).

Fixpoint split_l (sep : ascii) (l : list ascii) : list (list ascii) :=
  match l with
  | [] => [[]]
  | c :: l' =>
      if Ascii.eqb c sep then [] :: split_l sep l'
      else match split_l sep l' with
           | h :: t => (c :: h) :: t
           | [] => [[c]]
           end
  end.

(** [s.split(sep)] for a one-character separator *)
Definition split (sep : ascii) (s : string) : list string :=
  map string_of_list_ascii (split_l sep (list_ascii_of_string s)).

(** [sep.join(parts)] *)
Fixpoint join (sep : string) (parts : list string) : string :=
  match parts with
  | [] => ""
  | [p] => p
  | p :: rest => p ++ sep ++ join sep rest
  end%string.

(** [l] without the prefix [pat], when it starts with it *)
Fixpoint strip_prefix (pat l : list ascii) : option (list ascii) :=
  match pat, l with
  | [], _ => Some l
  | p :: pat', c :: l' =>
      if Ascii.eqb p c then strip_prefix pat' l' else None
  | _ :: _, [] => None
  end.

(** What precedes and what follows the first occurrence of [pat] *)
Fixpoint find_sub (pat l : list ascii) : option (list ascii * list ascii) :=
  match strip_prefix pat l with
  | Some rest => Some ([], rest)
  | None =>
      match l with
      | [] => None
      | c :: l' =>
          match find_sub pat l' with
          | Some (pre, post) => Some (c :: pre, post)
          | None => None
          end
      end
  end.

(** [needle in hay] *)
Definition contains (needle hay : string) : bool :=
  match find_sub (list_ascii_of_string needle) (list_ascii_of_string hay) with
  | Some _ => true
  | None => false
  end.

Fixpoint find_l (c : ascii) (l : list ascii) : Z :=
  match l with
  | [] => -1
  | x :: l' =>
      if Ascii.eqb x c then 0
      else let r := find_l c l' in if r <? 0 then -1 else r + 1
  end.

Fixpoint rfind_l (c : ascii) (l : list ascii) : Z :=
  match l with
  | [] => -1
  | x :: l' =>
      let r := rfind_l c l' in
      if 0 <=? r then r + 1 else if Ascii.eqb x c then 0 else -1
  end.

(** [s.find(c)] and [s.rfind(c)] for a character [c]: -1 when absent *)
Definition find (c : ascii) (s : string) : Z :=
  find_l c (list_ascii_of_string s).
Definition rfind (c : ascii) (s : string) : Z :=
  rfind_l c (list_ascii_of_string s).

(** [s[start:stop]] for [0 <= start] *)
Definition slice (s : string) (start stop : Z) : string :=
  string_of_list_ascii
    (drop (Z.to_nat start) (take (Z.to_nat stop) (list_ascii_of_string s))).

(** [len(s)] *)
Definition len (s : string) : Z := Z.of_nat (String.length s).

(** Python truthiness of a [str] *)
Definition truthy (s : string) : bool :=
  match s with EmptyString => false | _ => true end.

(** [x or d] where [x] is a string or [None] *)
Definition or_else (x : option string) (d : string) : string :=
  match x with
  | Some s => if truthy s then s else d
  | None => d
  end.

End PyStr.

(** ** Numbers *)

Module PyNum.

Local Open Scope Q_scope.

(** Nearest integer, ties to the even one. *)
Definition round_half_even (q : Q) : Z :=
  let f := Qfloor q in
  match Qcompare (Qminus q (inject_Z f)) (1 # 2) with
  | Lt => f
  | Gt => (f + 1)%Z
  | Eq => if Z.even f then f else (f + 1)%Z
  end.

(** [round(x, 2)] *)
Definition round2 (q : Q) : Q :=
  Qmake (round_half_even (Qmult q (inject_Z 100))) 100.

(** The binade of a positive number: the floor of its binary logarithm. *)
Definition binade (q : Q) : Z :=
  let e0 := (Z.log2 (Qnum q) - Z.log2 (Zpos (Qden q)))%Z in
  if Qle_bool (2 ^ e0) q then e0 else (e0 - 1)%Z.

(** The binary64 number nearest to [q], ties to even: [q] rounded to 53
    significant bits.  It is what [float(q)] and every binary64 operation
    with the exact result [q] answer. *)
Definition fl (q : Q) : Q :=
  if Qeq_bool q 0 then 0
  else
    let ulp := 2 ^ (binade (Qabs q) - 52) in
    inject_Z (round_half_even (q / ulp)) * ulp.

(** [math.ceil(d / 30.0)] for a whole number of days [d] *)
Definition ceil_div30 (d : Z) : Z := (- ((- d) / 30))%Z.

Definition Qsum (l : list Q) : Q := foldr Qplus (inject_Z 0) l.

(** Nearest integer with at most 53 significant bits, ties to even: the
    rounding of a binary64 operation whose exact result is [p] units of
    some power of two. *)
Definition round53 (p : Z) : Z :=
  let shift := (Z.log2 p + 1 - 53)%Z in
  if (shift <=? 0)%Z then p
  else
    let q := Z.shiftr p shift in
    let r := Z.land p (Z.ones shift) in
    let half := Z.shiftl 1 (shift - 1) in
    let q' :=
      if (half <? r)%Z then (q + 1)%Z
      else if (r =? half)%Z && Z.odd q then (q + 1)%Z
      else q in
    Z.shiftl q' shift.

(** The binary64 literals [0.7] and [0.3], as [mant * 2^-expo]; [0.5] is
    exact. *)
Definition F07_mant : Z := 6305039478318694.
Definition F07_expo : Z := 53.
Definition F03_mant : Z := 5404319552844595.
Definition F03_expo : Z := 54.

(** [c > n * 0.7], [c < n * 0.7] and [c > n * 0.3] for [int]s [c] and [n],
    the product and the comparison as binary64 computes them. *)
Definition gt_mul_07 (c n : Z) : bool :=
  (round53 (n * F07_mant) <? c * 2 ^ F07_expo)%Z.
Definition lt_mul_07 (c n : Z) : bool :=
  (c * 2 ^ F07_expo <? round53 (n * F07_mant))%Z.
Definition gt_mul_03 (c n : Z) : bool :=
  (round53 (n * F03_mant) <? c * 2 ^ F03_expo)%Z.
Definition gt_mul_05 (c n : Z) : bool := (n <? 2 * c)%Z.

End PyNum.
(** ** The schedule normalizer and the cost aggregator: [clean_scope] *)

(** A field of a JSON object that holds a string when it holds anything. *)
Inductive jstr :=
  | JMissing
  | JNull
  | JStr (s : string).

#[global] Instance jstr_eq_dec : EqDecision jstr.
Proof. solve_decision. Defined.

(** [obj.get(key)]: [None] is Python's [None]. *)
Definition jget (f : jstr) : option string :=
  match f with
  | JStr s => Some s
  | _ => None
  end.

(** [obj.get(key, d)]: the default only stands in for a missing key. *)
Definition jget_default (f : jstr) (d : string) : option string :=
  match f with
  | JMissing => Some d
  | JNull => None
  | JStr s => Some s
  end.

(** An activity as it arrives, a JSON object with the keys of the schema. *)
Record activity_in := {
  in_Activities : jstr;
  in_Description : jstr;
  in_Owner : jstr;
  in_Resources : jstr;
  in_Start_Date : jstr;
  in_End_Date : jstr;
}.

(** The activity the first loop builds: its dates are still [datetime]s. *)
Record activity_dt := {
  dt_ID : nat;
  dt_Activities : string;
  dt_Description : string;
  dt_Owner : string;
  dt_Resources : string;
  dt_Start_Date : Z;
  dt_End_Date : Z;
  dt_Effort_Months : Q;
}.

(** The activity of the result: dates are formatted. *)
Record activity := {
  ID : nat;
  Activities : string;
  Description : string;
  Owner : string;
  Resources : string;
  Start_Date : string;
  End_Date : string;
  Effort_Months : Q;
}.

(** An entry of [resourcing_plan]; [pe_months] holds the values of the keys
    ["Month 1"] .. ["Month K"], in that order. *)
Record plan_entry := {
  pe_ID : nat;
  pe_Resources : string;
  pe_Rate : Q;
  pe_months : list Q;
  pe_Efforts : Q;
  pe_Cost : Q;
}.

(** The part of [data] that [clean_scope] reads: [discount_percentage] is
    [Some d] when the key holds a number. *)
Record scope_in := {
  activities : list activity_in;
  discount_percentage : option Q;
}.

(** The part of the result the properties are about;
    [out_discount_percentage] is its key [discount_percentage], read as that
    of [scope_in] is. *)
Record scope_out := {
  out_activities : list activity;
  out_resourcing_plan : list plan_entry;
  out_Duration : Q;
  out_discount_percentage : option Q;
}.

(** Default role rates (USD/month). *)
Definition ROLE_RATE_MAP : gmap string Q :=
  list_to_map
    [("Backend Developer", inject_Z 3000); ("Frontend Developer", inject_Z 2800);
     ("QA Analyst", inject_Z 1800); ("QA Engineer", inject_Z 2000);
     ("Data Engineer", inject_Z 2800); ("Data Analyst", inject_Z 2200);
     ("Data Architect", inject_Z 3500); ("UX Designer", inject_Z 2500);
     ("UI/UX Designer", inject_Z 2600); ("Project Manager", inject_Z 3500);
     ("Cloud Engineer", inject_Z 3000); ("BI Developer", inject_Z 2700);
     ("DevOps Engineer", inject_Z 3200);
     ("Security Administrator", inject_Z 3000);
     ("System Administrator", inject_Z 2800);
     ("Solution Architect", inject_Z 4000)]%string.

(** The rate of a role no table lists. *)
Definition DEFAULT_RATE : Q := inject_Z 2000.

Definition _parse_date_safe (val : option string) (fallback : Z) : Z :=
  match val with
  | None => fallback
  | Some v =>
      if PyStr.truthy v then default fallback (PyDate.strptime v) else fallback
  end.

Definition _safe_str (val : option string) : string :=
  match val with
  | Some v => PyStr.strip v
  | None => ""
  end.

(** *** Rate cards *)

Definition company_id := string.

Record RateCard := {
  role_name : string;
  monthly_rate : Q;
}.

(** What the two kinds of query of [get_rate_map_for_project] answer; [None]
    is a query that raises. *)
Record db_state := {
  db_rate_cards : company_id → option (list RateCard);
  db_sigmoid : option (option company_id);
}.

(** [{r.role_name: float(r.monthly_rate) for r in ratecards}] *)
Definition rate_dict (cards : list RateCard) : gmap string Q :=
  foldl (λ m r, <[role_name r := monthly_rate r]> m) ∅ cards.

(** [company] is [project.company_id], [None] when the project has none (or
    there is no project). *)
Definition get_rate_map_for_project
    (db : db_state) (company : option company_id) : gmap string Q :=
  let own :=
    match company with
    | Some c => db_rate_cards db c
    | None => Some []
    end in
  match own with
  | None => ROLE_RATE_MAP
  | Some (r :: rs) => rate_dict (r :: rs)
  | Some [] =>
      match db_sigmoid db with
      | None => ROLE_RATE_MAP
      | Some None => ROLE_RATE_MAP
      | Some (Some sigmoid) =>
          match db_rate_cards db sigmoid with
          | None => ROLE_RATE_MAP
          | Some [] => ROLE_RATE_MAP
          | Some sigmoid_rates => rate_dict sigmoid_rates
          end
      end
  end.

(** [ROLE_RATE_MAP_DYNAMIC] of [clean_scope]: [db] may be [None]. *)
Definition rate_map_dynamic
    (db : option db_state) (company : option company_id) : gmap string Q :=
  match db with
  | Some d => get_rate_map_for_project d company
  | None => ROLE_RATE_MAP
  end.

(** [ROLE_RATE_MAP_DYNAMIC.get(role, ROLE_RATE_MAP.get(role, 2000.0))] *)
Definition resolve_rate (dynamic : gmap string Q) (role : string) : Q :=
  default (default DEFAULT_RATE (ROLE_RATE_MAP !! role)) (dynamic !! role).

(** *** The first loop *)

Definition year_of (dt : Z) : Z := (PyDate.ord2ymd dt).1.1.
Definition month_of (dt : Z) : Z := (PyDate.ord2ymd dt).1.2.
Definition day_of (dt : Z) : Z := (PyDate.ord2ymd dt).2.

(** The loop of [month_effort]; a label ["%b %Y"] is the pair (year, month).
    [datetime(year + 1, 1, 1)] raises [ValueError] after December 9999. *)
Fixpoint month_effort_loop (fuel : nat) (s e cur : Z)
    (month_eff : gmap (Z * Z) Q) : option (gmap (Z * Z) Q) :=
  match fuel with
  | O => Some month_eff
  | S fuel' =>
      if cur <=? e then
        let year := year_of cur in
        let month := month_of cur in
        let days_in_month := PyDate.days_in_month year month in
        let start_day := if month =? month_of s then day_of cur else 1 in
        let end_day := if month =? month_of e then day_of e else days_in_month in
        let days_count := end_day - start_day + 1 in
        let month_eff :=
          <[(year, month) := PyNum.round2 (Qmake days_count 30)]> month_eff in
        if month =? 12 then
          if year + 1 <=? PyDate.MAXYEAR then
            month_effort_loop fuel' s e (PyDate.ymd2ord (year + 1) 1 1) month_eff
          else None
        else
          month_effort_loop fuel' s e (PyDate.ymd2ord year (month + 1) 1) month_eff
      else Some month_eff
  end.

(** Every turn of the loop moves [cur] forward, so [e - s + 2] turns are
    enough. *)
Definition month_effort (s e : Z) : option (gmap (Z * Z) Q) :=
  month_effort_loop (Z.to_nat (e - s + 2)) s e s ∅.

(** [[d.strip() for d in str(x or "").split(",") if d.strip()]] *)
Definition split_roles (x : string) : list string :=
  filter (λ d, PyStr.truthy d = true) (PyStr.strip <$> PyStr.split "," x).

Record loop_state := {
  ls_activities : list activity_dt;
  ls_start_dates : list Z;
  ls_end_dates : list Z;
  ls_role_month_map : gmap string (gmap (Z * Z) Q);
  ls_role_order : list string;
}.

Definition loop_init : loop_state :=
  {| ls_activities := []; ls_start_dates := []; ls_end_dates := [];
     ls_role_month_map := ∅; ls_role_order := [] |}.

(** The body of [for role in roles]. *)
Definition allocate_role (month_alloc : gmap (Z * Z) Q)
    (st : gmap string (gmap (Z * Z) Q) * list string) (role : string)
    : gmap string (gmap (Z * Z) Q) * list string :=
  let '(role_month_map, role_order) := st in
  let '(role_month_map, role_order) :=
    match role_month_map !! role with
    | None => (<[role := ∅]> role_month_map, role_order ++ [role])
    | Some _ => (role_month_map, role_order)
    end in
  (alter (λ months, union_with (λ old eff, Some (Qplus old eff)) months month_alloc)
     role role_month_map,
   role_order).

(** One turn of [for idx, a in enumerate(data.get("activities") or [], 1)]. *)
Definition process_activity (today : Z) (st : loop_state) (idx : nat)
    (a : activity_in) : option loop_state :=
  let owner := PyStr.or_else (jget (in_Owner a)) "Unassigned" in
  let raw_deps := split_roles (PyStr.or_else (jget (in_Resources a)) "") in
  let raw_deps :=
    filter (λ r, PyStr.lower r ≠ PyStr.lower owner) raw_deps in
  let roles := owner :: raw_deps in
  let s := _parse_date_safe (jget (in_Start_Date a)) today in
  fallback ← PyDate.add_days s 30;
  let e := _parse_date_safe (jget (in_End_Date a)) fallback in
  let e := if e <? s then fallback else e in
  month_alloc ← month_effort s e;
  let '(role_month_map, role_order) :=
    foldl (allocate_role month_alloc)
      (ls_role_month_map st, ls_role_order st) roles in
  let dur_days := Z.max 1 (e - s) in
  Some {|
    ls_activities :=
      ls_activities st ++
      [{| dt_ID := idx;
          dt_Activities := _safe_str (jget (in_Activities a));
          dt_Description := _safe_str (jget (in_Description a));
          dt_Owner := owner;
          dt_Resources := PyStr.join ", " raw_deps;
          dt_Start_Date := s;
          dt_End_Date := e;
          dt_Effort_Months := PyNum.round2 (Qmake dur_days 30) |}];
    ls_start_dates := ls_start_dates st ++ [s];
    ls_end_dates := ls_end_dates st ++ [e];
    ls_role_month_map := role_month_map;
    ls_role_order := role_order;
  |}.

Fixpoint process_activities (today : Z) (st : loop_state) (idx : nat)
    (l : list activity_in) : option loop_state :=
  match l with
  | [] => Some st
  | a :: l' =>
      st' ← process_activity today st idx a;
      process_activities today st' (S idx) l'
  end.

(** *** Sorting and renumbering *)

(** [activities.sort(key=lambda x: x["Start Date"])]: Python's sort is
    stable, and a stable sort has one result. *)
Fixpoint insert_by_start (a : activity_dt) (l : list activity_dt)
    : list activity_dt :=
  match l with
  | [] => [a]
  | b :: l' =>
      if dt_Start_Date a <=? dt_Start_Date b then a :: l
      else b :: insert_by_start a l'
  end.

Definition sort_by_start (l : list activity_dt) : list activity_dt :=
  foldr insert_by_start [] l.

(** The body of [for idx, a in enumerate(activities, start=1)]. *)
Definition renumber (i : nat) (a : activity_dt) : activity :=
  {| ID := S i;
     Activities := dt_Activities a;
     Description := dt_Description a;
     Owner := dt_Owner a;
     Resources := dt_Resources a;
     Start_Date := PyDate.strftime (dt_Start_Date a);
     End_Date := PyDate.strftime (dt_End_Date a);
     Effort_Months := dt_Effort_Months a |}.

(** *** Project span *)

(** [min(l) if l else d] and [max(l) if l else d] *)
Definition min_or (l : list Z) (d : Z) : Z :=
  match l with
  | [] => d
  | x :: l' => foldl Z.min x l'
  end.

Definition max_or (l : list Z) (d : Z) : Z :=
  match l with
  | [] => d
  | x :: l' => foldl Z.max x l'
  end.

(** [max(1, math.ceil((max_end - min_start).days / 30.0))] *)
Definition total_months_of (min_start max_end : Z) : nat :=
  Z.to_nat (Z.max 1 (PyNum.ceil_div30 (max_end - min_start))).

(** [max(1.0, round(max(1, (max_end - min_start).days) / 30.0, 2))] *)
Definition duration_of (min_start max_end : Z) : Q :=
  let months := PyNum.round2 (Qmake (Z.max 1 (max_end - min_start)) 30) in
  if Qle_bool months (inject_Z 1) then inject_Z 1 else months.

(** *** Day usage per role and relative month *)

(** The days an activity [s..e] shares with the window [rel_start..rel_end];
    both ends count. *)
Definition overlap_days (s e rel_start rel_end : Z) : Z :=
  let overlap_start := Z.max s rel_start in
  let overlap_end := Z.min e rel_end in
  if overlap_start <=? overlap_end then overlap_end - overlap_start + 1 else 0.

(** [{m: 0.0 for m in month_labels}]: one cell per label ["Month i"], kept in
    label order; cell [m_idx] is the label ["Month (m_idx + 1)"]. *)
Definition zero_months (total_months : nat) : list Z := replicate total_months 0.

(** [{r: {m: 0.0 for m in month_labels} for r in role_order}] *)
Definition usage_init (total_months : nat) (role_order : list string)
    : gmap string (list Z) :=
  list_to_map ((λ r, (r, zero_months total_months)) <$> role_order).

(** The body of [for r in involved_roles]. *)
Definition add_usage (total_months m_idx : nat) (days : Z)
    (role_month_usage : gmap string (list Z)) (r : string)
    : gmap string (list Z) :=
  let role_month_usage :=
    match role_month_usage !! r with
    | None => <[r := zero_months total_months]> role_month_usage
    | Some _ => role_month_usage
    end in
  alter (alter (λ d, d + days) m_idx) r role_month_usage.

(** [for m_idx in range(total_months)], over the indices still to visit. *)
Fixpoint usage_of_months (total_months : nat) (min_start s e : Z)
    (involved_roles : list string) (m_idxs : list nat)
    (role_month_usage : gmap string (list Z)) : option (gmap string (list Z)) :=
  match m_idxs with
  | [] => Some role_month_usage
  | m_idx :: rest =>
      rel_start ← PyDate.add_days min_start (Z.of_nat m_idx * 30);
      rel_end ← PyDate.add_days min_start ((Z.of_nat m_idx + 1) * 30);
      let days := overlap_days s e rel_start rel_end in
      let role_month_usage :=
        if 0 <? days
        then foldl (add_usage total_months m_idx days) role_month_usage
               involved_roles
        else role_month_usage in
      usage_of_months total_months min_start s e involved_roles rest
        role_month_usage
  end.

(** One turn of [for act in activities]: the dates are parsed back from the
    formatted activity. *)
Definition usage_of_activity (today : Z) (total_months : nat) (min_start : Z)
    (role_month_usage : gmap string (list Z)) (act : activity)
    : option (gmap string (list Z)) :=
  let s := _parse_date_safe (Some (Start_Date act)) today in
  fallback ← PyDate.add_days s 30;
  let e := _parse_date_safe (Some (End_Date act)) fallback in
  let e := if e <? s then fallback else e in
  let involved_roles :=
    PyStr.or_else (Some (Owner act)) "Unassigned"
    :: split_roles (PyStr.or_else (Some (Resources act)) "") in
  usage_of_months total_months min_start s e involved_roles
    (seq 0 total_months) role_month_usage.

Fixpoint usage_of_activities (today : Z) (total_months : nat) (min_start : Z)
    (role_month_usage : gmap string (list Z)) (acts : list activity)
    : option (gmap string (list Z)) :=
  match acts with
  | [] => Some role_month_usage
  | act :: rest =>
      u ← usage_of_activity today total_months min_start role_month_usage act;
      usage_of_activities today total_months min_start u rest
  end.

(** *** Quantization: days to effort, the 4-tier partial-month rule *)

Definition quantize (days : Z) : Q :=
  if 21 <? days then inject_Z 1
  else if (15 <=? days) && (days <=? 21) then Qmake 3 4
  else if (8 <=? days) && (days <? 15) then Qmake 1 2
  else if (1 <=? days) && (days <? 8) then Qmake 1 4
  else inject_Z 0.

(** *** The resourcing plan *)

(** The body of [for idx, role in enumerate(role_order, start=1)]. *)
Definition build_entry (total_months : nat)
    (role_month_usage : gmap string (list Q)) (dynamic : gmap string Q)
    (i : nat) (role : string) : plan_entry :=
  let month_efforts :=
    default (replicate total_months (inject_Z 0)) (role_month_usage !! role) in
  let total_effort := PyNum.Qsum month_efforts in
  let rate := resolve_rate dynamic role in
  let cost := PyNum.round2 (PyNum.fl (Qmult total_effort (PyNum.fl rate))) in
  {| pe_ID := S i; pe_Resources := role; pe_Rate := rate;
     pe_months := month_efforts; pe_Efforts := total_effort; pe_Cost := cost |}.

(** [discount_percentage and isinstance(discount_percentage, (int, float))
    and discount_percentage > 0] *)
Definition discount_in_force (d : option Q) : option Q :=
  match d with
  | Some q => if Qle_bool q (inject_Z 0) then None else Some q
  | None => None
  end.

(** [discount_multiplier = 1 - (discount_percentage / 100.0)] *)
Definition multiplier_of (discount : Q) : Q :=
  PyNum.fl (Qminus (inject_Z 1)
              (PyNum.fl (Qdiv (PyNum.fl discount) (inject_Z 100)))).

(** [plan_entry["Cost"] = round(original_cost * discount_multiplier, 2)] *)
Definition apply_discount (discount : Q) (entry : plan_entry) : plan_entry :=
  let discount_multiplier := multiplier_of discount in
  {| pe_ID := pe_ID entry; pe_Resources := pe_Resources entry;
     pe_Rate := pe_Rate entry; pe_months := pe_months entry;
     pe_Efforts := pe_Efforts entry;
     pe_Cost :=
       PyNum.round2
         (PyNum.fl (Qmult (PyNum.fl (pe_Cost entry)) discount_multiplier)) |}.

(** *** [clean_scope]

    [today] is the current date in Asia/Kolkata, [dynamic] the rate map
    [get_rate_map_for_project] answered (or [ROLE_RATE_MAP]).  The overview
    texts are copied from the input or the project and are not modelled.
    The function answers the dictionary it was given, so the key
    [discount_percentage] holds what it held on entry, in force or not. *)
Definition clean_scope_with (today : Z) (dynamic : gmap string Q)
    (data : scope_in) : option scope_out :=
  st ← process_activities today loop_init 1 (activities data);
  let acts := imap renumber (sort_by_start (ls_activities st)) in
  let min_start := min_or (ls_start_dates st) today in
  let max_end := max_or (ls_end_dates st) min_start in
  let duration := duration_of min_start max_end in
  let total_months := total_months_of min_start max_end in
  role_month_usage ←
    usage_of_activities today total_months min_start
      (usage_init total_months (ls_role_order st)) acts;
  let role_month_usage := fmap (M := gmap string) (fmap quantize) role_month_usage in
  let resourcing_plan :=
    imap (build_entry total_months role_month_usage dynamic) (ls_role_order st) in
  let resourcing_plan :=
    match discount_in_force (discount_percentage data) with
    | Some d => apply_discount d <$> resourcing_plan
    | None => resourcing_plan
    end in
  Some {| out_activities := acts;
          out_resourcing_plan := resourcing_plan;
          out_Duration := duration;
          out_discount_percentage := discount_percentage data |}.

Definition clean_scope (today : Z) (db : option db_state)
    (company : option company_id) (data : scope_in) : option scope_out :=
  clean_scope_with today (rate_map_dynamic db company) data.

(** The result read back as a draft: what [clean_scope] receives when it is
    handed a scope it produced. *)
Definition to_input (a : activity) : activity_in :=
  {| in_Activities := JStr (Activities a);
     in_Description := JStr (Description a);
     in_Owner := JStr (Owner a);
     in_Resources := JStr (Resources a);
     in_Start_Date := JStr (Start_Date a);
     in_End_Date := JStr (End_Date a) |}.

Definition to_scope_in (out : scope_out) : scope_in :=
  {| activities := to_input <$> out_activities out;
     discount_percentage := out_discount_percentage out |}.

(** The role-month allocation a plan records for a role. *)
Definition allocation (plan : list plan_entry) (role : string)
    : option (list Q) :=
  pe_months <$> head (filter (λ entry, pe_Resources entry = role) plan).

(** ** The model's answer: extraction and guards *)

(** The text-generation endpoint, as the queue of its future answers; [None]
    is a request that fails.  [ollama_chat] takes one answer per call. *)
Definition ollama_chat (llm : list (option string))
    : string * list (option string) :=
  match llm with
  | Some response :: rest => (PyStr.strip response, rest)
  | None :: rest => (""%string, rest)
  | [] => (""%string, [])
  end.

(** What [generate_project_scope] returns: the empty dictionary or a scope. *)
Inductive gen_result :=
  | Empty
  | Scope (s : scope_out).

Definition fence : list ascii := ["`"; "`"; "`"]%char.

(** The optional [json] tag after the opening fence ([re.IGNORECASE]). *)
Definition skip_json_tag (l : list ascii) : list ascii :=
  match l with
  | c1 :: c2 :: c3 :: c4 :: rest =>
      if String.eqb
           (PyStr.lower (string_of_list_ascii [c1; c2; c3; c4])) "json"
      then rest else l
  | _ => l
  end.

(** [re.search(r"```(?:json)?(.*?)```", s, DOTALL | IGNORECASE)]: the text
    between the first fence (and its tag) and the next one; [s] itself when
    there is no such pair. *)
Definition _strip_code_fences (s : string) : string :=
  match PyStr.find_sub fence (list_ascii_of_string s) with
  | None => s
  | Some (_, after) =>
      match PyStr.find_sub fence (skip_json_tag after) with
      | Some (content, _) => string_of_list_ascii content
      | None => s
      end
  end.

(** [updated_scope.get("discount_percentage")] is falsy *)
Definition discount_falsy (d : option Q) : bool :=
  match d with
  | None => true
  | Some q => Qeq_bool q (inject_Z 0)
  end.

(** [act.get('Owner', '').lower() in ['unassigned', '']] *)
Definition owner_unassigned (act : activity_in) : option bool :=
  owner ← jget_default (in_Owner act) "";
  let o := PyStr.lower owner in
  Some (String.eqb o "unassigned" || String.eqb o "").

(** [not act.get('Description', '').strip()] *)
Definition description_empty (act : activity_in) : option bool :=
  desc ← jget_default (in_Description act) "";
  Some (negb (PyStr.truthy (PyStr.strip desc))).

(** The test of the content guard of [generate_project_scope], with the
    short circuit of [or]; [None] is an [AttributeError]. *)
Definition empty_fields (act : activity_in) : option bool :=
  name ← jget_default (in_Activities act) "";
  if negb (PyStr.truthy (PyStr.strip name)) then Some true
  else
    e ← description_empty act;
    if (e : bool) then Some true else owner_unassigned act.

(** [sum(1 for act in acts if test(act))]; the first exception ends it. *)
Fixpoint count_if (test : activity_in → option bool) (acts : list activity_in)
    : option Z :=
  match acts with
  | [] => Some 0
  | act :: rest =>
      b ← test act;
      n ← count_if test rest;
      Some (if (b : bool) then n + 1 else n)
  end.

(** The content guard: more than 70% of the activities are garbage. *)
Definition content_guard (acts : list activity_in) : option bool :=
  match acts with
  | [] => Some false
  | _ =>
      empty_fields_count ← count_if empty_fields acts;
      Some (PyNum.gt_mul_07 empty_fields_count (Z.of_nat (length acts)))
  end.

Definition common_roles : list string :=
  ["project manager"; "business analyst"; "data architect"; "data engineer";
   "backend developer"; "frontend developer"; "qa engineer"; "devops engineer";
   "cloud architect"; "data analyst"; "ux designer"]%string.

(** [act.get('Activities', '').lower().strip() in common_roles] *)
Definition role_name_activity (act : activity_in) : option bool :=
  name ← jget_default (in_Activities act) "";
  Some (bool_decide (PyStr.strip (PyStr.lower name) ∈ common_roles)).

(** [(act.get('Start Date'), act.get('End Date'))] *)
Definition date_pair (act : activity_in) : option string * option string :=
  (jget (in_Start_Date act), jget (in_End_Date act)).

(** [len(set(dates)) == 1] *)
Definition one_date_pair (acts : list activity_in) : bool :=
  match acts with
  | [] => false
  | act :: rest =>
      forallb (λ b, bool_decide (date_pair b = date_pair act)) rest
  end.

(** [activities_are_valid] of [regenerate_from_instructions]. *)
Definition activities_are_valid (acts : list activity_in) : option bool :=
  match acts with
  | [] => Some true
  | _ =>
      let new_activity_count := Z.of_nat (length acts) in
      unassigned_count ← count_if owner_unassigned acts;
      empty_desc_count ← count_if description_empty acts;
      role_name_activities ← count_if role_name_activity acts;
      Some (negb (PyNum.gt_mul_05 unassigned_count new_activity_count)
            && negb (PyNum.gt_mul_05 empty_desc_count new_activity_count)
            && negb (PyNum.gt_mul_03 role_name_activities new_activity_count)
            && negb (one_date_pair acts && (1 <? new_activity_count)))
  end.

(** The regression guard: too few activities without a removal instruction,
    or activities that are not valid. *)
Definition regression_guard (original_activity_count new_activity_count : Z)
    (is_removal_instruction valid : bool) : bool :=
  (PyNum.lt_mul_07 new_activity_count original_activity_count
   && negb is_removal_instruction)
  || negb valid.

Definition set_owner (act : activity_in) (owner : string) : activity_in :=
  {| in_Activities := in_Activities act; in_Description := in_Description act;
     in_Owner := JStr owner; in_Resources := in_Resources act;
     in_Start_Date := in_Start_Date act; in_End_Date := in_End_Date act |}.

Definition set_resources (act : activity_in) (res : string) : activity_in :=
  {| in_Activities := in_Activities act; in_Description := in_Description act;
     in_Owner := in_Owner act; in_Resources := JStr res;
     in_Start_Date := in_Start_Date act; in_End_Date := in_End_Date act |}.

(** The post-processing of one activity when a role is to be removed. *)
Definition remove_role (role_to_remove : string) (act : activity_in)
    : option activity_in :=
  owner ← jget_default (in_Owner act) "";
  let act :=
    if String.eqb (PyStr.lower owner) role_to_remove
       || PyStr.contains role_to_remove (PyStr.lower owner)
    then
      match jget_default (in_Resources act) "" with
      | Some resources =>
          if PyStr.truthy resources && PyStr.truthy (PyStr.strip resources)
          then
            let parts := PyStr.split "," resources in
            let new_owner := PyStr.strip (hd ""%string parts) in
            let remaining_resources :=
              filter (λ r, PyStr.truthy r = true) (PyStr.strip <$> tail parts) in
            set_resources (set_owner act new_owner)
              (PyStr.join ", " remaining_resources)
          else set_owner act "Project Manager"
      | None => set_owner act "Project Manager"
      end
    else act in
  Some
    match jget (in_Resources act) with
    | Some res =>
        if PyStr.truthy res then
          let resources_list := split_roles res in
          let filtered_resources :=
            filter (λ r, ¬ (PyStr.contains role_to_remove (PyStr.lower r) = true)
                         ∧ PyStr.lower r ≠ role_to_remove) resources_list in
          if bool_decide (length filtered_resources ≠ length resources_list)
          then set_resources act (PyStr.join ", " filtered_resources)
          else act
        else act
    | None => act
    end.

Section Response.

(** [json.loads] and the reading of its value as a scope are the library's
    and the schema's: [json_loads] answers [None] when it raises, [view]
    reads a value as the dictionary the callers expect and answers [None]
    when the value is not one ([raw.get] raises). *)
Variable json : Type.
Variable json_loads : string → option json.
Variable empty_dict : json.
Variable view : json → option scope_in.

(** The two regular-expression searches of the post-processing, on the
    lowered instructions: group 1 of [remove_pattern], and the integer of
    the first of [discount_patterns] that matches. *)
Variable remove_pattern_search : string → option string.
Variable discount_patterns_search : string → option Z.

Definition _extract_json (s : string) : json :=
  let raw := _strip_code_fences s in
  match json_loads (PyStr.strip raw) with
  | Some v => v
  | None =>
      let start := PyStr.find "{" raw in
      let end_ := PyStr.rfind "}" raw in
      if (0 <=? start) && (start <? end_) then
        match json_loads (PyStr.slice raw start (end_ + 1)) with
        | Some v => v
        | None => empty_dict
        end
      else empty_dict
  end.

(** [generate_project_scope] from the call of the model on: one call, the
    length test, the extraction, the content guard, [clean_scope]; then, for
    an answer that got this far, [generate_architecture], which asks the
    model once more, for the diagram: [_generate_dot_from_ai] calls
    [ollama_chat], which raises nothing, so it is one call, and its answer
    goes into the diagram, not into the scope.  Every exception of this part
    is caught and answered by the empty result.  The project record, the
    diagram and the stored files are not modelled. *)
Definition generate_project_scope (today : Z) (db : option db_state)
    (company : option company_id) (llm : list (option string))
    : gen_result * list (option string) :=
  let '(raw_text, llm) := ollama_chat llm in
  if negb (PyStr.truthy raw_text) || (PyStr.len (PyStr.strip raw_text) <? 50)
  then (Empty, llm)
  else
    let raw := _extract_json raw_text in
    match view raw with
    | None => (Empty, llm)
    | Some data =>
        match content_guard (activities data) with
        | None => (Empty, llm)
        | Some true => (Empty, llm)
        | Some false =>
            match clean_scope today db company data with
            | Some cleaned_scope =>
                let '(dot_code, llm) := ollama_chat llm in
                (Scope cleaned_scope, llm)
            | None => (Empty, llm)
            end
        end
    end.

(** The [try] block of [regenerate_from_instructions] after the call of the
    model; [None] is an exception, which the [except] clause answers. *)
Definition regenerate_try (today : Z) (db : option db_state)
    (company : option company_id) (draft : scope_in) (instructions : string)
    (raw_text : string) : option scope_out :=
  updated_scope ← view (_extract_json raw_text);
  let original_activity_count := Z.of_nat (length (activities draft)) in
  let new_activity_count := Z.of_nat (length (activities updated_scope)) in
  let lowered := PyStr.lower instructions in
  let is_removal_instruction :=
    PyStr.contains "remove" lowered || PyStr.contains "delete" lowered in
  valid ← activities_are_valid (activities updated_scope);
  let acts :=
    if regression_guard original_activity_count new_activity_count
         is_removal_instruction valid
    then activities draft
    else activities updated_scope in
  (* the log of the roles calls [role.lower()] on every owner *)
  _ ← (if PyStr.contains "remove" lowered
          && existsb (λ act, bool_decide (in_Owner act = JNull)) acts
       then None else Some ());
  acts ←
    (if PyStr.contains "remove" lowered then
       match acts, remove_pattern_search lowered with
       | _ :: _, Some group1 => mapM (remove_role (PyStr.strip group1)) acts
       | _, _ => Some acts
       end
     else Some acts);
  let discount :=
    match discount_patterns_search lowered with
    | Some d =>
        if discount_falsy (discount_percentage updated_scope)
        then Some (inject_Z d)
        else discount_percentage updated_scope
    | None => discount_percentage updated_scope
    end in
  let acts := match acts with [] => activities draft | _ => acts end in
  clean_scope today db company
    {| activities := acts; discount_percentage := discount |}.

(** [regenerate_from_instructions], up to [cleaned].  When the guard has
    put the draft's own list in [updated_scope], the post-processing edits
    the draft's activities too; the [except] clause then sees them edited,
    but only their dates decide whether [clean_scope] raises, and those are
    not edited. *)
Definition regenerate_from_instructions (today : Z) (db : option db_state)
    (company : option company_id) (draft : scope_in) (instructions : string)
    (llm : list (option string)) : option scope_out * list (option string) :=
  if negb (PyStr.truthy instructions)
     || negb (PyStr.truthy (PyStr.strip instructions))
  then (clean_scope today db company draft, llm)
  else
    let '(raw_text, llm) := ollama_chat llm in
    match regenerate_try today db company draft instructions raw_text with
    | Some cleaned => (Some cleaned, llm)
    | None => (clean_scope today db company draft, llm)
    end.

End Response.

(** ** Views used to state the properties

    What one turn of the first loop computes from an activity alone. *)

Definition owner_of (a : activity_in) : string :=
  PyStr.or_else (jget (in_Owner a)) "Unassigned".

Definition raw_deps_of (a : activity_in) : list string :=
  filter (λ r, PyStr.lower r ≠ PyStr.lower (owner_of a))
    (split_roles (PyStr.or_else (jget (in_Resources a)) "")).

Definition roles_of (a : activity_in) : list string :=
  owner_of a :: raw_deps_of a.

Definition start_of (today : Z) (a : activity_in) : Z :=
  _parse_date_safe (jget (in_Start_Date a)) today.

Definition end_of (today : Z) (a : activity_in) : Z :=
  let s := start_of today a in
  let e := _parse_date_safe (jget (in_End_Date a)) (s + 30) in
  if e <? s then s + 30 else e.

Definition dt_of (today : Z) (idx : nat) (a : activity_in) : activity_dt :=
  {| dt_ID := idx;
     dt_Activities := _safe_str (jget (in_Activities a));
     dt_Description := _safe_str (jget (in_Description a));
     dt_Owner := owner_of a;
     dt_Resources := PyStr.join ", " (raw_deps_of a);
     dt_Start_Date := start_of today a;
     dt_End_Date := end_of today a;
     dt_Effort_Months :=
       PyNum.round2 (Qmake (Z.max 1 (end_of today a - start_of today a)) 30) |}.

(** The dates the development covers: years of four digits, which
    [strftime] prints in full, and an end before December 9999, past which
    [month_effort] raises. *)
Definition supported (today : Z) (a : activity_in) : Prop :=
  PyDate.ORD_Y1000 ≤ start_of today a ∧ end_of today a < PyDate.ORD_DEC_9999.

(** [role_order] after a role has been met. *)
Definition add_role (role_order : list string) (r : string) : list string :=
  if bool_decide (r ∈ role_order) then role_order else role_order ++ [r].

(** A role name as [split_roles] yields it: stripped, not empty, without a
    comma. *)
Definition role_ok (d : string) : Prop :=
  PyStr.strip d = d ∧ PyStr.truthy d = true
  ∧ ","%char ∉ list_ascii_of_string d.

(** The second pass on an activity whose dates are known. *)
Definition usage_of_dt (total_months : nat) (min_start : Z)
    (role_month_usage : gmap string (list Z)) (a : activity_dt)
    : option (gmap string (list Z)) :=
  usage_of_months total_months min_start (dt_Start_Date a) (dt_End_Date a)
    (dt_Owner a :: split_roles (dt_Resources a)) (seq 0 total_months)
    role_month_usage.

(** [role_order] lists exactly the keys of [role_month_map]. *)
Definition keys_are (role_month_map : gmap string (gmap (Z * Z) Q))
    (role_order : list string) : Prop :=
  ∀ r, is_Some (role_month_map !! r) ↔ r ∈ role_order.

(** An activity as the first loop leaves it. *)
Definition normal_dt (a : activity_dt) : Prop :=
  PyStr.strip (dt_Activities a) = dt_Activities a
  ∧ PyStr.strip (dt_Description a) = dt_Description a
  ∧ PyStr.truthy (dt_Owner a) = true
  ∧ (∃ deps, Forall role_ok deps
             ∧ Forall (λ r, PyStr.lower r ≠ PyStr.lower (dt_Owner a)) deps
             ∧ dt_Resources a = PyStr.join ", " deps)
  ∧ PyDate.ORD_Y1000 ≤ dt_Start_Date a
  ∧ dt_Start_Date a ≤ dt_End_Date a
  ∧ dt_End_Date a < PyDate.ORD_DEC_9999
  ∧ dt_Effort_Months a
    = PyNum.round2 (Qmake (Z.max 1 (dt_End_Date a - dt_Start_Date a)) 30).

Definition set_dt_ID (idx : nat) (a : activity_dt) : activity_dt :=
  {| dt_ID := idx; dt_Activities := dt_Activities a;
     dt_Description := dt_Description a; dt_Owner := dt_Owner a;
     dt_Resources := dt_Resources a; dt_Start_Date := dt_Start_Date a;
     dt_End_Date := dt_End_Date a; dt_Effort_Months := dt_Effort_Months a |}.

(** The order [sort_by_start] establishes. *)
Definition start_le (a b : activity_dt) : Prop :=
  dt_Start_Date a ≤ dt_Start_Date b.

Fixpoint usage_of_dts (total_months : nat) (min_start : Z)
    (role_month_usage : gmap string (list Z)) (l : list activity_dt)
    : option (gmap string (list Z)) :=
  match l with
  | [] => Some role_month_usage
  | a :: rest =>
      u ← usage_of_dt total_months min_start role_month_usage a;
      usage_of_dts total_months min_start u rest
  end.

(** The activities, the role order and the project span the first loop
    arrives at. *)
Definition first_pass (today : Z) (l : list activity_in) : list activity_dt :=
  imap (λ i, dt_of today (1 + i)) l.

Definition role_order_of (l : list activity_in) : list string :=
  foldl add_role [] (concat (roles_of <$> l)).

Definition min_start_of (today : Z) (l : list activity_in) : Z :=
  min_or (start_of today <$> l) today.

Definition max_end_of (today : Z) (l : list activity_in) : Z :=
  max_or (end_of today <$> l) (min_start_of today l).

Definition months_of (today : Z) (l : list activity_in) : nat :=
  total_months_of (min_start_of today l) (max_end_of today l).

(** The accumulated day counts: the second pass over the sorted
    activities. *)
Definition day_usage (today : Z) (l : list activity_in)
    : option (gmap string (list Z)) :=
  usage_of_dts (months_of today l) (min_start_of today l)
    (usage_init (months_of today l) (role_order_of l))
    (sort_by_start (first_pass today l)).

(** The plan built from given day counts. *)
Definition plan_of (total_months : nat) (usage : gmap string (list Z))
    (dynamic : gmap string Q) (discount : option Q) (role_order : list string)
    : list plan_entry :=
  let quantized := fmap (M := gmap string) (fmap quantize) usage in
  let plan := imap (build_entry total_months quantized dynamic) role_order in
  match discount_in_force discount with
  | Some d => apply_discount d <$> plan
  | None => plan
  end.

(** The entry of the plan for the role at position [i] of the role order. *)
Definition entry_of (total_months : nat) (usage : gmap string (list Z))
    (dynamic : gmap string Q) (discount : option Q) (i : nat) (role : string)
    : plan_entry :=
  let entry :=
    build_entry total_months (fmap (M := gmap string) (fmap quantize) usage)
      dynamic i role in
  match discount_in_force discount with
  | Some d => apply_discount d entry
  | None => entry
  end.

(** The day counts of a role, month by month; zeros for a role the second
    pass never met. *)
Definition days_of (total_months : nat) (usage : gmap string (list Z))
    (role : string) : list Z :=
  default (zero_months total_months) (usage !! role).

(** The cost the source computes for an effort, a rate and a discount. *)
Definition cost_of (total_effort rate : Q) (discount : option Q) : Q :=
  let cost := PyNum.round2 (PyNum.fl (Qmult total_effort (PyNum.fl rate))) in
  match discount_in_force discount with
  | Some d => PyNum.round2 (PyNum.fl (Qmult (PyNum.fl cost) (multiplier_of d)))
  | None => cost
  end.

(** The cost formula of the specification,
    [round(total_effort * rate * (1 - discount/100), 2)], read as Python
    evaluates it, in binary64 from left to right, and read in exact
    arithmetic. *)
Definition spec_cost (total_effort rate discount : Q) : Q :=
  PyNum.round2
    (PyNum.fl (Qmult (PyNum.fl (Qmult total_effort (PyNum.fl rate)))
                 (multiplier_of discount))).

Definition spec_cost_exact (total_effort rate discount : Q) : Q :=
  PyNum.round2
    (Qmult (Qmult total_effort rate)
       (Qminus (inject_Z 1) (Qdiv discount (inject_Z 100)))).

(** ** Scenarios *)

Definition activity_of (name owner resources start_date end_date : string)
    : activity_in :=
  {| in_Activities := JStr name; in_Description := JStr "work";
     in_Owner := JStr owner; in_Resources := JStr resources;
     in_Start_Date := JStr start_date; in_End_Date := JStr end_date |}.

(** The end-to-end scenario of the specification: activities A and B. *)
Definition two_activities : scope_in :=
  {| activities :=
       [activity_of "A" "Backend Developer" "QA Engineer"
          "2025-01-01" "2025-01-31";
        activity_of "B" "QA Engineer" "" "2025-01-20" "2025-02-20"];
     discount_percentage := None |}.

Definition two_activities_discounted : scope_in :=
  {| activities := activities two_activities;
     discount_percentage := Some (inject_Z 10) |}.

(** 2025-01-01 *)
Definition a_today : Z := 739252.

(** What [clean_scope] answers on the scenario with the built-in rates. *)
Definition two_activities_out : scope_out :=
  Eval vm_compute in
    default {| out_activities := []; out_resourcing_plan := [];
               out_Duration := inject_Z 0; out_discount_percentage := None |}
      (clean_scope_with a_today ROLE_RATE_MAP two_activities).

Definition two_activities_discounted_out : scope_out :=
  Eval vm_compute in
    default {| out_activities := []; out_resourcing_plan := [];
               out_Duration := inject_Z 0; out_discount_percentage := None |}
      (clean_scope_with a_today ROLE_RATE_MAP two_activities_discounted).

(** An activity without an owner. *)
Definition unassigned_scope : scope_in :=
  {| activities :=
       [activity_of "Kick-off" "" "QA Engineer" "2025-03-01" "2025-03-20"];
     discount_percentage := None |}.

Definition unassigned_out : scope_out :=
  Eval vm_compute in
    default {| out_activities := []; out_resourcing_plan := [];
               out_Duration := inject_Z 0; out_discount_percentage := None |}
      (clean_scope_with a_today ROLE_RATE_MAP unassigned_scope).

(** Three activities out of order: the second starts last, the third has an
    end before its start and no owner. *)
Definition unsorted_scope : scope_in :=
  {| activities :=
       [activity_of "Build" "Backend Developer" "QA Engineer, Backend Developer"
          "2025-02-10" "not a date";
        activity_of "Test" "QA Engineer" "Backend Developer"
          "2025-03-01" "2025-03-20";
        activity_of "Plan" "" " Project Manager ,, QA Engineer"
          "2025-01-01" "2024-12-01"];
     discount_percentage := None |}.

Definition unsorted_out : scope_out :=
  Eval vm_compute in
    default {| out_activities := []; out_resourcing_plan := [];
               out_Duration := inject_Z 0; out_discount_percentage := None |}
      (clean_scope_with a_today ROLE_RATE_MAP unsorted_scope).

(** An activity in the year 999, whose dates [strftime] writes with three
    digits, and one that ends in December 9999, past which there is no
    month. *)
Definition early_scope : scope_in :=
  {| activities :=
       [activity_of "Survey" "Data Analyst" "" "0999-01-01" "0999-01-31"];
     discount_percentage := None |}.



(** [data] with another discount. *)
Definition with_discount (data : scope_in) (d : option Q) : scope_in :=
  {| activities := activities data; discount_percentage := d |}.

(** A five-day activity of a role whose rate card has cents, with a 10%
    discount. *)
Definition cents_db : db_state :=
  {| db_rate_cards := λ c,
       if String.eqb c "acme"
       then Some [{| role_name := "Data Scientist";
                     monthly_rate := Qmake 300025 100 |}]
       else Some [];
     db_sigmoid := Some None |}.

Definition cents_scope : scope_in :=
  {| activities :=
       [activity_of "Model review" "Data Scientist" ""
          "2025-01-01" "2025-01-05"];
     discount_percentage := Some (inject_Z 10) |}.

(** A rate card that names the role "Unassigned". *)
Definition unassigned_db : db_state :=
  {| db_rate_cards := λ c,
       if String.eqb c "acme"
       then Some [{| role_name := "Unassigned";
                     monthly_rate := inject_Z 5000 |}]
       else Some [];
     db_sigmoid := Some None |}.

(** The rate cards of the project's own organization and of Sigmoid, as
    [get_rate_map_for_project] finds them; no cards when there is no such
    organization. *)
Definition own_cards (db : db_state) (company : option company_id)
    : option (list RateCard) :=
  match company with
  | Some c => db_rate_cards db c
  | None => Some []
  end.

Definition sigmoid_cards (db : db_state) : option (list RateCard) :=
  match db_sigmoid db with
  | Some (Some sigmoid) => db_rate_cards db sigmoid
  | Some None => Some []
  | None => None
  end.

(** What [_parse_date_safe] makes of a field before the fallback. *)
Definition parsed (f : jstr) : option Z :=
  match jget f with
  | Some v => if PyStr.truthy v then PyDate.strptime v else None
  | None => None
  end.

(** Every role of the usage map has one cell per month. *)
Definition month_cells (total_months : nat) (usage : gmap string (list Z))
    : Prop :=
  ∀ r cells, usage !! r = Some cells → length cells = total_months.

(** The effort units. *)
Definition effort_units : list Q :=
  [inject_Z 0; Qmake 1 4; Qmake 1 2; Qmake 3 4; inject_Z 1].

(** The result of the first run, read back as input. *)
Definition second_input (today : Z) (l : list activity_in) : list activity_in :=
  to_input <$> imap renumber (sort_by_start (first_pass today l)).

(** A stand-in for [json.loads] in examples: it accepts a text in braces
    and answers the text itself. *)
Definition braces_loads (s : string) : option string :=
  match list_ascii_of_string s with
  | "{"%char :: rest =>
      match rev rest with
      | "}"%char :: _ => Some s
      | _ => None
      end
  | _ => None
  end.

Definition backtick : ascii := "`"%char.

(** An answer in code fences, with backticks before its first fence, a tag
    in capitals and words around the braces. *)
Definition stray_answer : string :=
  "Run `it`: ```JSON see {a: 1} here ``` bye".

(** Words for a text with code fences: a text without a fence; a text
    that the first fence can follow, which has no fence and does not end in
    a backtick; the tag [json] in any case of letters; a text that does not
    begin with the tag. *)
Definition no_fence (l : list ascii) : Prop :=
  ∀ l1 l2, l ≠ l1 ++ fence ++ l2.

Definition before_fence (l : list ascii) : Prop :=
  no_fence l ∧ last l ≠ Some backtick.

Definition json_tag (tag : list ascii) : Prop :=
  PyStr.lower (string_of_list_ascii tag) = "json"%string.

Definition untagged (body : list ascii) : Prop :=
  ∀ tag l, body = tag ++ l → ¬ json_tag tag.

(** ** The guards, as the specification words them *)

(** Garbage for the content guard: an owner that is empty (or absent), the
    owner "unassigned" in any case of letters, or a description that is
    empty or blank (or absent). *)
Definition spec_garbage (act : activity_in) : bool :=
  match in_Owner act with
  | JStr owner =>
      String.eqb owner "" || String.eqb (PyStr.lower owner) "unassigned"
  | _ => true
  end
  || match in_Description act with
     | JStr desc => negb (PyStr.truthy (PyStr.strip desc))
     | _ => true
     end.

Definition spec_garbage_count (acts : list activity_in) : Z :=
  Z.of_nat (length (List.filter spec_garbage acts)).

(** Degenerate activities for the regression guard, the shares taken
    exactly: all of several activities on the same dates, more than 30% of
    them named after a role, more than half without an owner, more than half
    without a description. *)
Definition spec_degenerate (acts : list activity_in) : Prop :=
  let n := Z.of_nat (length acts) in
  (one_date_pair acts = true ∧ 1 < n)
  ∨ (∃ c, count_if role_name_activity acts = Some c ∧ 3 * n < 10 * c)
  ∨ (∃ c, count_if owner_unassigned acts = Some c ∧ n < 2 * c)
  ∨ (∃ c, count_if description_empty acts = Some c ∧ n < 2 * c).

(** The discount [regenerate_from_instructions] hands to [clean_scope]: the
    one of the answer, or the one found in the instructions when the answer
    has none. *)
Definition regenerated_discount (found : option Z) (answered : option Q)
    : option Q :=
  match found with
  | Some d => if discount_falsy answered then Some (inject_Z d) else answered
  | None => answered
  end.

(** ** Scenarios of the guards *)

Definition empty_scope : scope_in :=
  {| activities := []; discount_percentage := None |}.

(** A stand-in for [json.loads] in examples: every text reads as [v]. *)
Definition fixed_loads (v : scope_in) (_ : string) : option scope_in := Some v.

(** No match, for the two searches of the instructions. *)
Definition no_match {A : Type} (_ : string) : option A := None.

Definition long_answer : string :=
  "{ a scope of four activities, three of them without content }".

(** Four activities, three of them garbage. *)
Definition garbage_scope : scope_in :=
  {| activities :=
       [activity_of "Design" "Data Architect" "" "2025-01-01" "2025-01-20";
        {| in_Activities := JStr "Build"; in_Description := JStr "";
           in_Owner := JStr "Backend Developer"; in_Resources := JStr "";
           in_Start_Date := JStr "2025-01-21";
           in_End_Date := JStr "2025-02-20" |};
        {| in_Activities := JStr "Test"; in_Description := JStr "Test it";
           in_Owner := JStr "Unassigned"; in_Resources := JStr "";
           in_Start_Date := JStr "2025-02-21";
           in_End_Date := JStr "2025-03-20" |};
        {| in_Activities := JStr "Release"; in_Description := JStr "Ship it";
           in_Owner := JMissing; in_Resources := JStr "";
           in_Start_Date := JStr "2025-03-21";
           in_End_Date := JStr "2025-04-20" |}];
     discount_percentage := None |}.

(** A plan of ten activities, one after the other. *)
Definition ten_activities : scope_in :=
  {| activities :=
       [activity_of "Initiation" "Project Manager" "Business Analyst"
          "2025-01-01" "2025-01-14";
        activity_of "Requirements" "Business Analyst" "Project Manager"
          "2025-01-15" "2025-01-31";
        activity_of "Architecture" "Data Architect" "Cloud Engineer"
          "2025-02-01" "2025-02-14";
        activity_of "Ingestion" "Data Engineer" ""
          "2025-02-15" "2025-03-10";
        activity_of "Services" "Backend Developer" "Data Engineer"
          "2025-03-01" "2025-04-15";
        activity_of "Screens" "Frontend Developer" "UX Designer"
          "2025-03-15" "2025-04-30";
        activity_of "Dashboards" "BI Developer" "Data Analyst"
          "2025-04-01" "2025-05-10";
        activity_of "Testing" "QA Engineer" "Backend Developer"
          "2025-05-01" "2025-05-31";
        activity_of "Deployment" "DevOps Engineer" "Cloud Engineer"
          "2025-06-01" "2025-06-14";
        activity_of "Handover" "Project Manager" "QA Engineer"
          "2025-06-15" "2025-06-30"];
     discount_percentage := None |}.

Definition ten_activities_out : scope_out :=
  Eval vm_compute in
    default {| out_activities := []; out_resourcing_plan := [];
               out_Duration := inject_Z 0; out_discount_percentage := None |}
      (clean_scope_with a_today ROLE_RATE_MAP ten_activities).

(** Three activities named after roles, owned by roles, all on the same
    dates. *)
Definition degenerate_answer : scope_in :=
  {| activities :=
       [activity_of "Project Manager" "Project Manager" ""
          "2025-01-01" "2025-03-31";
        activity_of "Data Engineer" "Data Engineer" ""
          "2025-01-01" "2025-03-31";
        activity_of "QA Engineer" "QA Engineer" ""
          "2025-01-01" "2025-03-31"];
     discount_percentage := None |}.

(** Two activities on the same dates, and a discount of 10%. *)
Definition discounting_answer : scope_in :=
  {| activities :=
       [activity_of "Build" "Backend Developer" "" "2025-01-01" "2025-01-31";
        activity_of "Test" "QA Engineer" "" "2025-01-01" "2025-01-31"];
     discount_percentage := Some (inject_Z 10) |}.

(** ** Views for further properties *)

(** What an activity of the result says, its ID apart. *)
Definition content_of (act : activity)
    : string * string * string * string * string * string * Q :=
  (Activities act, Description act, Owner act, Resources act,
   Start_Date act, End_Date act, Effort_Months act).

(** What [clean_scope] makes of an activity of the input, its ID apart. *)
Definition normalized (today : Z) (a : activity_in)
    : string * string * string * string * string * string * Q :=
  content_of (renumber 0 (dt_of today 0 a)).

(** Three activities, the first the latest; the other two start on the same
    day. *)
Definition same_day_scope : scope_in :=
  {| activities :=
       [activity_of "Review" "QA Engineer" "" "2025-02-01" "2025-02-20";
        activity_of "Build" "Backend Developer" "" "2025-01-01" "2025-01-20";
        activity_of "Design" "UX Designer" "" "2025-01-01" "2025-01-10"];
     discount_percentage := None |}.

Definition same_day_out : scope_out :=
  Eval vm_compute in
    default {| out_activities := []; out_resourcing_plan := [];
               out_Duration := inject_Z 0; out_discount_percentage := None |}
      (clean_scope_with a_today ROLE_RATE_MAP same_day_scope).

(** The scenario of the two activities under a discount of 150%. *)
Definition over_discounted_out : scope_out :=
  Eval vm_compute in
    default {| out_activities := []; out_resourcing_plan := [];
               out_Duration := inject_Z 0; out_discount_percentage := None |}
      (clean_scope_with a_today ROLE_RATE_MAP
         {| activities := activities two_activities;
            discount_percentage := Some (inject_Z 150) |}).

(** A stand-in for [json.loads] in examples: no text is read (the empty
    text never is). *)
Definition failing_loads (_ : string) : option scope_in := None.

(** ** File names of the exports: [app/routers/exports.py] *)

(** The class [[a-zA-Z0-9_-]]. *)
Definition is_name_char (c : ascii) : bool :=
  let n := nat_of_ascii c in
  ((97 <=? n)%nat && (n <=? 122)%nat) || ((65 <=? n)%nat && (n <=? 90)%nat)
  || ((48 <=? n)%nat && (n <=? 57)%nat) || (n =? 95)%nat || (n =? 45)%nat.

(** [re.sub(r"[^a-zA-Z0-9_-]+", "_", s)]: every maximal run of characters
    outside the class becomes one underscore; [in_run] says that the
    character before [l] was outside the class. *)
Fixpoint sub_runs (in_run : bool) (l : list ascii) : list ascii :=
  match l with
  | [] => []
  | c :: l' =>
      if is_name_char c then c :: sub_runs false l'
      else if in_run then sub_runs true l'
      else "_"%char :: sub_runs true l'
  end.

(** [name] is [None] for Python's [None]. *)
Definition _safe_filename (name : option string) : string :=
  string_of_list_ascii
    (sub_runs false
       (list_ascii_of_string
          (PyStr.lower (PyStr.strip (PyStr.or_else name ""))))).

(** ** Retrieval of the knowledge base: [_rag_retrieve]

    A point as Qdrant answers it: [str(r.id)], the keys of the payload that
    are read (all missing when the point has no payload; the payload holds
    texts), and the score. *)
Record point := {
  pt_id : string;
  pt_chunk_id : jstr;
  pt_parent_id : jstr;
  pt_chunk : jstr;
  pt_title : jstr;
  pt_score : Q;
}.

(** An entry of [hits]; [None] is Python's [None]. *)
Record hit := {
  hit_id : option string;
  hit_parent_id : option string;
  hit_content : option string;
  hit_title : option string;
  hit_score : Q;
}.

(** A chunk of a group of the result. *)
Record kb_chunk := {
  ch_id : option string;
  ch_content : option string;
  ch_title : option string;
  ch_score : Q;
}.

Definition hit_of (r : point) : hit :=
  {| hit_id := jget_default (pt_chunk_id r) (pt_id r);
     hit_parent_id := jget (pt_parent_id r);
     hit_content := jget_default (pt_chunk r) "";
     hit_title := jget_default (pt_title r) "";
     hit_score := pt_score r |}.

Definition chunk_of (h : hit) : kb_chunk :=
  {| ch_id := hit_id h; ch_content := hit_content h; ch_title := hit_title h;
     ch_score := hit_score h |}.

(** [grouped.setdefault(k, []).append(v)] on a dictionary kept as the list
    of its items, in insertion order. *)
Fixpoint setdefault_append {K V : Type} `{EqDecision K} (k : K) (v : V)
    (grouped : list (K * list V)) : list (K * list V) :=
  match grouped with
  | [] => [(k, [v])]
  | (k', vs) :: rest =>
      if decide (k = k') then (k', vs ++ [v]) :: rest
      else (k', vs) :: setdefault_append k v rest
  end.

(** [d.get(k)] on such a dictionary. *)
Fixpoint items_get {K V : Type} `{EqDecision K} (k : K)
    (grouped : list (K * V)) : option V :=
  match grouped with
  | [] => None
  | (k', v) :: rest => if decide (k = k') then Some v else items_get k rest
  end.

(** The loop [for h in hits] and the list built from [grouped.items()]. *)
Definition group_hits (hits : list hit) : list (option string * list kb_chunk) :=
  foldl (λ grouped h, setdefault_append (hit_parent_id h) (chunk_of h) grouped)
    [] hits.

Section Retrieval.

(** The numbers of an embedding are not looked at.  [search] is
    [get_qdrant_client()] and [client.search] on the vector; [None] when
    one of them raises. *)
Variable scalar : Type.
Variable search : list scalar → option (list point).

(** [q_emb_list] is what [embed_text_ollama([query])] answers. *)
Definition _rag_retrieve (q_emb_list : list (list scalar))
    : list (option string * list kb_chunk) :=
  match q_emb_list with
  | [] => []
  | [] :: _ => []
  | q_emb :: _ =>
      match search q_emb with
      | Some results => group_hits (hit_of <$> results)
      | None => []
      end
  end.

End Retrieval.

(** ** The token budget of [generate_project_scope] *)

Definition context_limit : Z := 128000.
Definition max_total_tokens : Z := context_limit - 4000.

Section Tokens.

(** The tokenizer ([tiktoken], [cl100k_base]). *)
Variable token : Type.
Variable encode : string → list token.

(** [rfp_tokens = tokenizer.encode(rfp_text or "")], cut to its first
    [limit] tokens. *)
Definition trim_rfp (limit : nat) (rfp_text : string) : list token :=
  let rfp_tokens := encode rfp_text in
  if (limit <? length rfp_tokens)%nat then take limit rfp_tokens
  else rfp_tokens.

(** [for ch in group["chunks"]]: the chunks kept, the tokens used and the
    flag [stop]; [None] is the [TypeError] of [tokenizer.encode] on a
    content that is [None]. *)
Fixpoint kb_inner (used_tokens : Z) (kb_chunks : list string)
    (chunks : list kb_chunk) : option (list string * Z * bool) :=
  match chunks with
  | [] => Some (kb_chunks, used_tokens, false)
  | ch :: rest =>
      content ← ch_content ch;
      let chunk_tokens := Z.of_nat (length (encode content)) in
      if max_total_tokens <? used_tokens + chunk_tokens
      then Some (kb_chunks, used_tokens, true)
      else kb_inner (used_tokens + chunk_tokens) (kb_chunks ++ [content]) rest
  end.

(** [for group in kb_results] *)
Fixpoint kb_outer (used_tokens : Z) (kb_chunks : list string)
    (kb_results : list (option string * list kb_chunk))
    : option (list string * Z) :=
  match kb_results with
  | [] => Some (kb_chunks, used_tokens)
  | group :: rest =>
      '(kb_chunks, used_tokens, stop) ←
        kb_inner used_tokens kb_chunks group.2;
      if (stop : bool) then Some (kb_chunks, used_tokens)
      else kb_outer used_tokens kb_chunks rest
  end.

(** The budget of [generate_project_scope]: the tokens of the RFP text that
    are kept, the chunks of the knowledge base that are kept, the tokens
    used. *)
Definition scope_budget (rfp_text : string)
    (kb_results : list (option string * list kb_chunk))
    : option (list token * list string * Z) :=
  let rfp_tokens := trim_rfp 5000 rfp_text in
  let used_tokens := 0 + Z.of_nat (length rfp_tokens) in
  '(kb_chunks, used_tokens) ← kb_outer used_tokens [] kb_results;
  Some (rfp_tokens, kb_chunks, used_tokens).

(** The tokens of texts. *)
Definition tokens_of (texts : list string) : Z :=
  foldr Z.add 0 ((λ t, Z.of_nat (length (encode t))) <$> texts).

(** The contents of all the chunks retrieved, in order. *)
Definition contents_of (kb_results : list (option string * list kb_chunk))
    : list (option string) :=
  ch_content <$> concat (snd <$> kb_results).

End Tokens.

(** Two groups of chunks, as [_rag_retrieve] answers them. *)
Definition kb_example : list (option string * list kb_chunk) :=
  [(Some "doc-1"%string,
    [{| ch_id := Some "c1"%string; ch_content := Some "Use Spark"%string;
        ch_title := Some "Engines"%string; ch_score := Qmake 9 10 |};
     {| ch_id := Some "c3"%string; ch_content := Some "Use Airflow"%string;
        ch_title := Some "Engines"%string; ch_score := Qmake 7 10 |}]);
   (None,
    [{| ch_id := Some "c2"%string; ch_content := Some "SQL"%string;
        ch_title := Some ""%string; ch_score := Qmake 8 10 |}])].

(** ** Views of the second pass *)

(** The day count of a role in the relative month [m_idx] (from 0). *)
Definition cell (total_months : nat) (usage : gmap string (list Z))
    (role : string) (m_idx : nat) : Z :=
  default 0 (days_of total_months usage role !! m_idx).

(** The window of the relative month [m_idx]: [rel_start] and [rel_end]. *)
Definition rel_start (min_start : Z) (m_idx : nat) : Z :=
  min_start + Z.of_nat m_idx * 30.
Definition rel_end (min_start : Z) (m_idx : nat) : Z :=
  min_start + (Z.of_nat m_idx + 1) * 30.

(** How many times a role is listed among the roles of an activity. *)
Definition listed (role : string) (roles : list string) : Z :=
  Z.of_nat (length (filter (λ r, r = role) roles)).

Definition Zsum (l : list Z) : Z := foldr Z.add 0 l.

(** The days the activities give a role in a relative month: for each
    activity, its days in the window, once for each time it lists the
    role. *)
Definition days_given (today min_start : Z) (role : string) (m_idx : nat)
    (l : list activity_in) : Z :=
  Zsum ((λ a, listed role (roles_of a)
              * overlap_days (start_of today a) (end_of today a)
                  (rel_start min_start m_idx) (rel_end min_start m_idx))
          <$> l).

(** The days of [s..e] that the windows of all the months count. *)
Definition window_days (total_months : nat) (min_start s e : Z) : Z :=
  Zsum ((λ m_idx, overlap_days s e (rel_start min_start m_idx)
                    (rel_end min_start m_idx))
          <$> seq 0 total_months).

(** The limits between two windows that fall within [s..e]. *)
Definition shared_limits (total_months : nat) (min_start s e : Z) : Z :=
  Z.of_nat
    (length (filter (λ m_idx, s ≤ rel_start min_start m_idx ≤ e)
               (seq 1 (total_months - 1)))).

(** ** The budget of [_build_scope_prompt] *)

Section Prompt.

Variable token : Type.
Variable encode : string → list token.
Variable decode : list token → string.

(** [for ch in kb_chunks or []]: the chunks kept and the tokens used. *)
Fixpoint safe_chunks (used_tokens : Z) (safe_kb_chunks kb_chunks : list string)
    : list string * Z :=
  match kb_chunks with
  | [] => (safe_kb_chunks, used_tokens)
  | ch :: rest =>
      let tokens := encode ch in
      if max_total_tokens <? used_tokens + Z.of_nat (length tokens)
      then (safe_kb_chunks, used_tokens)
      else safe_chunks (used_tokens + Z.of_nat (length tokens))
             (safe_kb_chunks ++ [ch]) rest
  end.

(** The head of [_build_scope_prompt]: the RFP text of the prompt, the
    chunks of the prompt, the tokens used. *)
Definition prompt_budget (rfp_text : string) (kb_chunks : list string)
    : string * list string * Z :=
  let rfp_tokens := trim_rfp token encode 3000 rfp_text in
  let rfp_text := decode rfp_tokens in
  let used_tokens := 0 + Z.of_nat (length rfp_tokens) in
  let '(safe_kb_chunks, used_tokens) := safe_chunks used_tokens [] kb_chunks in
  (rfp_text, safe_kb_chunks, used_tokens).

End Prompt.

(** ** JSON values *)

(** What [json.loads] answers.  A number is the value it has in Python (not
    a NaN, not an infinity); a dict is the list of its items in insertion
    order. *)
#[warnings="-register-all"]
Inductive jsonv : Type :=
  | JsNull
  | JsBool (b : bool)
  | JsNum (n : Q)
  | JsStr (s : string)
  | JsList (l : list jsonv)
  | JsDict (d : list (string * jsonv)).

#[global] Instance Q_eq_dec : EqDecision Q.
Proof. solve_decision. Defined.

(** The truth value of a JSON value. *)
Definition js_truthy (v : jsonv) : bool :=
  match v with
  | JsNull => false
  | JsBool b => b
  | JsNum n => negb (Qeq_bool n (inject_Z 0))
  | JsStr s => PyStr.truthy s
  | JsList l => match l with [] => false | _ => true end
  | JsDict d => match d with [] => false | _ => true end
  end.

(** [isinstance(v, dict)] *)
Definition is_dict (v : jsonv) : bool :=
  match v with JsDict _ => true | _ => false end.

(** [v.get(key, dflt)]; [None] is the [AttributeError] of a value that is
    not a dict. *)
Definition py_get (key : string) (dflt : jsonv) (v : jsonv) : option jsonv :=
  match v with
  | JsDict d => Some (default dflt (items_get key d))
  | _ => None
  end.

(** [for x in v]: the elements of a list, the keys of a dict, the
    characters of a str; [None] is the [TypeError] of the other values. *)
Definition py_iter (v : jsonv) : option (list jsonv) :=
  match v with
  | JsList l => Some l
  | JsDict d => Some (JsStr <$> d.*1)
  | JsStr s => Some ((λ c, JsStr (String c "")) <$> list_ascii_of_string s)
  | _ => None
  end.

(** [v.strip()]; [None] is the [AttributeError] of a value that is not a
    str. *)
Definition py_strip (v : jsonv) : option string :=
  match v with
  | JsStr s => Some (PyStr.strip s)
  | _ => None
  end.

(** [d[key] = v] *)
Fixpoint items_set {V : Type} (key : string) (v : V)
    (d : list (string * V)) : list (string * V) :=
  match d with
  | [] => [(key, v)]
  | (k, x) :: rest =>
      if decide (key = k) then (k, v) :: rest
      else (k, x) :: items_set key v rest
  end.

(** The dict [d] after the value it holds for [key], if any, has become
    [v]. *)
Fixpoint items_alter {V : Type} (key : string) (v : V)
    (d : list (string * V)) : list (string * V) :=
  match d with
  | [] => []
  | (k, x) :: rest =>
      if decide (key = k) then (k, v) :: rest
      else (k, x) :: items_alter key v rest
  end.

(** A value as the key of a dict: [None], a number ([True] is 1 and [False]
    is 0, and equal numbers are one key), or a str; a list or a dict is
    not hashable. *)
Inductive jkey :=
  | KNull
  | KNum (n : Q)
  | KStr (s : string).

#[global] Instance jkey_eq_dec : EqDecision jkey.
Proof. solve_decision. Defined.

Definition key_of (v : jsonv) : option jkey :=
  match v with
  | JsNull => Some KNull
  | JsBool b => Some (KNum (if b then inject_Z 1 else inject_Z 0))
  | JsNum n => Some (KNum (Qred n))
  | JsStr s => Some (KStr s)
  | JsList _ | JsDict _ => None
  end.

(** [d.get(k)] on a dict whose keys are strings; the outer [None] is the
    [TypeError] of a key that is not hashable. *)
Definition str_keys_get {V : Type} (k : jsonv) (d : list (string * V))
    : option (option V) :=
  match k with
  | JsStr s => Some (items_get s d)
  | JsList _ | JsDict _ => None
  | _ => Some None
  end.

(** ** The questionnaire: [_extract_questions_from_text] *)

Definition nl : string := String "010"%char "".

(** [{"question": que, "user_understanding": "", "comment": ""}] *)
Definition question_item (que : jsonv) : jsonv :=
  JsDict [("question"%string, que);
          ("user_understanding"%string, JsStr "");
          ("comment"%string, JsStr "")].

(** [{"category": c, "items": lst}] *)
Definition category_dict (c : jsonv) (lst : list jsonv) : jsonv :=
  JsDict [("category"%string, c); ("items"%string, JsList lst)].

(** *** The lines of a text *)

(** The characters at which [str.splitlines] breaks a line: LF, VT, FF, CR,
    FS, GS and RS. *)
Definition is_line_break (c : ascii) : bool :=
  let n := nat_of_ascii c in
  ((10 <=? n)%nat && (n <=? 13)%nat) || ((28 <=? n)%nat && (n <=? 30)%nat).

(** [s.splitlines()]: CR LF is one break, and a break at the end of the
    text opens no new line. *)
Fixpoint splitlines_l (l : list ascii) : list (list ascii) :=
  match l with
  | [] => []
  | c :: l' =>
      if is_line_break c then
        [] :: (if Ascii.eqb c "013"
               then match l' with
                    | c' :: l'' =>
                        if Ascii.eqb c' "010" then splitlines_l l''
                        else splitlines_l l'
                    | [] => splitlines_l l'
                    end
               else splitlines_l l')
      else match splitlines_l l' with
           | line :: lines => (c :: line) :: lines
           | [] => [[c]]
           end
  end.

Fixpoint drop_while (p : ascii → bool) (l : list ascii) : list ascii :=
  match l with
  | [] => []
  | c :: l' => if p c then drop_while p l' else l
  end.

(** [s.strip(chars)] for the characters that [p] accepts. *)
Definition strip_by (p : ascii → bool) (l : list ascii) : list ascii :=
  rev (drop_while p (rev (drop_while p l))).

Definition is_hash (c : ascii) : bool := Ascii.eqb c "#".
Definition is_upper (c : ascii) : bool :=
  let n := nat_of_ascii c in (65 <=? n)%nat && (n <=? 90)%nat.
Definition is_alpha (c : ascii) : bool :=
  let n := nat_of_ascii c in
  is_upper c || ((97 <=? n)%nat && (n <=? 122)%nat).
Definition is_digit (c : ascii) : bool :=
  let n := nat_of_ascii c in (48 <=? n)%nat && (n <=? 57)%nat.

(** The class [[A-Za-z\s&/]]. *)
Definition is_heading_char (c : ascii) : bool :=
  is_alpha c || PyStr.is_space c || Ascii.eqb c "&" || Ascii.eqb c "/".

(** The class [[\).\s]]. *)
Definition is_number_sep (c : ascii) : bool :=
  Ascii.eqb c ")" || Ascii.eqb c "." || PyStr.is_space c.

(** The characters of [": "]. *)
Definition is_colon_blank (c : ascii) : bool :=
  Ascii.eqb c ":" || Ascii.eqb c " ".

(** [re.sub(r"^#+\s*", "", line)] *)
Definition sub_hashes (line : list ascii) : list ascii :=
  match line with
  | c :: _ =>
      if is_hash c then PyStr.lstrip_l (drop_while is_hash line) else line
  | [] => []
  end.

(** The [re.match] of the heading pattern on a line that does not end in a
    line feed (it is stripped).  The pattern is: at the start, optionally
    one or more hashes and the blanks that follow; a capital letter; one or
    more characters of the class [[A-Za-z\s&/]]; optionally a colon; the
    end. *)
Definition heading_match (line : list ascii) : bool :=
  match sub_hashes line with
  | c :: rest =>
      let name :=
        match rev rest with
        | last :: front => if Ascii.eqb last ":" then rev front else rest
        | [] => rest
        end in
      is_upper c
      && match name with [] => false | _ => forallb is_heading_char name end
  | [] => false
  end.

(** [line.endswith("?")] *)
Definition ends_with_qmark (line : list ascii) : bool :=
  match rev line with
  | c :: _ => Ascii.eqb c "?"
  | [] => false
  end.

(** ["?" in line] *)
Definition has_qmark (line : list ascii) : bool :=
  existsb (λ c, Ascii.eqb c "?") line.

(** [re.sub(r"^#+\s*", "", line).strip(": ").strip()] *)
Definition heading_name (line : list ascii) : string :=
  string_of_list_ascii
    (PyStr.strip_l (strip_by is_colon_blank (sub_hashes line))).

(** [re.sub(r"^\d+[\).\s]+", "", line)] *)
Definition sub_number (line : list ascii) : list ascii :=
  match line with
  | c :: _ =>
      if is_digit c then
        match drop_while is_digit line with
        | s :: rest =>
            if is_number_sep s then drop_while is_number_sep rest else line
        | [] => line
        end
      else line
  | [] => []
  end.

(** [re.sub(r"^\d+[\).\s]+", "", line).strip()] *)
Definition question_text (line : list ascii) : string :=
  string_of_list_ascii (PyStr.strip_l (sub_number line)).

(** One turn of [for line in raw_text.splitlines()], on [current_cat] and
    [grouped]. *)
Definition line_step (st : string * list (string * list jsonv))
    (line : list ascii) : string * list (string * list jsonv) :=
  let '(current_cat, grouped) := st in
  let line := PyStr.strip_l line in
  match line with
  | [] => st
  | _ =>
      if heading_match line && negb (ends_with_qmark line)
      then (heading_name line, grouped)
      else if has_qmark line
      then (current_cat,
            setdefault_append current_cat
              (question_item (JsStr (question_text line))) grouped)
      else st
  end.

(** The fallback of [_extract_questions_from_text]: the raw text, line by
    line. *)
Definition questions_from_lines (raw_text : string) : list jsonv :=
  let '(_, grouped) :=
    foldl line_step ("General"%string, [])
      (splitlines_l (list_ascii_of_string raw_text)) in
  (λ g : string * list jsonv, category_dict (JsStr g.1) g.2) <$> grouped.

(** *** The JSON of the answer *)

Section Questions.

Variable json_loads : string → option jsonv.

(** [str(v)] of a value that is not a str. *)
Variable py_repr : jsonv → string.

(** [str(v)], and [v] in an f-string. *)
Definition py_str (v : jsonv) : string :=
  match v with
  | JsStr s => s
  | _ => py_repr v
  end.

(** An item of a nested category; [None] when [i.get] raises. *)
Definition nested_item (i : jsonv) : option jsonv :=
  question ← py_get "question" (JsStr "") i;
  user_understanding ← py_get "user_understanding" (JsStr "") i;
  comment ← py_get "comment" (JsStr "") i;
  Some (JsDict [("question"%string, question);
                ("user_understanding"%string, user_understanding);
                ("comment"%string, comment)]).

(** A nested category; [None] when its items cannot be gone through. *)
Definition nested_category (cat : jsonv) : option jsonv :=
  category ← py_get "category" (JsStr "General") cat;
  items ← py_get "items" (JsList []) cat ≫= py_iter;
  items ← mapM nested_item items;
  Some (category_dict category items).

(** A question of a flat list: the key of its category, the category and
    the item; [None] when the category is not hashable. *)
Definition flat_entry (q : jsonv) : option (jkey * (jsonv * jsonv)) :=
  let cat :=
    match q with
    | JsDict d => default (JsStr "General") (items_get "category" d)
    | _ => JsStr "General"
    end in
  let que :=
    match q with
    | JsDict d => default q (items_get "question" d)
    | _ => JsStr (py_str q)
    end in
  key ← key_of cat;
  Some (key, (cat, question_item que)).

(** A group of the flat list as a category: the dict keeps the key that
    came first, the category of the first question of the group. *)
Definition flat_category (g : jkey * list (jsonv * jsonv)) : jsonv :=
  category_dict (default JsNull (fst <$> head g.2)) (snd <$> g.2).

Definition flat_questions (qdata : list jsonv) : option (list jsonv) :=
  entries ← mapM flat_entry qdata;
  Some (flat_category
          <$> foldl (λ grouped e, setdefault_append e.1 e.2 grouped) []
                entries).

(** The [try] block on the parsed answer: [Some] is what it returns, [None]
    when it raises or returns nothing, and the raw text is read line by
    line. *)
Definition structured_questions (parsed : jsonv) : option (list jsonv) :=
  match parsed with
  | JsDict d =>
      match items_get "questions"%string d with
      | Some (JsList qdata) =>
          if forallb is_dict qdata then
            match qdata with
            | JsDict first :: _ =>
                if bool_decide (is_Some (items_get "items"%string first))
                then mapM nested_category qdata
                else flat_questions qdata
            | _ => None
            end
          else None
      | _ => None
      end
  | JsList l =>
      Some [category_dict (JsStr "General")
              ((λ q, question_item (JsStr (py_str q))) <$> l)]
  | _ => None
  end.

Definition _extract_questions_from_text (raw_text : string) : list jsonv :=
  match structured_questions
          (_extract_json jsonv json_loads (JsDict []) raw_text) with
  | Some questions => questions
  | None => questions_from_lines raw_text
  end.

(** *** The answers of the user: [update_questions_with_user_input] *)

(** [user_answers.get(cat_name, {}).get(q_text) if
    user_answers.get(cat_name) else None]; [None] when it raises. *)
Definition answer_for (user_answers : list (string * jsonv))
    (cat_name q_text : jsonv) : option jsonv :=
  for_cat ← str_keys_get cat_name user_answers;
  match for_cat with
  | Some answers =>
      if js_truthy answers then
        match answers with
        | JsDict d =>
            ans ← str_keys_get q_text d;
            Some (default JsNull ans)
        | _ => None
        end
      else Some JsNull
  | None => Some JsNull
  end.

(** The body of [for item in cat.get("items", [])]: the item afterwards. *)
Definition merge_item (user_answers : list (string * jsonv))
    (cat_name item : jsonv) : option jsonv :=
  q_text ← py_get "question" JsNull item;
  ans ← answer_for user_answers cat_name q_text;
  if js_truthy ans then
    match item with
    | JsDict d => Some (JsDict (items_set "user_understanding" ans d))
    | _ => None
    end
  else Some item.

(** The body of [for cat in questions]: the category afterwards.  The
    items are changed in place, in the list that the category holds; what
    is gone through and is not a list holds no dict to change. *)
Definition merge_category (user_answers : list (string * jsonv))
    (cat : jsonv) : option jsonv :=
  cat_name ← py_get "category" JsNull cat;
  items ← py_get "items" (JsList []) cat;
  match items, cat with
  | JsList l, JsDict d =>
      l ← mapM (merge_item user_answers cat_name) l;
      Some (JsDict (items_alter "items" (JsList l) d))
  | _, _ =>
      its ← py_iter items;
      _ ← mapM (merge_item user_answers cat_name) its;
      Some cat
  end.

(** What [update_questions_with_user_input] stores and returns for the
    stored [q_json]; [None] when it raises, and nothing is stored. *)
Definition merged_questions (user_answers : list (string * jsonv))
    (q_json : jsonv) : option jsonv :=
  questions ← py_get "questions" (JsList []) q_json;
  questions ←
    match questions with
    | JsList l => JsList <$> mapM (merge_category user_answers) l
    | _ =>
        its ← py_iter questions;
        _ ← mapM (merge_category user_answers) its;
        Some questions
    end;
  Some (JsDict [("questions"%string, questions)]).

(** *** The questions and answers of the prompt *)

(** A line of [q_lines] for an item; [None] when it raises. *)
Definition qa_line (item : jsonv) : option string :=
  q ← py_get "question" (JsStr "") item ≫= py_strip;
  a ← py_get "user_understanding" (JsStr "") item ≫= py_strip;
  let a := if PyStr.truthy a then a else "(unanswered)"%string in
  comment ← py_get "comment" (JsStr "") item ≫= py_strip;
  let line := ("Q: " ++ q ++ nl ++ "A: " ++ a)%string in
  Some (if PyStr.truthy comment
        then (line ++ nl ++ "Comment: " ++ comment)%string
        else line).

(** The lines of [q_lines] for a category. *)
Definition qa_category (category : jsonv) : option (list string) :=
  cat_name ← py_get "category" (JsStr "General") category;
  items ← py_get "items" (JsList []) category ≫= py_iter;
  lines ← mapM qa_line items;
  Some (("### " ++ py_str cat_name)%string :: lines).

(** [questions_context] of [generate_project_scope] for the stored
    [q_json]; [None] when the block raises. *)
Definition questions_context (q_json : jsonv) : option string :=
  categories ← py_get "questions" (JsList []) q_json ≫= py_iter;
  q_lines ← mapM qa_category categories;
  Some (PyStr.join nl (concat q_lines)).

End Questions.

(** ** Views of the questionnaire *)

(** The nested form: a category is a dict of a [category] and of [items],
    an item a dict of a [question], a [user_understanding] and a
    [comment]. *)
Definition normal_item (i : jsonv) : Prop :=
  ∃ question user_understanding comment,
    i = JsDict [("question"%string, question);
                ("user_understanding"%string, user_understanding);
                ("comment"%string, comment)].

Definition normal_category (cat : jsonv) : Prop :=
  ∃ category items,
    cat = category_dict category items ∧ Forall normal_item items.

(** A questionnaire whose categories and questions are texts, and its JSON
    as [questions.json] holds it. *)
Record q_item := {
  qi_question : string;
  qi_answer : jsonv;
  qi_comment : jsonv;
}.

Definition item_json (i : q_item) : jsonv :=
  JsDict [("question"%string, JsStr (qi_question i));
          ("user_understanding"%string, qi_answer i);
          ("comment"%string, qi_comment i)].

Definition categories_json (cats : list (string * list q_item)) : list jsonv :=
  (λ g : string * list q_item, category_dict (JsStr g.1) (item_json <$> g.2))
    <$> cats.

Definition questions_json (cats : list (string * list q_item)) : jsonv :=
  JsDict [("questions"%string, JsList (categories_json cats))].

(** [isinstance(v, str)] *)
Definition is_str (v : jsonv) : bool :=
  match v with JsStr _ => true | _ => false end.

(** A questionnaire of one category, with one question answered, and the
    answers of a user who answers the other and sends an empty answer for
    the first. *)
Definition asked : list (string * list q_item) :=
  [("Scope"%string,
    [{| qi_question := "Who pays?"; qi_answer := JsStr "The client";
        qi_comment := JsStr "" |};
     {| qi_question := "What is in scope?"; qi_answer := JsStr "";
        qi_comment := JsStr "" |}])].

Definition answers_sent : list (string * jsonv) :=
  [("Scope"%string,
    JsDict [("Who pays?"%string, JsStr "");
            ("What is in scope?"%string, JsStr "The data platform")])].

(** The answers of every category are a dict of texts, or count as none. *)
Definition text_answers (user_answers : list (string * jsonv)) : bool :=
  forallb
    (λ kv : string * jsonv,
       match kv.2 with
       | JsDict d => forallb (λ e : string * jsonv, is_str e.2) d
       | v => negb (js_truthy v)
       end)
    user_answers.

(** A text of the model that is not JSON: a heading and two questions. *)
Definition asked_text : string :=
  ("Scope:" ++ nl ++ "1. Who pays?" ++ nl ++ "2. What is in scope?")%string.

(** A question of a flat list, with the text of its category. *)
Definition flat_question (e : string * jsonv) : jsonv :=
  JsDict [("category"%string, JsStr e.1); ("question"%string, e.2)].

(** A flat list of three questions in two categories, and the parser that
    reads a given value. *)
Definition flat_asked : list (string * jsonv) :=
  [("Scope"%string, JsStr "Who pays?");
   ("Data"%string, JsStr "Where is the data?");
   ("Scope"%string, JsStr "What is in scope?")].

Definition loads_as (v : jsonv) (_ : string) : option jsonv := Some v.

(** ** Embeddings: [embed_text_ollama] of [app/utils/ai_clients.py] *)

(** [isinstance(x, (int, float))]: a bool is an int. *)
Definition is_number (v : jsonv) : bool :=
  match v with
  | JsNum _ | JsBool _ => true
  | _ => false
  end.

(** [x or y] *)
Definition js_or (x y : jsonv) : jsonv := if js_truthy x then x else y.

(** ["embedding" in d]: a key of a dict, an element of a list, a part of a
    str; [None] is the [TypeError] of the other values. *)
Definition has_embedding (d : jsonv) : option bool :=
  match d with
  | JsDict items => Some (bool_decide (is_Some (items_get "embedding"%string items)))
  | JsList l =>
      Some (existsb (λ x, match x with
                          | JsStr s => String.eqb s "embedding"
                          | _ => false
                          end) l)
  | JsStr s => Some (PyStr.contains "embedding" s)
  | _ => None
  end.

(** [d.get("embedding", [])] for a [d] with ["embedding" in d]: the outer
    [None] when one of the two raises, the inner one when [d] is left
    out. *)
Definition embedding_of (d : jsonv) : option (option jsonv) :=
  has ← has_embedding d;
  if (has : bool) then Some <$> py_get "embedding" (JsList []) d
  else Some None.

(** The two cases of "Normalize nested structure"; [None] is the
    [IndexError] of [embeddings[0]] on an empty list, or what the list
    comprehension raises. *)
Definition normalize_embeddings (embeddings : jsonv) : option jsonv :=
  match embeddings with
  | JsList [] => None
  | JsList (first :: rest) =>
      if is_number first then Some (JsList [embeddings])
      else if is_dict first
      then l ← mapM embedding_of (first :: rest); Some (JsList (omap id l))
      else Some embeddings
  | _ => Some embeddings
  end.

(** A [v] with [isinstance(v, list) and len(v) > 0 and all(isinstance(x,
    (int, float)) for x in v)], as the list of its numbers. *)
Definition as_vector (v : jsonv) : option (list jsonv) :=
  match v with
  | JsList (x :: l) => if forallb is_number (x :: l) then Some (x :: l) else None
  | _ => None
  end.

(** What one attempt makes of the JSON of the response; [None] when it
    raises. *)
Definition attempt_vectors (data : jsonv) : option (list (list jsonv)) :=
  e1 ← py_get "embedding" JsNull data;
  e2 ← py_get "embeddings" JsNull data;
  e3 ← py_get "data" JsNull data;
  embeddings ← normalize_embeddings (js_or (js_or (js_or e1 e2) e3) (JsList []));
  vs ← py_iter embeddings;
  match omap as_vector vs with
  | [] => None
  | valid_vectors => Some valid_vectors
  end.

(** [[t.strip() for t in texts if t and t.strip()]] *)
Definition stripped_texts (texts : list (option string)) : list string :=
  omap (λ t : option string,
          match t with
          | Some t =>
              if PyStr.truthy t && PyStr.truthy (PyStr.strip t)
              then Some (PyStr.strip t) else None
          | None => None
          end) texts.

(** [requests.post(...)], [raise_for_status] and [resp.json()]: the next of
    the responses that are to come, [None] when one of the three raises. *)
Definition post (responses : list (option jsonv))
    : option jsonv * list (option jsonv) :=
  match responses with
  | [] => (None, [])
  | r :: rest => (r, rest)
  end.

(** [embed_text_ollama(texts)] and the responses that are left. *)
Definition embed_text_ollama (texts : list (option string))
    (responses : list (option jsonv))
    : list (list jsonv) * list (option jsonv) :=
  match stripped_texts texts with
  | [] => ([], responses)
  | _ =>
      let '(data, responses) := post responses in
      match data ≫= attempt_vectors with
      | Some valid_vectors => (valid_vectors, responses)
      | None =>
          let '(data, responses) := post responses in
          match data ≫= attempt_vectors with
          | Some valid_vectors => (valid_vectors, responses)
          | None => ([], responses)
          end
      end
  end.

(** * Properties *)

(** ** The calendar *)

Module PyDateFacts.
Import PyDate.

Lemma md_of_spec (leap : bool) (n : Z) :
  0 ≤ n < 365 + (if leap then 1 else 0) →
  let '(m, d) := md_of leap n in
  1 ≤ m ≤ 12 ∧ 1 ≤ d ≤ DAYS_IN_MONTH m + (if (m =? 2) && leap then 1 else 0)
  ∧ DAYS_BEFORE_MONTH m + (if (2 <? m) && leap then 1 else 0) + d = n + 1.
Proof.
  intros Hn. unfold md_of.
  rewrite Z.shiftr_div_pow2 by lia.
  change (2 ^ 5) with 32.
  assert (Hm : 1 ≤ (n + 50) / 32 ≤ 12).
  { destruct leap; Z.div_mod_to_equations; lia. }
  assert (Hq := Z.div_mod (n + 50) 32 ltac:(lia)).
  assert (Hr := Z.mod_pos_bound (n + 50) 32 ltac:(lia)).
  set (q := (n + 50) / 32) in *. 
  assert (Hc : q = 1 ∨ q = 2 ∨ q = 3 ∨ q = 4 ∨ q = 5 ∨ q = 6 ∨ q = 7 ∨ q = 8
               ∨ q = 9 ∨ q = 10 ∨ q = 11 ∨ q = 12) by lia.
  clearbody q.
  destruct leap;
  repeat (destruct Hc as [-> | Hc]); try subst q; simpl;
    match goal with |- context [n <? ?c] => destruct (Z.ltb_spec n c) end;
    simpl; lia.
Qed.

Lemma is_leap_true (y : Z) :
  is_leap y = true ↔ y mod 4 = 0 ∧ (y mod 100 ≠ 0 ∨ y mod 400 = 0).
Proof.
  unfold is_leap.
  rewrite andb_true_iff, orb_true_iff, negb_true_iff, !Z.eqb_eq, Z.eqb_neq.
  tauto.
Qed.

Lemma ord2ymd_unfold (ord : Z) :
  ord2ymd ord =
    let n := ord - 1 in
    let n400 := n / DI400Y in
    let n := n mod DI400Y in
    let n100 := n / DI100Y in
    let n := n mod DI100Y in
    let n4 := n / DI4Y in
    let n := n mod DI4Y in
    let n1 := n / 365 in
    let n := n mod 365 in
    let year := n400 * 400 + 1 + n100 * 100 + n4 * 4 + n1 in
    if (n1 =? 4) || (n100 =? 4) then (year - 1, 12, 31)
    else
      let leapyear := (n1 =? 3) && (negb (n4 =? 24) || (n100 =? 3)) in
      let '(m, d) := md_of leapyear n in (year, m, d).
Proof.
  unfold ord2ymd, md_of. cbv zeta.
  repeat case_match; congruence.
Qed.

Lemma ord2ymd_spec (n : Z) :
  1 ≤ n ≤ MAXORD →
  ∃ y m d, ord2ymd n = (y, m, d) ∧ 1 ≤ y ≤ MAXYEAR ∧ 1 ≤ m ≤ 12
           ∧ 1 ≤ d ≤ days_in_month y m ∧ ymd2ord y m d = n.
Proof.
  intros Hn. rewrite ord2ymd_unfold. cbv zeta.
  unfold DI400Y, DI100Y, DI4Y, MAXORD, MAXYEAR in *.
  pose proof (Z.div_mod (n - 1) 146097 ltac:(lia)) as E400.
  pose proof (Z.mod_pos_bound (n - 1) 146097 ltac:(lia)) as B400.
  set (n400 := (n - 1) / 146097) in *. set (r400 := (n - 1) mod 146097) in *.
  pose proof (Z.div_mod r400 36524 ltac:(lia)) as E100.
  pose proof (Z.mod_pos_bound r400 36524 ltac:(lia)) as B100.
  set (n100 := r400 / 36524) in *. set (r100 := r400 mod 36524) in *.
  pose proof (Z.div_mod r100 1461 ltac:(lia)) as E4.
  pose proof (Z.mod_pos_bound r100 1461 ltac:(lia)) as B4.
  set (n4 := r100 / 1461) in *. set (r4 := r100 mod 1461) in *.
  pose proof (Z.div_mod r4 365 ltac:(lia)) as E1.
  pose proof (Z.mod_pos_bound r4 365 ltac:(lia)) as B1.
  set (n1 := r4 / 365) in *. set (r1 := r4 mod 365) in *.
  clearbody n400 r400 n100 r100 n4 r4 n1 r1.
  assert (0 ≤ n400 ≤ 24 ∧ 0 ≤ n100 ≤ 4 ∧ 0 ≤ n4 ≤ 24 ∧ 0 ≤ n1 ≤ 4) as (?&?&?&?) by lia.
  set (year := n400 * 400 + 1 + n100 * 100 + n4 * 4 + n1).
  destruct ((n1 =? 4) || (n100 =? 4)) eqn:Hsp.
  - apply orb_true_iff in Hsp. rewrite !Z.eqb_eq in Hsp.
    exists (year - 1), 12, 31. split; [done|].
    assert (Hl : is_leap (year - 1) = true).
    { apply is_leap_true. subst year. Z.div_mod_to_equations. lia. }
    unfold days_in_month, ymd2ord, days_before_month, days_before_year.
    rewrite Hl. simpl. subst year. split; [lia|]. split; [lia|]. split; [lia|].
    Z.div_mod_to_equations. lia.
  - apply orb_false_iff in Hsp. rewrite !Z.eqb_neq in Hsp.
    set (leapyear := (n1 =? 3) && (negb (n4 =? 24) || (n100 =? 3))).
    assert (Hl : is_leap year = leapyear).
    { subst leapyear. destruct (is_leap year) eqn:El.
      - apply is_leap_true in El. symmetry.
        rewrite andb_true_iff, orb_true_iff, negb_true_iff, !Z.eqb_eq, Z.eqb_neq.
        subst year. Z.div_mod_to_equations. lia.
      - symmetry. apply not_true_is_false. intros Ht. 
        rewrite andb_true_iff, orb_true_iff, negb_true_iff, !Z.eqb_eq, Z.eqb_neq in Ht.
        assert (is_leap year = true); [|congruence].
        apply is_leap_true. subst year. Z.div_mod_to_equations. lia. }
    assert (Hr : 0 ≤ r1 < 365 + (if leapyear then 1 else 0)).
    { destruct leapyear; lia. }
    pose proof (md_of_spec leapyear r1 Hr) as Hmd.
    destruct (md_of leapyear r1) as [m d].
    destruct Hmd as (Hm & Hd & Hsum).
    exists year, m, d. split; [done|].
    unfold days_in_month, ymd2ord, days_before_month, days_before_year.
    rewrite Hl. split; [subst year; lia|]. split; [lia|]. 
    split.
    { destruct ((m =? 2) && leapyear) eqn:E; [|lia].
      apply andb_true_iff in E as [E ?]. apply Z.eqb_eq in E. subst m. simpl in Hd. lia. }
    subst year. clear Hd Hm Hl. Z.div_mod_to_equations. lia.
Qed.

Lemma digit_val_char (k : Z) : 0 ≤ k ≤ 9 → digit_val (digit_char k) = Some k.
Proof.
  intros Hk.
  assert (Hc : k = 0 ∨ k = 1 ∨ k = 2 ∨ k = 3 ∨ k = 4 ∨ k = 5 ∨ k = 6 ∨ k = 7
               ∨ k = 8 ∨ k = 9) by lia.
  repeat (destruct Hc as [-> | Hc]); try subst k; reflexivity.
Qed.

Lemma parse_month_fmt (m : Z) (rest : list ascii) :
  1 ≤ m ≤ 12 → parse_month (fmt_2d m ++ "-"%char :: rest) = Some (m, rest).
Proof.
  intros Hm.
  assert (Hc : m = 1 ∨ m = 2 ∨ m = 3 ∨ m = 4 ∨ m = 5 ∨ m = 6 ∨ m = 7 ∨ m = 8
               ∨ m = 9 ∨ m = 10 ∨ m = 11 ∨ m = 12) by lia.
  repeat (destruct Hc as [-> | Hc]); try subst m; reflexivity.
Qed.

Lemma parse_day_fmt (d : Z) : 1 ≤ d ≤ 31 → parse_day (fmt_2d d) = Some d.
Proof.
  intros Hd.
  assert (Hc : ∃ k : nat, (k < 31)%nat ∧ d = Z.of_nat k + 1).
  { exists (Z.to_nat (d - 1)). lia. }
  destruct Hc as (k & Hk & ->).
  do 31 (destruct k as [|k]; [reflexivity|]). lia.
Qed.

Lemma days_in_month_le (y m : Z) : days_in_month y m ≤ 31.
Proof.
  unfold days_in_month. case_match; [lia|].
  unfold DAYS_IN_MONTH. repeat case_match; lia.
Qed.

Lemma days_before_year_succ (y : Z) :
  days_before_year y + 365 ≤ days_before_year (y + 1).
Proof.
  unfold days_before_year. cbv zeta.
  replace (y + 1 - 1) with (y - 1 + 1) by lia.
  generalize (y - 1). intros x.
  assert (x / 4 ≤ (x + 1) / 4) by (apply Z.div_le_mono; lia).
  assert (x / 400 ≤ (x + 1) / 400) by (apply Z.div_le_mono; lia).
  assert ((x + 1) / 100 - x / 100 ≤ (x + 1) / 4 - x / 4).
  { Z.div_mod_to_equations. lia. }
  lia.
Qed.

Lemma days_before_year_mono (y1 y2 : Z) :
  y1 ≤ y2 → days_before_year y1 + 365 * (y2 - y1) ≤ days_before_year y2.
Proof.
  intros H. replace y2 with (y1 + Z.of_nat (Z.to_nat (y2 - y1))) by lia.
  generalize (Z.to_nat (y2 - y1)). intros k. induction k as [|k IH].
  - replace (y1 + Z.of_nat 0) with y1 by lia. lia.
  - pose proof (days_before_year_succ (y1 + Z.of_nat k)).
    replace (y1 + Z.of_nat (S k)) with (y1 + Z.of_nat k + 1) by lia. lia.
Qed.

Lemma days_before_month_nonneg (y m : Z) : 0 ≤ days_before_month y m.
Proof.
  unfold days_before_month, DAYS_BEFORE_MONTH. repeat case_match; lia.
Qed.

Lemma days_before_year_leap (y : Z) :
  days_before_year (y + 1)
  = days_before_year y + 365 + (if is_leap y then 1 else 0).
Proof.
  destruct (is_leap y) eqn:El.
  - apply is_leap_true in El. unfold days_before_year. cbv zeta.
    Z.div_mod_to_equations. lia.
  - assert (Hn : ¬ (y mod 4 = 0 ∧ (y mod 100 ≠ 0 ∨ y mod 400 = 0))).
    { rewrite <- is_leap_true. congruence. }
    unfold days_before_year. cbv zeta.
    Z.div_mod_to_equations. lia.
Qed.

Lemma ymd2ord_le_next_year (y m d : Z) :
  1 ≤ m ≤ 12 → d ≤ days_in_month y m →
  ymd2ord y m d ≤ days_before_year (y + 1).
Proof.
  intros Hm Hd. rewrite days_before_year_leap.
  unfold ymd2ord, days_before_month, days_in_month in *.
  assert (Hc : m = 1 ∨ m = 2 ∨ m = 3 ∨ m = 4 ∨ m = 5 ∨ m = 6 ∨ m = 7 ∨ m = 8
               ∨ m = 9 ∨ m = 10 ∨ m = 11 ∨ m = 12) by lia.
  destruct (is_leap y);
    repeat (destruct Hc as [-> | Hc]); try subst m; simpl in *; lia.
Qed.

Lemma ymd2ord_year_ge_1000 (y m d : Z) :
  1 ≤ m ≤ 12 → d ≤ days_in_month y m →
  ORD_Y1000 ≤ ymd2ord y m d → 1000 ≤ y.
Proof.
  intros Hm Hd Ho.
  destruct (Z.lt_ge_cases y 1000) as [Hlt|]; [|done].
  pose proof (ymd2ord_le_next_year y m d Hm Hd).
  pose proof (days_before_year_mono (y + 1) 1000 ltac:(lia)) as Hmono.
  change (days_before_year 1000) with 364877 in Hmono.
  unfold ORD_Y1000 in Ho. lia.
Qed.

Lemma strptime_strftime (n : Z) :
  ORD_Y1000 ≤ n ≤ MAXORD → strptime (strftime n) = Some n.
Proof.
  intros Hn.
  destruct (ord2ymd_spec n) as (y & m & d & E & Hy & Hm & Hd & Ho).
  { unfold ORD_Y1000 in Hn. lia. }
  assert (1000 ≤ y).
  { apply (ymd2ord_year_ge_1000 y m d); lia. }
  unfold strftime, strptime. rewrite E.
  rewrite list_ascii_of_string_of_list_ascii.
  unfold fmt_year, MAXYEAR in *.
  destruct (Z.ltb_spec y 10); [lia|].
  destruct (Z.ltb_spec y 100); [lia|].
  destruct (Z.ltb_spec y 1000); [lia|].
  cbn [app].
  rewrite !digit_val_char by (Z.div_mod_to_equations; lia).
  cbn [mbind option_bind].
  rewrite parse_month_fmt by done. cbn [mbind option_bind].
  pose proof (days_in_month_le y m).
  rewrite parse_day_fmt by lia. cbn [mbind option_bind].
  replace (1000 * (y / 1000) + 100 * (y / 100 mod 10) + 10 * (y / 10 mod 10) + y mod 10)
    with y by (Z.div_mod_to_equations; lia).
  unfold MINYEAR.
  destruct (Z.leb_spec 1 y); [|lia].
  destruct (Z.leb_spec d (days_in_month y m)); [|lia].
  simpl. by rewrite Ho.
Qed.

Example strptime_2025_01_01 : strptime "2025-01-01" = Some 739252.
Proof. reflexivity. Qed.

Example strftime_2025_01_01 : strftime 739252 = "2025-01-01"%string.
Proof. reflexivity. Qed.

Example strptime_short : strptime "2025-1-5" = strptime "2025-01- 5".
Proof. reflexivity. Qed.

Example strptime_bad :
  strptime "2025-02-30" = None ∧ strptime "0000-01-01" = None
  ∧ strptime "2025-13-01" = None ∧ strptime "2025-01-05 " = None
  ∧ strptime "" = None.
Proof. repeat split; reflexivity. Qed.

Example ord_limits :
  strptime "9999-12-31" = Some MAXORD
  ∧ strptime "1000-01-01" = Some ORD_Y1000
  ∧ strptime "9999-12-01" = Some ORD_DEC_9999
  ∧ strftime 1 = "1-01-01"%string.
Proof. repeat split; reflexivity. Qed.

End PyDateFacts.

(** ** Strings *)

Module PyStrFacts.
Import PyStr.

Lemma list_ascii_app (s1 s2 : string) :
  list_ascii_of_string (s1 ++ s2)
  = list_ascii_of_string s1 ++ list_ascii_of_string s2.
Proof. induction s1 as [|c s1 IH]; simpl; [done|]. by rewrite IH. Qed.

Lemma truthy_nonempty (s : string) :
  truthy s = true ↔ list_ascii_of_string s ≠ [].
Proof. destruct s; simpl; split; congruence. Qed.

Lemma lstrip_l_cases (l : list ascii) :
  lstrip_l l = [] ∨ ∃ c l', lstrip_l l = c :: l' ∧ is_space c = false.
Proof.
  induction l as [|c l IH]; simpl; [by left|].
  destruct (is_space c) eqn:E; [done|]. right. eauto.
Qed.

Lemma rstrip_l_cons_nonspace (c : ascii) (l : list ascii) :
  is_space c = false → ∃ r, rstrip_l (c :: l) = c :: r.
Proof. intros E. simpl. destruct (rstrip_l l); rewrite ?E; eauto. Qed.

Lemma rstrip_l_idem (l : list ascii) : rstrip_l (rstrip_l l) = rstrip_l l.
Proof.
  induction l as [|c l IH]; [done|]. simpl.
  destruct (rstrip_l l) as [|x r] eqn:E.
  - destruct (is_space c) eqn:Ec; simpl; by rewrite ?Ec.
  - change (rstrip_l (c :: x :: r)) with
      (match rstrip_l (x :: r) with
       | [] => if is_space c then [] else [c]
       | r' => c :: r'
       end).
    by rewrite IH.
Qed.

Lemma strip_l_idem (l : list ascii) : strip_l (strip_l l) = strip_l l.
Proof.
  unfold strip_l. destruct (lstrip_l_cases l) as [->|(c & l' & -> & Ec)]; [done|].
  destruct (rstrip_l_cons_nonspace c l' Ec) as [r Hr].
  rewrite Hr. simpl lstrip_l. rewrite Ec. rewrite <- Hr. apply rstrip_l_idem.
Qed.

Lemma strip_idem (s : string) : strip (strip s) = strip s.
Proof.
  unfold strip. by rewrite list_ascii_of_string_of_list_ascii, strip_l_idem.
Qed.

Lemma lstrip_l_elem (c : ascii) (l : list ascii) : c ∈ lstrip_l l → c ∈ l.
Proof.
  induction l as [|x l IH]; simpl; [done|].
  destruct (is_space x); [|done]. intros. right. auto.
Qed.

Lemma rstrip_l_elem (c : ascii) (l : list ascii) : c ∈ rstrip_l l → c ∈ l.
Proof.
  induction l as [|x l IH]; simpl; [done|].
  destruct (rstrip_l l) as [|y r].
  - destruct (is_space x); [by intros ?%elem_of_nil|].
    intros ->%list_elem_of_singleton. left.
  - intros [->|?]%elem_of_cons; [left|right; auto].
Qed.

Lemma strip_l_elem (c : ascii) (l : list ascii) : c ∈ strip_l l → c ∈ l.
Proof. intros ?%rstrip_l_elem%lstrip_l_elem. done. Qed.

Lemma strip_l_space (c : ascii) (l : list ascii) :
  is_space c = true → strip_l (c :: l) = strip_l l.
Proof. intros E. unfold strip_l. simpl. by rewrite E. Qed.

(** *** Splitting on a separator *)

Lemma split_l_nonempty (sep : ascii) (l : list ascii) : split_l sep l ≠ [].
Proof.
  induction l as [|c l IH]; simpl; [done|].
  destruct (Ascii.eqb c sep); [done|]. by destruct (split_l sep l).
Qed.

Lemma split_l_no_sep (sep : ascii) (l : list ascii) :
  sep ∉ l → split_l sep l = [l].
Proof.
  induction l as [|c l IH]; [done|]. intros Hn. simpl.
  destruct (Ascii.eqb_spec c sep) as [->|Hne].
  - exfalso. apply Hn. left.
  - rewrite IH; [done|]. intros ?. apply Hn. by right.
Qed.

Lemma split_l_app_sep (sep : ascii) (l rest : list ascii) :
  sep ∉ l → split_l sep (l ++ sep :: rest) = l :: split_l sep rest.
Proof.
  induction l as [|c l IH]; intros Hn; simpl.
  - by rewrite Ascii.eqb_refl.
  - destruct (Ascii.eqb_spec c sep) as [->|Hne].
    + exfalso. apply Hn. left.
    + rewrite IH; [done|]. intros ?. apply Hn. by right.
Qed.

Lemma split_l_pieces (sep : ascii) (l : list ascii) :
  Forall (λ p, sep ∉ p) (split_l sep l).
Proof.
  induction l as [|c l IH]; simpl.
  - repeat constructor. by intros ?%elem_of_nil.
  - destruct (Ascii.eqb_spec c sep) as [->|Hne].
    + constructor; [by intros ?%elem_of_nil|done].
    + destruct (split_l sep l) as [|h t]; [repeat constructor|].
      * intros [?|?%elem_of_nil]%elem_of_cons; done.
      * inversion IH; subst. constructor; [|done].
        intros [?|?]%elem_of_cons; done.
Qed.

(** *** Role lists: [split_roles] undoes [", ".join] *)

Lemma split_roles_unfold (x : string) :
  split_roles x
  = filter (λ d, truthy d = true)
      ((λ p, string_of_list_ascii (strip_l p))
         <$> split_l "," (list_ascii_of_string x)).
Proof.
  unfold split_roles, split, strip. rewrite <- list_fmap_compose.
  f_equal. apply list_fmap_ext. intros _ p _. simpl.
  by rewrite list_ascii_of_string_of_list_ascii.
Qed.

Lemma split_roles_ok (x : string) : Forall role_ok (split_roles x).
Proof.
  rewrite split_roles_unfold.
  apply Forall_forall. intros d [Ht Hd]%list_elem_of_filter.
  apply list_elem_of_fmap in Hd as (p & -> & Hp).
  pose proof (split_l_pieces "," (list_ascii_of_string x)) as Hall.
  rewrite Forall_forall in Hall. specialize (Hall p Hp).
  split; [|split; [done|]].
  - unfold strip. by rewrite list_ascii_of_string_of_list_ascii, strip_l_idem.
  - rewrite list_ascii_of_string_of_list_ascii. by intros ?%strip_l_elem.
Qed.

Lemma split_roles_single (d : string) : role_ok d → split_roles d = [d].
Proof.
  intros (Hs & Ht & Hc). rewrite split_roles_unfold, split_l_no_sep by done.
  simpl. change (string_of_list_ascii (strip_l (list_ascii_of_string d)))
    with (strip d). rewrite Hs.
  rewrite filter_cons_True by done. done.
Qed.

Lemma split_roles_space (x : string) :
  split_roles (String " " x) = split_roles x.
Proof.
  rewrite !split_roles_unfold. simpl list_ascii_of_string.
  simpl split_l.
  pose proof (split_l_nonempty "," (list_ascii_of_string x)).
  destruct (split_l "," (list_ascii_of_string x)) as [|h t]; [done|].
  simpl. by rewrite strip_l_space.
Qed.

Lemma split_roles_cons (d x : string) :
  role_ok d → split_roles (d ++ ", " ++ x) = d :: split_roles x.
Proof.
  intros (Hs & Ht & Hc).
  rewrite <- (split_roles_space x).
  rewrite !split_roles_unfold, list_ascii_app. simpl list_ascii_of_string at 2.
  rewrite split_l_app_sep by done.
  rewrite fmap_cons.
  change (string_of_list_ascii (strip_l (list_ascii_of_string d)))
    with (strip d). rewrite Hs.
  rewrite filter_cons_True by done. done.
Qed.

Lemma split_roles_join (ds : list string) :
  Forall role_ok ds → split_roles (join ", " ds) = ds.
Proof.
  induction ds as [|d ds IH]; intros Hok; [done|].
  inversion Hok as [|?? Hd Hds]; subst.
  destruct ds as [|d2 ds].
  - by apply split_roles_single.
  - change (join ", " (d :: d2 :: ds))
      with ((d ++ ", " ++ join ", " (d2 :: ds))%string).
    rewrite split_roles_cons by done. by rewrite IH.
Qed.

Lemma or_else_truthy (s d : string) : truthy s = true → or_else (Some s) d = s.
Proof. intros H. unfold or_else. by rewrite H. Qed.

Lemma or_else_is_truthy (x : option string) (d : string) :
  truthy d = true → truthy (or_else x d) = true.
Proof.
  intros Hd. unfold or_else. destruct x as [s|]; [|done].
  by destruct (truthy s) eqn:E.
Qed.

End PyStrFacts.

(** ** Numbers *)

Module PyNumFacts.
Import PyNum.

Lemma round_half_even_proper (x y : Q) :
  Qeq x y → round_half_even x = round_half_even y.
Proof.
  intros E. unfold round_half_even.
  rewrite (Qfloor_comp _ _ E).
  assert (Qeq (x - inject_Z (Qfloor y)) (y - inject_Z (Qfloor y))) as ->
    by (by rewrite E).
  done.
Qed.

Lemma round2_proper (x y : Q) : Qeq x y → round2 x = round2 y.
Proof.
  intros E. unfold round2. f_equal. apply round_half_even_proper.
  by rewrite E.
Qed.

Lemma round_half_even_Z (z : Z) : round_half_even (inject_Z z) = z.
Proof.
  unfold round_half_even. rewrite Qfloor_Z.
  assert (Qeq (inject_Z z - inject_Z z) 0) as -> by ring.
  done.
Qed.

(** A whole number of cents is its own rounding. *)
Lemma round2_cents (x : Q) (z : Z) : Qeq x (z # 100) → round2 x = (z # 100)%Q.
Proof.
  intros E. unfold round2. f_equal.
  rewrite <- (round_half_even_Z z). apply round_half_even_proper.
  rewrite E. unfold Qeq, Qmult, inject_Z. simpl. lia.
Qed.

Lemma round53_near (p : Z) :
  0 < p →
  let half := 2 ^ (Z.log2 p - 53) in
  p - half ≤ round53 p ≤ p + half.
Proof.
  intros Hp. cbv zeta. unfold round53.
  destruct (Z.leb_spec (Z.log2 p + 1 - 53) 0) as [Hs|Hs].
  - assert (0 ≤ 2 ^ (Z.log2 p - 53)) by (apply Z.pow_nonneg; lia). lia.
  - set (shift := Z.log2 p + 1 - 53) in *.
    replace (Z.log2 p - 53) with (shift - 1) by lia.
    rewrite Z.shiftr_div_pow2, Z.land_ones, !Z.shiftl_mul_pow2 by lia.
    rewrite Z.mul_1_l.
    assert (Hpow : 2 ^ shift = 2 * 2 ^ (shift - 1)).
    { rewrite <- Z.pow_succ_r by lia. f_equal. lia. }
    assert (0 < 2 ^ (shift - 1)) by (apply Z.pow_pos_nonneg; lia).
    set (h := 2 ^ (shift - 1)) in *.
    pose proof (Z.div_mod p (2 ^ shift) ltac:(lia)) as Hdm.
    pose proof (Z.mod_pos_bound p (2 ^ shift) ltac:(lia)) as Hb.
    set (q := p / 2 ^ shift) in *. set (r := p mod 2 ^ shift) in *.
    destruct (Z.ltb_spec h r).
    + nia.
    + destruct ((r =? h) && Z.odd q) eqn:E.
      * apply andb_true_iff in E as [E _]. apply Z.eqb_eq in E. nia.
      * nia.
Qed.

Lemma log2_mul_mant (n m : Z) (k : Z) :
  0 < n → 0 < m < 2 ^ k → 0 ≤ k → Z.log2 (n * m) - k ≤ Z.log2 n.
Proof.
  intros Hn Hm Hk.
  assert (n * m < 2 ^ (Z.log2 n + 1 + k)).
  { rewrite Z.pow_add_r by (pose proof (Z.log2_nonneg n); lia).
    pose proof (Z.log2_spec n Hn) as [_ Hlt].
    replace (Z.succ (Z.log2 n)) with (Z.log2 n + 1) in Hlt by lia. nia. }
  assert (Z.log2 (n * m) < Z.log2 n + 1 + k).
  { apply Z.log2_lt_pow2; [nia|done]. }
  lia.
Qed.

Lemma round53_mul_near (n m : Z) :
  0 < n → 0 < m < 2 ^ 53 → n * m - n ≤ round53 (n * m) ≤ n * m + n.
Proof.
  intros Hn Hm.
  pose proof (round53_near (n * m) ltac:(nia)) as Hr. cbv zeta in Hr.
  pose proof (log2_mul_mant n m 53 Hn Hm ltac:(lia)) as Hl.
  assert (2 ^ (Z.log2 (n * m) - 53) ≤ n).
  { destruct (Z.lt_ge_cases (Z.log2 (n * m) - 53) 0) as [Hneg|Hpos].
    - rewrite Z.pow_neg_r by done. lia.
    - etransitivity; [apply Z.pow_le_mono_r; [lia|exact Hl]|].
      apply Z.log2_spec. done. }
  lia.
Qed.

(** More than 70 percent, exactly, is more than 70 percent for binary64. *)
Lemma gt_mul_07_of_exact (c n : Z) :
  0 ≤ n < 2 ^ 49 → 7 * n < 10 * c → gt_mul_07 c n = true.
Proof.
  intros Hn Hc. unfold gt_mul_07, F07_mant, F07_expo.
  apply Z.ltb_lt.
  destruct (Z.eq_dec n 0) as [->|Hne].
  - change (round53 (0 * 6305039478318694)) with 0.
    change (2 ^ 53) with 9007199254740992. lia.
  - pose proof (round53_mul_near n 6305039478318694 ltac:(lia) ltac:(lia)).
    change (2 ^ 49) with 562949953421312 in Hn.
    change (2 ^ 53) with 9007199254740992. lia.
Qed.

(** Less than 70 percent, exactly, is less than 70 percent for binary64. *)
Lemma lt_mul_07_of_exact (c n : Z) :
  0 ≤ n < 2 ^ 49 → 10 * c < 7 * n → lt_mul_07 c n = true.
Proof.
  intros Hn Hc. unfold lt_mul_07, F07_mant, F07_expo.
  apply Z.ltb_lt.
  destruct (Z.eq_dec n 0) as [->|Hne].
  { change (round53 (0 * 6305039478318694)) with 0.
    change (2 ^ 53) with 9007199254740992. lia. }
  pose proof (round53_mul_near n 6305039478318694 ltac:(lia) ltac:(lia)).
  change (2 ^ 49) with 562949953421312 in Hn.
  change (2 ^ 53) with 9007199254740992. lia.
Qed.

(** The two readings part at exactly 70 percent: [63 > 90 * 0.7] holds for
    binary64, where the product is 62.99999999999999. *)
Example gt_mul_07_at_90 : gt_mul_07 63 90 = true ∧ 7 * 90 = 10 * 63.
Proof. split; reflexivity. Qed.

(** More than 30 percent, exactly, is more than 30 percent for binary64. *)
Lemma gt_mul_03_of_exact (c n : Z) :
  0 ≤ n < 2 ^ 49 → 3 * n < 10 * c → gt_mul_03 c n = true.
Proof.
  intros Hn Hc. unfold gt_mul_03, F03_mant, F03_expo.
  apply Z.ltb_lt.
  destruct (Z.eq_dec n 0) as [->|Hne].
  { change (round53 (0 * 5404319552844595)) with 0.
    change (2 ^ 54) with 18014398509481984. lia. }
  pose proof (round53_mul_near n 5404319552844595 ltac:(lia) ltac:(lia)).
  change (2 ^ 49) with 562949953421312 in Hn.
  change (2 ^ 54) with 18014398509481984. lia.
Qed.

Lemma gt_mul_05_of_exact (c n : Z) : n < 2 * c → gt_mul_05 c n = true.
Proof. intros H. by apply Z.ltb_lt. Qed.

End PyNumFacts.

(** ** Binary64 rounding *)

Module FloatFacts.
Import PyNum PyNumFacts.
Local Open Scope Q_scope.

(** Rounding to the nearest integer stays within the floor and the floor
    plus one, and reaches the floor plus one only from the upper half. *)
Lemma round_half_even_cases (x : Q) :
  (round_half_even x = Qfloor x /\ x - inject_Z (Qfloor x) <= 1 # 2)
  \/ (round_half_even x = (Qfloor x + 1)%Z /\ 1 # 2 <= x - inject_Z (Qfloor x)).
Proof.
  unfold round_half_even.
  destruct (Qcompare_spec (x - inject_Z (Qfloor x)) (1 # 2)) as [E|E|E].
  - destruct (Z.even (Qfloor x)); [left|right]; split; try reflexivity;
      rewrite E; apply Qle_refl.
  - left. split; [reflexivity|]. now apply Qlt_le_weak.
  - right. split; [reflexivity|]. now apply Qlt_le_weak.
Qed.

Lemma round_half_even_mono (x y : Q) :
  x <= y -> (round_half_even x <= round_half_even y)%Z.
Proof.
  intros H.
  pose proof (Qfloor_resp_le _ _ H) as Hf.
  destruct (Z.eq_dec (Qfloor x) (Qfloor y)) as [E|Hne].
  - unfold round_half_even. rewrite E.
    assert (Hd : x - inject_Z (Qfloor y) <= y - inject_Z (Qfloor y)) by lra.
    destruct (Qcompare_spec (x - inject_Z (Qfloor y)) (1 # 2)) as [E1|E1|E1];
      destruct (Qcompare_spec (y - inject_Z (Qfloor y)) (1 # 2)) as [E2|E2|E2];
      try destruct (Z.even (Qfloor y)); try lia; lra.
  - destruct (round_half_even_cases x) as [[-> _]|[-> _]];
      destruct (round_half_even_cases y) as [[-> _]|[-> _]]; lia.
Qed.

Lemma two_neq_0 : ~ 2 == 0.
Proof. intros H. discriminate H. Qed.

Lemma pow2_pos (z : Z) : 0 < 2 ^ z.
Proof. apply Qpower_0_lt. reflexivity. Qed.

Lemma pow2_succ (z : Z) : 2 ^ (z + 1) == 2 * 2 ^ z.
Proof. rewrite Qpower_plus by apply two_neq_0. rewrite Qpower_1_r. ring. Qed.

Lemma pow2_inject (n : Z) : (0 <= n)%Z -> inject_Z (2 ^ n) == 2 ^ n.
Proof. intros H. apply (Zpower_Qpower 2 n H). Qed.

Lemma pow2_le (n m : Z) : (n <= m)%Z -> 2 ^ n <= 2 ^ m.
Proof. intros H. apply Qpower_le_compat_l; [exact H|]. discriminate. Qed.

Lemma pow2_lt_inv (n m : Z) : 2 ^ n < 2 ^ m -> (n < m)%Z.
Proof. intros H. apply (Qpower_lt_compat_l_inv 2); [exact H|reflexivity]. Qed.

(** The binade of a positive number is the floor of its binary logarithm. *)
Lemma binade_spec (q : Q) :
  0 < q -> 2 ^ binade q <= q /\ q < 2 ^ (binade q + 1).
Proof.
  intros Hq. destruct q as [p d].
  assert (Hp : (0 < p)%Z) by (unfold Qlt in Hq; simpl in Hq; lia).
  unfold binade. cbn [Qnum Qden].
  pose proof (Z.log2_nonneg p) as Ha0.
  pose proof (Z.log2_nonneg (Z.pos d)) as Hb0.
  destruct (Z.log2_spec p Hp) as [Ha1 Ha2].
  destruct (Z.log2_spec (Z.pos d) ltac:(lia)) as [Hb1 Hb2].
  set (a := Z.log2 p) in *. set (b := Z.log2 (Z.pos d)) in *.
  assert (HA1 : 2 ^ a <= inject_Z p)
    by (rewrite <- pow2_inject by lia; now rewrite <- Zle_Qle).
  assert (HA2 : inject_Z p < 2 * 2 ^ a).
  { rewrite <- pow2_succ, <- pow2_inject by lia. rewrite <- Zlt_Qlt.
    exact Ha2. }
  assert (HB1 : 2 ^ b <= inject_Z (Z.pos d))
    by (rewrite <- pow2_inject by lia; now rewrite <- Zle_Qle).
  assert (HB2 : inject_Z (Z.pos d) < 2 * 2 ^ b).
  { rewrite <- pow2_succ, <- pow2_inject by lia. rewrite <- Zlt_Qlt.
    exact Hb2. }
  assert (Hqd : (p # d) * inject_Z (Z.pos d) == inject_Z p).
  { rewrite (Qmake_Qdiv p d). field. discriminate. }
  pose proof (pow2_pos a) as HA0. pose proof (pow2_pos b) as HB0.
  assert (Hab : 2 ^ (a - b) * 2 ^ b == 2 ^ a).
  { rewrite Qpower_minus by apply two_neq_0. field.
    intros H. rewrite H in HB0. discriminate HB0. }
  pose proof (pow2_pos (a - b)) as HX0.
  set (q := p # d) in *. set (A := 2 ^ a) in *. set (B := 2 ^ b) in *.
  set (D := inject_Z (Z.pos d)) in *. set (P := inject_Z p) in *.
  destruct (Qle_bool (2 ^ (a - b)) q) eqn:E.
  - apply Qle_bool_iff in E. split; [exact E|].
    rewrite pow2_succ. set (X := 2 ^ (a - b)) in *. nra.
  - assert (E' : q < 2 ^ (a - b)).
    { apply Qnot_le_lt. intros H. apply Qle_bool_iff in H. congruence. }
    replace (a - b - 1 + 1)%Z with (a - b)%Z by lia. split; [|exact E'].
    assert (HY : 2 * 2 ^ (a - b - 1) == 2 ^ (a - b)).
    { rewrite <- pow2_succ. now replace (a - b - 1 + 1)%Z with (a - b)%Z by lia. }
    pose proof (pow2_pos (a - b - 1)) as HY0.
    set (X := 2 ^ (a - b)) in *. set (Y := 2 ^ (a - b - 1)) in *. nra.
Qed.

(** Two powers of two that bracket one number are the same. *)
Lemma binade_unique (q : Q) (e : Z) :
  2 ^ e <= q -> q < 2 ^ (e + 1) -> 0 < q -> binade q = e.
Proof.
  intros H1 H2 Hq. destruct (binade_spec q Hq) as [H3 H4].
  assert (e < binade q + 1)%Z by (apply pow2_lt_inv; lra).
  assert (binade q < e + 1)%Z by (apply pow2_lt_inv; lra).
  lia.
Qed.

Lemma Qabs_of_pos (q : Q) : 0 < q -> Qabs q = q.
Proof.
  destruct q as [p d]. unfold Qlt. simpl. intros H.
  unfold Qabs. f_equal. lia.
Qed.

Lemma fl_of_pos (q : Q) :
  0 < q ->
  fl q = inject_Z (round_half_even (q / 2 ^ (binade q - 52)))
         * 2 ^ (binade q - 52).
Proof.
  intros H. unfold fl.
  destruct (Qeq_bool q 0) eqn:E.
  - apply Qeq_bool_iff in E. rewrite E in H. discriminate H.
  - now rewrite (Qabs_of_pos q H).
Qed.

Lemma round_half_even_nonneg (x : Q) : 0 <= x -> (0 <= round_half_even x)%Z.
Proof.
  intros H. exact (round_half_even_mono 0 x H).
Qed.

Lemma round_half_even_nonpos (x : Q) : x <= 0 -> (round_half_even x <= 0)%Z.
Proof.
  intros H. exact (round_half_even_mono x 0 H).
Qed.

Lemma fl_nonneg (q : Q) : 0 <= q -> 0 <= fl q.
Proof.
  intros H. unfold fl. destruct (Qeq_bool q 0); [apply Qle_refl|].
  cbv zeta. pose proof (pow2_pos (binade (Qabs q) - 52)) as Hu.
  set (u := 2 ^ (binade (Qabs q) - 52)) in *.
  apply Qmult_le_0_compat; [|now apply Qlt_le_weak].
  change 0 with (inject_Z 0). rewrite <- Zle_Qle.
  apply round_half_even_nonneg. apply Qle_shift_div_l; [exact Hu|lra].
Qed.

Lemma fl_nonpos (q : Q) : q <= 0 -> fl q <= 0.
Proof.
  intros H. unfold fl. destruct (Qeq_bool q 0); [apply Qle_refl|].
  cbv zeta. pose proof (pow2_pos (binade (Qabs q) - 52)) as Hu.
  set (u := 2 ^ (binade (Qabs q) - 52)) in *.
  assert (Hr : inject_Z (round_half_even (q / u)) <= 0).
  { change 0 with (inject_Z 0). rewrite <- Zle_Qle.
    apply round_half_even_nonpos. apply Qle_shift_div_r; [exact Hu|lra]. }
  nra.
Qed.

(** A positive number and its binary64 rounding lie in the same binade,
    ends included. *)
Lemma fl_bracket (q : Q) :
  0 < q -> 2 ^ binade q <= fl q /\ fl q <= 2 ^ (binade q + 1).
Proof.
  intros Hq. rewrite (fl_of_pos q Hq).
  destruct (binade_spec q Hq) as [H1 H2].
  pose proof (pow2_pos (binade q - 52)) as Hu.
  assert (Hlo : 2 ^ binade q == inject_Z (2 ^ 52) * 2 ^ (binade q - 52)).
  { rewrite pow2_inject by lia. rewrite <- Qpower_plus by apply two_neq_0.
    now replace (52 + (binade q - 52))%Z with (binade q) by lia. }
  assert (Hhi : 2 ^ (binade q + 1) == inject_Z (2 ^ 53) * 2 ^ (binade q - 52)).
  { rewrite pow2_inject by lia. rewrite <- Qpower_plus by apply two_neq_0.
    now replace (53 + (binade q - 52))%Z with (binade q + 1)%Z by lia. }
  set (u := 2 ^ (binade q - 52)) in *.
  assert (L : (2 ^ 52 <= round_half_even (q / u))%Z).
  { rewrite <- (round_half_even_Z (2 ^ 52)). apply round_half_even_mono.
    apply Qle_shift_div_l; [exact Hu|]. now rewrite <- Hlo. }
  assert (U : (round_half_even (q / u) <= 2 ^ 53)%Z).
  { rewrite <- (round_half_even_Z (2 ^ 53)). apply round_half_even_mono.
    apply Qle_shift_div_r; [exact Hu|]. rewrite <- Hhi. now apply Qlt_le_weak. }
  rewrite Hlo, Hhi. rewrite Zle_Qle in L, U.
  split; apply Qmult_le_compat_r; try assumption; now apply Qlt_le_weak.
Qed.

Lemma fl_pos (q : Q) : 0 < q -> 0 < fl q.
Proof.
  intros Hq. destruct (fl_bracket q Hq) as [H _].
  pose proof (pow2_pos (binade q)). lra.
Qed.

(** Rounding to binary64 keeps the order of positive numbers. *)
Lemma fl_mono_pos (x y : Q) : 0 < x -> x <= y -> fl x <= fl y.
Proof.
  intros Hx Hxy. assert (Hy : 0 < y) by lra.
  destruct (binade_spec x Hx) as [X1 X2].
  destruct (binade_spec y Hy) as [Y1 Y2].
  assert (Hb : (binade x < binade y + 1)%Z) by (apply pow2_lt_inv; lra).
  destruct (Z.eq_dec (binade x) (binade y)) as [E|Hne].
  - rewrite (fl_of_pos x Hx), (fl_of_pos y Hy), E.
    pose proof (pow2_pos (binade y - 52)) as Hu.
    set (u := 2 ^ (binade y - 52)) in *.
    apply Qmult_le_compat_r; [|now apply Qlt_le_weak].
    rewrite <- Zle_Qle. apply round_half_even_mono.
    apply Qmult_le_compat_r; [exact Hxy|].
    apply Qlt_le_weak, Qinv_lt_0_compat, Hu.
  - destruct (fl_bracket x Hx) as [_ Fx]. destruct (fl_bracket y Hy) as [Fy _].
    assert (2 ^ (binade x + 1) <= 2 ^ binade y) by (apply pow2_le; lia).
    lra.
Qed.

(** The binary64 rounding does not depend on the fraction that stands for
    the number. *)
Lemma binade_proper (x y : Q) : 0 < x -> x == y -> binade x = binade y.
Proof.
  intros Hx E. assert (Hy : 0 < y) by (now rewrite <- E).
  destruct (binade_spec y Hy) as [H1 H2].
  apply binade_unique; [now rewrite E|now rewrite E|exact Hx].
Qed.

Lemma fl_proper_pos (x y : Q) : 0 < x -> x == y -> fl x == fl y.
Proof.
  intros Hx E. assert (Hy : 0 < y) by (now rewrite <- E).
  rewrite (fl_of_pos x Hx), (fl_of_pos y Hy), (binade_proper x y Hx E).
  rewrite (round_half_even_proper (x / 2 ^ (binade y - 52))
             (y / 2 ^ (binade y - 52))) by (now rewrite E).
  reflexivity.
Qed.

Lemma fl_1 : fl 1 == 1.
Proof. vm_compute. reflexivity. Qed.

Lemma fl_100 : fl 100 == 100.
Proof. vm_compute. reflexivity. Qed.

(** At most 1 stays at most 1, at least 1 stays at least 1. *)
Lemma fl_le_1 (q : Q) : q <= 1 -> fl q <= 1.
Proof.
  intros H. destruct (Qlt_le_dec 0 q) as [Hq|Hq].
  - rewrite <- fl_1. now apply fl_mono_pos.
  - pose proof (fl_nonpos q Hq). lra.
Qed.

Lemma fl_ge_1 (q : Q) : 1 <= q -> 1 <= fl q.
Proof. intros H. rewrite <- fl_1. apply fl_mono_pos; [reflexivity|exact H]. Qed.

(** The nearest integer is within a half. *)
Lemma round_half_even_near (x : Q) :
  x - (1 # 2) <= inject_Z (round_half_even x)
  /\ inject_Z (round_half_even x) <= x + (1 # 2).
Proof.
  pose proof (Qfloor_le x) as Hlo. pose proof (Qlt_floor x) as Hhi.
  rewrite inject_Z_plus in Hhi. change (inject_Z 1) with 1 in Hhi.
  destruct (round_half_even_cases x) as [[-> H]|[-> H]].
  - lra.
  - rewrite inject_Z_plus. change (inject_Z 1) with 1. lra.
Qed.

(** A number less than a half away from an integer rounds to it. *)
Lemma round_half_even_inside (y : Q) (k : Z) :
  inject_Z k - (1 # 2) < y -> y < inject_Z k + (1 # 2) ->
  round_half_even y = k.
Proof.
  intros H1 H2. destruct (round_half_even_near y) as [L U].
  assert (A : inject_Z (round_half_even y) < inject_Z (k + 1)).
  { rewrite inject_Z_plus. change (inject_Z 1) with 1. lra. }
  assert (B : inject_Z (k - 1) < inject_Z (round_half_even y)).
  { assert (E : inject_Z (k - 1) == inject_Z k - 1)
      by (unfold Qeq; simpl; lia).
    rewrite E. lra. }
  rewrite <- Zlt_Qlt in A, B. lia.
Qed.

(** The relative error of the binary64 rounding is at most [2^-53]. *)
Lemma fl_error (q : Q) :
  0 < q ->
  q - q * (1 # 9007199254740992) <= fl q
  /\ fl q <= q + q * (1 # 9007199254740992).
Proof.
  intros Hq. rewrite (fl_of_pos q Hq).
  destruct (binade_spec q Hq) as [H1 _].
  pose proof (pow2_pos (binade q - 52)) as Hu.
  assert (Hue : 2 ^ (binade q - 52) == 2 ^ binade q * (1 # 4503599627370496)).
  { rewrite Qpower_minus by apply two_neq_0.
    change (2 ^ 52) with (4503599627370496 # 1). field. }
  destruct (round_half_even_near (q / 2 ^ (binade q - 52))) as [L U].
  assert (Hx : q / 2 ^ (binade q - 52) * 2 ^ (binade q - 52) == q).
  { field. intros H. rewrite H in Hu. discriminate Hu. }
  set (u := 2 ^ (binade q - 52)) in *. set (x := q / u) in *.
  set (r := inject_Z (round_half_even x)) in *.
  set (p := 2 ^ binade q) in *.
  nra.
Qed.

(** A whole number of days over 30 is never near a tie of the second
    decimal, so the binary64 quotient [days / 30.0] and the exact one round
    to the same hundredth. *)
Lemma round2_days_over_30 (d : Z) :
  (0 <= d < 2 ^ 40)%Z -> round2 (fl (d # 30)) = round2 (d # 30).
Proof.
  intros Hd. destruct (Z.eq_dec d 0%Z) as [->|Hne]; [reflexivity|].
  assert (Hq : 0 < d # 30) by (unfold Qlt; simpl; lia).
  destruct (fl_error (d # 30) Hq) as [L U].
  assert (Hb : d # 30 < 36650387593 # 1).
  { unfold Qlt. simpl. change (2 ^ 40)%Z with 1099511627776%Z in Hd. lia. }
  unfold round2. f_equal.
  pose proof (Z.div_mod (10 * d) 3 ltac:(lia)) as Hdm.
  pose proof (Z.mod_pos_bound (10 * d) 3 ltac:(lia)) as Hm.
  set (n := (10 * d / 3)%Z) in *. set (r := ((10 * d) mod 3)%Z) in *.
  assert (Hx : (d # 30) * inject_Z 100 == inject_Z n + (r # 3)).
  { unfold Qeq, Qmult, Qplus, inject_Z. simpl. lia. }
  change (inject_Z 100) with 100 in *.
  set (q := d # 30) in *. set (f := fl q) in *.
  assert (Hcases : r = 0%Z \/ r = 1%Z \/ r = 2%Z) by lia.
  destruct Hcases as [Hr|[Hr|Hr]]; rewrite Hr in Hx.
  - rewrite (round_half_even_inside (f * 100) n),
      (round_half_even_inside (q * 100) n); [reflexivity| | | |]; lra.
  - rewrite (round_half_even_inside (f * 100) n),
      (round_half_even_inside (q * 100) n); [reflexivity| | | |]; lra.
  - rewrite (round_half_even_inside (f * 100) (n + 1)),
      (round_half_even_inside (q * 100) (n + 1)); [reflexivity| | | |].
    all: rewrite inject_Z_plus; change (inject_Z 1) with 1; lra.
Qed.

End FloatFacts.

(** ** The first loop of [clean_scope] *)

Module LoopFacts.
Import PyDate PyDateFacts.

Lemma ymd2ord_ge_1 (y m d : Z) : 1 ≤ y → 1 ≤ d → 1 ≤ ymd2ord y m d.
Proof.
  intros Hy Hd. unfold ymd2ord.
  pose proof (days_before_month_nonneg y m).
  pose proof (days_before_year_mono 1 y Hy) as Hm.
  change (days_before_year 1) with 0 in Hm. lia.
Qed.

Lemma ord2ymd_dec_9999 (n d : Z) :
  1 ≤ n ≤ MAXORD → ord2ymd n = (9999, 12, d) → ORD_DEC_9999 ≤ n.
Proof.
  intros Hn E.
  destruct (ord2ymd_spec n Hn) as (y & m & d' & E' & _ & _ & Hd & Ho).
  rewrite E in E'. injection E' as <- <- <-.
  rewrite <- Ho. unfold ORD_DEC_9999.
  change (ymd2ord 9999 12 d) with (3652028 + d). lia.
Qed.

Lemma month_effort_loop_some (fuel : nat) (s e cur : Z)
    (acc : gmap (Z * Z) Q) :
  1 ≤ cur → e < ORD_DEC_9999 → is_Some (month_effort_loop fuel s e cur acc).
Proof.
  revert cur acc. induction fuel as [|fuel IH]; intros cur acc Hc He; [by eexists|].
  simpl. destruct (Z.leb_spec cur e) as [Hle|]; [|by eexists].
  assert (Hcur : 1 ≤ cur ≤ MAXORD) by (unfold ORD_DEC_9999, MAXORD in *; lia).
  destruct (ord2ymd_spec cur Hcur) as (y & m & d & E & Hy & Hm & Hd & Ho).
  unfold year_of, month_of. rewrite E. simpl.
  destruct (Z.eqb_spec m 12) as [->|Hne].
  - destruct (Z.leb_spec (y + 1) MAXYEAR) as [Hy1|Hy1].
    + apply IH; [|done]. apply ymd2ord_ge_1; lia.
    + assert (y = 9999) as -> by (unfold MAXYEAR in *; lia).
      pose proof (ord2ymd_dec_9999 cur d Hcur E). lia.
  - apply IH; [|done]. apply ymd2ord_ge_1; lia.
Qed.

Lemma month_effort_some (s e : Z) :
  1 ≤ s → e < ORD_DEC_9999 → is_Some (month_effort s e).
Proof. intros. by apply month_effort_loop_some. Qed.

Lemma add_days_some (dt k : Z) :
  1 ≤ dt + k ≤ MAXORD → add_days dt k = Some (dt + k).
Proof.
  intros H. unfold add_days.
  destruct (Z.leb_spec 1 (dt + k)); [|lia].
  destruct (Z.leb_spec (dt + k) MAXORD); [done|lia].
Qed.

Lemma allocate_role_spec (month_alloc : gmap (Z * Z) Q)
    (rmm : gmap string (gmap (Z * Z) Q)) (ro : list string) (role : string) :
  keys_are rmm ro →
  ∃ rmm', allocate_role month_alloc (rmm, ro) role = (rmm', add_role ro role)
          ∧ keys_are rmm' (add_role ro role).
Proof.
  intros Hk. unfold allocate_role, add_role.
  destruct (rmm !! role) as [months|] eqn:E.
  - assert (role ∈ ro) by (apply Hk; eauto).
    rewrite bool_decide_eq_true_2 by done.
    eexists. split; [done|]. intros r. rewrite lookup_alter_is_Some. exact (Hk r).
  - assert (role ∉ ro).
    { intros Hin. apply Hk in Hin. rewrite E in Hin. by destruct Hin. }
    rewrite bool_decide_eq_false_2 by done.
    eexists. split; [done|]. intros r. rewrite lookup_alter_is_Some.
    rewrite lookup_insert_is_Some, elem_of_app, list_elem_of_singleton.
    rewrite (Hk r). destruct (decide (role = r)); intuition congruence.
Qed.

Lemma allocate_roles_spec (month_alloc : gmap (Z * Z) Q) (roles : list string)
    (rmm : gmap string (gmap (Z * Z) Q)) (ro : list string) :
  keys_are rmm ro →
  ∃ rmm', foldl (allocate_role month_alloc) (rmm, ro) roles
          = (rmm', foldl add_role ro roles)
          ∧ keys_are rmm' (foldl add_role ro roles).
Proof.
  revert rmm ro. induction roles as [|r roles IH]; intros rmm ro Hk; cbn [foldl].
  - eauto.
  - destruct (allocate_role_spec month_alloc rmm ro r Hk) as (rmm1 & -> & Hk1).
    by apply IH.
Qed.

Lemma parse_end_ge (today : Z) (a : activity_in) :
  start_of today a ≤ end_of today a.
Proof.
  unfold end_of. cbv zeta.
  destruct (Z.ltb_spec (_parse_date_safe (jget (in_End_Date a))
                          (start_of today a + 30)) (start_of today a)); lia.
Qed.

Lemma process_activity_supported (today : Z) (st : loop_state) (idx : nat)
    (a : activity_in) :
  supported today a →
  keys_are (ls_role_month_map st) (ls_role_order st) →
  ∃ st', process_activity today st idx a = Some st'
    ∧ ls_activities st' = ls_activities st ++ [dt_of today idx a]
    ∧ ls_start_dates st' = ls_start_dates st ++ [start_of today a]
    ∧ ls_end_dates st' = ls_end_dates st ++ [end_of today a]
    ∧ ls_role_order st' = foldl add_role (ls_role_order st) (roles_of a)
    ∧ keys_are (ls_role_month_map st') (ls_role_order st').
Proof.
  intros [Hs He] Hk. pose proof (parse_end_ge today a) as Hse.
  unfold process_activity.
  fold (owner_of a). fold (raw_deps_of a). fold (start_of today a).
  rewrite add_days_some
    by (unfold ORD_Y1000, ORD_DEC_9999, MAXORD in *; lia).
  cbn [mbind option_bind].
  fold (end_of today a).
  destruct (month_effort_some (start_of today a) (end_of today a))
    as [month_alloc Hme]; [unfold ORD_Y1000 in *; lia|done|].
  change (if _parse_date_safe (jget (in_End_Date a)) (start_of today a + 30)
             <? start_of today a
          then start_of today a + 30
          else _parse_date_safe (jget (in_End_Date a)) (start_of today a + 30))
    with (end_of today a).
  rewrite Hme. cbn [mbind option_bind].
  destruct (allocate_roles_spec month_alloc (owner_of a :: raw_deps_of a)
              _ _ Hk) as (rmm' & Hfold & Hk').
  rewrite Hfold.
  eexists. split; [done|]. simpl. done.
Qed.

Lemma process_activities_supported (today : Z) (l : list activity_in)
    (st : loop_state) (idx : nat) :
  Forall (supported today) l →
  keys_are (ls_role_month_map st) (ls_role_order st) →
  ∃ st', process_activities today st idx l = Some st'
    ∧ ls_activities st'
      = ls_activities st ++ imap (λ i, dt_of today (idx + i)) l
    ∧ ls_start_dates st' = ls_start_dates st ++ (start_of today <$> l)
    ∧ ls_end_dates st' = ls_end_dates st ++ (end_of today <$> l)
    ∧ ls_role_order st'
      = foldl add_role (ls_role_order st) (concat (roles_of <$> l))
    ∧ keys_are (ls_role_month_map st') (ls_role_order st').
Proof.
  revert st idx. induction l as [|a l IH]; intros st idx Hall Hk.
  - exists st. simpl. rewrite !app_nil_r. done.
  - inversion Hall as [|?? Ha Hl]; subst.
    destruct (process_activity_supported today st idx a Ha Hk)
      as (st1 & E1 & Ha1 & Hs1 & He1 & Hr1 & Hk1).
    destruct (IH st1 (S idx) Hl Hk1) as (st' & E' & Ha' & Hs' & He' & Hr' & Hk').
    exists st'. simpl. rewrite E1. cbn [mbind option_bind].
    split; [done|].
    split; [|split; [|split; [|split; [|done]]]].
    + rewrite Ha', Ha1, <- app_assoc. f_equal. simpl. f_equal.
      * f_equal. lia.
      * apply imap_ext. intros i x _. simpl. f_equal. lia.
    + by rewrite Hs', Hs1, <- app_assoc.
    + by rewrite He', He1, <- app_assoc.
    + rewrite Hr', Hr1. simpl concat. by rewrite foldl_app.
Qed.

Lemma add_days_inv (dt k r : Z) : add_days dt k = Some r → r = dt + k.
Proof. unfold add_days. case_match; congruence. Qed.

(** Whenever a turn of the first loop completes, it has done this. *)
Lemma process_activity_inv (today : Z) (st st' : loop_state) (idx : nat)
    (a : activity_in) :
  process_activity today st idx a = Some st' →
  keys_are (ls_role_month_map st) (ls_role_order st) →
  ls_activities st' = ls_activities st ++ [dt_of today idx a]
  ∧ ls_start_dates st' = ls_start_dates st ++ [start_of today a]
  ∧ ls_end_dates st' = ls_end_dates st ++ [end_of today a]
  ∧ ls_role_order st' = foldl add_role (ls_role_order st) (roles_of a)
  ∧ keys_are (ls_role_month_map st') (ls_role_order st').
Proof.
  intros E Hk. unfold process_activity in E.
  fold (owner_of a) in E. fold (raw_deps_of a) in E.
  fold (start_of today a) in E.
  destruct (add_days (start_of today a) 30) as [fb|] eqn:Efb; [|done].
  apply add_days_inv in Efb. subst fb. cbn [mbind option_bind] in E.
  change (if _parse_date_safe (jget (in_End_Date a)) (start_of today a + 30)
             <? start_of today a
          then start_of today a + 30
          else _parse_date_safe (jget (in_End_Date a)) (start_of today a + 30))
    with (end_of today a) in E.
  destruct (month_effort (start_of today a) (end_of today a))
    as [month_alloc|]; [|done].
  cbn [mbind option_bind] in E.
  destruct (allocate_roles_spec month_alloc (owner_of a :: raw_deps_of a)
              _ _ Hk) as (rmm' & Hfold & Hk').
  rewrite Hfold in E. injection E as <-. simpl. done.
Qed.

Lemma process_activities_inv (today : Z) (l : list activity_in)
    (st st' : loop_state) (idx : nat) :
  process_activities today st idx l = Some st' →
  keys_are (ls_role_month_map st) (ls_role_order st) →
  ls_activities st'
  = ls_activities st ++ imap (λ i, dt_of today (idx + i)) l
  ∧ ls_start_dates st' = ls_start_dates st ++ (start_of today <$> l)
  ∧ ls_end_dates st' = ls_end_dates st ++ (end_of today <$> l)
  ∧ ls_role_order st'
    = foldl add_role (ls_role_order st) (concat (roles_of <$> l))
  ∧ keys_are (ls_role_month_map st') (ls_role_order st').
Proof.
  revert st idx. induction l as [|a l IH]; intros st idx E Hk.
  - injection E as <-. simpl. rewrite !app_nil_r. done.
  - simpl in E.
    destruct (process_activity today st idx a) as [st1|] eqn:E1; [|done].
    cbn [mbind option_bind] in E.
    destruct (process_activity_inv today st st1 idx a E1 Hk)
      as (Ha1 & Hs1 & He1 & Hr1 & Hk1).
    destruct (IH st1 (S idx) E Hk1) as (Ha' & Hs' & He' & Hr' & Hk').
    split; [|split; [|split; [|split; [|done]]]].
    + rewrite Ha', Ha1, <- app_assoc. f_equal. simpl. f_equal.
      * f_equal. lia.
      * apply imap_ext. intros i x _. simpl. f_equal. lia.
    + by rewrite Hs', Hs1, <- app_assoc.
    + by rewrite He', He1, <- app_assoc.
    + by rewrite Hr', Hr1, fmap_cons, concat_cons, foldl_app.
Qed.

Lemma keys_are_init : keys_are (ls_role_month_map loop_init) (ls_role_order loop_init).
Proof.
  intros r. simpl. rewrite lookup_empty. split; [by intros [? ?]|].
  by intros ?%elem_of_nil.
Qed.

(** The role order: no role twice, and exactly the roles met. *)
Lemma add_role_NoDup (ro : list string) (r : string) :
  NoDup ro → NoDup (add_role ro r).
Proof.
  intros H. unfold add_role. case_bool_decide; [done|].
  apply NoDup_app. split; [done|]. split; [|apply NoDup_singleton].
  intros x Hx ->%list_elem_of_singleton. done.
Qed.

Lemma add_role_elem (ro : list string) (r x : string) :
  x ∈ add_role ro r ↔ x ∈ ro ∨ x = r.
Proof.
  unfold add_role. case_bool_decide.
  - split; [auto|]. intros [?| ->]; done.
  - by rewrite elem_of_app, list_elem_of_singleton.
Qed.

Lemma foldl_add_role_NoDup (rs ro : list string) :
  NoDup ro → NoDup (foldl add_role ro rs).
Proof.
  revert ro. induction rs as [|r rs IH]; intros ro H; simpl; [done|].
  by apply IH, add_role_NoDup.
Qed.

Lemma foldl_add_role_elem (rs ro : list string) (x : string) :
  x ∈ foldl add_role ro rs ↔ x ∈ ro ∨ x ∈ rs.
Proof.
  revert ro. induction rs as [|r rs IH]; intros ro; simpl.
  - split; [auto|]. intros [?|?%elem_of_nil]; done.
  - rewrite IH, add_role_elem, elem_of_cons. tauto.
Qed.

Lemma elem_of_concat (x : string) (ls : list (list string)) :
  x ∈ concat ls ↔ ∃ l, x ∈ l ∧ l ∈ ls.
Proof.
  induction ls as [|l ls IH]; simpl.
  - split; [by intros ?%elem_of_nil|]. by intros (l & _ & ?%elem_of_nil).
  - rewrite elem_of_app, IH. split.
    + intros [?|(l' & ? & ?)]; [exists l; split; [done|left]|].
      exists l'. split; [done|by right].
    + intros (l' & Hx & [->|?]%elem_of_cons); [by left|]. right. eauto.
Qed.

Lemma role_order_of_NoDup (l : list activity_in) : NoDup (role_order_of l).
Proof. apply foldl_add_role_NoDup, NoDup_nil_2. Qed.

Lemma role_order_of_elem (l : list activity_in) (x : string) :
  x ∈ role_order_of l ↔ ∃ a, a ∈ l ∧ x ∈ roles_of a.
Proof.
  unfold role_order_of. rewrite foldl_add_role_elem, elem_of_nil.
  rewrite elem_of_concat. split.
  - intros [[]|(rs & Hx & Hrs)].
    apply list_elem_of_fmap in Hrs as (a & -> & Ha). eauto.
  - intros (a & Ha & Hx). right. exists (roles_of a). split; [done|].
    apply list_elem_of_fmap. eauto.
Qed.


End LoopFacts.

(** ** Sorting by start date *)

Module SortFacts.

Lemma insert_by_start_perm (a : activity_dt) (l : list activity_dt) :
  insert_by_start a l ≡ₚ a :: l.
Proof.
  induction l as [|b l IH]; simpl; [done|].
  destruct (dt_Start_Date a <=? dt_Start_Date b); [done|].
  rewrite IH. apply Permutation_swap.
Qed.

Lemma sort_by_start_perm (l : list activity_dt) : sort_by_start l ≡ₚ l.
Proof.
  induction l as [|a l IH]; [done|]. simpl.
  by rewrite insert_by_start_perm, IH.
Qed.

Lemma insert_by_start_sorted (a : activity_dt) (l : list activity_dt) :
  Sorted start_le l → Sorted start_le (insert_by_start a l).
Proof.
  induction l as [|b l IH]; intros Hs; simpl.
  - repeat constructor.
  - destruct (Z.leb_spec (dt_Start_Date a) (dt_Start_Date b)) as [Hle|Hgt].
    + constructor; [done|]. by constructor.
    + inversion Hs as [|?? Hl Hhd]; subst.
      constructor; [by apply IH|].
      destruct l as [|c l]; simpl.
      * constructor. unfold start_le. lia.
      * destruct (dt_Start_Date a <=? dt_Start_Date c).
        -- constructor. unfold start_le. lia.
        -- inversion Hhd; subst. by constructor.
Qed.

Lemma sort_by_start_sorted (l : list activity_dt) :
  Sorted start_le (sort_by_start l).
Proof.
  induction l as [|a l IH]; simpl; [constructor|].
  by apply insert_by_start_sorted.
Qed.

(** A list already in order is left as it is: the sort is stable. *)
Lemma sort_by_start_id (l : list activity_dt) :
  Sorted start_le l → sort_by_start l = l.
Proof.
  induction l as [|a l IH]; [done|]. intros Hs.
  inversion Hs as [|?? Hl Hhd]; subst. simpl. rewrite IH by done.
  destruct l as [|b l]; [done|]. simpl.
  inversion Hhd as [|?? Hab]; subst. unfold start_le in Hab.
  destruct (Z.leb_spec (dt_Start_Date a) (dt_Start_Date b)); [done|lia].
Qed.

#[global] Instance start_le_trans : Transitive start_le.
Proof. intros a b c. unfold start_le. lia. Qed.

Lemma sort_by_start_strongly (l : list activity_dt) :
  StronglySorted start_le (sort_by_start l).
Proof. apply Sorted_StronglySorted; [apply _|apply sort_by_start_sorted]. Qed.

Lemma Sorted_imap_start (l : list activity_dt)
    (f : nat → activity_dt → activity_dt) :
  (∀ i a, dt_Start_Date (f i a) = dt_Start_Date a) →
  Sorted start_le l → Sorted start_le (imap f l).
Proof.
  intros Hf. revert f Hf. induction l as [|a l IH]; intros f Hf Hs; simpl.
  - constructor.
  - inversion Hs as [|?? Hl Hhd]; subst.
    constructor; [apply IH; [intros; apply Hf|done]|].
    destruct l as [|b l]; simpl; constructor.
    inversion Hhd; subst. unfold start_le in *. by rewrite !Hf.
Qed.

End SortFacts.

(** ** Normal activities and the round trip through the formatted dates *)

Module NormalFacts.
Import PyDate PyDateFacts PyStrFacts LoopFacts.

Lemma strftime_truthy (dt : Z) : PyStr.truthy (strftime dt) = true.
Proof.
  unfold strftime. destruct (ord2ymd dt) as [[y m] d].
  unfold fmt_year. by repeat case_match.
Qed.

Lemma parse_date_strftime (s fallback : Z) :
  ORD_Y1000 ≤ s ≤ MAXORD →
  _parse_date_safe (Some (strftime s)) fallback = s.
Proof.
  intros Hs. unfold _parse_date_safe.
  by rewrite strftime_truthy, strptime_strftime.
Qed.

Lemma raw_deps_of_ok (a : activity_in) :
  Forall role_ok (raw_deps_of a)
  ∧ Forall (λ r, PyStr.lower r ≠ PyStr.lower (owner_of a)) (raw_deps_of a).
Proof.
  unfold raw_deps_of. split.
  - apply Forall_forall. intros r [_ Hr]%list_elem_of_filter.
    pose proof (split_roles_ok (PyStr.or_else (jget (in_Resources a)) "")) as H.
    rewrite Forall_forall in H. by apply H.
  - apply Forall_forall. by intros r [Hr _]%list_elem_of_filter.
Qed.

Lemma safe_str_stripped (val : option string) :
  PyStr.strip (_safe_str val) = _safe_str val.
Proof. destruct val; simpl; [apply strip_idem|done]. Qed.

Lemma dt_of_normal (today : Z) (idx : nat) (a : activity_in) :
  supported today a → normal_dt (dt_of today idx a).
Proof.
  intros [Hs He]. pose proof (parse_end_ge today a).
  destruct (raw_deps_of_ok a) as [Hok Hne].
  unfold normal_dt. simpl.
  split; [apply safe_str_stripped|]. split; [apply safe_str_stripped|].
  split; [by apply or_else_is_truthy|].
  split; [by exists (raw_deps_of a)|]. done.
Qed.

Lemma set_dt_ID_normal (idx : nat) (a : activity_dt) :
  normal_dt a → normal_dt (set_dt_ID idx a).
Proof. done. Qed.

Ltac read_back :=
  cbn [to_input renumber jget in_Activities in_Description in_Owner
       in_Resources in_Start_Date in_End_Date Activities Description Owner
       Resources Start_Date End_Date].

Section ReadBack.
Context (today : Z) (i : nat) (a : activity_dt) (Ha : normal_dt a).

Lemma owner_of_to_input : owner_of (to_input (renumber i a)) = dt_Owner a.
Proof.
  destruct Ha as (_ & _ & Ho & _). unfold owner_of. read_back.
  by apply or_else_truthy.
Qed.

Lemma split_roles_resources :
  split_roles (dt_Resources a) = split_roles (dt_Resources a)
  ∧ ∃ deps, split_roles (dt_Resources a) = deps
            ∧ dt_Resources a = PyStr.join ", " deps
            ∧ Forall (λ r, PyStr.lower r ≠ PyStr.lower (dt_Owner a)) deps.
Proof.
  destruct Ha as (_ & _ & _ & (deps & Hok & Hne & Hr) & _).
  split; [done|]. exists deps. rewrite Hr at 1.
  by rewrite split_roles_join.
Qed.

Lemma or_else_resources :
  split_roles (PyStr.or_else (Some (dt_Resources a)) "")
  = split_roles (dt_Resources a).
Proof.
  unfold PyStr.or_else. by destruct (dt_Resources a).
Qed.

Lemma raw_deps_of_to_input :
  raw_deps_of (to_input (renumber i a)) = split_roles (dt_Resources a).
Proof.
  unfold raw_deps_of. rewrite owner_of_to_input. read_back.
  rewrite or_else_resources.
  destruct split_roles_resources as (_ & deps & -> & _ & Hne).
  clear Ha. induction Hne as [|r deps Hr _ IH]; [done|].
  rewrite filter_cons_True by done. by rewrite IH.
Qed.

Lemma roles_of_to_input :
  roles_of (to_input (renumber i a))
  = dt_Owner a :: split_roles (dt_Resources a).
Proof. unfold roles_of. by rewrite owner_of_to_input, raw_deps_of_to_input. Qed.

Lemma start_of_to_input :
  start_of today (to_input (renumber i a)) = dt_Start_Date a.
Proof.
  destruct Ha as (_ & _ & _ & _ & Hs & Hse & He & _).
  unfold start_of. read_back. apply parse_date_strftime.
  unfold ORD_DEC_9999, MAXORD in *. lia.
Qed.

Lemma end_of_to_input :
  end_of today (to_input (renumber i a)) = dt_End_Date a.
Proof.
  destruct Ha as (_ & _ & _ & _ & Hs & Hse & He & _).
  unfold end_of. rewrite start_of_to_input. read_back.
  rewrite parse_date_strftime
    by (unfold ORD_DEC_9999, MAXORD in *; lia).
  destruct (Z.ltb_spec (dt_End_Date a) (dt_Start_Date a)); [lia|done].
Qed.

Lemma supported_to_input : supported today (to_input (renumber i a)).
Proof.
  destruct Ha as (_ & _ & _ & _ & Hs & Hse & He & _).
  unfold supported. by rewrite start_of_to_input, end_of_to_input.
Qed.

Lemma dt_of_to_input (idx : nat) :
  dt_of today idx (to_input (renumber i a)) = set_dt_ID idx a.
Proof.
  unfold dt_of, set_dt_ID.
  rewrite owner_of_to_input, raw_deps_of_to_input, start_of_to_input,
    end_of_to_input.
  destruct split_roles_resources as (_ & deps & -> & <- & _).
  destruct Ha as (Hn & Hd & _ & _ & _ & _ & _ & <-).
  read_back. unfold _safe_str. by rewrite Hn, Hd.
Qed.

Lemma usage_of_activity_renumber (total_months : nat) (min_start : Z)
    (u : gmap string (list Z)) :
  usage_of_activity today total_months min_start u (renumber i a)
  = usage_of_dt total_months min_start u a.
Proof.
  destruct Ha as (_ & _ & Ho & _ & Hs & Hse & He & _).
  unfold usage_of_activity, usage_of_dt. read_back.
  rewrite (parse_date_strftime (dt_Start_Date a))
    by (unfold ORD_DEC_9999, MAXORD in *; lia).
  rewrite add_days_some
    by (unfold ORD_Y1000, ORD_DEC_9999, MAXORD in *; lia).
  cbn [mbind option_bind].
  rewrite parse_date_strftime
    by (unfold ORD_DEC_9999, MAXORD in *; lia).
  destruct (Z.ltb_spec (dt_End_Date a) (dt_Start_Date a)); [lia|].
  by rewrite or_else_truthy, or_else_resources.
Qed.

End ReadBack.

End NormalFacts.

(** ** The second pass and the whole of [clean_scope] on supported input *)

Module CleanFacts.
Import PyDate PyDateFacts PyStrFacts LoopFacts SortFacts NormalFacts.

Lemma foldl_min_le (l : list Z) (x : Z) :
  foldl Z.min x l ≤ x ∧ ∀ y, y ∈ l → foldl Z.min x l ≤ y.
Proof.
  revert x. induction l as [|z l IH]; intros x; simpl.
  - split; [lia|]. by intros y ?%elem_of_nil.
  - destruct (IH (Z.min x z)) as [H1 H2]. split; [lia|].
    intros y [->|Hy]%elem_of_cons; [lia|auto].
Qed.

Lemma foldl_min_bound (l : list Z) (x b : Z) :
  b ≤ x → Forall (λ y, b ≤ y) l → b ≤ foldl Z.min x l.
Proof.
  revert x. induction l as [|z l IH]; intros x Hx Hl; simpl; [done|].
  inversion Hl; subst. apply IH; [lia|done].
Qed.

Lemma foldl_max_ge (l : list Z) (x : Z) :
  x ≤ foldl Z.max x l ∧ ∀ y, y ∈ l → y ≤ foldl Z.max x l.
Proof.
  revert x. induction l as [|z l IH]; intros x; simpl.
  - split; [lia|]. by intros y ?%elem_of_nil.
  - destruct (IH (Z.max x z)) as [H1 H2]. split; [lia|].
    intros y [->|Hy]%elem_of_cons; [lia|auto].
Qed.

Lemma foldl_max_bound (l : list Z) (x b : Z) :
  x < b → Forall (λ y, y < b) l → foldl Z.max x l < b.
Proof.
  revert x. induction l as [|z l IH]; intros x Hx Hl; simpl; [done|].
  inversion Hl; subst. apply IH; [lia|done].
Qed.

Lemma min_or_le (l : list Z) (d y : Z) : y ∈ l → min_or l d ≤ y.
Proof.
  destruct l as [|x l]; [by intros ?%elem_of_nil|]. simpl.
  destruct (foldl_min_le l x) as [H1 H2].
  intros [->|?]%elem_of_cons; auto.
Qed.

Lemma max_or_ge (l : list Z) (d y : Z) : y ∈ l → y ≤ max_or l d.
Proof.
  destruct l as [|x l]; [by intros ?%elem_of_nil|]. simpl.
  destruct (foldl_max_ge l x) as [H1 H2].
  intros [->|?]%elem_of_cons; auto.
Qed.

Lemma min_or_bound (l : list Z) (d b : Z) :
  l ≠ [] → Forall (λ y, b ≤ y) l → b ≤ min_or l d.
Proof.
  destruct l as [|x l]; [done|]. intros _ Hl. inversion Hl; subst.
  by apply foldl_min_bound.
Qed.

Lemma max_or_bound (l : list Z) (d b : Z) :
  l ≠ [] → Forall (λ y, y < b) l → max_or l d < b.
Proof.
  destruct l as [|x l]; [done|]. intros _ Hl. inversion Hl; subst.
  by apply foldl_max_bound.
Qed.

Lemma total_months_span (min_start max_end : Z) :
  min_start ≤ max_end →
  30 * Z.of_nat (total_months_of min_start max_end)
  ≤ Z.max 30 (max_end - min_start + 29).
Proof.
  intros H. unfold total_months_of, PyNum.ceil_div30.
  rewrite Z2Nat.id by lia.
  Z.div_mod_to_equations. lia.
Qed.

Lemma total_months_pos (min_start max_end : Z) :
  (1 ≤ total_months_of min_start max_end)%nat.
Proof. unfold total_months_of. lia. Qed.

Lemma usage_of_months_some (total_months : nat) (min_start s e : Z)
    (roles : list string) (m_idxs : list nat) (u : gmap string (list Z)) :
  1 ≤ min_start →
  Forall (λ m_idx, min_start + (Z.of_nat m_idx + 1) * 30 ≤ MAXORD) m_idxs →
  is_Some (usage_of_months total_months min_start s e roles m_idxs u).
Proof.
  intros Hms. revert u. induction m_idxs as [|m_idx rest IH]; intros u Hall.
  - by eexists.
  - inversion Hall; subst. simpl.
    rewrite !add_days_some by lia. cbn [mbind option_bind]. by apply IH.
Qed.

Lemma usage_of_dts_some (total_months : nat) (min_start : Z)
    (l : list activity_dt) (u : gmap string (list Z)) :
  1 ≤ min_start → min_start + Z.of_nat total_months * 30 ≤ MAXORD →
  is_Some (usage_of_dts total_months min_start u l).
Proof.
  intros Hms Hk. revert u. induction l as [|a l IH]; intros u; [by eexists|].
  simpl. unfold usage_of_dt.
  destruct (usage_of_months_some total_months min_start (dt_Start_Date a)
              (dt_End_Date a) (dt_Owner a :: split_roles (dt_Resources a))
              (seq 0 total_months) u Hms) as [u' Hu'].
  { apply Forall_forall. intros m Hm%elem_of_seq. nia. }
  rewrite Hu'. cbn [mbind option_bind]. apply IH.
Qed.

Lemma usage_of_activities_renumber (today : Z) (total_months : nat)
    (min_start : Z) (l : list activity_dt) (k : nat)
    (u : gmap string (list Z)) :
  Forall normal_dt l →
  usage_of_activities today total_months min_start u
    (imap (λ i, renumber (k + i)) l)
  = usage_of_dts total_months min_start u l.
Proof.
  revert k u. induction l as [|a l IH]; intros k u Hall; [done|].
  inversion Hall; subst. simpl.
  rewrite usage_of_activity_renumber by done.
  destruct (usage_of_dt total_months min_start u a) as [u'|]; [|done].
  cbn [mbind option_bind].
  rewrite <- (IH (S k)) by done. f_equal. apply imap_ext.
  intros i x _. simpl. f_equal. lia.
Qed.

Lemma first_pass_normal (today : Z) (l : list activity_in) :
  Forall (supported today) l → Forall normal_dt (first_pass today l).
Proof.
  intros Hall. unfold first_pass. generalize 1%nat.
  induction Hall as [|a l Ha _ IH]; intros k; simpl; [constructor|].
  constructor; [by apply dt_of_normal|].
  rewrite (imap_ext _ (λ i, dt_of today (S k + i))); [apply IH|].
  intros i x _. simpl. f_equal. lia.
Qed.

Lemma sort_normal (l : list activity_dt) :
  Forall normal_dt l → Forall normal_dt (sort_by_start l).
Proof. intros H. by rewrite sort_by_start_perm. Qed.

Lemma span_supported (today : Z) (l : list activity_in) :
  l ≠ [] → Forall (supported today) l →
  ORD_Y1000 ≤ min_start_of today l
  ∧ min_start_of today l ≤ max_end_of today l
  ∧ max_end_of today l < ORD_DEC_9999.
Proof.
  intros Hne Hall. unfold max_end_of, min_start_of.
  assert (Hs : Forall (λ y, ORD_Y1000 ≤ y) (start_of today <$> l)).
  { apply Forall_fmap. eapply Forall_impl; [exact Hall|]. by intros a [? ?]. }
  assert (He : Forall (λ y, y < ORD_DEC_9999) (end_of today <$> l)).
  { apply Forall_fmap. eapply Forall_impl; [exact Hall|]. by intros a [? ?]. }
  split; [apply min_or_bound; [by destruct l|done]|].
  split; [|apply max_or_bound; [by destruct l|done]].
  destruct l as [|a l]; [done|].
  pose proof (min_or_le (start_of today <$> a :: l) today (start_of today a)
                ltac:(rewrite fmap_cons; left)).
  pose proof (max_or_ge (end_of today <$> a :: l)
                (min_or (start_of today <$> a :: l) today) (end_of today a)
                ltac:(rewrite fmap_cons; left)).
  pose proof (parse_end_ge today a). lia.
Qed.

Lemma day_usage_some (today : Z) (l : list activity_in) :
  Forall (supported today) l → is_Some (day_usage today l).
Proof.
  intros Hall. unfold day_usage.
  destruct l as [|a l]; [by eexists|].
  destruct (span_supported today (a :: l) ltac:(done) Hall) as (H1 & H2 & H3).
  apply usage_of_dts_some; [unfold ORD_Y1000 in *; lia|].
  unfold months_of.
  pose proof (total_months_span _ _ H2).
  unfold ORD_DEC_9999, MAXORD in *. lia.
Qed.

(** [clean_scope] on supported input, in closed form. *)
Lemma clean_scope_with_supported (today : Z) (dynamic : gmap string Q)
    (data : scope_in) :
  Forall (supported today) (activities data) →
  ∃ usage,
    day_usage today (activities data) = Some usage
    ∧ clean_scope_with today dynamic data
      = Some {|
          out_activities :=
            imap renumber (sort_by_start (first_pass today (activities data)));
          out_resourcing_plan :=
            plan_of (months_of today (activities data)) usage dynamic
              (discount_percentage data) (role_order_of (activities data));
          out_Duration :=
            duration_of (min_start_of today (activities data))
              (max_end_of today (activities data));
          out_discount_percentage := discount_percentage data |}.
Proof.
  intros Hall.
  destruct (day_usage_some today (activities data) Hall) as [usage Hu].
  exists usage. split; [done|].
  destruct (process_activities_supported today (activities data) loop_init 1
              Hall) as (st & E & Ha & Hs & He & Hr & _).
  { apply keys_are_init. }
  cbn [loop_init ls_activities ls_start_dates ls_end_dates ls_role_order app]
    in Ha, Hs, He, Hr.
  unfold clean_scope_with. rewrite E. cbn [mbind option_bind].
  rewrite Ha, Hs, He, Hr.
  fold (first_pass today (activities data)).
  fold (role_order_of (activities data)).
  fold (min_start_of today (activities data)).
  fold (max_end_of today (activities data)).
  fold (months_of today (activities data)).
  rewrite (usage_of_activities_renumber today _ _ _ 0)
    by (apply sort_normal, first_pass_normal, Hall).
  fold (day_usage today (activities data)). rewrite Hu.
  done.
Qed.

End CleanFacts.

(** ** The resourcing plan *)

Module PlanFacts.
Import PyDate PyDateFacts PyStrFacts LoopFacts SortFacts NormalFacts CleanFacts.

Lemma plan_of_imap (total_months : nat) (usage : gmap string (list Z))
    (dynamic : gmap string Q) (discount : option Q) (role_order : list string) :
  plan_of total_months usage dynamic discount role_order
  = imap (entry_of total_months usage dynamic discount) role_order.
Proof.
  unfold plan_of, entry_of. cbv zeta.
  destruct (discount_in_force discount) as [d|]; [|done].
  generalize (build_entry total_months (fmap (M := gmap string) (fmap quantize) usage) dynamic).
  intros f. revert f. induction role_order as [|r ro IH]; intros f; [done|].
  simpl. f_equal. apply IH.
Qed.

Lemma quantized_months (total_months : nat) (usage : gmap string (list Z))
    (role : string) :
  default (replicate total_months (inject_Z 0))
    (fmap (M := gmap string) (fmap quantize) usage !! role)
  = quantize <$> days_of total_months usage role.
Proof.
  unfold days_of, zero_months. rewrite lookup_fmap.
  destruct (usage !! role) as [months|]; simpl; [done|].
  by rewrite fmap_replicate.
Qed.

(** What an entry of the plan holds. *)
Lemma entry_of_fields (total_months : nat) (usage : gmap string (list Z))
    (dynamic : gmap string Q) (discount : option Q) (i : nat) (role : string) :
  let entry := entry_of total_months usage dynamic discount i role in
  pe_ID entry = S i
  ∧ pe_Resources entry = role
  ∧ pe_Rate entry = resolve_rate dynamic role
  ∧ pe_months entry = quantize <$> days_of total_months usage role
  ∧ pe_Efforts entry = PyNum.Qsum (pe_months entry)
  ∧ pe_Cost entry = cost_of (pe_Efforts entry) (pe_Rate entry) discount.
Proof.
  cbv zeta. unfold entry_of, cost_of. cbv zeta.
  destruct (discount_in_force discount) as [d|]; simpl;
    rewrite quantized_months; done.
Qed.

Lemma elem_of_imap_entry {A B : Type} (f : nat → A → B) (l : list A) (y : B) :
  y ∈ imap f l → ∃ i x, l !! i = Some x ∧ y = f i x.
Proof.
  revert f. induction l as [|x l IH]; intros f; simpl.
  - by intros ?%elem_of_nil.
  - intros [->|H]%elem_of_cons; [by exists 0%nat, x|].
    destruct (IH _ H) as (i & x' & ? & ->). by exists (S i), x'.
Qed.

Lemma allocation_imap (f : nat → string → plan_entry) (g : string → list Q)
    (ro : list string) (role : string) :
  (∀ i r, pe_Resources (f i r) = r ∧ pe_months (f i r) = g r) →
  allocation (imap f ro) role
  = if bool_decide (role ∈ ro) then Some (g role) else None.
Proof.
  intros Hf. unfold allocation. revert f Hf.
  induction ro as [|r ro IH]; intros f Hf; [done|].
  simpl. destruct (decide (r = role)) as [->|Hne].
  - rewrite filter_cons_True by apply Hf. simpl.
    rewrite bool_decide_eq_true_2 by left. f_equal. apply Hf.
  - rewrite filter_cons_False by (by rewrite (proj1 (Hf _ _))).
    rewrite IH by (intros; apply Hf).
    rewrite (bool_decide_ext (role ∈ r :: ro) (role ∈ ro)); [done|].
    rewrite elem_of_cons. intuition congruence.
Qed.

(** The allocation the plan records for a role of the role order is the
    quantized day counts of that role. *)
Lemma allocation_plan_of (total_months : nat) (usage : gmap string (list Z))
    (dynamic : gmap string Q) (discount : option Q) (role_order : list string)
    (role : string) :
  allocation (plan_of total_months usage dynamic discount role_order) role
  = if bool_decide (role ∈ role_order)
    then Some (quantize <$> days_of total_months usage role)
    else None.
Proof.
  rewrite plan_of_imap.
  apply (allocation_imap _ (λ r, quantize <$> days_of total_months usage r)).
  intros i r. split; apply entry_of_fields.
Qed.

(** Whenever [clean_scope] completes, its result is this. *)
Lemma clean_scope_with_inv (today : Z) (dynamic : gmap string Q)
    (data : scope_in) (out : scope_out) :
  clean_scope_with today dynamic data = Some out →
  ∃ usage,
    usage_of_activities today (months_of today (activities data))
      (min_start_of today (activities data))
      (usage_init (months_of today (activities data))
         (role_order_of (activities data)))
      (imap renumber (sort_by_start (first_pass today (activities data))))
    = Some usage
    ∧ out_activities out
      = imap renumber (sort_by_start (first_pass today (activities data)))
    ∧ out_resourcing_plan out
      = plan_of (months_of today (activities data)) usage dynamic
          (discount_percentage data) (role_order_of (activities data))
    ∧ out_discount_percentage out = discount_percentage data.
Proof.
  unfold clean_scope_with. intros E.
  destruct (process_activities today loop_init 1 (activities data))
    as [st|] eqn:Est; [|done].
  cbn [mbind option_bind] in E.
  destruct (process_activities_inv today _ _ _ _ Est keys_are_init)
    as (Ha & Hs & He & Hr & _).
  cbn [loop_init ls_activities ls_start_dates ls_end_dates ls_role_order app]
    in Ha, Hs, He, Hr.
  rewrite Ha, Hs, He, Hr in E.
  fold (first_pass today (activities data)) in E.
  fold (role_order_of (activities data)) in E.
  fold (min_start_of today (activities data)) in E.
  fold (max_end_of today (activities data)) in E.
  fold (months_of today (activities data)) in E.
  match type of E with
  | context [usage_of_activities ?a ?b ?c ?d ?e] =>
      destruct (usage_of_activities a b c d e) as [usage|] eqn:Eu; [|done]
  end.
  cbn [mbind option_bind] in E. injection E as <-.
  exists usage. done.
Qed.

End PlanFacts.

(** * The properties the specification states *)

Import PyDate PyDateFacts PyStrFacts PyNumFacts LoopFacts SortFacts NormalFacts
  CleanFacts PlanFacts.

Lemma quantize_tiers (d : Z) :
  (21 < d → quantize d = inject_Z 1)
  ∧ (15 ≤ d ≤ 21 → quantize d = Qmake 3 4)
  ∧ (8 ≤ d < 15 → quantize d = Qmake 1 2)
  ∧ (1 ≤ d < 8 → quantize d = Qmake 1 4)
  ∧ (d = 0 → quantize d = inject_Z 0).
Proof.
  unfold quantize.
  destruct (Z.ltb_spec 21 d), (Z.leb_spec 15 d), (Z.leb_spec d 21),
    (Z.leb_spec 8 d), (Z.ltb_spec d 15), (Z.leb_spec 1 d), (Z.ltb_spec d 8);
    simpl; repeat split; intros; try lia; done.
Qed.

Lemma plan_entry_of (total_months : nat) (usage : gmap string (list Z))
    (dynamic : gmap string Q) (discount : option Q) (role_order : list string)
    (entry : plan_entry) :
  entry ∈ plan_of total_months usage dynamic discount role_order →
  ∃ i role, role_order !! i = Some role
            ∧ entry = entry_of total_months usage dynamic discount i role.
Proof. rewrite plan_of_imap. apply elem_of_imap_entry. Qed.

(** C1: every role/month cell of the plan is the quantization of the day
    count accumulated for that cell, and the quantization is by the tiers:
    more than 21 days give 1.0, 15 to 21 give 0.75, 8 to 14 give 0.5, 1 to 7
    give 0.25 and 0 gives 0.0; so 21 and 15 days give 0.75, 14 and 8 give
    0.5, 7 gives 0.25 and 0 gives 0.0. *)
Theorem C1_quantization (today : Z) (dynamic : gmap string Q)
    (data : scope_in) (out : scope_out) :
  clean_scope_with today dynamic data = Some out →
  (∃ usage,
     usage_of_activities today (months_of today (activities data))
       (min_start_of today (activities data))
       (usage_init (months_of today (activities data))
          (role_order_of (activities data)))
       (out_activities out)
     = Some usage
     ∧ ∀ entry, entry ∈ out_resourcing_plan out →
         pe_months entry
         = quantize <$> days_of (months_of today (activities data)) usage
                          (pe_Resources entry))
  ∧ (∀ d : Z,
       (21 < d → quantize d = inject_Z 1)
       ∧ (15 ≤ d ≤ 21 → quantize d = Qmake 3 4)
       ∧ (8 ≤ d < 15 → quantize d = Qmake 1 2)
       ∧ (1 ≤ d < 8 → quantize d = Qmake 1 4)
       ∧ (d = 0 → quantize d = inject_Z 0))
  ∧ quantize 21 = Qmake 3 4 ∧ quantize 15 = Qmake 3 4
  ∧ quantize 14 = Qmake 1 2 ∧ quantize 8 = Qmake 1 2
  ∧ quantize 7 = Qmake 1 4 ∧ quantize 0 = inject_Z 0.
Proof.
  intros E. split; [|split; [apply quantize_tiers|by repeat split]].
  destruct (clean_scope_with_inv today dynamic data out E)
    as (usage & Hu & Ha & Hp & _).
  exists usage. rewrite Ha. split; [done|].
  intros entry Hin. rewrite Hp in Hin.
  apply plan_entry_of in Hin as (i & role & _ & ->).
  destruct (entry_of_fields (months_of today (activities data)) usage dynamic
              (discount_percentage data) i role) as (_ & -> & _ & -> & _).
  done.
Qed.

Lemma C1_quantization_witness :
  (∃ usage,
     usage_of_activities a_today (months_of a_today (activities two_activities))
       (min_start_of a_today (activities two_activities))
       (usage_init (months_of a_today (activities two_activities))
          (role_order_of (activities two_activities)))
       (out_activities two_activities_out)
     = Some usage
     ∧ ∀ entry, entry ∈ out_resourcing_plan two_activities_out →
         pe_months entry
         = quantize <$> days_of (months_of a_today (activities two_activities))
                          usage (pe_Resources entry))
  ∧ (∀ d : Z,
       (21 < d → quantize d = inject_Z 1)
       ∧ (15 ≤ d ≤ 21 → quantize d = Qmake 3 4)
       ∧ (8 ≤ d < 15 → quantize d = Qmake 1 2)
       ∧ (1 ≤ d < 8 → quantize d = Qmake 1 4)
       ∧ (d = 0 → quantize d = inject_Z 0))
  ∧ quantize 21 = Qmake 3 4 ∧ quantize 15 = Qmake 3 4
  ∧ quantize 14 = Qmake 1 2 ∧ quantize 8 = Qmake 1 2
  ∧ quantize 7 = Qmake 1 4 ∧ quantize 0 = inject_Z 0.
Proof.
  assert (E : clean_scope_with a_today ROLE_RATE_MAP two_activities
               = Some two_activities_out) by (vm_compute; reflexivity).
  exact (C1_quantization a_today ROLE_RATE_MAP two_activities
           two_activities_out E).
Defined.

Lemma two_activities_supported (today : Z) :
  Forall (supported today) (activities two_activities).
Proof.
  unfold two_activities. cbn [activities].
  apply Forall_cons_2; [|apply Forall_cons_2; [|apply Forall_nil_2]];
    split; vm_compute; done.
Qed.

(** The day counts of the scenario: 31 and 1 for "Backend Developer", 31 + 12
    and 1 + 21 for "QA Engineer". *)
Lemma two_activities_days (today : Z) :
  months_of today (activities two_activities) = 2%nat
  ∧ role_order_of (activities two_activities)
    = ["Backend Developer"; "QA Engineer"]%string
  ∧ (λ u, (days_of 2 u "Backend Developer", days_of 2 u "QA Engineer"))
      <$> day_usage today (activities two_activities)
    = Some ([31; 1], [43; 22]).
Proof. split; [|split]; vm_compute; reflexivity. Qed.

(** C2, as the code has it: the two activities span K = 2 months;
    "Backend Developer" is allocated 1.0 in Month 1 and 0.25 in Month 2
    (2025-01-31, the last day of A, lies in the second 30-day window);
    "QA Engineer" is allocated 1.0 in Month 1, where the days of A and of B
    add up before quantization, and 1.0 in Month 2, where the 21 days of B
    and the last day of A add up. *)
Theorem C2_two_activities (today : Z) (dynamic : gmap string Q) :
  ∃ out,
    clean_scope_with today dynamic two_activities = Some out
    ∧ Forall (λ entry, length (pe_months entry) = 2%nat)
        (out_resourcing_plan out)
    ∧ allocation (out_resourcing_plan out) "Backend Developer"
      = Some [inject_Z 1; Qmake 1 4]
    ∧ allocation (out_resourcing_plan out) "QA Engineer"
      = Some [inject_Z 1; inject_Z 1].
Proof.
  destruct (clean_scope_with_supported today dynamic two_activities
              (two_activities_supported today)) as (usage & Hu & E).
  eexists. split; [exact E|]. cbn [out_resourcing_plan].
  destruct (two_activities_days today) as (HK & Hro & Hdays).
  rewrite Hu in Hdays. injection Hdays as Hbd Hqa.
  rewrite HK, Hro.
  split; [|split].
  - apply Forall_forall. intros entry Hin.
    apply plan_entry_of in Hin as (i & role & Hi & ->).
    destruct (entry_of_fields 2 usage dynamic
                (discount_percentage two_activities) i role)
      as (_ & _ & _ & -> & _).
    destruct i as [|[|i]]; [| |done]; injection Hi as <-.
    + by rewrite Hbd.
    + by rewrite Hqa.
  - rewrite allocation_plan_of, bool_decide_eq_true_2 by (left).
    by rewrite Hbd.
  - rewrite allocation_plan_of, bool_decide_eq_true_2 by (right; left).
    by rewrite Hqa.
Qed.

(** C2 as stated fails: Month 2 of "Backend Developer" is 0.25, not 0.0, and
    Month 2 of "QA Engineer" is 1.0, not the 0.75 that the 21 days of B
    alone would give. *)
Lemma C2_counterexample :
  ∃ out,
    clean_scope a_today None None two_activities = Some out
    ∧ allocation (out_resourcing_plan out) "Backend Developer"
      = Some [inject_Z 1; Qmake 1 4]
    ∧ allocation (out_resourcing_plan out) "Backend Developer"
      ≠ Some [inject_Z 1; inject_Z 0]
    ∧ allocation (out_resourcing_plan out) "QA Engineer"
      = Some [inject_Z 1; inject_Z 1]
    ∧ quantize (overlap_days 739271 739302 (739252 + 30) (739252 + 60))
      = Qmake 3 4
    ∧ strptime "2025-01-20" = Some 739271
    ∧ strptime "2025-02-20" = Some 739302.
Proof.
  eexists. split; [vm_compute; reflexivity|].
  repeat split; try (vm_compute; reflexivity).
  vm_compute. discriminate.
Qed.

Import PyDate PyDateFacts PyStrFacts PyNumFacts LoopFacts SortFacts NormalFacts
  CleanFacts PlanFacts.

Lemma quantize_quarters (d : Z) : ∃ k : Z, Qeq (quantize d) (Qmake k 4).
Proof.
  unfold quantize. repeat case_match.
  - by exists 4.
  - by exists 3.
  - by exists 2.
  - by exists 1.
  - by exists 0.
Qed.

(** An effort is a whole number of quarters. *)
Lemma Qsum_quarters (days : list Z) :
  ∃ k : Z, Qeq (PyNum.Qsum (quantize <$> days)) (Qmake k 4).
Proof.
  induction days as [|d days [k IH]].
  - exists 0. reflexivity.
  - simpl. change (foldr Qplus (inject_Z 0) (quantize <$> days))
      with (PyNum.Qsum (quantize <$> days)).
    destruct (quantize_quarters d) as [j Hj].
    exists (j + k). rewrite IH, Hj. unfold Qeq, Qplus. simpl. lia.
Qed.

Lemma Forall2_imap {A B C : Type} (P : B → C → Prop) (f : nat → A → B)
    (g : nat → A → C) (l : list A) :
  (∀ i x, P (f i x) (g i x)) → Forall2 P (imap f l) (imap g l).
Proof.
  revert f g. induction l as [|x l IH]; intros f g H; simpl; constructor.
  - apply H.
  - apply IH. intros. apply H.
Qed.

(** C4, as the code has it: the effort of an entry is the sum of its
    months.  Its cost is [round(effort * rate, 2)] when no discount is in
    force, and [round(round(effort * rate, 2) * (1 - d / 100.0), 2)] with a
    discount [d] in force: the discount is applied once, to the cost already
    rounded to cents, and every operation is a binary64 operation.
    Activities, allocations, efforts and rates are the same under any
    discount.  Effort 2.0 at rate 2000 with a discount of 10 costs
    3600.00. *)
Theorem C4_cost_law (today : Z) (dynamic : gmap string Q) (data : scope_in)
    (out : scope_out) :
  clean_scope_with today dynamic data = Some out →
  (∀ entry, entry ∈ out_resourcing_plan out →
     pe_Efforts entry = PyNum.Qsum (pe_months entry)
     ∧ pe_Cost entry
       = cost_of (pe_Efforts entry) (pe_Rate entry) (discount_percentage data)
     ∧ (discount_in_force (discount_percentage data) = None →
          pe_Cost entry
          = PyNum.round2
              (PyNum.fl (pe_Efforts entry * PyNum.fl (pe_Rate entry))))
     ∧ (∀ d, discount_in_force (discount_percentage data) = Some d →
          pe_Cost entry
          = PyNum.round2
              (PyNum.fl
                 (PyNum.fl
                    (PyNum.round2
                       (PyNum.fl (pe_Efforts entry * PyNum.fl (pe_Rate entry))))
                  * PyNum.fl
                      (inject_Z 1
                       - PyNum.fl (PyNum.fl d / inject_Z 100))))))
  ∧ (∀ d' out',
       clean_scope_with today dynamic (with_discount data d') = Some out' →
       out_activities out' = out_activities out
       ∧ Forall2
           (λ e e', pe_ID e' = pe_ID e ∧ pe_Resources e' = pe_Resources e
                    ∧ pe_Rate e' = pe_Rate e ∧ pe_months e' = pe_months e
                    ∧ pe_Efforts e' = pe_Efforts e)
           (out_resourcing_plan out) (out_resourcing_plan out'))
  ∧ cost_of (inject_Z 2) (inject_Z 2000) (Some (inject_Z 10))
    = Qmake 360000 100.
Proof.
  intros E.
  destruct (clean_scope_with_inv today dynamic data out E)
    as (usage & Hu & Ha & Hp & _).
  split; [|split; [|vm_compute; reflexivity]].
  - intros entry Hin. rewrite Hp in Hin.
    apply plan_entry_of in Hin as (i & role & _ & ->).
    destruct (entry_of_fields (months_of today (activities data)) usage dynamic
                (discount_percentage data) i role)
      as (_ & _ & Hr & Hm & He & Hc).
    split; [done|]. split; [done|]. split.
    + intros Hd. rewrite Hc. unfold cost_of. by rewrite Hd.
    + intros d Hd. rewrite Hc. unfold cost_of. by rewrite Hd.
  - intros d' out' E'.
    destruct (clean_scope_with_inv today dynamic _ out' E')
      as (usage' & Hu' & Ha' & Hp' & _).
    cbn [with_discount activities discount_percentage] in Hu', Ha', Hp'.
    rewrite Hu in Hu'. injection Hu' as <-.
    split; [by rewrite Ha, Ha'|].
    rewrite Hp, Hp', !plan_of_imap. apply Forall2_imap. intros i role.
    destruct (entry_of_fields (months_of today (activities data)) usage dynamic
                (discount_percentage data) i role)
      as (-> & -> & -> & Hm & -> & _).
    destruct (entry_of_fields (months_of today (activities data)) usage dynamic
                d' i role)
      as (-> & -> & -> & Hm' & -> & _).
    by rewrite Hm, Hm'.
Qed.

Lemma C4_cost_law_witness :
  (∀ entry, entry ∈ out_resourcing_plan two_activities_discounted_out →
     pe_Efforts entry = PyNum.Qsum (pe_months entry)
     ∧ pe_Cost entry
       = cost_of (pe_Efforts entry) (pe_Rate entry)
           (discount_percentage two_activities_discounted)
     ∧ (discount_in_force (discount_percentage two_activities_discounted) = None →
          pe_Cost entry
          = PyNum.round2
              (PyNum.fl (pe_Efforts entry * PyNum.fl (pe_Rate entry))))
     ∧ (∀ d, discount_in_force (discount_percentage two_activities_discounted)
             = Some d →
          pe_Cost entry
          = PyNum.round2
              (PyNum.fl
                 (PyNum.fl
                    (PyNum.round2
                       (PyNum.fl (pe_Efforts entry * PyNum.fl (pe_Rate entry))))
                  * PyNum.fl
                      (inject_Z 1
                       - PyNum.fl (PyNum.fl d / inject_Z 100))))))
  ∧ (∀ d' out',
       clean_scope_with a_today ROLE_RATE_MAP
         (with_discount two_activities_discounted d') = Some out' →
       out_activities out' = out_activities two_activities_discounted_out
       ∧ Forall2
           (λ e e', pe_ID e' = pe_ID e ∧ pe_Resources e' = pe_Resources e
                    ∧ pe_Rate e' = pe_Rate e ∧ pe_months e' = pe_months e
                    ∧ pe_Efforts e' = pe_Efforts e)
           (out_resourcing_plan two_activities_discounted_out)
           (out_resourcing_plan out'))
  ∧ cost_of (inject_Z 2) (inject_Z 2000) (Some (inject_Z 10))
    = Qmake 360000 100.
Proof.
  assert (E : clean_scope_with a_today ROLE_RATE_MAP two_activities_discounted
               = Some two_activities_discounted_out)
    by (vm_compute; reflexivity).
  exact (C4_cost_law a_today ROLE_RATE_MAP two_activities_discounted
           two_activities_discounted_out E).
Defined.

(** The discounted scenario through the whole of [clean_scope]: "QA
    Engineer", effort 2.0 at rate 2000 with a discount of 10, costs 3600.00. *)
Example discount_scenario :
  ∃ entry, entry ∈ out_resourcing_plan two_activities_discounted_out
           ∧ pe_Resources entry = "QA Engineer"%string
           ∧ pe_Efforts entry = inject_Z 2 ∧ pe_Rate entry = inject_Z 2000
           ∧ pe_Cost entry = Qmake 360000 100.
Proof.
  eexists. split; [right; left|]. by repeat split.
Qed.

(** The binary64 operations count: a quarter month at the rate 1000.1
    costs 250.03, although a quarter of 1000.1 is 250.025 and would round to
    250.02, because the float for 1000.1 lies above it; and 625.00 with a
    discount of 18.5 comes to 509.37, although 625 * 0.815 is 509.375 and
    would round to 509.38. *)
Example binary64_costs :
  cost_of (Qmake 1 4) (Qmake 10001 10) None = Qmake 25003 100
  ∧ PyNum.round2 (Qmake 1 4 * Qmake 10001 10) = Qmake 25002 100
  ∧ cost_of (Qmake 1 4) (inject_Z 2500) (Some (Qmake 185 10)) = Qmake 50937 100
  ∧ PyNum.round2 (inject_Z 625 * (1 - Qmake 185 10 / inject_Z 100))
    = Qmake 50938 100
  ∧ cost_of (Qmake 1 4) (inject_Z 1001) (Some (inject_Z 2)) = Qmake 24525 100.
Proof. repeat split; vm_compute; reflexivity. Qed.

(** C4 as stated fails on a rate with cents: a quarter month at 3000.25 with
    a discount of 10 costs round(750.06 * 0.9, 2) = 675.05, while
    round(0.25 * 3000.25 * (1 - 10/100), 2) is 675.06, in binary64 as in
    exact arithmetic. *)
Lemma C4_counterexample :
  ∃ out entry,
    clean_scope a_today (Some cents_db) (Some "acme"%string) cents_scope
    = Some out
    ∧ entry ∈ out_resourcing_plan out
    ∧ pe_Efforts entry = Qmake 1 4
    ∧ pe_Rate entry = Qmake 300025 100
    ∧ discount_percentage cents_scope = Some (inject_Z 10)
    ∧ pe_Cost entry = Qmake 67505 100
    ∧ spec_cost (pe_Efforts entry) (pe_Rate entry) (inject_Z 10)
      = Qmake 67506 100
    ∧ spec_cost_exact (pe_Efforts entry) (pe_Rate entry) (inject_Z 10)
      = Qmake 67506 100
    ∧ ¬ Qeq (pe_Cost entry)
          (spec_cost (pe_Efforts entry) (pe_Rate entry) (inject_Z 10))
    ∧ ¬ Qeq (pe_Cost entry)
          (spec_cost_exact (pe_Efforts entry) (pe_Rate entry) (inject_Z 10)).
Proof.
  eexists. eexists. split; [vm_compute; reflexivity|].
  split; [left|]. repeat split; try (vm_compute; reflexivity);
    vm_compute; discriminate.
Qed.

Import PyDate PyDateFacts PyStrFacts PyNumFacts LoopFacts SortFacts NormalFacts
  CleanFacts PlanFacts.

Lemma rate_dict_foldl_None (cards : list RateCard) (m : gmap string Q)
    (role : string) :
  foldl (λ m r, <[role_name r := monthly_rate r]> m) m cards !! role = None
  ↔ m !! role = None ∧ role ∉ role_name <$> cards.
Proof.
  revert m. induction cards as [|c cards IH]; intros m; simpl.
  - split; [|by intros [? _]]. intros H. split; [done|]. by intros ?%elem_of_nil.
  - rewrite IH, lookup_insert_None, not_elem_of_cons. intuition congruence.
Qed.

(** A role is absent from a rate dictionary exactly when no card names it. *)
Lemma rate_dict_None (cards : list RateCard) (role : string) :
  rate_dict cards !! role = None ↔ role ∉ role_name <$> cards.
Proof.
  unfold rate_dict. rewrite rate_dict_foldl_None, lookup_empty. tauto.
Qed.

(** C7: the rate of every role of the plan is resolved by the fallback
    chain.  The rate card in force is that of the owning organization; when
    that organization has no rate card (or the project has no organization),
    the rate card of Sigmoid; when there is none either (or a query fails),
    the built-in table.  The role is looked up in the rate card in force,
    then in the built-in table, and a role absent from all three gets the
    fixed default rate 2000. *)
Theorem C7_rate_fallback (db : db_state) (company : option company_id) :
  (∀ own, own_cards db company = Some own → own ≠ [] →
     get_rate_map_for_project db company = rate_dict own)
  ∧ (∀ sig, own_cards db company = Some [] →
       sigmoid_cards db = Some sig → sig ≠ [] →
       get_rate_map_for_project db company = rate_dict sig)
  ∧ (own_cards db company = Some [] → sigmoid_cards db = Some [] →
       get_rate_map_for_project db company = ROLE_RATE_MAP)
  ∧ (own_cards db company = None
     ∨ (own_cards db company = Some [] ∧ sigmoid_cards db = None) →
       get_rate_map_for_project db company = ROLE_RATE_MAP)
  ∧ (∀ role rate,
       get_rate_map_for_project db company !! role = Some rate →
       resolve_rate (get_rate_map_for_project db company) role = rate)
  ∧ (∀ role rate,
       get_rate_map_for_project db company !! role = None →
       ROLE_RATE_MAP !! role = Some rate →
       resolve_rate (get_rate_map_for_project db company) role = rate)
  ∧ (∀ role,
       (∀ own, own_cards db company = Some own → role ∉ role_name <$> own) →
       (∀ sig, sigmoid_cards db = Some sig → role ∉ role_name <$> sig) →
       ROLE_RATE_MAP !! role = None →
       resolve_rate (get_rate_map_for_project db company) role = DEFAULT_RATE)
  ∧ (∀ today data out,
       clean_scope today (Some db) company data = Some out →
       ∀ entry, entry ∈ out_resourcing_plan out →
         pe_Rate entry
         = resolve_rate (get_rate_map_for_project db company)
             (pe_Resources entry)).
Proof.
  unfold get_rate_map_for_project.
  fold (own_cards db company).
  repeat split.
  - intros own -> Hne. by destruct own.
  - intros sig -> Hs Hne. unfold sigmoid_cards in Hs.
    destruct (db_sigmoid db) as [[sid|]|]; [|by injection Hs as <-|done].
    rewrite Hs. by destruct sig.
  - intros -> Hs. unfold sigmoid_cards in Hs.
    destruct (db_sigmoid db) as [[sid|]|]; [|done|done]. by rewrite Hs.
  - intros [->|[-> Hs]]; [done|]. unfold sigmoid_cards in Hs.
    destruct (db_sigmoid db) as [[sid|]|]; [|done|done]. by rewrite Hs.
  - intros role rate H. unfold resolve_rate. by rewrite H.
  - intros role rate H Hs. unfold resolve_rate. by rewrite H, Hs.
  - intros role Hown Hsig Hstatic. unfold resolve_rate. rewrite Hstatic.
    unfold sigmoid_cards in Hsig.
    destruct (own_cards db company) as [[|c own]|].
    + destruct (db_sigmoid db) as [[sid|]|]; [|by rewrite Hstatic..].
      destruct (db_rate_cards db sid) as [[|c sig]|]; [by rewrite Hstatic| |by rewrite Hstatic].
      by rewrite (proj2 (rate_dict_None _ role) (Hsig _ eq_refl)).
    + by rewrite (proj2 (rate_dict_None _ role) (Hown _ eq_refl)).
    + by rewrite Hstatic.
  - intros today data out E entry Hin. unfold clean_scope in E.
    destruct (clean_scope_with_inv _ _ _ _ E) as (usage & _ & _ & Hp & _).
    rewrite Hp in Hin. apply plan_entry_of in Hin as (i & role & _ & ->).
    destruct (entry_of_fields (months_of today (activities data)) usage
                (rate_map_dynamic (Some db) company)
                (discount_percentage data) i role) as (_ & -> & -> & _).
    done.
Qed.

Lemma C7_rate_fallback_witness :
  get_rate_map_for_project cents_db (Some "acme"%string)
  = rate_dict [{| role_name := "Data Scientist";
                  monthly_rate := Qmake 300025 100 |}]
  ∧ resolve_rate (get_rate_map_for_project cents_db (Some "acme"%string))
      "Data Scientist" = Qmake 300025 100
  ∧ resolve_rate (get_rate_map_for_project cents_db (Some "acme"%string))
      "QA Engineer" = inject_Z 2000
  ∧ resolve_rate (get_rate_map_for_project cents_db (Some "acme"%string))
      "Unassigned" = DEFAULT_RATE
  ∧ get_rate_map_for_project cents_db None = ROLE_RATE_MAP.
Proof.
  destruct (C7_rate_fallback cents_db (Some "acme"%string))
    as (H1 & _ & _ & _ & H5 & H6 & H7 & _).
  destruct (C7_rate_fallback cents_db None) as (_ & _ & H3 & _).
  split; [apply H1; [reflexivity|discriminate]|].
  split; [apply H5; vm_compute; reflexivity|].
  split; [apply H6; vm_compute; reflexivity|].
  split; [|apply H3; reflexivity].
  apply H7.
  - intros own Hown. vm_compute in Hown. injection Hown as <-.
    intros [Hx|Hx%elem_of_nil]%elem_of_cons; [discriminate|done].
  - intros sig Hsig. vm_compute in Hsig. injection Hsig as <-.
    by intros Hx%elem_of_nil.
  - vm_compute. reflexivity.
Defined.

Import PyDate PyDateFacts PyStrFacts PyNumFacts LoopFacts SortFacts NormalFacts
  CleanFacts PlanFacts.

(** ** One cell per month *)

Lemma usage_init_cells (total_months : nat) (role_order : list string) :
  month_cells total_months (usage_init total_months role_order).
Proof.
  intros r cells H. unfold usage_init in H.
  apply elem_of_list_to_map_2, list_elem_of_fmap in H as (r' & [= -> ->] & _).
  apply length_replicate.
Qed.

Lemma add_usage_cells (total_months m_idx : nat) (days : Z)
    (u : gmap string (list Z)) (r : string) :
  month_cells total_months u →
  month_cells total_months (add_usage total_months m_idx days u r).
Proof.
  intros Hu r' cells. unfold add_usage.
  rewrite lookup_alter_Some.
  intros [(-> & cells0 & Hc & ->)|(Hne & Hc)].
  - rewrite length_alter.
    destruct (u !! r') as [c|] eqn:E.
    + rewrite E in Hc. injection Hc as <-. by apply (Hu r').
    + rewrite lookup_insert_eq in Hc. injection Hc as <-.
      apply length_replicate.
  - destruct (u !! r) as [c|] eqn:E; [by apply (Hu r')|].
    rewrite lookup_insert_ne in Hc by done. by apply (Hu r').
Qed.

Lemma add_usages_cells (total_months m_idx : nat) (days : Z)
    (roles : list string) (u : gmap string (list Z)) :
  month_cells total_months u →
  month_cells total_months (foldl (add_usage total_months m_idx days) u roles).
Proof.
  revert u. induction roles as [|r roles IH]; intros u Hu; [done|].
  simpl. by apply IH, add_usage_cells.
Qed.

Lemma usage_of_months_cells (total_months : nat) (min_start s e : Z)
    (roles : list string) (m_idxs : list nat) (u u' : gmap string (list Z)) :
  usage_of_months total_months min_start s e roles m_idxs u = Some u' →
  month_cells total_months u → month_cells total_months u'.
Proof.
  revert u. induction m_idxs as [|m_idx rest IH]; intros u E Hu.
  - by injection E as <-.
  - simpl in E.
    destruct (add_days min_start (Z.of_nat m_idx * 30)) as [rs|]; [|done].
    destruct (add_days min_start ((Z.of_nat m_idx + 1) * 30)) as [re|]; [|done].
    cbn [mbind option_bind] in E.
    apply IH in E; [done|].
    case_match; [by apply add_usages_cells|done].
Qed.

Lemma usage_of_activities_cells (today : Z) (total_months : nat)
    (min_start : Z) (acts : list activity) (u u' : gmap string (list Z)) :
  usage_of_activities today total_months min_start u acts = Some u' →
  month_cells total_months u → month_cells total_months u'.
Proof.
  revert u. induction acts as [|act acts IH]; intros u E Hu.
  - by injection E as <-.
  - simpl in E.
    destruct (usage_of_activity today total_months min_start u act)
      as [u1|] eqn:E1; [|done].
    cbn [mbind option_bind] in E. apply IH in E; [done|].
    unfold usage_of_activity in E1.
    destruct (add_days _ 30); [|done]. cbn [mbind option_bind] in E1.
    by apply usage_of_months_cells in E1.
Qed.

Lemma days_of_length (total_months : nat) (usage : gmap string (list Z))
    (role : string) :
  month_cells total_months usage →
  length (days_of total_months usage role) = total_months.
Proof.
  intros Hu. unfold days_of.
  destruct (usage !! role) as [cells|] eqn:E; simpl.
  - by apply (Hu role).
  - apply length_replicate.
Qed.

Lemma quantize_unit (d : Z) : quantize d ∈ effort_units.
Proof.
  unfold quantize, effort_units. repeat case_match.
  - do 4 right. left.
  - do 3 right. left.
  - do 2 right. left.
  - right. left.
  - left.
Qed.

(** An activity of the input is found in the result, normalized. *)
Lemma out_activity_of (today : Z) (l : list activity_in) (a : activity_in) :
  a ∈ l →
  ∃ act, act ∈ imap renumber (sort_by_start (first_pass today l))
    ∧ Activities act = _safe_str (jget (in_Activities a))
    ∧ Description act = _safe_str (jget (in_Description a))
    ∧ Owner act = owner_of a
    ∧ Resources act = PyStr.join ", " (raw_deps_of a)
    ∧ Start_Date act = strftime (start_of today a)
    ∧ End_Date act = strftime (end_of today a).
Proof.
  intros [i Hi]%list_elem_of_lookup.
  assert (Hin : dt_of today (1 + i) a ∈ sort_by_start (first_pass today l)).
  { rewrite sort_by_start_perm. unfold first_pass.
    apply (elem_of_lookup_imap_2 (λ i, dt_of today (1 + i)) l a i Hi). }
  apply list_elem_of_lookup in Hin as [j Hj].
  exists (renumber j (dt_of today (1 + i) a)).
  split; [by apply elem_of_lookup_imap_2|]. done.
Qed.

(** C9, as the code has it: whenever [clean_scope] returns, an activity
    whose Owner is missing or empty is owned by "Unassigned", and
    "Unassigned" is a role of the resourcing plan like any other: one
    quantized allocation per month, the rate the fallback chain resolves,
    which is the rate of the rate card in force when it names "Unassigned"
    and the fixed default 2000 otherwise (the built-in table does not name
    it), and the cost computed from effort and rate. *)
Theorem C9_unassigned (today : Z) (dynamic : gmap string Q) (data : scope_in)
    (out : scope_out) (a : activity_in) :
  clean_scope_with today dynamic data = Some out →
  a ∈ activities data →
  jget (in_Owner a) = None ∨ jget (in_Owner a) = Some ""%string →
  owner_of a = "Unassigned"%string
  ∧ (∃ act, act ∈ out_activities out
       ∧ Owner act = "Unassigned"%string
       ∧ Activities act = _safe_str (jget (in_Activities a))
       ∧ Start_Date act = strftime (start_of today a)
       ∧ End_Date act = strftime (end_of today a))
  ∧ (∃ entry, entry ∈ out_resourcing_plan out
       ∧ pe_Resources entry = "Unassigned"%string
       ∧ length (pe_months entry) = months_of today (activities data)
       ∧ Forall (λ q, q ∈ effort_units) (pe_months entry)
       ∧ pe_Rate entry = resolve_rate dynamic "Unassigned"
       ∧ pe_Rate entry = default DEFAULT_RATE (dynamic !! "Unassigned"%string)
       ∧ pe_Efforts entry = PyNum.Qsum (pe_months entry)
       ∧ pe_Cost entry
         = cost_of (pe_Efforts entry) (pe_Rate entry)
             (discount_percentage data)).
Proof.
  intros E Ha Ho.
  assert (Howner : owner_of a = "Unassigned"%string).
  { unfold owner_of. by destruct Ho as [-> | ->]. }
  destruct (clean_scope_with_inv today dynamic data out E)
    as (usage & Hu & Hacts & Hp & _).
  split; [done|]. split.
  - destruct (out_activity_of today (activities data) a Ha)
      as (act & Hin & Hn & _ & Hown & _ & Hs & He).
    exists act. rewrite Hacts, Hown. done.
  - assert (Hin : "Unassigned"%string ∈ role_order_of (activities data)).
    { apply role_order_of_elem. exists a. split; [done|].
      unfold roles_of. rewrite Howner. left. }
    apply list_elem_of_lookup in Hin as [i Hi].
    exists (entry_of (months_of today (activities data)) usage dynamic
              (discount_percentage data) i "Unassigned").
    destruct (entry_of_fields (months_of today (activities data)) usage dynamic
                (discount_percentage data) i "Unassigned")
      as (_ & Hr & Hrate & Hm & He & Hc).
    split.
    { rewrite Hp, plan_of_imap. by apply elem_of_lookup_imap_2. }
    split; [done|]. rewrite Hm.
    split.
    { rewrite length_fmap. apply days_of_length.
      eapply usage_of_activities_cells; [exact Hu|apply usage_init_cells]. }
    split.
    { apply Forall_fmap, Forall_forall. intros d _. apply quantize_unit. }
    split; [done|]. split; [|by rewrite <- Hm].
    by rewrite Hrate.
Qed.

Lemma C9_unassigned_witness :
  owner_of (activity_of "Kick-off" "" "QA Engineer" "2025-03-01" "2025-03-20")
  = "Unassigned"%string
  ∧ (∃ act, act ∈ out_activities unassigned_out
       ∧ Owner act = "Unassigned"%string
       ∧ Activities act = "Kick-off"%string
       ∧ Start_Date act = "2025-03-01"%string
       ∧ End_Date act = "2025-03-20"%string)
  ∧ (∃ entry, entry ∈ out_resourcing_plan unassigned_out
       ∧ pe_Resources entry = "Unassigned"%string
       ∧ length (pe_months entry) = 1%nat
       ∧ pe_Rate entry = DEFAULT_RATE).
Proof.
  assert (E : clean_scope_with a_today ROLE_RATE_MAP unassigned_scope
               = Some unassigned_out) by (vm_compute; reflexivity).
  destruct (C9_unassigned a_today ROLE_RATE_MAP unassigned_scope unassigned_out
              (activity_of "Kick-off" "" "QA Engineer" "2025-03-01" "2025-03-20")
              E ltac:(left) ltac:(right; reflexivity))
    as (H1 & (act & Hin & Ho & Hn & Hs & He) & (entry & Hi & Hr & Hl & _ & _ & Hd & _)).
  split; [exact H1|]. split.
  - exists act. split; [exact Hin|]. split; [exact Ho|].
    split; [exact Hn|]. split; [exact Hs|exact He].
  - exists entry. split; [exact Hi|]. split; [exact Hr|].
    split; [exact Hl|]. exact Hd.
Defined.

(** C9 as stated fails when the rate card in force names "Unassigned":
    with a card of 5000 for it, the unowned activity is costed at 5000 a
    month, not at the default 2000. *)
Lemma C9_counterexample :
  ∃ out entry,
    clean_scope a_today (Some unassigned_db) (Some "acme"%string)
      unassigned_scope = Some out
    ∧ (∀ a, a ∈ activities unassigned_scope → jget (in_Owner a) = Some ""%string)
    ∧ entry ∈ out_resourcing_plan out
    ∧ pe_Resources entry = "Unassigned"%string
    ∧ pe_Rate entry = inject_Z 5000
    ∧ DEFAULT_RATE = inject_Z 2000
    ∧ ¬ Qeq (pe_Rate entry) DEFAULT_RATE.
Proof.
  eexists. eexists. split; [vm_compute; reflexivity|].
  split. { intros a [->|H%elem_of_nil]%elem_of_cons; done. }
  split; [left|]. repeat split. vm_compute. discriminate.
Qed.

Import PyDate PyDateFacts PyStrFacts PyNumFacts LoopFacts SortFacts NormalFacts
  CleanFacts PlanFacts.













(** Below the year 1000 the dates are written without the leading zero and
    do not read back: a second pass takes today for them. *)
Example early_dates_not_read_back :
  ∃ out out',
    clean_scope_with a_today ROLE_RATE_MAP early_scope = Some out
    ∧ Start_Date <$> out_activities out = ["999-01-01"]%string
    ∧ strptime "999-01-01" = None
    ∧ clean_scope_with a_today ROLE_RATE_MAP (to_scope_in out) = Some out'
    ∧ Start_Date <$> out_activities out' = ["2025-01-01"]%string.
Proof.
  eexists. eexists. split; [vm_compute; reflexivity|].
  split; [reflexivity|]. split; [vm_compute; reflexivity|].
  split; [vm_compute; reflexivity|]. reflexivity.
Qed.

Import PyDate PyDateFacts PyStrFacts PyNumFacts LoopFacts SortFacts NormalFacts
  CleanFacts PlanFacts.

(** ** The second run: [clean_scope] on its own result *)

Lemma foldl_min_elem (l : list Z) (x : Z) : foldl Z.min x l ∈ x :: l.
Proof.
  revert x. induction l as [|y l IH]; intros x; simpl; [left|].
  specialize (IH (Z.min x y)).
  apply elem_of_cons in IH as [->|?]; [|by do 2 right].
  destruct (Z.min_spec x y) as [[_ ->]|[_ ->]]; [left|right; left].
Qed.

Lemma foldl_max_elem (l : list Z) (x : Z) : foldl Z.max x l ∈ x :: l.
Proof.
  revert x. induction l as [|y l IH]; intros x; simpl; [left|].
  specialize (IH (Z.max x y)).
  apply elem_of_cons in IH as [->|?]; [|by do 2 right].
  destruct (Z.max_spec x y) as [[_ ->]|[_ ->]]; [right; left|left].
Qed.

Lemma min_or_elem (l : list Z) (d : Z) : l ≠ [] → min_or l d ∈ l.
Proof. destruct l; [done|]. intros _. apply foldl_min_elem. Qed.

Lemma max_or_elem (l : list Z) (d : Z) : l ≠ [] → max_or l d ∈ l.
Proof. destruct l; [done|]. intros _. apply foldl_max_elem. Qed.

Lemma perm_elem (x : Z) (l l' : list Z) : l ≡ₚ l' → x ∈ l → x ∈ l'.
Proof. intros Hp H. by rewrite <- Hp. Qed.

(** The minimum and the maximum do not depend on the order. *)
Lemma min_or_perm (l l' : list Z) (d d' : Z) :
  l ≡ₚ l' → l ≠ [] → min_or l d = min_or l' d'.
Proof.
  intros Hp Hne.
  assert (Hne' : l' ≠ []).
  { intros ->. by apply Permutation_nil_r in Hp. }
  pose proof (perm_elem _ _ _ Hp (min_or_elem l d Hne)) as H1.
  pose proof (perm_elem _ _ _ (symmetry Hp) (min_or_elem l' d' Hne')) as H2.
  pose proof (min_or_le l d _ H2). pose proof (min_or_le l' d' _ H1). lia.
Qed.

Lemma max_or_perm (l l' : list Z) (d d' : Z) :
  l ≡ₚ l' → l ≠ [] → max_or l d = max_or l' d'.
Proof.
  intros Hp Hne.
  assert (Hne' : l' ≠ []).
  { intros ->. by apply Permutation_nil_r in Hp. }
  pose proof (perm_elem _ _ _ Hp (max_or_elem l d Hne)) as H1.
  pose proof (perm_elem _ _ _ (symmetry Hp) (max_or_elem l' d' Hne')) as H2.
  pose proof (max_or_ge l d _ H2). pose proof (max_or_ge l' d' _ H1). lia.
Qed.

Lemma usage_init_lookup (total_months : nat) (ro : list string) (r : string) :
  usage_init total_months ro !! r
  = if bool_decide (r ∈ ro) then Some (zero_months total_months) else None.
Proof.
  unfold usage_init. induction ro as [|x ro IH]; [done|].
  rewrite fmap_cons. simpl. destruct (decide (x = r)) as [->|Hne].
  - rewrite lookup_insert_eq, bool_decide_eq_true_2; [done|left].
  - rewrite lookup_insert_ne, IH by done.
    rewrite (bool_decide_ext (r ∈ x :: ro) (r ∈ ro)); [done|].
    rewrite elem_of_cons. intuition congruence.
Qed.

Lemma usage_init_ext (total_months : nat) (ro ro' : list string) :
  (∀ r, r ∈ ro ↔ r ∈ ro') →
  usage_init total_months ro = usage_init total_months ro'.
Proof.
  intros H. apply map_eq. intros r. rewrite !usage_init_lookup.
  by rewrite (bool_decide_ext _ _ (H r)).
Qed.

Lemma imap_renumber_set_ID (l : list activity_dt) (f : nat → nat) (k : nat) :
  imap (λ i, renumber (k + i)) (imap (λ i, set_dt_ID (f i)) l)
  = imap (λ i, renumber (k + i)) l.
Proof.
  apply list_eq. intros i. rewrite !list_lookup_imap.
  by destruct (l !! i).
Qed.

Lemma usage_of_dts_set_ID (total_months : nat) (min_start : Z)
    (l : list activity_dt) (f : nat → nat) (u : gmap string (list Z)) :
  usage_of_dts total_months min_start u (imap (λ i, set_dt_ID (f i)) l)
  = usage_of_dts total_months min_start u l.
Proof.
  revert f u. induction l as [|a l IH]; intros f u; [done|].
  simpl. change (usage_of_dt total_months min_start u (set_dt_ID (f 0%nat) a))
    with (usage_of_dt total_months min_start u a).
  destruct (usage_of_dt total_months min_start u a) as [u'|]; [|done].
  cbn [mbind option_bind]. apply (IH (f ∘ S)).
Qed.

(** The activities of the second run, after its first loop: those of the
    first run in their sorted order, under new indices. *)
Lemma first_pass_to_input (today : Z) (l : list activity_dt) (k j : nat) :
  Forall normal_dt l →
  imap (λ i, dt_of today (k + i))
    (to_input <$> imap (λ i, renumber (j + i)) l)
  = imap (λ i, set_dt_ID (k + i)) l.
Proof.
  intros Hall. rewrite Forall_forall in Hall.
  apply list_eq. intros i.
  rewrite !list_lookup_imap, list_lookup_fmap, list_lookup_imap.
  destruct (l !! i) as [a|] eqn:E; [|done]. simpl. f_equal.
  apply dt_of_to_input, Hall, list_elem_of_lookup. eauto.
Qed.

Lemma supported_to_inputs (today : Z) (l : list activity_dt) (j : nat) :
  Forall normal_dt l →
  Forall (supported today) (to_input <$> imap (λ i, renumber (j + i)) l).
Proof.
  intros Hall. rewrite Forall_forall in Hall. apply Forall_forall.
  intros x (act & -> & Hact)%list_elem_of_fmap.
  apply elem_of_lookup_imap in Hact as (i & a & -> & Hi).
  apply supported_to_input, Hall, list_elem_of_lookup. eauto.
Qed.

Lemma dates_to_inputs (today : Z) (l : list activity_dt) (j : nat) :
  Forall normal_dt l →
  start_of today <$> (to_input <$> imap (λ i, renumber (j + i)) l)
  = dt_Start_Date <$> l
  ∧ end_of today <$> (to_input <$> imap (λ i, renumber (j + i)) l)
    = dt_End_Date <$> l.
Proof.
  intros Hall. rewrite Forall_forall in Hall.
  split; apply list_eq; intros i;
    rewrite !list_lookup_fmap, list_lookup_imap;
    destruct (l !! i) as [a|] eqn:E; try done; simpl; f_equal.
  - apply start_of_to_input, Hall, list_elem_of_lookup. eauto.
  - apply end_of_to_input, Hall, list_elem_of_lookup. eauto.
Qed.

Lemma roles_to_inputs (today : Z) (l : list activity_dt) (j : nat) (r : string) :
  Forall normal_dt l →
  (∃ x, x ∈ to_input <$> imap (λ i, renumber (j + i)) l ∧ r ∈ roles_of x)
  ↔ ∃ a, a ∈ l ∧ r ∈ dt_Owner a :: split_roles (dt_Resources a).
Proof.
  intros Hall. rewrite Forall_forall in Hall. split.
  - intros (x & Hx & Hr). apply list_elem_of_fmap in Hx as (act & -> & Hact).
    apply elem_of_lookup_imap in Hact as (i & a & -> & Hi).
    assert (a ∈ l) by (apply list_elem_of_lookup; eauto).
    exists a. split; [done|]. rewrite <- (roles_of_to_input (j + i) a); auto.
  - intros (a & Ha & Hr). apply list_elem_of_lookup in Ha as [i Hi].
    exists (to_input (renumber (j + i) a)). split.
    + apply list_elem_of_fmap. eexists. split; [done|].
      by apply (elem_of_lookup_imap_2 (λ i, renumber (j + i))).
    + rewrite roles_of_to_input; [done|].
      apply Hall, list_elem_of_lookup. eauto.
Qed.

Lemma roles_first_pass (today : Z) (l : list activity_in) (r : string) :
  (∃ a, a ∈ first_pass today l
        ∧ r ∈ dt_Owner a :: split_roles (dt_Resources a))
  ↔ ∃ x, x ∈ l ∧ r ∈ roles_of x.
Proof.
  assert (Hroles : ∀ idx x,
            dt_Owner (dt_of today idx x)
            :: split_roles (dt_Resources (dt_of today idx x)) = roles_of x).
  { intros idx x. unfold roles_of. cbn [dt_of dt_Owner dt_Resources].
    by rewrite split_roles_join by apply raw_deps_of_ok. }
  unfold first_pass. split.
  - intros (a & Ha & Hr).
    apply elem_of_lookup_imap in Ha as (i & x & -> & Hi).
    exists x. rewrite Hroles in Hr. split; [|done].
    apply list_elem_of_lookup. eauto.
  - intros (x & Hx & Hr). apply list_elem_of_lookup in Hx as [i Hi].
    exists (dt_of today (1 + i) x). rewrite Hroles. split; [|done].
    by apply (elem_of_lookup_imap_2 (λ i, dt_of today (1 + i))).
Qed.

Lemma duration_of_shift (ms me ms' me' : Z) :
  me - ms = me' - ms' → duration_of ms me = duration_of ms' me'.
Proof. unfold duration_of. by intros ->. Qed.

Lemma total_months_of_shift (ms me ms' me' : Z) :
  me - ms = me' - ms' → total_months_of ms me = total_months_of ms' me'.
Proof. unfold total_months_of. by intros ->. Qed.

Lemma starts_first_pass (today : Z) (l : list activity_in) :
  dt_Start_Date <$> first_pass today l = start_of today <$> l
  ∧ dt_End_Date <$> first_pass today l = end_of today <$> l.
Proof.
  unfold first_pass.
  split; apply list_eq; intros i;
    rewrite !list_lookup_fmap, list_lookup_imap; by destruct (l !! i).
Qed.

Lemma second_input_supported (today today' : Z) (l : list activity_in) :
  Forall (supported today) l →
  Forall (supported today') (second_input today l).
Proof.
  intros Hall.
  apply (supported_to_inputs today' _ 0), sort_normal, first_pass_normal, Hall.
Qed.

Lemma second_first_pass (today today' : Z) (l : list activity_in) :
  Forall (supported today) l →
  first_pass today' (second_input today l)
  = imap (λ i, set_dt_ID (1 + i)) (sort_by_start (first_pass today l)).
Proof.
  intros Hall.
  apply (first_pass_to_input today' _ 1 0), sort_normal, first_pass_normal, Hall.
Qed.

Lemma second_sorted (today today' : Z) (l : list activity_in) :
  Forall (supported today) l →
  sort_by_start (first_pass today' (second_input today l))
  = imap (λ i, set_dt_ID (1 + i)) (sort_by_start (first_pass today l)).
Proof.
  intros Hall. rewrite second_first_pass by done.
  apply sort_by_start_id, Sorted_imap_start; [done|apply sort_by_start_sorted].
Qed.

Lemma second_activities (today today' : Z) (l : list activity_in) :
  Forall (supported today) l →
  imap renumber (sort_by_start (first_pass today' (second_input today l)))
  = imap renumber (sort_by_start (first_pass today l)).
Proof.
  intros Hall. rewrite second_sorted by done.
  apply (imap_renumber_set_ID _ _ 0).
Qed.

Lemma second_span (today today' : Z) (l : list activity_in) :
  Forall (supported today) l → l ≠ [] →
  min_start_of today' (second_input today l) = min_start_of today l
  ∧ max_end_of today' (second_input today l) = max_end_of today l.
Proof.
  intros Hall Hne.
  assert (Hn : Forall normal_dt (sort_by_start (first_pass today l)))
    by apply sort_normal, first_pass_normal, Hall.
  destruct (dates_to_inputs today' _ 0 Hn) as [Hs He].
  change (imap (λ i, renumber (0 + i)) (sort_by_start (first_pass today l)))
    with (imap renumber (sort_by_start (first_pass today l))) in Hs, He.
  destruct (starts_first_pass today l) as [Hs1 He1].
  assert (Hlen : length (first_pass today l) = length l)
    by apply length_imap.
  assert (Hne1 : first_pass today l ≠ []).
  { intros E. rewrite E in Hlen. by destruct l. }
  assert (Hmin : min_start_of today' (second_input today l)
                 = min_start_of today l).
  { unfold min_start_of, second_input. rewrite Hs, <- Hs1.
    apply min_or_perm; [by rewrite sort_by_start_perm|].
    rewrite <- (sort_by_start_perm (first_pass today l)) in Hlen.
    intros E%fmap_nil_inv. rewrite E in Hlen. by destruct l. }
  split; [done|].
  unfold max_end_of. rewrite Hmin. unfold second_input. rewrite He, <- He1.
  apply max_or_perm; [by rewrite sort_by_start_perm|].
  rewrite <- (sort_by_start_perm (first_pass today l)) in Hlen.
  intros E%fmap_nil_inv. rewrite E in Hlen. by destruct l.
Qed.

Lemma second_roles (today today' : Z) (l : list activity_in) (r : string) :
  Forall (supported today) l →
  r ∈ role_order_of (second_input today l) ↔ r ∈ role_order_of l.
Proof.
  intros Hall. rewrite !role_order_of_elem. unfold second_input.
  pose proof (roles_to_inputs today' _ 0 r
                (sort_normal _ (first_pass_normal today l Hall))) as Hr.
  change (imap (λ i, renumber (0 + i)) (sort_by_start (first_pass today l)))
    with (imap renumber (sort_by_start (first_pass today l))) in Hr.
  rewrite Hr. clear Hr.
  rewrite <- (roles_first_pass today l r). split.
  - intros (a & Ha & Hr). exists a. split; [|done].
    by rewrite <- (sort_by_start_perm (first_pass today l)).
  - intros (a & Ha & Hr). exists a. split; [|done].
    by rewrite (sort_by_start_perm (first_pass today l)).
Qed.

(** Months, duration and day counts of the second run are those of the
    first. *)
Lemma second_run (today today' : Z) (l : list activity_in) :
  Forall (supported today) l →
  months_of today' (second_input today l) = months_of today l
  ∧ duration_of (min_start_of today' (second_input today l))
      (max_end_of today' (second_input today l))
    = duration_of (min_start_of today l) (max_end_of today l)
  ∧ day_usage today' (second_input today l) = day_usage today l.
Proof.
  intros Hall. destruct l as [|a l].
  - split; [|split]; [| |done].
    + apply total_months_of_shift. unfold max_end_of, min_start_of. simpl. lia.
    + apply duration_of_shift. unfold max_end_of, min_start_of. simpl. lia.
  - destruct (second_span today today' (a :: l) Hall ltac:(done)) as [Hs He].
    unfold months_of, day_usage, months_of. rewrite Hs, He.
    split; [done|]. split; [done|].
    rewrite (second_sorted today today') by done.
    rewrite usage_of_dts_set_ID.
    f_equal. apply usage_init_ext. intros r.
    by apply (second_roles today today').
Qed.

(** [clean_scope] on a result of its own read back, with any discount, in
    closed form: the activities, months, duration and day counts of the
    first run. *)
Lemma second_pass_closed (today today' : Z) (dynamic' : gmap string Q)
    (l : list activity_in) (d' : option Q) :
  Forall (supported today) l →
  ∃ usage,
    day_usage today l = Some usage
    ∧ clean_scope_with today' dynamic'
        {| activities := second_input today l; discount_percentage := d' |}
      = Some {|
          out_activities := imap renumber (sort_by_start (first_pass today l));
          out_resourcing_plan :=
            plan_of (months_of today l) usage dynamic' d'
              (role_order_of (second_input today l));
          out_Duration :=
            duration_of (min_start_of today l) (max_end_of today l);
          out_discount_percentage := d' |}.
Proof.
  intros Hall.
  destruct (day_usage_some today l Hall) as [usage Hu].
  exists usage. split; [done|].
  pose proof (second_input_supported today today' _ Hall) as Hall2.
  destruct (clean_scope_with_supported today' dynamic'
              {| activities := second_input today l;
                 discount_percentage := d' |} Hall2)
    as (usage' & Hu' & E').
  cbn [activities discount_percentage] in Hu', E'.
  destruct (second_run today today' l Hall) as (HK & Hdur & Hday).
  rewrite Hday, Hu in Hu'. injection Hu' as <-.
  by rewrite HK, Hdur, second_activities in E' by done.
Qed.

(** Whether [clean_scope] raises depends on the activities alone. *)
Lemma clean_scope_with_raises (today : Z) (dynamic dynamic' : gmap string Q)
    (acts : list activity_in) (d d' : option Q) :
  clean_scope_with today dynamic
    {| activities := acts; discount_percentage := d |} = None →
  clean_scope_with today dynamic'
    {| activities := acts; discount_percentage := d' |} = None.
Proof.
  unfold clean_scope_with. cbn [activities discount_percentage].
  destruct (process_activities today loop_init 1 acts) as [st|]; [|done].
  cbn [mbind option_bind].
  by destruct (usage_of_activities _ _ _ _ _).
Qed.

Import PyDate PyDateFacts PyStrFacts PyNumFacts LoopFacts SortFacts NormalFacts
  CleanFacts PlanFacts.

Lemma plan_of_roles (total_months : nat) (usage : gmap string (list Z))
    (dynamic : gmap string Q) (discount : option Q) (role_order : list string) :
  pe_Resources <$> plan_of total_months usage dynamic discount role_order
  = role_order.
Proof.
  rewrite plan_of_imap. apply list_eq. intros i.
  rewrite list_lookup_fmap, list_lookup_imap.
  destruct (role_order !! i) as [r|]; [|done]. simpl. f_equal.
  apply entry_of_fields.
Qed.




Import PyDate PyDateFacts PyStrFacts PyNumFacts LoopFacts SortFacts NormalFacts
  CleanFacts PlanFacts.

(** ** Searching a text *)

Module SearchFacts.
Import PyStr.

Lemma find_l_range (c : ascii) (l : list ascii) :
  -1 ≤ find_l c l < Z.of_nat (length l).
Proof.
  induction l as [|x l IH]; simpl; [lia|].
  destruct (Ascii.eqb x c); [lia|].
  destruct (Z.ltb_spec (find_l c l) 0); lia.
Qed.

Lemma find_l_absent (c : ascii) (l : list ascii) : c ∉ l → find_l c l = -1.
Proof.
  induction l as [|x l IH]; intros Hn; simpl; [done|].
  apply not_elem_of_cons in Hn as [Hne Hn].
  destruct (Ascii.eqb_spec x c); [congruence|].
  rewrite IH by done. done.
Qed.

Lemma find_l_first (c : ascii) (pre rest : list ascii) :
  c ∉ pre → find_l c (pre ++ c :: rest) = Z.of_nat (length pre).
Proof.
  induction pre as [|x pre IH]; intros Hn; simpl.
  - by rewrite Ascii.eqb_refl.
  - apply not_elem_of_cons in Hn as [Hne Hn].
    destruct (Ascii.eqb_spec x c); [congruence|].
    rewrite IH by done.
    destruct (Z.ltb_spec (Z.of_nat (length pre)) 0); lia.
Qed.

Lemma rfind_l_absent (c : ascii) (l : list ascii) : c ∉ l → rfind_l c l = -1.
Proof.
  induction l as [|x l IH]; intros Hn; simpl; [done|].
  apply not_elem_of_cons in Hn as [Hne Hn].
  rewrite IH by done. simpl.
  destruct (Ascii.eqb_spec x c); [congruence|done].
Qed.

Lemma rfind_l_last (c : ascii) (pre post : list ascii) :
  c ∉ post → rfind_l c (pre ++ c :: post) = Z.of_nat (length pre).
Proof.
  intros Hn. induction pre as [|x pre IH]; simpl.
  - rewrite rfind_l_absent by done. simpl. by rewrite Ascii.eqb_refl.
  - rewrite IH. destruct (Z.leb_spec 0 (Z.of_nat (length pre))); lia.
Qed.

Lemma strip_prefix_app (pat rest : list ascii) :
  strip_prefix pat (pat ++ rest) = Some rest.
Proof.
  induction pat as [|p pat IH]; [by destruct rest|].
  simpl. by rewrite Ascii.eqb_refl.
Qed.

Lemma strip_prefix_Some (pat l rest : list ascii) :
  strip_prefix pat l = Some rest → l = pat ++ rest.
Proof.
  revert l. induction pat as [|p pat IH]; intros l.
  - destruct l; by intros [= <-].
  - destruct l as [|x l]; [done|]. simpl.
    destruct (Ascii.eqb_spec p x) as [->|]; [|done].
    intros H. by rewrite (IH l H).
Qed.

Lemma find_sub_eq (pat l : list ascii) :
  find_sub pat l
  = match strip_prefix pat l with
    | Some rest => Some ([], rest)
    | None =>
        match l with
        | [] => None
        | c :: l' =>
            match find_sub pat l' with
            | Some (pre, post) => Some (c :: pre, post)
            | None => None
            end
        end
    end.
Proof. by destruct l. Qed.

(** What [find_sub] finds is an occurrence. *)
Lemma find_sub_Some (pat l pre post : list ascii) :
  find_sub pat l = Some (pre, post) → l = pre ++ pat ++ post.
Proof.
  revert pre. induction l as [|x l IH]; intros pre; rewrite find_sub_eq.
  - destruct (strip_prefix pat []) eqn:E; [|done].
    intros [= <- <-]. exact (strip_prefix_Some _ _ _ E).
  - destruct (strip_prefix pat (x :: l)) eqn:E.
    + intros [= <- <-]. exact (strip_prefix_Some _ _ _ E).
    + destruct (find_sub pat l) as [[pre' post']|] eqn:E'; [|done].
      intros [= <- <-]. by rewrite (IH pre' eq_refl).
Qed.

(** Where there is an occurrence, [find_sub] finds one. *)
Lemma find_sub_None (pat l : list ascii) :
  find_sub pat l = None → ∀ l1 l2, l ≠ l1 ++ pat ++ l2.
Proof.
  intros H l1. revert l H. induction l1 as [|x l1 IH]; intros l H l2 ->.
  - rewrite find_sub_eq in H. cbn [app] in H.
    by rewrite strip_prefix_app in H.
  - rewrite find_sub_eq in H. cbn [app] in H.
    destruct (strip_prefix pat _); [done|].
    destruct (find_sub pat (l1 ++ pat ++ l2)) as [[]|] eqn:E; [done|].
    by apply (IH _ E l2).
Qed.

Lemma find_sub_absent (pat l : list ascii) :
  (∀ l1 l2, l ≠ l1 ++ pat ++ l2) → find_sub pat l = None.
Proof.
  intros H. destruct (find_sub pat l) as [[pre post]|] eqn:E; [|done].
  by apply find_sub_Some, H in E.
Qed.

(** The first fence of a text: the one that no fence precedes, when what
    precedes does not end in a backtick either. *)
Lemma find_sub_fence_at (pre rest : list ascii) :
  (∀ l1 l2, pre ≠ l1 ++ fence ++ l2) → last pre ≠ Some backtick →
  find_sub fence (pre ++ fence ++ rest) = Some (pre, rest).
Proof.
  induction pre as [|x pre IH]; intros Hfree Hlast; rewrite find_sub_eq.
  - cbn [app]. by rewrite strip_prefix_app.
  - assert (strip_prefix fence ((x :: pre) ++ fence ++ rest) = None) as ->.
    { destruct (strip_prefix fence ((x :: pre) ++ fence ++ rest)) as [r|] eqn:E;
        [|done].
      apply strip_prefix_Some in E. exfalso.
      destruct pre as [|y [|z pre]].
      - injection E as -> _. by apply Hlast.
      - injection E as -> -> _. by apply Hlast.
      - injection E as -> -> -> _. by apply (Hfree [] pre). }
    cbn [app]. rewrite IH; [done| |].
    + intros l1 l2 ->. by apply (Hfree (x :: l1) l2).
    + destruct pre as [|y pre]; [done|]. exact Hlast.
Qed.

End SearchFacts.

(** ** The extraction of the answer *)

Module ExtractFacts.
Import PyStr SearchFacts.

Lemma rfind_l_range (c : ascii) (l : list ascii) :
  -1 ≤ rfind_l c l < Z.of_nat (length l).
Proof.
  induction l as [|x l IH]; simpl; [lia|].
  destruct (Z.leb_spec 0 (rfind_l c l)); [lia|].
  destruct (Ascii.eqb x c); lia.
Qed.

Lemma rfind_l_app_absent (c : ascii) (l1 l2 : list ascii) :
  c ∉ l2 → rfind_l c (l1 ++ l2) = rfind_l c l1.
Proof.
  intros Hn. induction l1 as [|x l1 IH]; simpl.
  - by apply rfind_l_absent.
  - by rewrite IH.
Qed.

Lemma slice_span (pre mid post : list ascii) (a b : ascii) :
  slice (string_of_list_ascii (pre ++ a :: mid ++ b :: post))
    (Z.of_nat (length pre)) (Z.of_nat (length (pre ++ a :: mid)) + 1)
  = string_of_list_ascii (a :: mid ++ [b]).
Proof.
  unfold slice. rewrite list_ascii_of_string_of_list_ascii. f_equal.
  rewrite Nat2Z.id.
  replace (Z.to_nat (Z.of_nat (length (pre ++ a :: mid)) + 1))
    with (length (pre ++ a :: mid ++ [b])).
  - replace (pre ++ a :: mid ++ b :: post)
      with ((pre ++ a :: mid ++ [b]) ++ post).
    + rewrite take_app_length. by rewrite drop_app_length.
    + rewrite <- !app_assoc. cbn [app]. by rewrite <- app_assoc.
  - rewrite !length_app. cbn [length]. rewrite !length_app. cbn [length]. lia.
Qed.

Lemma lower_json_no_backtick (l : list ascii) :
  String.eqb (lower (string_of_list_ascii l)) "json" = true → backtick ∉ l.
Proof.
  intros H%String.eqb_eq Hin. unfold lower in H.
  rewrite list_ascii_of_string_of_list_ascii in H.
  apply (f_equal list_ascii_of_string) in H.
  rewrite list_ascii_of_string_of_list_ascii in H.
  assert (Hl : lower_char backtick ∈ map lower_char l)
    by (apply list_elem_of_In, in_map, list_elem_of_In, Hin).
  rewrite H in Hl. vm_compute in Hl.
  repeat (apply elem_of_cons in Hl as [Hl|Hl]; [discriminate|]).
  by apply elem_of_nil in Hl.
Qed.

Lemma lower_length (l : list ascii) :
  length (list_ascii_of_string (lower (string_of_list_ascii l))) = length l.
Proof.
  unfold lower. rewrite !list_ascii_of_string_of_list_ascii.
  apply length_map.
Qed.

(** A tag is four characters. *)
Lemma json_tag_four (tag : list ascii) :
  lower (string_of_list_ascii tag) = "json"%string →
  ∃ c1 c2 c3 c4, tag = [c1; c2; c3; c4].
Proof.
  intros H. pose proof (lower_length tag) as Hl. rewrite H in Hl.
  destruct tag as [|c1 [|c2 [|c3 [|c4 [|c5 tag]]]]]; try done.
  by exists c1, c2, c3, c4.
Qed.

Lemma skip_json_tag_tagged (tag rest : list ascii) :
  lower (string_of_list_ascii tag) = "json"%string →
  skip_json_tag (tag ++ rest) = rest.
Proof.
  intros H. destruct (json_tag_four tag H) as (c1 & c2 & c3 & c4 & ->).
  cbn [app skip_json_tag]. by rewrite H.
Qed.

Lemma skip_json_tag_untagged (body rest : list ascii) :
  (∀ tag l, body = tag ++ l → lower (string_of_list_ascii tag) ≠ "json"%string) →
  skip_json_tag (body ++ fence ++ rest) = body ++ fence ++ rest.
Proof.
  intros Hn.
  destruct body as [|c1 [|c2 [|c3 [|c4 body]]]].
  5: { cbn [app skip_json_tag].
       destruct (String.eqb_spec
                   (lower (string_of_list_ascii [c1; c2; c3; c4])) "json")
         as [E|]; [|done].
       by destruct (Hn [c1; c2; c3; c4] body eq_refl). }
  all: cbn [app fence skip_json_tag].
  all: repeat match goal with
         | |- context [match ?r with [] => _ | _ :: _ => _ end] =>
             destruct r; [done|]
         end.
  all: match goal with
       | |- context [String.eqb (lower (string_of_list_ascii ?l)) _] =>
           destruct (String.eqb (lower (string_of_list_ascii l)) "json")
             eqn:E; [|done];
           apply lower_json_no_backtick in E; exfalso; apply E;
           unfold backtick; set_solver
       end.
Qed.

(** What follows the tag is the end of what follows the fence. *)
Lemma skip_json_tag_end (l : list ascii) :
  ∃ tag, l = tag ++ skip_json_tag l.
Proof.
  destruct l as [|c1 [|c2 [|c3 [|c4 l]]]]; try by exists [].
  cbn [skip_json_tag]. destruct (String.eqb _ _).
  - by exists [c1; c2; c3; c4].
  - by exists [].
Qed.

Lemma strip_code_fences_plain (s : string) :
  (∀ l1 l2, list_ascii_of_string s ≠ l1 ++ fence ++ l2) →
  _strip_code_fences s = s.
Proof.
  intros Hn. unfold _strip_code_fences.
  by rewrite find_sub_absent.
Qed.

Lemma strip_code_fences_open (s : string) (pre rest : list ascii) :
  list_ascii_of_string s = pre ++ fence ++ rest →
  (∀ l1 l2, pre ≠ l1 ++ fence ++ l2) → last pre ≠ Some backtick →
  (∀ l1 l2, rest ≠ l1 ++ fence ++ l2) →
  _strip_code_fences s = s.
Proof.
  intros Hs Hpre Hlast Hrest. unfold _strip_code_fences.
  rewrite Hs, find_sub_fence_at by done.
  rewrite find_sub_absent; [done|].
  intros l1 l2 E. destruct (skip_json_tag_end rest) as [tag Ht].
  apply (Hrest (tag ++ l1) l2). rewrite Ht at 1. rewrite E.
  by rewrite <- app_assoc.
Qed.

Lemma strip_code_fences_tagged (s : string) (pre tag body post : list ascii) :
  list_ascii_of_string s = pre ++ fence ++ tag ++ body ++ fence ++ post →
  lower (string_of_list_ascii tag) = "json"%string →
  (∀ l1 l2, pre ≠ l1 ++ fence ++ l2) → last pre ≠ Some backtick →
  (∀ l1 l2, body ≠ l1 ++ fence ++ l2) → last body ≠ Some backtick →
  _strip_code_fences s = string_of_list_ascii body.
Proof.
  intros Hs Htag Hpre Hlast Hbody Hlast'. unfold _strip_code_fences.
  rewrite Hs, find_sub_fence_at by done.
  rewrite skip_json_tag_tagged by done.
  by rewrite find_sub_fence_at.
Qed.

Lemma strip_code_fences_untagged (s : string) (pre body post : list ascii) :
  list_ascii_of_string s = pre ++ fence ++ body ++ fence ++ post →
  (∀ tag l, body = tag ++ l → lower (string_of_list_ascii tag) ≠ "json"%string) →
  (∀ l1 l2, pre ≠ l1 ++ fence ++ l2) → last pre ≠ Some backtick →
  (∀ l1 l2, body ≠ l1 ++ fence ++ l2) → last body ≠ Some backtick →
  _strip_code_fences s = string_of_list_ascii body.
Proof.
  intros Hs Htag Hpre Hlast Hbody Hlast'. unfold _strip_code_fences.
  rewrite Hs, find_sub_fence_at by done.
  rewrite skip_json_tag_untagged by done.
  by rewrite find_sub_fence_at.
Qed.

Section Extraction.

Variable json : Type.
Variable json_loads : string → option json.
Variable empty_dict : json.

Lemma extract_direct (s : string) (v : json) :
  json_loads (strip (_strip_code_fences s)) = Some v → _extract_json json json_loads empty_dict s = v.
Proof. unfold _extract_json. by intros ->. Qed.

Lemma extract_span (s : string) (pre mid post : list ascii) :
  json_loads (strip (_strip_code_fences s)) = None →
  list_ascii_of_string (_strip_code_fences s)
    = pre ++ "{"%char :: mid ++ "}"%char :: post →
  "{"%char ∉ pre → "}"%char ∉ post →
  _extract_json json json_loads empty_dict s
  = default empty_dict
      (json_loads (string_of_list_ascii ("{"%char :: mid ++ ["}"%char]))).
Proof.
  intros Hd Hraw Hpre Hpost. unfold _extract_json. rewrite Hd.
  unfold find, rfind. rewrite Hraw.
  rewrite find_l_first by done.
  replace (pre ++ "{"%char :: mid ++ "}"%char :: post)
    with ((pre ++ "{"%char :: mid) ++ "}"%char :: post)
    by (by rewrite <- app_assoc).
  rewrite rfind_l_last by done.
  replace ((0 <=? Z.of_nat (length pre))
           && (Z.of_nat (length pre)
               <? Z.of_nat (length (pre ++ "{"%char :: mid)))) with true.
  - rewrite <- (string_of_list_ascii_of_string (_strip_code_fences s)), Hraw.
    rewrite slice_span. by destruct (json_loads _).
  - symmetry. apply andb_true_iff. rewrite length_app. cbn [length].
    split; [apply Z.leb_le|apply Z.ltb_lt]; lia.
Qed.

Lemma extract_no_open (s : string) :
  json_loads (strip (_strip_code_fences s)) = None →
  "{"%char ∉ list_ascii_of_string (_strip_code_fences s) →
  _extract_json json json_loads empty_dict s = empty_dict.
Proof.
  intros Hd Hn. unfold _extract_json. rewrite Hd.
  unfold find. by rewrite find_l_absent.
Qed.

Lemma extract_no_close (s : string) (pre post : list ascii) :
  json_loads (strip (_strip_code_fences s)) = None →
  list_ascii_of_string (_strip_code_fences s) = pre ++ "{"%char :: post →
  "{"%char ∉ pre → "}"%char ∉ post →
  _extract_json json json_loads empty_dict s = empty_dict.
Proof.
  intros Hd Hraw Hpre Hpost. unfold _extract_json. rewrite Hd.
  unfold find, rfind. rewrite Hraw.
  rewrite find_l_first by done.
  rewrite rfind_l_app_absent.
  - pose proof (rfind_l_range "}" pre).
    replace (Z.of_nat (length pre) <? rfind_l "}" pre) with false
      by (symmetry; apply Z.ltb_ge; lia).
    by rewrite andb_false_r.
  - apply not_elem_of_cons. split; [discriminate|done].
Qed.

Lemma extract_cases (s : string) :
  (∃ text, json_loads text = Some (_extract_json json json_loads empty_dict s)) ∨ _extract_json json json_loads empty_dict s = empty_dict.
Proof.
  unfold _extract_json.
  destruct (json_loads (strip _)) eqn:E; [by left; eexists|].
  destruct (_ && _); [|by right].
  destruct (json_loads (slice _ _ _)) eqn:E'; [by left; eexists|by right].
Qed.

End Extraction.

End ExtractFacts.

Import ExtractFacts.

(** C10: [_extract_json] is a total function of its text: its value is what
    [json.loads] makes of some text, or the empty dictionary.  It first
    strips the code fences: a text without a fence, or with one fence only,
    is kept as it is; of a text with two fences the part between the first
    fence and the next one is kept, without the tag [json], in any case of
    letters, when it follows the first fence at once; backticks that are
    not a fence may precede.  It answers the direct parse of what is kept,
    stripped, when it succeeds; when it fails, it answers the parse of the
    span from the first opening brace to the last closing brace, and the
    empty dictionary when that parse fails too or when there is no such
    span; so it does for the empty text. *)
Theorem C10_extract_json (json : Type) (json_loads : string → option json)
    (empty_dict : json) (s : string) :
  let raw := _strip_code_fences s in
  let extract := _extract_json json json_loads empty_dict in
  ((∃ text, json_loads text = Some (extract s)) ∨ extract s = empty_dict)
  ∧ (no_fence (list_ascii_of_string s) → raw = s)
  ∧ (∀ pre rest,
       list_ascii_of_string s = pre ++ fence ++ rest →
       before_fence pre → no_fence rest → raw = s)
  ∧ (∀ pre tag body post,
       list_ascii_of_string s = pre ++ fence ++ tag ++ body ++ fence ++ post →
       json_tag tag → before_fence pre → before_fence body →
       raw = string_of_list_ascii body)
  ∧ (∀ pre body post,
       list_ascii_of_string s = pre ++ fence ++ body ++ fence ++ post →
       untagged body → before_fence pre → before_fence body →
       raw = string_of_list_ascii body)
  ∧ (∀ v, json_loads (PyStr.strip raw) = Some v → extract s = v)
  ∧ (json_loads (PyStr.strip raw) = None →
     (∀ pre mid post,
        list_ascii_of_string raw = pre ++ "{"%char :: mid ++ "}"%char :: post →
        "{"%char ∉ pre → "}"%char ∉ post →
        extract s
        = default empty_dict
            (json_loads (string_of_list_ascii ("{"%char :: mid ++ ["}"%char]))))
     ∧ ("{"%char ∉ list_ascii_of_string raw → extract s = empty_dict)
     ∧ (∀ pre post,
          list_ascii_of_string raw = pre ++ "{"%char :: post →
          "{"%char ∉ pre → "}"%char ∉ post → extract s = empty_dict))
  ∧ (json_loads "" = None → extract "" = empty_dict).
Proof.
  intros raw extract. subst raw extract.
  split; [apply extract_cases|].
  split; [apply strip_code_fences_plain|].
  split.
  { intros pre rest Hs [Hpre Hlast] Hrest.
    by apply (strip_code_fences_open s pre rest). }
  split.
  { intros pre tag body post Hs Htag [Hpre Hlast] [Hbody Hlast'].
    by apply (strip_code_fences_tagged s pre tag body post). }
  split.
  { intros pre body post Hs Htag [Hpre Hlast] [Hbody Hlast'].
    by apply (strip_code_fences_untagged s pre body post). }
  split; [intros v; apply extract_direct|].
  split.
  - intros Hd. split; [|split].
    + intros pre mid post. by apply extract_span.
    + by apply extract_no_open.
    + intros pre post. by apply extract_no_close.
  - intros H. apply extract_no_open; [done|].
    cbn. apply not_elem_of_nil.
Qed.

(** An answer in fences, with backticks before the first fence, a tag in
    capitals, and words around the braces: what is between the fences is
    kept without the tag, its direct parse fails, and the span between the
    braces is parsed. *)
Lemma C10_extract_json_witness :
  _strip_code_fences stray_answer = " see {a: 1} here "%string
  ∧ _extract_json string braces_loads "{}" stray_answer = "{a: 1}"%string.
Proof.
  pose proof (C10_extract_json string braces_loads "{}" stray_answer)
    as (_ & _ & _ & Hf & _ & _ & Hs & _).
  assert (Hraw : _strip_code_fences stray_answer = " see {a: 1} here "%string).
  { apply (Hf (list_ascii_of_string "Run `it`: ") (list_ascii_of_string "JSON")
              (list_ascii_of_string " see {a: 1} here ")
              (list_ascii_of_string " bye")).
    - vm_compute. reflexivity.
    - vm_compute. reflexivity.
    - split; [unfold no_fence; apply SearchFacts.find_sub_None|];
        vm_compute; done.
    - split; [unfold no_fence; apply SearchFacts.find_sub_None|];
        vm_compute; done. }
  split; [exact Hraw|].
  rewrite Hraw in Hs.
  destruct Hs as [Hs _]; [vm_compute; reflexivity|].
  rewrite (Hs (list_ascii_of_string " see ") (list_ascii_of_string "a: 1")
              (list_ascii_of_string " here ")).
  - vm_compute. reflexivity.
  - vm_compute. reflexivity.
  - apply (bool_decide_unpack _). vm_compute. reflexivity.
  - apply (bool_decide_unpack _). vm_compute. reflexivity.
Defined.

Import PyDate PyDateFacts PyStrFacts PyNumFacts LoopFacts SortFacts NormalFacts
  CleanFacts PlanFacts.

(** ** The guards of the generation *)

(** What the specification calls garbage, the code counts. *)
Lemma empty_fields_spec_garbage (act : activity_in) (b : bool) :
  empty_fields act = Some b → spec_garbage act = true → b = true.
Proof.
  unfold empty_fields, spec_garbage, description_empty, owner_unassigned.
  destruct (jget_default (in_Activities act) "") as [name|]; [|done].
  cbn [mbind option_bind].
  destruct (negb (PyStr.truthy (PyStr.strip name))); [congruence|].
  destruct (in_Description act) as [| |desc];
    cbn [jget_default mbind option_bind]; [by intros [= <-]|done|].
  destruct (negb (PyStr.truthy (PyStr.strip desc))); [congruence|].
  rewrite orb_false_r.
  destruct (in_Owner act) as [| |owner];
    cbn [jget_default mbind option_bind]; [by intros [= <-]|done|].
  intros [= <-] Hg. apply orb_true_iff in Hg as [Hg|Hg].
  - apply String.eqb_eq in Hg as ->. reflexivity.
  - by rewrite Hg.
Qed.

Lemma count_if_nonneg (test : activity_in → option bool)
    (acts : list activity_in) (c : Z) :
  count_if test acts = Some c → 0 ≤ c.
Proof.
  revert c. induction acts as [|act acts IH]; intros c; cbn [count_if].
  - intros [= <-]. lia.
  - destruct (test act) as [b|]; [|done]. cbn [mbind option_bind].
    destruct (count_if test acts) as [n|]; [|done]. cbn [mbind option_bind].
    intros [= <-]. specialize (IH n eq_refl). destruct b; lia.
Qed.

Lemma spec_garbage_count_le (acts : list activity_in) (c : Z) :
  count_if empty_fields acts = Some c → spec_garbage_count acts ≤ c.
Proof.
  unfold spec_garbage_count.
  revert c. induction acts as [|act acts IH]; intros c; cbn [count_if].
  - intros [= <-]. simpl. lia.
  - destruct (empty_fields act) as [b|] eqn:Eb; [|done].
    cbn [mbind option_bind].
    destruct (count_if empty_fields acts) as [n|]; [|done].
    cbn [mbind option_bind]. intros [= <-]. specialize (IH n eq_refl).
    cbn [List.filter].
    destruct (spec_garbage act) eqn:Eg.
    + rewrite (empty_fields_spec_garbage act b Eb Eg). cbn [length]. lia.
    + destruct b; lia.
Qed.

(** More than 70% of garbage, taken exactly, and the guard rejects or
    raises. *)
Lemma content_guard_spec_garbage (acts : list activity_in) :
  Z.of_nat (length acts) < 2 ^ 49 →
  7 * Z.of_nat (length acts) < 10 * spec_garbage_count acts →
  content_guard acts = Some true ∨ content_guard acts = None.
Proof.
  intros Hn Hg. unfold content_guard.
  destruct acts as [|act acts]; [by vm_compute in Hg|].
  destruct (count_if empty_fields (act :: acts)) as [c|] eqn:Ec; [|by right].
  left. cbn [mbind option_bind]. f_equal.
  apply gt_mul_07_of_exact; [lia|].
  pose proof (spec_garbage_count_le _ _ Ec). lia.
Qed.

Section Generation.

Variable json : Type.
Variable json_loads : string → option json.
Variable empty_dict : json.
Variable view : json → option scope_in.
Variable today : Z.
Variable db : option db_state.
Variable company : option company_id.

(** On every path but the accepted one the model is asked once; on the
    accepted one it is asked once more, for the diagram. *)
Lemma generate_calls (llm : list (option string)) :
  let result :=
    generate_project_scope json json_loads empty_dict view today db company
      llm in
  (fst result = Empty ∧ snd result = snd (ollama_chat llm))
  ∨ (∃ out, fst result = Scope out
            ∧ snd result = snd (ollama_chat (snd (ollama_chat llm)))).
Proof.
  cbv zeta. unfold generate_project_scope.
  destruct (ollama_chat llm) as [raw_text rest]. cbn [snd].
  destruct (_ || _); [by left|].
  destruct (view _) as [data|]; [|by left].
  destruct (content_guard _) as [[]|]; [by left| |by left].
  destruct (clean_scope _ _ _ _) as [cleaned|]; [|by left].
  right. exists cleaned. by destruct (ollama_chat rest).
Qed.

Lemma generate_short (llm : list (option string)) :
  fst (ollama_chat llm) = ""%string
  ∨ PyStr.len (PyStr.strip (fst (ollama_chat llm))) < 50 →
  generate_project_scope json json_loads empty_dict view today db company llm
  = (Empty, snd (ollama_chat llm)).
Proof.
  unfold generate_project_scope.
  destruct (ollama_chat llm) as [raw_text rest]. cbn [fst snd].
  intros [->|Hlen]; [done|].
  apply Z.ltb_lt in Hlen. rewrite Hlen, orb_true_r. done.
Qed.

Lemma generate_garbage (llm : list (option string)) (data : scope_in) :
  view (_extract_json json json_loads empty_dict (fst (ollama_chat llm)))
  = Some data →
  Z.of_nat (length (activities data)) < 2 ^ 49 →
  7 * Z.of_nat (length (activities data))
  < 10 * spec_garbage_count (activities data) →
  generate_project_scope json json_loads empty_dict view today db company llm
  = (Empty, snd (ollama_chat llm)).
Proof.
  unfold generate_project_scope.
  destruct (ollama_chat llm) as [raw_text rest]. cbn [fst snd].
  intros Hv Hn Hg. destruct (_ || _); [done|]. rewrite Hv.
  by destruct (content_guard_spec_garbage _ Hn Hg) as [-> | ->].
Qed.

End Generation.

(** C8: the result of [generate_project_scope] is empty, and the model
    has been asked once and is not asked again, when its answer is empty or
    has fewer than 50 characters once stripped, and when more than 70% of
    the activities read from the answer (fewer than 2^49 of them) have an
    empty or absent owner, the owner "unassigned", or an empty or absent
    description: then no scope is made of that answer.  The share is taken
    exactly; the code compares with the binary64 product
    [len(activities) * 0.7].  Whenever the result is empty the model has
    been asked once; an answer that is made into a scope is followed by one
    more request, for the architecture diagram. *)
Theorem C8_generation_guards (json : Type) (json_loads : string → option json)
    (empty_dict : json) (view : json → option scope_in) (today : Z)
    (db : option db_state) (company : option company_id)
    (llm : list (option string)) :
  let raw_text := fst (ollama_chat llm) in
  let result :=
    generate_project_scope json json_loads empty_dict view today db company
      llm in
  (raw_text = ""%string ∨ PyStr.len (PyStr.strip raw_text) < 50 →
   result = (Empty, snd (ollama_chat llm)))
  ∧ (∀ data,
       view (_extract_json json json_loads empty_dict raw_text) = Some data →
       Z.of_nat (length (activities data)) < 2 ^ 49 →
       7 * Z.of_nat (length (activities data))
       < 10 * spec_garbage_count (activities data) →
       result = (Empty, snd (ollama_chat llm)))
  ∧ (fst result = Empty → snd result = snd (ollama_chat llm))
  ∧ (∀ out, fst result = Scope out →
       snd result = snd (ollama_chat (snd (ollama_chat llm)))).
Proof.
  cbv zeta. split; [apply generate_short|].
  split; [intros data; apply generate_garbage|].
  destruct (generate_calls json json_loads empty_dict view today db company
              llm) as [[He Hs]|(out' & Ho & Hs)].
  - split; [done|]. intros out Ho. by rewrite He in Ho.
  - split; [|done]. intros He. by rewrite Ho in He.
Qed.

(** An answer of nine characters, and an answer read as four activities of
    which three are garbage: both give the empty result, and both leave the
    next answer of the model unasked. *)
Lemma C8_generation_guards_witness :
  generate_project_scope scope_in (fixed_loads garbage_scope) empty_scope
    Some a_today None None [Some "too short"%string; Some long_answer]
  = (Empty, [Some long_answer])
  ∧ generate_project_scope scope_in (fixed_loads garbage_scope) empty_scope
      Some a_today None None [Some long_answer; Some long_answer]
    = (Empty, [Some long_answer]).
Proof.
  split.
  - pose proof (C8_generation_guards scope_in (fixed_loads garbage_scope)
                  empty_scope Some a_today None None
                  [Some "too short"%string; Some long_answer])
      as (Hshort & _).
    apply Hshort. right. vm_compute. reflexivity.
  - pose proof (C8_generation_guards scope_in (fixed_loads garbage_scope)
                  empty_scope Some a_today None None
                  [Some long_answer; Some long_answer])
      as (_ & Hgarbage & _).
    apply (Hgarbage garbage_scope).
    + vm_compute. reflexivity.
    + vm_compute. reflexivity.
    + vm_compute. reflexivity.
Defined.

(** An answer that passes the guards: the scope is made of it and the model
    is asked a second time, for the diagram; the third answer stays. *)
Example accepted_answer_two_calls :
  ∃ out,
    generate_project_scope scope_in (fixed_loads two_activities) empty_scope
      Some a_today None None
      [Some long_answer; Some "digraph Architecture {}"%string;
       Some long_answer]
    = (Scope out, [Some long_answer])
    ∧ length (out_activities out) = 2%nat.
Proof. eexists. split; [vm_compute; reflexivity|reflexivity]. Qed.

Import PyDate PyDateFacts PyStrFacts PyNumFacts LoopFacts SortFacts NormalFacts
  CleanFacts PlanFacts.

(** ** The regression guard *)

Lemma truthy_strip (s : string) :
  PyStr.truthy (PyStr.strip s) = true → PyStr.truthy s = true.
Proof. by destruct s. Qed.

(** Degenerate activities are not valid. *)
Lemma spec_degenerate_not_valid (acts : list activity_in) (valid : bool) :
  Z.of_nat (length acts) < 2 ^ 49 →
  spec_degenerate acts →
  activities_are_valid acts = Some valid →
  valid = false.
Proof.
  intros Hn Hd. unfold activities_are_valid.
  destruct acts as [|act acts].
  { destruct Hd as [[_ H]|[(c & Hc & H)|[(c & Hc & H)|(c & Hc & H)]]];
      try injection Hc as <-; simpl in H; lia. }
  cbv beta iota. generalize dependent (act :: acts). clear act acts.
  intros l Hn Hd.
  destruct (count_if owner_unassigned l) as [u|] eqn:Eu; [|done].
  destruct (count_if description_empty l) as [e|] eqn:Ee; [|done].
  destruct (count_if role_name_activity l) as [r|] eqn:Er; [|done].
  cbn [mbind option_bind]. intros [= <-].
  destruct Hd as [[Hp H]|[(c & Hc & H)|[(c & Hc & H)|(c & Hc & H)]]];
    try (rewrite Hc in *; simplify_eq).
  - rewrite Hp. apply Z.ltb_lt in H. rewrite H. cbn [andb negb].
    by rewrite !andb_false_r.
  - assert (Hb : 0 ≤ Z.of_nat (length l) < 2 ^ 49) by lia.
    rewrite (gt_mul_03_of_exact _ _ Hb H). cbn [negb].
    by rewrite !andb_false_r.
  - by rewrite (gt_mul_05_of_exact _ _ H).
  - rewrite (gt_mul_05_of_exact _ _ H). cbn [negb].
    by rewrite !andb_false_r.
Qed.

(** The guard fires on too few activities without a word of removal, and
    on activities that are not valid. *)
Lemma regression_guard_fires (original_activity_count new_activity_count : Z)
    (is_removal_instruction valid : bool) :
  0 ≤ original_activity_count < 2 ^ 49 →
  (10 * new_activity_count < 7 * original_activity_count
   ∧ is_removal_instruction = false)
  ∨ valid = false →
  regression_guard original_activity_count new_activity_count
    is_removal_instruction valid = true.
Proof.
  intros Hn [[Hc ->]| ->]; unfold regression_guard.
  - by rewrite (lt_mul_07_of_exact _ _ Hn Hc).
  - by rewrite orb_true_r.
Qed.

Section Regeneration.

Variable json : Type.
Variable json_loads : string → option json.
Variable empty_dict : json.
Variable view : json → option scope_in.
Variable remove_pattern_search : string → option string.
Variable discount_patterns_search : string → option Z.
Variable today : Z.
Variable db : option db_state.
Variable company : option company_id.

Lemma regenerate_one_call (draft : scope_in) (instructions : string)
    (llm : list (option string)) :
  PyStr.truthy (PyStr.strip instructions) = true →
  snd (regenerate_from_instructions json json_loads empty_dict view
          remove_pattern_search discount_patterns_search today db company
          draft instructions llm) = snd (ollama_chat llm).
Proof.
  intros Hi. unfold regenerate_from_instructions.
  rewrite Hi, (truthy_strip _ Hi). cbn [negb orb].
  destruct (ollama_chat llm) as [raw_text rest].
  by destruct (regenerate_try _ _ _ _ _ _ _ _ _ _ _ _).
Qed.

(** With the guard fired and no [remove] in the instructions, the draft's
    activities go to [clean_scope], under the discount of the answer. *)
Lemma regenerate_try_guarded (draft updated : scope_in) (valid : bool)
    (instructions raw_text : string) :
  PyStr.contains "remove" (PyStr.lower instructions) = false →
  view (_extract_json json json_loads empty_dict raw_text) = Some updated →
  activities_are_valid (activities updated) = Some valid →
  regression_guard (Z.of_nat (length (activities draft)))
    (Z.of_nat (length (activities updated)))
    (PyStr.contains "remove" (PyStr.lower instructions)
     || PyStr.contains "delete" (PyStr.lower instructions)) valid = true →
  regenerate_try json json_loads empty_dict view remove_pattern_search
    discount_patterns_search today db company draft instructions raw_text
  = clean_scope today db company
      {| activities := activities draft;
         discount_percentage :=
           regenerated_discount
             (discount_patterns_search (PyStr.lower instructions))
             (discount_percentage updated) |}.
Proof.
  intros Hr Hv Hvalid Hg. unfold regenerate_try.
  rewrite Hv. cbn [mbind option_bind]. rewrite Hvalid.
  cbn [mbind option_bind]. rewrite Hg, Hr. cbn [andb mbind option_bind].
  unfold regenerated_discount.
  by destruct (activities draft).
Qed.

Lemma regenerate_guarded (draft updated : scope_in) (valid : bool)
    (instructions : string) (llm : list (option string)) :
  PyStr.truthy (PyStr.strip instructions) = true →
  PyStr.contains "remove" (PyStr.lower instructions) = false →
  view (_extract_json json json_loads empty_dict (fst (ollama_chat llm)))
  = Some updated →
  activities_are_valid (activities updated) = Some valid →
  regression_guard (Z.of_nat (length (activities draft)))
    (Z.of_nat (length (activities updated)))
    (PyStr.contains "remove" (PyStr.lower instructions)
     || PyStr.contains "delete" (PyStr.lower instructions)) valid = true →
  fst (regenerate_from_instructions json json_loads empty_dict view
          remove_pattern_search discount_patterns_search today db company
          draft instructions llm)
  = clean_scope today db company
      {| activities := activities draft;
         discount_percentage :=
           regenerated_discount
             (discount_patterns_search (PyStr.lower instructions))
             (discount_percentage updated) |}.
Proof.
  intros Hi Hr Hv Hvalid Hg. unfold regenerate_from_instructions.
  rewrite Hi, (truthy_strip _ Hi). cbn [negb orb].
  destruct (ollama_chat llm) as [raw_text rest]. cbn [fst] in Hv.
  rewrite (regenerate_try_guarded draft updated valid instructions raw_text)
    by done.
  destruct (clean_scope today db company _) as [cleaned|] eqn:E; [done|].
  cbn [fst]. destruct draft as [acts d]. cbn [activities] in *.
  unfold clean_scope in *.
  exact (clean_scope_with_raises _ _ _ _ _ _ E).
Qed.

End Regeneration.

(** A draft that is a result of [clean_scope] comes back with its
    activities, its duration and its role-month allocations, under any
    discount and any rates. *)
Lemma draft_comes_back (today0 today : Z) (dynamic0 dynamic : gmap string Q)
    (data0 : scope_in) (prev : scope_out) (acts : list activity_in)
    (discount : option Q) :
  Forall (supported today0) (activities data0) →
  clean_scope_with today0 dynamic0 data0 = Some prev →
  acts = to_input <$> out_activities prev →
  ∃ out,
    clean_scope_with today dynamic
      {| activities := acts; discount_percentage := discount |} = Some out
    ∧ out_activities out = out_activities prev
    ∧ (∀ role, allocation (out_resourcing_plan out) role
               = allocation (out_resourcing_plan prev) role)
    ∧ out_Duration out = out_Duration prev
    ∧ out_discount_percentage out = discount.
Proof.
  intros Hall Hprev ->.
  destruct (clean_scope_with_supported today0 dynamic0 data0 Hall)
    as (usage & Hu & E).
  rewrite Hprev in E. injection E as ->.
  cbn [out_activities out_resourcing_plan out_Duration].
  fold (second_input today0 (activities data0)).
  destruct (second_pass_closed today0 today dynamic (activities data0)
              discount Hall) as (usage' & Hu' & E').
  rewrite Hu in Hu'. injection Hu' as <-.
  eexists. split; [exact E'|].
  cbn [out_activities out_resourcing_plan out_Duration
       out_discount_percentage].
  split; [done|]. split; [|done].
  intros role. rewrite !allocation_plan_of.
  by rewrite (bool_decide_ext _ _
                (second_roles today0 today (activities data0) role Hall)).
Qed.

(** X26: when the instructions are not blank and do not say [remove], and
    the answer (of fewer than 2^49 activities, against a draft of fewer
    than 2^49) has fewer activities than 70% of the draft's with no
    [delete] in the instructions, or degenerate activities (all of several
    on the same dates, more than 30% named after a role, more than half
    without an owner or without a description), the model is asked once and
    the draft's activity list replaces the answer's; the result is what
    [clean_scope] makes of it under the discount of the answer or of the
    instructions.  For a draft that [clean_scope] produced from activities
    with dates from the year 1000 to November 9999, the result has the
    draft's activities, duration and role-month allocations, and that
    discount. *)
Theorem X26_guard_restores_activities (json : Type)
    (json_loads : string → option json) (empty_dict : json)
    (view : json → option scope_in)
    (remove_pattern_search : string → option string)
    (discount_patterns_search : string → option Z) (today : Z)
    (db : option db_state) (company : option company_id)
    (draft updated : scope_in) (valid : bool) (instructions : string)
    (llm : list (option string)) :
  let raw_text := fst (ollama_chat llm) in
  let lowered := PyStr.lower instructions in
  let original_activity_count := Z.of_nat (length (activities draft)) in
  let new_activity_count := Z.of_nat (length (activities updated)) in
  let discount :=
    regenerated_discount (discount_patterns_search lowered)
      (discount_percentage updated) in
  let result :=
    regenerate_from_instructions json json_loads empty_dict view
      remove_pattern_search discount_patterns_search today db company
      draft instructions llm in
  PyStr.truthy (PyStr.strip instructions) = true →
  PyStr.contains "remove" lowered = false →
  view (_extract_json json json_loads empty_dict raw_text) = Some updated →
  activities_are_valid (activities updated) = Some valid →
  original_activity_count < 2 ^ 49 →
  new_activity_count < 2 ^ 49 →
  (10 * new_activity_count < 7 * original_activity_count
   ∧ PyStr.contains "delete" lowered = false)
  ∨ spec_degenerate (activities updated) →
  snd result = snd (ollama_chat llm)
  ∧ fst result
    = clean_scope today db company
        {| activities := activities draft; discount_percentage := discount |}
  ∧ (∀ today0 dynamic0 data0 prev,
       Forall (supported today0) (activities data0) →
       clean_scope_with today0 dynamic0 data0 = Some prev →
       activities draft = to_input <$> out_activities prev →
       ∃ out,
         fst result = Some out
         ∧ out_activities out = out_activities prev
         ∧ (∀ role, allocation (out_resourcing_plan out) role
                    = allocation (out_resourcing_plan prev) role)
         ∧ out_Duration out = out_Duration prev
         ∧ out_discount_percentage out = discount).
Proof.
  cbv zeta. intros Hi Hr Hv Hvalid Ho Hn Hcase.
  assert (Hg : regression_guard (Z.of_nat (length (activities draft)))
                 (Z.of_nat (length (activities updated)))
                 (PyStr.contains "remove" (PyStr.lower instructions)
                  || PyStr.contains "delete" (PyStr.lower instructions))
                 valid = true).
  { apply regression_guard_fires; [lia|].
    destruct Hcase as [[Hc Hd]|Hd].
    - left. split; [done|]. by rewrite Hr, Hd.
    - right. by apply (spec_degenerate_not_valid (activities updated)). }
  pose proof (regenerate_guarded json json_loads empty_dict view
                remove_pattern_search discount_patterns_search today db
                company draft updated valid instructions llm Hi Hr Hv Hvalid
                Hg) as E.
  split; [by apply regenerate_one_call|]. split; [exact E|].
  intros today0 dynamic0 data0 prev Hall Hprev Hd.
  rewrite E. unfold clean_scope.
  by apply (draft_comes_back today0 today dynamic0 _ data0).
Qed.

(** The draft of ten activities and an answer of three degenerate ones: the
    ten activities come back. *)
Lemma X26_guard_restores_activities_witness :
  ∃ out,
    fst (regenerate_from_instructions scope_in (fixed_loads degenerate_answer)
           empty_scope Some no_match no_match (a_today + 30) None None
           (to_scope_in ten_activities_out) "optimize the plan"
           [Some long_answer]) = Some out
    ∧ out_activities out = out_activities ten_activities_out
    ∧ length (out_activities out) = 10%nat.
Proof.
  assert (Hi : PyStr.truthy (PyStr.strip "optimize the plan") = true)
    by (vm_compute; reflexivity).
  assert (Hr : PyStr.contains "remove" (PyStr.lower "optimize the plan")
               = false) by (vm_compute; reflexivity).
  assert (Hv : Some (_extract_json scope_in (fixed_loads degenerate_answer)
                       empty_scope (fst (ollama_chat [Some long_answer])))
               = Some degenerate_answer) by (vm_compute; reflexivity).
  assert (Hvalid : activities_are_valid (activities degenerate_answer)
                   = Some false) by (vm_compute; reflexivity).
  assert (Ho : Z.of_nat (length (activities (to_scope_in ten_activities_out)))
               < 2 ^ 49) by (vm_compute; reflexivity).
  assert (Hn : Z.of_nat (length (activities degenerate_answer)) < 2 ^ 49)
    by (vm_compute; reflexivity).
  assert (Hd : spec_degenerate (activities degenerate_answer))
    by (left; split; vm_compute; reflexivity).
  assert (Hall : Forall (supported a_today) (activities ten_activities)).
  { unfold ten_activities. cbn [activities].
    repeat (apply Forall_cons_2; [split; vm_compute; done|]).
    apply Forall_nil_2. }
  assert (Hprev : clean_scope_with a_today ROLE_RATE_MAP ten_activities
                  = Some ten_activities_out) by (vm_compute; reflexivity).
  destruct (X26_guard_restores_activities scope_in
              (fixed_loads degenerate_answer)
              empty_scope Some no_match no_match (a_today + 30) None None
              (to_scope_in ten_activities_out) degenerate_answer false
              "optimize the plan" [Some long_answer] Hi Hr Hv Hvalid Ho Hn
              (or_intror Hd)) as (_ & _ & H).
  destruct (H a_today ROLE_RATE_MAP ten_activities ten_activities_out Hall
              Hprev eq_refl) as (out & E & Ha & _).
  exists out. split; [exact E|]. split; [exact Ha|].
  rewrite Ha. reflexivity.
Defined.

(** C5: the restoration of the guard does not last.  The draft is the
    result of the two-activity scenario, with the costs 3750.00 and 4000.00;
    the answer carries two activities on the same dates, which the guard
    rejects, and a discount of 10%.  With the instructions "optimize the
    plan" the draft's activities come back, but the plan is computed anew
    under the discount of the answer: its costs, 3375.00 and 3600.00, are
    not those of the draft's plan.  With the instructions "remove qa
    engineer" the guard fires as well, and the post-processing then edits
    the activities it has just restored: the owner "QA Engineer" of B
    becomes "Project Manager" and the resource "QA Engineer" of A is
    dropped. *)
Lemma C5_plan_not_restored :
  activities_are_valid (activities discounting_answer) = Some false
  ∧ pe_Cost <$> out_resourcing_plan two_activities_out
    = [Qmake 375000 100; Qmake 400000 100]
  ∧ (Owner <$> out_activities two_activities_out,
     Resources <$> out_activities two_activities_out)
    = (["Backend Developer"; "QA Engineer"], ["QA Engineer"; ""])%string
  ∧ (∃ out,
       fst (regenerate_from_instructions scope_in
              (fixed_loads discounting_answer) empty_scope Some no_match
              no_match a_today None None (to_scope_in two_activities_out)
              "optimize the plan" [Some long_answer]) = Some out
       ∧ out_activities out = out_activities two_activities_out
       ∧ pe_Cost <$> out_resourcing_plan out
         = [Qmake 337500 100; Qmake 360000 100])
  ∧ (∃ out,
       fst (regenerate_from_instructions scope_in
              (fixed_loads discounting_answer) empty_scope Some
              (λ _, Some "qa engineer"%string) no_match a_today None None
              (to_scope_in two_activities_out) "remove qa engineer"
              [Some long_answer]) = Some out
       ∧ (Owner <$> out_activities out, Resources <$> out_activities out)
         = (["Backend Developer"; "Project Manager"], [""; ""])%string
       ∧ pe_Resources <$> out_resourcing_plan out
         = ["Backend Developer"; "Project Manager"]%string).
Proof.
  split; [vm_compute; reflexivity|].
  split; [vm_compute; reflexivity|].
  split; [vm_compute; reflexivity|].
  split; eexists; (split; [vm_compute; reflexivity|]);
    split; vm_compute; reflexivity.
Qed.

Import PyDate PyDateFacts PyStrFacts PyNumFacts LoopFacts SortFacts NormalFacts
  CleanFacts PlanFacts.

(** * More of the code: what [clean_scope] keeps *)

(** ** Dates *)

Module DateFacts.

Lemma digit_val_range (c : ascii) (k : Z) : digit_val c = Some k → 0 ≤ k ≤ 9.
Proof.
  unfold digit_val. cbv zeta.
  destruct (Z.leb_spec 48 (Z.of_nat (nat_of_ascii c))),
    (Z.leb_spec (Z.of_nat (nat_of_ascii c)) 57); simpl; intros [= <-]; lia.
Qed.

Ltac digits :=
  repeat match goal with
    | H : digit_val _ = Some _ |- _ => apply digit_val_range in H
    | H : _ && _ = true |- _ => apply andb_true_iff in H as [? ?]
    | H : (_ <=? _) = true |- _ => apply Z.leb_le in H
    | H : (_ =? _) = true |- _ => apply Z.eqb_eq in H
    end.

Ltac split_ifs :=
  repeat match goal with
    | H : (if ?c then _ else _) = Some _ |- _ =>
        destruct c eqn:?; simplify_eq
    end.

Lemma parse_month_range (l rest : list ascii) (m : Z) :
  parse_month l = Some (m, rest) → 1 ≤ m ≤ 12.
Proof.
  unfold parse_month. intros H.
  repeat case_match; simplify_option_eq; split_ifs; digits; lia.
Qed.

Lemma parse_day_range (l : list ascii) (d : Z) :
  parse_day l = Some d → 1 ≤ d.
Proof.
  unfold parse_day. intros H.
  repeat case_match; simplify_option_eq; split_ifs; digits; lia.
Qed.

Lemma strptime_valid (v : string) (n : Z) :
  strptime v = Some n → valid_ord n.
Proof.
  unfold strptime, valid_ord. intros H.
  repeat case_match; simplify_option_eq;
    repeat match goal with
      | p : (Z * list ascii)%type |- _ => destruct p; simplify_option_eq
      end; split_ifs.
  all: repeat match goal with
         | H : parse_month _ = Some _ |- _ => apply parse_month_range in H
         | H : parse_day _ = Some _ |- _ => apply parse_day_range in H
         end; digits.
  all: match goal with
       | |- 1 ≤ ymd2ord ?y ?m ?d ≤ MAXORD =>
           pose proof (ymd2ord_ge_1 y m d);
           pose proof (ymd2ord_le_next_year y m d);
           pose proof (days_before_year_mono (y + 1) 10000);
           change (days_before_year 10000) with MAXORD in *;
           unfold MINYEAR in *; lia
       end.
Qed.

End DateFacts.

(** X1: a date that [strftime] has formatted, [_parse_date_safe] reads back
    as the same date, whatever the fallback, for the years of four digits;
    and what [strptime] accepts is a date between 0001-01-01 and
    9999-12-31. *)
Theorem X1_date_round_trip (n fallback : Z) :
  ORD_Y1000 ≤ n ≤ MAXORD →
  strptime (strftime n) = Some n
  ∧ _parse_date_safe (Some (strftime n)) fallback = n
  ∧ (∀ v k, strptime v = Some k → 1 ≤ k ≤ MAXORD).
Proof.
  intros Hn. split; [by apply strptime_strftime|].
  split; [by apply parse_date_strftime|].
  intros v k. apply DateFacts.strptime_valid.
Qed.

Lemma X1_date_round_trip_witness :
  strptime (strftime a_today) = Some a_today
  ∧ _parse_date_safe (Some (strftime a_today)) 1 = a_today
  ∧ (∀ v k, strptime v = Some k → 1 ≤ k ≤ MAXORD).
Proof.
  assert (H : ORD_Y1000 ≤ a_today ≤ MAXORD) by (vm_compute; split; discriminate).
  exact (X1_date_round_trip a_today 1 H).
Defined.

(** ** Rounding *)

Module RoundFacts.
Import PyNum.

Lemma round_half_even_le (q : Q) (z : Z) :
  (q <= inject_Z z)%Q → round_half_even q ≤ z.
Proof.
  intros Hq. unfold round_half_even.
  pose proof (Qfloor_resp_le _ _ Hq) as Hf. rewrite Qfloor_Z in Hf.
  destruct (Qcompare_spec (q - inject_Z (Qfloor q)) (1 # 2)) as [E|E|E];
    [destruct (Z.even (Qfloor q))| |]; try lia.
  all: destruct (Z.eq_dec (Qfloor q) z) as [Ez|]; [|lia].
  all: exfalso; rewrite Ez in E.
  - lra.
  - lra.
Qed.

Lemma round_half_even_ge (q : Q) (z : Z) :
  (inject_Z z <= q)%Q → z ≤ round_half_even q.
Proof.
  intros Hq. unfold round_half_even.
  pose proof (Qfloor_resp_le _ _ Hq) as Hf. rewrite Qfloor_Z in Hf.
  destruct (Qcompare (q - inject_Z (Qfloor q)) (1 # 2));
    [destruct (Z.even (Qfloor q))| |]; lia.
Qed.

Lemma round2_le (q : Q) (z : Z) :
  (q <= inject_Z z)%Q → (round2 q <= inject_Z z)%Q.
Proof.
  intros Hq. unfold round2.
  assert (round_half_even (q * inject_Z 100) ≤ z * 100).
  { apply round_half_even_le. rewrite inject_Z_mult.
    apply Qmult_le_compat_r; [done|]. discriminate. }
  unfold Qle. simpl. lia.
Qed.

Lemma round2_ge (q : Q) (z : Z) :
  (inject_Z z <= q)%Q → (inject_Z z <= round2 q)%Q.
Proof.
  intros Hq. unfold round2.
  assert (z * 100 ≤ round_half_even (q * inject_Z 100)).
  { apply round_half_even_ge. rewrite inject_Z_mult.
    apply Qmult_le_compat_r; [done|]. discriminate. }
  unfold Qle. simpl. lia.
Qed.

(** Hundredths: [k/100 <= q] gives [k/100 <= round(q, 2)]. *)
Lemma round2_ge_cents (q : Q) (k : Z) :
  (Qmake k 100 <= q)%Q → (Qmake k 100 <= round2 q)%Q.
Proof.
  intros Hq. unfold round2.
  assert (k ≤ round_half_even (q * inject_Z 100)).
  { apply round_half_even_ge.
    assert (inject_Z k == Qmake k 100 * inject_Z 100)%Q as ->.
    { unfold Qeq. simpl. lia. }
    apply Qmult_le_compat_r; [done|]. discriminate. }
  unfold Qle. simpl. lia.
Qed.

End RoundFacts.

(** ** The plan and the activities of the result *)

Lemma clean_scope_with_duration (today : Z) (dynamic : gmap string Q)
    (data : scope_in) (out : scope_out) :
  clean_scope_with today dynamic data = Some out →
  out_Duration out
  = duration_of (min_start_of today (activities data))
      (max_end_of today (activities data)).
Proof.
  unfold clean_scope_with. intros E.
  destruct (process_activities today loop_init 1 (activities data))
    as [st|] eqn:Est; [|done].
  cbn [mbind option_bind] in E.
  destruct (process_activities_inv today _ _ _ _ Est keys_are_init)
    as (Ha & Hs & He & Hr & _).
  cbn [loop_init ls_activities ls_start_dates ls_end_dates ls_role_order app]
    in Ha, Hs, He, Hr.
  rewrite Ha, Hs, He, Hr in E.
  match type of E with
  | context [usage_of_activities ?a ?b ?c ?d ?e] =>
      destruct (usage_of_activities a b c d e) as [usage|]; [|done]
  end.
  cbn [mbind option_bind] in E. by injection E as <-.
Qed.

Lemma clean_scope_with_cells (today : Z) (dynamic : gmap string Q)
    (data : scope_in) (out : scope_out) :
  clean_scope_with today dynamic data = Some out →
  ∃ usage,
    month_cells (months_of today (activities data)) usage
    ∧ out_resourcing_plan out
      = plan_of (months_of today (activities data)) usage dynamic
          (discount_percentage data) (role_order_of (activities data)).
Proof.
  intros E. destruct (clean_scope_with_inv _ _ _ _ E) as (usage & Hu & _ & Hp & _).
  exists usage. split; [|done].
  eapply usage_of_activities_cells; [exact Hu|]. apply usage_init_cells.
Qed.

Lemma pe_ID_plan_of (total_months : nat) (usage : gmap string (list Z))
    (dynamic : gmap string Q) (discount : option Q) (role_order : list string) :
  pe_ID <$> plan_of total_months usage dynamic discount role_order
  = seq 1 (length role_order).
Proof.
  rewrite plan_of_imap. apply list_eq. intros i.
  rewrite list_lookup_fmap, list_lookup_imap.
  destruct (role_order !! i) as [r|] eqn:E; simpl.
  - rewrite lookup_seq_lt by (by eapply lookup_lt_Some).
    f_equal. apply entry_of_fields.
  - rewrite lookup_seq_ge; [done|]. by apply lookup_ge_None.
Qed.

(** X2: the plan has one entry for every role that an activity names as
    owner or resource and no other, in the order of their first mention,
    numbered from 1; every entry has one cell for each of the K >= 1
    months. *)
Theorem X2_plan_shape (today : Z) (dynamic : gmap string Q) (data : scope_in)
    (out : scope_out) :
  clean_scope_with today dynamic data = Some out →
  let roles := pe_Resources <$> out_resourcing_plan out in
  roles = role_order_of (activities data)
  ∧ NoDup roles
  ∧ (∀ role, role ∈ roles ↔ ∃ a, a ∈ activities data ∧ role ∈ roles_of a)
  ∧ pe_ID <$> out_resourcing_plan out = seq 1 (length roles)
  ∧ (1 ≤ months_of today (activities data))%nat
  ∧ Forall (λ entry, length (pe_months entry)
                     = months_of today (activities data))
      (out_resourcing_plan out).
Proof.
  intros E. cbv zeta.
  destruct (clean_scope_with_cells _ _ _ _ E) as (usage & Hc & ->).
  rewrite plan_of_roles, pe_ID_plan_of.
  split; [done|]. split; [apply role_order_of_NoDup|].
  split; [apply role_order_of_elem|]. split; [done|].
  split; [apply total_months_pos|].
  apply Forall_forall. intros entry Hin.
  apply plan_entry_of in Hin as (i & role & _ & ->).
  destruct (entry_of_fields (months_of today (activities data)) usage dynamic
              (discount_percentage data) i role) as (_ & _ & _ & -> & _).
  rewrite length_fmap. by apply days_of_length.
Qed.

Lemma X2_plan_shape_witness :
  let roles := pe_Resources <$> out_resourcing_plan unsorted_out in
  roles = role_order_of (activities unsorted_scope)
  ∧ NoDup roles
  ∧ (∀ role, role ∈ roles
             ↔ ∃ a, a ∈ activities unsorted_scope ∧ role ∈ roles_of a)
  ∧ pe_ID <$> out_resourcing_plan unsorted_out = seq 1 (length roles)
  ∧ (1 ≤ months_of a_today (activities unsorted_scope))%nat
  ∧ Forall (λ entry, length (pe_months entry)
                     = months_of a_today (activities unsorted_scope))
      (out_resourcing_plan unsorted_out).
Proof.
  assert (E : clean_scope_with a_today ROLE_RATE_MAP unsorted_scope
              = Some unsorted_out) by (vm_compute; reflexivity).
  exact (X2_plan_shape a_today ROLE_RATE_MAP unsorted_scope unsorted_out E).
Defined.

Lemma fmap_filter_imap {A B C : Type} (f : nat → A → B) (g : B → C)
    (h : A → C) (P : B → Prop) (Q : A → Prop)
    `{!∀ b, Decision (P b)} `{!∀ a, Decision (Q a)} (l : list A) :
  (∀ i a, g (f i a) = h a) → (∀ i a, P (f i a) ↔ Q a) →
  g <$> filter P (imap f l) = h <$> filter Q l.
Proof.
  revert f. induction l as [|a l IH]; intros f Hg HP; [done|].
  cbn [imap]. rewrite !filter_cons.
  destruct (decide (P (f 0%nat a))) as [Hp|Hp],
    (decide (Q a)) as [Hq|Hq].
  - rewrite !fmap_cons, Hg. f_equal.
    apply IH; [intros i b; apply Hg|intros i b; apply HP].
  - by apply HP in Hp.
  - by apply (HP 0%nat) in Hq.
  - apply IH; [intros i b; apply Hg|intros i b; apply HP].
Qed.

Lemma fmap_imap_const {A B C : Type} (f : nat → A → B) (g : B → C)
    (h : A → C) (l : list A) :
  (∀ i a, g (f i a) = h a) → g <$> imap f l = h <$> l.
Proof.
  intros Hg. apply list_eq. intros i.
  rewrite !list_lookup_fmap, list_lookup_imap.
  destruct (l !! i); simpl; [by rewrite Hg|done].
Qed.

(** An activity of the result is an activity of the input, normalized. *)
Lemma out_activity_from (today : Z) (l : list activity_in) (act : activity) :
  act ∈ imap renumber (sort_by_start (first_pass today l)) →
  ∃ i idx a, a ∈ l ∧ act = renumber i (dt_of today idx a).
Proof.
  intros (i & dt & Hi & ->)%elem_of_imap_entry.
  apply list_elem_of_lookup_2 in Hi.
  rewrite sort_by_start_perm in Hi.
  apply elem_of_imap_entry in Hi as (j & a & Hj & ->).
  exists i, (1 + j)%nat, a. split; [|done].
  by eapply list_elem_of_lookup_2.
Qed.

(** X3: in every activity of the result the owner is not empty, the
    resources are a list of names joined by a comma and a blank, each
    stripped, not empty and without a comma, and none of them is the owner
    in any case of letters. *)
Theorem X3_owner_not_resource (today : Z) (dynamic : gmap string Q)
    (data : scope_in) (out : scope_out) :
  clean_scope_with today dynamic data = Some out →
  Forall
    (λ act,
       PyStr.truthy (Owner act) = true
       ∧ Resources act = PyStr.join ", " (split_roles (Resources act))
       ∧ Forall role_ok (split_roles (Resources act))
       ∧ Forall (λ r, PyStr.lower r ≠ PyStr.lower (Owner act))
           (split_roles (Resources act)))
    (out_activities out).
Proof.
  intros E. destruct (clean_scope_with_inv _ _ _ _ E) as (_ & _ & -> & _).
  apply Forall_forall. intros act Hin.
  apply out_activity_from in Hin as (i & idx & a & _ & ->).
  cbn [renumber dt_of Owner Resources dt_Owner dt_Resources].
  destruct (raw_deps_of_ok a) as [Hok Hne].
  rewrite split_roles_join by done.
  split; [by apply or_else_is_truthy|]. done.
Qed.

Lemma X3_owner_not_resource_witness :
  Forall
    (λ act,
       PyStr.truthy (Owner act) = true
       ∧ Resources act = PyStr.join ", " (split_roles (Resources act))
       ∧ Forall role_ok (split_roles (Resources act))
       ∧ Forall (λ r, PyStr.lower r ≠ PyStr.lower (Owner act))
           (split_roles (Resources act)))
    (out_activities unsorted_out).
Proof.
  assert (E : clean_scope_with a_today ROLE_RATE_MAP unsorted_scope
              = Some unsorted_out) by (vm_compute; reflexivity).
  exact (X3_owner_not_resource a_today ROLE_RATE_MAP unsorted_scope
           unsorted_out E).
Defined.

(** X4: the activities of the result are those of the input, each
    normalized, in some order: none is lost, none is added, and no field of
    one goes to another. *)
Theorem X4_activities_kept (today : Z) (dynamic : gmap string Q)
    (data : scope_in) (out : scope_out) :
  clean_scope_with today dynamic data = Some out →
  content_of <$> out_activities out ≡ₚ normalized today <$> activities data.
Proof.
  intros E. destruct (clean_scope_with_inv _ _ _ _ E) as (_ & _ & -> & _).
  rewrite (fmap_imap_const renumber content_of
             (λ dt, content_of (renumber 0 dt))) by done.
  rewrite sort_by_start_perm. unfold first_pass.
  by rewrite (fmap_imap_const _ _ (normalized today)).
Qed.

Lemma X4_activities_kept_witness :
  content_of <$> out_activities unsorted_out
  ≡ₚ normalized a_today <$> activities unsorted_scope.
Proof.
  assert (E : clean_scope_with a_today ROLE_RATE_MAP unsorted_scope
              = Some unsorted_out) by (vm_compute; reflexivity).
  exact (X4_activities_kept a_today ROLE_RATE_MAP unsorted_scope
           unsorted_out E).
Defined.

(** The sort keeps the order of the activities a test selects, when those
    it selects all start on the same day. *)
Lemma insert_by_start_stable (P : activity_dt → Prop)
    `{!∀ a, Decision (P a)} (a : activity_dt) (l : list activity_dt) :
  (∀ b, b ∈ l → P a → P b → dt_Start_Date a = dt_Start_Date b) →
  filter P (insert_by_start a l) = filter P (a :: l).
Proof.
  induction l as [|b l IH]; intros Hk; [done|].
  cbn [insert_by_start].
  destruct (Z.leb_spec (dt_Start_Date a) (dt_Start_Date b)) as [|Hlt]; [done|].
  rewrite filter_cons, IH by (intros c Hc; apply Hk; by right).
  rewrite !filter_cons.
  destruct (decide (P a)) as [Ha|Ha], (decide (P b)) as [Hb|Hb]; try done.
  specialize (Hk b ltac:(by left) Ha Hb). lia.
Qed.

Lemma sort_by_start_stable (P : activity_dt → Prop)
    `{!∀ a, Decision (P a)} (l : list activity_dt) :
  (∀ x y, x ∈ l → y ∈ l → P x → P y → dt_Start_Date x = dt_Start_Date y) →
  filter P (sort_by_start l) = filter P l.
Proof.
  induction l as [|a l IH]; intros Hk; [done|].
  cbn [sort_by_start foldr]. fold (sort_by_start l).
  rewrite insert_by_start_stable.
  - rewrite !filter_cons, IH; [done|].
    intros x y Hx Hy. apply Hk; by right.
  - intros b Hb. rewrite sort_by_start_perm in Hb.
    apply Hk; [by left|by right].
Qed.

(** X5: the sort by start date is stable: the activities of the result that
    carry a given start date are the activities of the input that start on
    that day, in the order of the input. *)
Theorem X5_sort_stable (today : Z) (dynamic : gmap string Q)
    (data : scope_in) (out : scope_out) (start_date : string) :
  Forall (supported today) (activities data) →
  clean_scope_with today dynamic data = Some out →
  content_of
    <$> filter (λ act, Start_Date act = start_date) (out_activities out)
  = normalized today
      <$> filter (λ a, strftime (start_of today a) = start_date)
            (activities data).
Proof.
  intros Hall E.
  destruct (clean_scope_with_inv _ _ _ _ E) as (_ & _ & -> & _).
  rewrite (fmap_filter_imap renumber content_of
             (λ dt, content_of (renumber 0 dt))
             (λ act, Start_Date act = start_date)
             (λ dt, strftime (dt_Start_Date dt) = start_date)) by done.
  rewrite sort_by_start_stable.
  - unfold first_pass.
    by rewrite (fmap_filter_imap _ _ (normalized today) _
                  (λ a, strftime (start_of today a) = start_date)).
  - intros x y Hx Hy Ex Ey.
    pose proof (first_pass_normal today _ Hall) as Hn.
    rewrite Forall_forall in Hn.
    destruct (Hn x Hx) as (_ & _ & _ & _ & Hx1 & Hx2 & Hx3 & _).
    destruct (Hn y Hy) as (_ & _ & _ & _ & Hy1 & Hy2 & Hy3 & _).
    assert (Some (dt_Start_Date x) = Some (dt_Start_Date y)) as [= ->]; [|done].
    rewrite <- (strptime_strftime (dt_Start_Date x)),
      <- (strptime_strftime (dt_Start_Date y)), Ex, Ey; [done| |].
    all: unfold ORD_DEC_9999, MAXORD in *; lia.
Qed.

Lemma X5_sort_stable_witness :
  content_of
    <$> filter (λ act, Start_Date act = "2025-01-01"%string)
          (out_activities same_day_out)
  = normalized a_today
      <$> filter (λ a, strftime (start_of a_today a) = "2025-01-01"%string)
            (activities same_day_scope).
Proof.
  assert (Hall : Forall (supported a_today) (activities same_day_scope)).
  { unfold same_day_scope. cbn [activities].
    repeat (apply Forall_cons_2; [split; vm_compute; done|]).
    apply Forall_nil_2. }
  assert (E : clean_scope_with a_today ROLE_RATE_MAP same_day_scope
              = Some same_day_out) by (vm_compute; reflexivity).
  exact (X5_sort_stable a_today ROLE_RATE_MAP same_day_scope same_day_out
           "2025-01-01" Hall E).
Defined.

(** ** Bounds *)

Lemma ceil_div30_ge (d : Z) : d ≤ 30 * PyNum.ceil_div30 d.
Proof. unfold PyNum.ceil_div30. Z.div_mod_to_equations. lia. Qed.

Lemma duration_of_bounds (min_start max_end : Z) :
  (inject_Z 1 <= duration_of min_start max_end)%Q
  ∧ (duration_of min_start max_end
     <= inject_Z (Z.of_nat (total_months_of min_start max_end)))%Q.
Proof.
  unfold duration_of, total_months_of. cbv zeta.
  set (d := max_end - min_start).
  rewrite Z2Nat.id by lia.
  destruct (Qle_bool _ (inject_Z 1)) eqn:E.
  - split; [apply Qle_refl|]. rewrite <- Zle_Qle. lia.
  - split.
    + apply Qlt_le_weak, Qnot_le_lt. intros H%Qle_bool_iff. congruence.
    + apply RoundFacts.round2_le. pose proof (ceil_div30_ge d).
      unfold Qle. simpl. lia.
Qed.

Lemma quantize_bounds (d : Z) :
  (inject_Z 0 <= quantize d)%Q ∧ (quantize d <= inject_Z 1)%Q.
Proof.
  unfold quantize. repeat case_match; split; unfold Qle; simpl; lia.
Qed.

Lemma Qsum_bounds (l : list Q) :
  Forall (λ q, (inject_Z 0 <= q)%Q ∧ (q <= inject_Z 1)%Q) l →
  (inject_Z 0 <= PyNum.Qsum l)%Q
  ∧ (PyNum.Qsum l <= inject_Z (Z.of_nat (length l)))%Q.
Proof.
  induction 1 as [|q l [Hq0 Hq1] _ [IH0 IH1]]; [split; apply Qle_refl|].
  cbn [PyNum.Qsum foldr length]. fold (PyNum.Qsum l).
  rewrite Nat2Z.inj_succ, <- Z.add_1_l, inject_Z_plus.
  change (inject_Z 0) with 0%Q in *. change (inject_Z 1) with 1%Q in *.
  split; lra.
Qed.

(** X6: the duration of the result is at least one month and at most the
    number K of months of the plan, and every activity has an effort of
    at least 0.03 months. *)
Theorem X6_duration_bounds (today : Z) (dynamic : gmap string Q)
    (data : scope_in) (out : scope_out) :
  clean_scope_with today dynamic data = Some out →
  (inject_Z 1 <= out_Duration out)%Q
  ∧ (out_Duration out
     <= inject_Z (Z.of_nat (months_of today (activities data))))%Q
  ∧ Forall (λ act, (Qmake 3 100 <= Effort_Months act)%Q) (out_activities out).
Proof.
  intros E. rewrite (clean_scope_with_duration _ _ _ _ E).
  destruct (duration_of_bounds (min_start_of today (activities data))
              (max_end_of today (activities data))) as [H1 H2].
  split; [done|]. split; [done|].
  destruct (clean_scope_with_inv _ _ _ _ E) as (_ & _ & -> & _).
  apply Forall_forall. intros act Hin.
  apply out_activity_from in Hin as (i & idx & a & _ & ->).
  cbn [renumber dt_of Effort_Months dt_Effort_Months].
  apply RoundFacts.round2_ge_cents. unfold Qle. simpl. lia.
Qed.

Lemma X6_duration_bounds_witness :
  (inject_Z 1 <= out_Duration unsorted_out)%Q
  ∧ (out_Duration unsorted_out
     <= inject_Z (Z.of_nat (months_of a_today (activities unsorted_scope))))%Q
  ∧ Forall (λ act, (Qmake 3 100 <= Effort_Months act)%Q)
      (out_activities unsorted_out).
Proof.
  assert (E : clean_scope_with a_today ROLE_RATE_MAP unsorted_scope
              = Some unsorted_out) by (vm_compute; reflexivity).
  exact (X6_duration_bounds a_today ROLE_RATE_MAP unsorted_scope unsorted_out
           E).
Defined.

(** X7: the effort of every entry of the plan is a whole number of quarter
    months between 0 and the number K of months. *)
Theorem X7_effort_bounds (today : Z) (dynamic : gmap string Q)
    (data : scope_in) (out : scope_out) :
  clean_scope_with today dynamic data = Some out →
  Forall
    (λ entry,
       (inject_Z 0 <= pe_Efforts entry)%Q
       ∧ (pe_Efforts entry
          <= inject_Z (Z.of_nat (months_of today (activities data))))%Q
       ∧ ∃ k : Z, (pe_Efforts entry == Qmake k 4)%Q)
    (out_resourcing_plan out).
Proof.
  intros E. destruct (clean_scope_with_cells _ _ _ _ E) as (usage & Hc & ->).
  apply Forall_forall. intros entry Hin.
  apply plan_entry_of in Hin as (i & role & _ & ->).
  destruct (entry_of_fields (months_of today (activities data)) usage dynamic
              (discount_percentage data) i role) as (_ & _ & _ & Hm & -> & _).
  rewrite Hm.
  destruct (Qsum_bounds
              (quantize <$> days_of (months_of today (activities data))
                              usage role)) as [H0 H1].
  { apply Forall_fmap, Forall_forall. intros d _. apply quantize_bounds. }
  rewrite length_fmap, days_of_length in H1 by done.
  split; [done|]. split; [done|]. apply Qsum_quarters.
Qed.

Lemma X7_effort_bounds_witness :
  Forall
    (λ entry,
       (inject_Z 0 <= pe_Efforts entry)%Q
       ∧ (pe_Efforts entry
          <= inject_Z (Z.of_nat (months_of a_today
                                   (activities unsorted_scope))))%Q
       ∧ ∃ k : Z, (pe_Efforts entry == Qmake k 4)%Q)
    (out_resourcing_plan unsorted_out).
Proof.
  assert (E : clean_scope_with a_today ROLE_RATE_MAP unsorted_scope
              = Some unsorted_out) by (vm_compute; reflexivity).
  exact (X7_effort_bounds a_today ROLE_RATE_MAP unsorted_scope unsorted_out E).
Defined.

(** ** The discount at its edges *)

Lemma multiplier_of_sign (d : Q) :
  (0 < d)%Q →
  ((d <= 100)%Q → (0 <= multiplier_of d)%Q)
  ∧ ((100 <= d)%Q → (multiplier_of d <= 0)%Q).
Proof.
  intros Hd. unfold multiplier_of.
  change (inject_Z 1) with 1%Q. change (inject_Z 100) with 100%Q.
  pose proof FloatFacts.fl_100 as H100.
  assert (Hq : (PyNum.fl d / 100 == PyNum.fl d * (1 # 100))%Q) by field.
  split; intros Hd'.
  - apply FloatFacts.fl_nonneg.
    pose proof (FloatFacts.fl_mono_pos d 100 Hd Hd') as Hm.
    assert (PyNum.fl (PyNum.fl d / 100) <= 1)%Q; [|lra].
    apply FloatFacts.fl_le_1. rewrite Hq. lra.
  - apply FloatFacts.fl_nonpos.
    pose proof (FloatFacts.fl_mono_pos 100 d ltac:(reflexivity) Hd') as Hm.
    assert (1 <= PyNum.fl (PyNum.fl d / 100))%Q; [|lra].
    apply FloatFacts.fl_ge_1. rewrite Hq. lra.
Qed.

Lemma cost_of_sign (total_effort rate d : Q) :
  (inject_Z 0 <= total_effort)%Q → (inject_Z 0 <= rate)%Q →
  ((inject_Z 0 <= d)%Q → (d <= inject_Z 100)%Q →
   (inject_Z 0 <= cost_of total_effort rate (Some d))%Q)
  ∧ ((inject_Z 100 <= d)%Q → (cost_of total_effort rate (Some d) <= inject_Z 0)%Q).
Proof.
  intros He Hr.
  assert (H0 : (inject_Z 0
                <= PyNum.round2 (PyNum.fl (total_effort * PyNum.fl rate)))%Q).
  { apply RoundFacts.round2_ge. change (inject_Z 0) with 0%Q in *.
    apply FloatFacts.fl_nonneg.
    pose proof (FloatFacts.fl_nonneg rate Hr). nra. }
  unfold cost_of, discount_in_force. cbv zeta.
  change (inject_Z 0) with 0%Q in *. change (inject_Z 100) with 100%Q in *.
  destruct (Qle_bool d 0) eqn:E.
  - apply Qle_bool_iff in E. split; [done|]. intros Hd. lra.
  - assert (Hd : (0 < d)%Q).
    { apply Qnot_le_lt. intros H. apply Qle_bool_iff in H. congruence. }
    destruct (multiplier_of_sign d Hd) as [Hlo Hhi].
    pose proof (FloatFacts.fl_nonneg _ H0) as Hc.
    split.
    + intros _ Hd1. apply (RoundFacts.round2_ge _ 0).
      change (inject_Z 0) with 0%Q. apply FloatFacts.fl_nonneg.
      specialize (Hlo Hd1). nra.
    + intros Hd1. apply (RoundFacts.round2_le _ 0).
      change (inject_Z 0) with 0%Q. apply FloatFacts.fl_nonpos.
      specialize (Hhi Hd1). nra.
Qed.

Lemma ROLE_RATE_MAP_nonneg (role : string) (q : Q) :
  ROLE_RATE_MAP !! role = Some q → (inject_Z 0 <= q)%Q.
Proof.
  unfold ROLE_RATE_MAP. intros H%elem_of_list_to_map_2.
  repeat (apply elem_of_cons in H as [H|H]; [by injection H as -> ->|]).
  by apply elem_of_nil in H.
Qed.

Lemma resolve_rate_builtin_nonneg (role : string) :
  (inject_Z 0 <= resolve_rate ROLE_RATE_MAP role)%Q.
Proof.
  unfold resolve_rate.
  destruct (ROLE_RATE_MAP !! role) as [q|] eqn:E; simpl; [|done].
  by eapply ROLE_RATE_MAP_nonneg.
Qed.

(** X8: with rates that are not negative, a discount of zero or less is
    not applied: the activities, the plan and the duration are those
    without a discount, and the result keeps the figure it was given; a
    discount from 0 to 100 leaves no cost negative; a discount of 100 or
    more leaves no cost positive: it is not capped. *)
Theorem X8_discount_edges (today : Z) (dynamic : gmap string Q)
    (acts : list activity_in) (d : Q) (out : scope_out) :
  (∀ role, (inject_Z 0 <= resolve_rate dynamic role)%Q) →
  clean_scope_with today dynamic
    {| activities := acts; discount_percentage := Some d |} = Some out →
  ((d <= inject_Z 0)%Q →
   clean_scope_with today dynamic
     {| activities := acts; discount_percentage := None |}
   = Some {| out_activities := out_activities out;
             out_resourcing_plan := out_resourcing_plan out;
             out_Duration := out_Duration out;
             out_discount_percentage := None |}
   ∧ out_discount_percentage out = Some d)
  ∧ ((inject_Z 0 <= d)%Q → (d <= inject_Z 100)%Q →
     Forall (λ entry, (inject_Z 0 <= pe_Cost entry)%Q)
       (out_resourcing_plan out))
  ∧ ((inject_Z 100 <= d)%Q →
     Forall (λ entry, (pe_Cost entry <= inject_Z 0)%Q)
       (out_resourcing_plan out)).
Proof.
  intros Hrate E. split.
  { intros Hd%Qle_bool_iff. revert E. unfold clean_scope_with.
    cbn [activities discount_percentage discount_in_force]. rewrite Hd.
    destruct (process_activities _ _ _ _) as [st|]; [|done].
    cbn [mbind option_bind].
    destruct (usage_of_activities _ _ _ _ _) as [usage|]; [|done].
    cbn [mbind option_bind]. by intros [= <-]. }
  assert (Hcost : ∀ entry, entry ∈ out_resourcing_plan out →
            (inject_Z 0 <= pe_Efforts entry)%Q
            ∧ (inject_Z 0 <= pe_Rate entry)%Q
            ∧ pe_Cost entry
              = cost_of (pe_Efforts entry) (pe_Rate entry) (Some d)).
  { pose proof (X := clean_scope_with_cells _ _ _ _ E).
    destruct X as (usage & Hc & Hp). intros entry Hin. rewrite Hp in Hin.
    apply plan_entry_of in Hin as (i & role & _ & ->).
    destruct (entry_of_fields (months_of today acts) usage dynamic (Some d)
                i role) as (_ & _ & Hr & Hm & He & Hcost).
    cbn [activities discount_percentage] in *.
    rewrite Hcost, Hr. split; [|split; [apply Hrate|done]].
    rewrite He, Hm. apply Qsum_bounds, Forall_fmap, Forall_forall.
    intros x _. apply quantize_bounds. }
  split.
  - intros Hd0 Hd1. apply Forall_forall. intros entry Hin.
    destruct (Hcost entry Hin) as (He & Hr & ->).
    by apply cost_of_sign.
  - intros Hd. apply Forall_forall. intros entry Hin.
    destruct (Hcost entry Hin) as (He & Hr & ->).
    by apply cost_of_sign.
Qed.

Lemma X8_discount_edges_witness :
  Forall (λ entry, (pe_Cost entry <= inject_Z 0)%Q)
    (out_resourcing_plan over_discounted_out).
Proof.
  assert (E : clean_scope_with a_today ROLE_RATE_MAP
                {| activities := activities two_activities;
                   discount_percentage := Some (inject_Z 150) |}
              = Some over_discounted_out) by (vm_compute; reflexivity).
  destruct (X8_discount_edges a_today ROLE_RATE_MAP (activities two_activities)
              (inject_Z 150) over_discounted_out resolve_rate_builtin_nonneg E)
    as (_ & _ & H).
  apply H. vm_compute. discriminate.
Defined.

(** ** Rate cards *)

Lemma rate_dict_snoc (cards : list RateCard) (card : RateCard) :
  rate_dict (cards ++ [card])
  = <[role_name card := monthly_rate card]> (rate_dict cards).
Proof. unfold rate_dict. by rewrite foldl_app. Qed.

(** X9: the rate map built from a list of rate cards gives a role the rate
    of the last card that names it, and nothing to a role no card names:
    of two cards for one role the later one counts. *)
Theorem X9_rate_card_last_wins (cards : list RateCard) (role : string) :
  rate_dict cards !! role
  = monthly_rate <$> last (filter (λ card, role_name card = role) cards).
Proof.
  induction cards as [|card cards IH] using rev_ind; [done|].
  rewrite rate_dict_snoc, filter_app, filter_cons, filter_nil.
  destruct (decide (role_name card = role)) as [<-|Hne].
  - by rewrite lookup_insert_eq, last_snoc.
  - by rewrite lookup_insert_ne, app_nil_r.
Qed.

Import PyDate PyDateFacts PyStrFacts PyNumFacts LoopFacts SortFacts NormalFacts
  CleanFacts PlanFacts.

(** * More of the code: answers without activities, and the removal of a
      role *)

Section EmptyAnswer.

Variable json : Type.
Variable json_loads : string → option json.
Variable empty_dict : json.
Variable view : json → option scope_in.
Variable remove_pattern_search : string → option string.
Variable discount_patterns_search : string → option Z.
Variable today : Z.
Variable db : option db_state.
Variable company : option company_id.

(** An answer without activities: whether the guard fires or the safety
    check at the end does, the draft's activities go to [clean_scope]. *)
Lemma regenerate_try_no_activities (draft updated : scope_in)
    (instructions raw_text : string) :
  view (_extract_json json json_loads empty_dict raw_text) = Some updated →
  activities updated = [] →
  regenerate_try json json_loads empty_dict view remove_pattern_search
    discount_patterns_search today db company draft instructions raw_text
  = clean_scope today db company
      {| activities := activities draft;
         discount_percentage :=
           regenerated_discount
             (discount_patterns_search (PyStr.lower instructions))
             (discount_percentage updated) |}.
Proof.
  intros Hv He. unfold regenerate_try. rewrite Hv.
  cbn [mbind option_bind]. rewrite He.
  cbn [activities_are_valid mbind option_bind length].
  unfold regression_guard. cbn [negb]. rewrite orb_false_r.
  fold (regenerated_discount
          (discount_patterns_search (PyStr.lower instructions))
          (discount_percentage updated)).
  destruct (PyStr.contains "remove" (PyStr.lower instructions)) eqn:Er.
  - cbn [orb negb]. rewrite andb_false_r. cbn [existsb andb mbind option_bind].
    done.
  - cbn [andb mbind option_bind].
    destruct (_ && _); [|done]. by destruct (activities draft).
Qed.

Lemma regenerate_no_activities (draft updated : scope_in)
    (instructions : string) (llm : list (option string)) :
  PyStr.truthy (PyStr.strip instructions) = true →
  view (_extract_json json json_loads empty_dict (fst (ollama_chat llm)))
  = Some updated →
  activities updated = [] →
  fst (regenerate_from_instructions json json_loads empty_dict view
         remove_pattern_search discount_patterns_search today db company
         draft instructions llm)
  = clean_scope today db company
      {| activities := activities draft;
         discount_percentage :=
           regenerated_discount
             (discount_patterns_search (PyStr.lower instructions))
             (discount_percentage updated) |}.
Proof.
  intros Hi Hv He. unfold regenerate_from_instructions.
  rewrite Hi, (truthy_strip _ Hi). cbn [negb orb].
  destruct (ollama_chat llm) as [raw_text rest]. cbn [fst] in Hv.
  rewrite (regenerate_try_no_activities draft updated instructions raw_text)
    by done.
  destruct (clean_scope today db company _) as [cleaned|] eqn:E; [done|].
  cbn [fst]. destruct draft as [acts d]. cbn [activities] in *.
  unfold clean_scope in *.
  exact (clean_scope_with_raises _ _ _ _ _ _ E).
Qed.

(** An answer long enough, without activities: the content guard lets it
    through, [clean_scope] makes the empty scope of it, and the model is
    asked for the diagram. *)
Lemma generate_no_activities (data : scope_in) (llm : list (option string)) :
  50 ≤ PyStr.len (PyStr.strip (fst (ollama_chat llm))) →
  view (_extract_json json json_loads empty_dict (fst (ollama_chat llm)))
  = Some data →
  activities data = [] →
  generate_project_scope json json_loads empty_dict view today db company llm
  = (Scope {| out_activities := []; out_resourcing_plan := [];
              out_Duration := inject_Z 1;
              out_discount_percentage := discount_percentage data |},
     snd (ollama_chat (snd (ollama_chat llm)))).
Proof.
  unfold generate_project_scope.
  destruct (ollama_chat llm) as [raw_text rest]. cbn [fst snd].
  intros Hlen Hv He.
  assert (PyStr.truthy raw_text = true) as ->.
  { destruct raw_text; [|done]. vm_compute in Hlen. by destruct Hlen. }
  replace (PyStr.len (PyStr.strip raw_text) <? 50) with false
    by (symmetry; apply Z.ltb_ge; lia).
  cbn [negb orb]. rewrite Hv, He. cbn [content_guard].
  unfold clean_scope, clean_scope_with. rewrite He.
  cbn [process_activities mbind option_bind loop_init ls_activities
       ls_start_dates ls_end_dates ls_role_order sort_by_start foldr imap
       min_or max_or].
  unfold total_months_of, duration_of. rewrite Z.sub_diag.
  cbn [usage_of_activities mbind option_bind imap].
  destruct (ollama_chat rest) as [dot_code rest'].
  by destruct (discount_in_force (discount_percentage data)).
Qed.

End EmptyAnswer.

(** X10: when the answer of the model has no activities (as when the
    request fails and the answer is empty), whatever the instructions say,
    the model is asked once and the result is what [clean_scope] makes of
    the draft's activities under the discount of the answer or, when it has
    none, of the instructions: the draft's own discount is not kept. *)
Theorem X10_answer_without_activities (json : Type)
    (json_loads : string → option json) (empty_dict : json)
    (view : json → option scope_in)
    (remove_pattern_search : string → option string)
    (discount_patterns_search : string → option Z) (today : Z)
    (db : option db_state) (company : option company_id)
    (draft updated : scope_in) (instructions : string)
    (llm : list (option string)) :
  let result :=
    regenerate_from_instructions json json_loads empty_dict view
      remove_pattern_search discount_patterns_search today db company
      draft instructions llm in
  PyStr.truthy (PyStr.strip instructions) = true →
  view (_extract_json json json_loads empty_dict (fst (ollama_chat llm)))
  = Some updated →
  activities updated = [] →
  snd result = snd (ollama_chat llm)
  ∧ fst result
    = clean_scope today db company
        {| activities := activities draft;
           discount_percentage :=
             regenerated_discount
               (discount_patterns_search (PyStr.lower instructions))
               (discount_percentage updated) |}.
Proof.
  cbv zeta. intros Hi Hv He.
  split; [by apply regenerate_one_call|].
  by apply regenerate_no_activities.
Qed.

(** The request fails; the draft carries a discount of 10%: the activities
    come back, the discount does not. *)
Lemma X10_answer_without_activities_witness :
  ∃ out,
    regenerate_from_instructions scope_in failing_loads empty_scope Some
      no_match no_match a_today None None
      (to_scope_in two_activities_discounted_out)
      "remove the QA Engineer" [None; Some long_answer]
    = (Some out, [Some long_answer])
    ∧ out_activities out = out_activities two_activities_discounted_out
    ∧ out_discount_percentage two_activities_discounted_out
      = Some (inject_Z 10)
    ∧ out_discount_percentage out = None.
Proof.
  assert (Hi : PyStr.truthy (PyStr.strip "remove the QA Engineer") = true)
    by (vm_compute; reflexivity).
  assert (Hv : Some (_extract_json scope_in failing_loads empty_scope
                       (fst (ollama_chat [None; Some long_answer])))
               = Some empty_scope) by (vm_compute; reflexivity).
  destruct (X10_answer_without_activities scope_in failing_loads empty_scope
              Some no_match no_match a_today None None
              (to_scope_in two_activities_discounted_out) empty_scope
              "remove the QA Engineer" [None; Some long_answer] Hi Hv eq_refl)
    as [Hs Hf].
  eexists. split.
  - apply injective_projections; [rewrite Hf|rewrite Hs];
      vm_compute; reflexivity.
  - split; [|split]; vm_compute; reflexivity.
Defined.

(** X11: an answer of 50 characters or more whose activity list is empty
    is not rejected: the result is a scope without activities and without
    plan entries, of duration 1.0, with the discount figure of the answer;
    as for every answer that is made into a scope, the model is then asked
    once more, for the architecture diagram. *)
Theorem X11_empty_activity_list (json : Type)
    (json_loads : string → option json) (empty_dict : json)
    (view : json → option scope_in) (today : Z) (db : option db_state)
    (company : option company_id) (data : scope_in)
    (llm : list (option string)) :
  50 ≤ PyStr.len (PyStr.strip (fst (ollama_chat llm))) →
  view (_extract_json json json_loads empty_dict (fst (ollama_chat llm)))
  = Some data →
  activities data = [] →
  generate_project_scope json json_loads empty_dict view today db company llm
  = (Scope {| out_activities := []; out_resourcing_plan := [];
              out_Duration := inject_Z 1;
              out_discount_percentage := discount_percentage data |},
     snd (ollama_chat (snd (ollama_chat llm)))).
Proof. apply generate_no_activities. Qed.

Lemma X11_empty_activity_list_witness :
  generate_project_scope scope_in (fixed_loads empty_scope) empty_scope Some
    a_today None None
    [Some long_answer; Some "digraph Architecture {}"%string;
     Some long_answer]
  = (Scope {| out_activities := []; out_resourcing_plan := [];
              out_Duration := inject_Z 1; out_discount_percentage := None |},
     [Some long_answer]).
Proof.
  assert (Hlen : 50 ≤ PyStr.len
                        (PyStr.strip
                           (fst (ollama_chat
                                   [Some long_answer;
                                    Some "digraph Architecture {}"%string;
                                    Some long_answer]))))
    by (vm_compute; discriminate).
  assert (Hv : Some (_extract_json scope_in (fixed_loads empty_scope)
                       empty_scope
                       (fst (ollama_chat
                               [Some long_answer;
                                Some "digraph Architecture {}"%string;
                                Some long_answer])))
               = Some empty_scope) by (vm_compute; reflexivity).
  exact (X11_empty_activity_list scope_in (fixed_loads empty_scope)
           empty_scope Some a_today None None empty_scope
           [Some long_answer; Some "digraph Architecture {}"%string;
            Some long_answer]
           Hlen Hv eq_refl).
Defined.

(** ** The removal of a role *)

Lemma filter_all {A : Type} (P : A → Prop) `{!∀ x, Decision (P x)}
    (l : list A) :
  length (filter P l) = length l → Forall P l.
Proof.
  intros Hl. apply Forall_forall. intros x Hx.
  destruct (decide (P x)) as [|Hn]; [done|].
  pose proof (length_filter_lt P l x Hx Hn). lia.
Qed.

Lemma or_else_empty (s : string) : PyStr.or_else (Some s) "" = s.
Proof. by destruct s. Qed.

Lemma split_roles_empty : split_roles "" = [].
Proof. reflexivity. Qed.

(** The last step of the post-processing of an activity. *)
Lemma remove_from_resources (role : string) (act : activity_in) :
  let act' :=
    match jget (in_Resources act) with
    | Some res =>
        if PyStr.truthy res then
          let resources_list := split_roles res in
          let filtered_resources :=
            filter (λ r, ¬ (PyStr.contains role (PyStr.lower r) = true)
                         ∧ PyStr.lower r ≠ role) resources_list in
          if bool_decide (length filtered_resources ≠ length resources_list)
          then set_resources act (PyStr.join ", " filtered_resources)
          else act
        else act
    | None => act
    end in
  in_Activities act' = in_Activities act
  ∧ in_Description act' = in_Description act
  ∧ in_Start_Date act' = in_Start_Date act
  ∧ in_End_Date act' = in_End_Date act
  ∧ in_Owner act' = in_Owner act
  ∧ Forall (λ r, ¬ (PyStr.contains role (PyStr.lower r) = true)
                 ∧ PyStr.lower r ≠ role)
      (split_roles (PyStr.or_else (jget (in_Resources act')) "")).
Proof.
  cbv zeta.
  destruct (jget (in_Resources act)) as [res|] eqn:Er.
  2: { rewrite Er. repeat (split; [done|]). by apply Forall_nil. }
  destruct (PyStr.truthy res) eqn:Et.
  2: { rewrite Er. repeat (split; [done|]).
       destruct res; [|done]. by apply Forall_nil. }
  case_bool_decide as Hl.
  - repeat (split; [done|]).
    cbn [set_resources in_Resources jget]. rewrite or_else_empty.
    rewrite split_roles_join.
    + apply Forall_forall. intros r Hr. by apply list_elem_of_filter in Hr as [? _].
    + apply Forall_forall. intros r Hr.
      apply list_elem_of_filter in Hr as [_ Hr].
      pose proof (split_roles_ok res) as Hok. rewrite Forall_forall in Hok.
      by apply Hok.
  - repeat (split; [done|]). rewrite Er, or_else_empty.
    apply (filter_all _ _). exact Hl.
Qed.

(** X12: the post-processing that removes a role from an activity changes
    its owner and its resources only; afterwards no resource of the
    activity contains the role's name, in any case of letters. *)
Theorem X12_remove_role (role : string) (act act' : activity_in) :
  remove_role role act = Some act' →
  in_Activities act' = in_Activities act
  ∧ in_Description act' = in_Description act
  ∧ in_Start_Date act' = in_Start_Date act
  ∧ in_End_Date act' = in_End_Date act
  ∧ Forall (λ r, PyStr.contains role (PyStr.lower r) = false
                 ∧ PyStr.lower r ≠ role)
      (split_roles (PyStr.or_else (jget (in_Resources act')) "")).
Proof.
  unfold remove_role.
  destruct (jget_default (in_Owner act) "") as [owner|]; [|done].
  cbn [mbind option_bind]. cbv zeta.
  match goal with
  | |- Some (match jget (in_Resources ?a) with _ => _ end) = _ → _ =>
      set (act1 := a)
  end.
  intros [= <-].
  assert (H1 : in_Activities act1 = in_Activities act
               ∧ in_Description act1 = in_Description act
               ∧ in_Start_Date act1 = in_Start_Date act
               ∧ in_End_Date act1 = in_End_Date act).
  { subst act1. destruct (_ || _); [|done].
    destruct (jget_default (in_Resources act) ""); [|done].
    by destruct (_ && _). }
  destruct H1 as (<- & <- & <- & <-).
  destruct (remove_from_resources role act1) as (? & ? & ? & ? & _ & Hf).
  repeat (split; [done|]).
  eapply Forall_impl; [exact Hf|]. intros r [Hc Hn]. split; [|done].
  by destruct (PyStr.contains role (PyStr.lower r)).
Qed.

Lemma X12_remove_role_witness :
  ∃ act',
    remove_role "qa engineer"
      (activity_of "Test" "QA Engineer"
         "Backend Developer, QA Engineer, Data Analyst"
         "2025-01-01" "2025-01-31") = Some act'
    ∧ in_Owner act' = JStr "Backend Developer"
    ∧ in_Resources act' = JStr "Data Analyst"
    ∧ in_Activities act' = JStr "Test"
    ∧ Forall (λ r, PyStr.contains "qa engineer" (PyStr.lower r) = false
                   ∧ PyStr.lower r ≠ "qa engineer"%string)
        (split_roles (PyStr.or_else (jget (in_Resources act')) "")).
Proof.
  eexists. split; [vm_compute; reflexivity|].
  split; [reflexivity|]. split; [reflexivity|].
  match goal with
  | |- _ ∧ Forall _ (split_roles (PyStr.or_else (jget (in_Resources ?a)) _)) =>
      destruct (X12_remove_role "qa engineer"
                  (activity_of "Test" "QA Engineer"
                     "Backend Developer, QA Engineer, Data Analyst"
                     "2025-01-01" "2025-01-31") a)
        as (H1 & _ & _ & _ & H5); [vm_compute; reflexivity|]
  end.
  split; [exact H1|exact H5].
Defined.

Import PyDate PyDateFacts PyStrFacts PyNumFacts LoopFacts SortFacts NormalFacts
  CleanFacts PlanFacts.

(** * More of the code: file names, retrieval, the token budget *)

(** ** File names *)

Module NameFacts.
Import PyStr.

Lemma name_char_not_space (c : ascii) :
  is_name_char c = true → is_space c = false.
Proof. destruct c as [[] [] [] [] [] [] [] []]; vm_compute; congruence. Qed.

Lemma lower_char_idem (c : ascii) : lower_char (lower_char c) = lower_char c.
Proof. destruct c as [[] [] [] [] [] [] [] []]; reflexivity. Qed.

Lemma lower_char_name (c : ascii) :
  is_name_char c = true → is_name_char (lower_char c) = true.
Proof. destruct c as [[] [] [] [] [] [] [] []]; vm_compute; congruence. Qed.

(** What [sub_runs] leaves: characters of the class that the text had, and
    underscores. *)
Lemma sub_runs_chars (in_run : bool) (l : list ascii) :
  Forall (λ c, is_name_char c = true ∧ (c ∈ l ∨ c = "_"%char))
    (sub_runs in_run l).
Proof.
  revert in_run. induction l as [|c l IH]; intros in_run; [by apply Forall_nil|].
  cbn [sub_runs].
  assert (Hw : ∀ b, Forall (λ x, is_name_char x = true
                                 ∧ (x ∈ c :: l ∨ x = "_"%char))
                      (sub_runs b l)).
  { intros b. eapply Forall_impl; [apply IH|].
    intros x [? [?|?]]; (split; [done|]); [left; by right|by right]. }
  destruct (is_name_char c) eqn:Ec.
  - apply Forall_cons. split; [|apply Hw]. split; [done|]. left. by left.
  - destruct in_run; [apply Hw|].
    apply Forall_cons. split; [|apply Hw]. split; [done|]. by right.
Qed.

Lemma sub_runs_id (l : list ascii) :
  Forall (λ c, is_name_char c = true) l → sub_runs false l = l.
Proof.
  induction 1 as [|c l Hc _ IH]; [done|].
  cbn [sub_runs]. by rewrite Hc, IH.
Qed.

Lemma lstrip_l_id (c : ascii) (l : list ascii) :
  is_space c = false → lstrip_l (c :: l) = c :: l.
Proof. intros H. cbn [lstrip_l]. by rewrite H. Qed.

Lemma rstrip_l_id (l : list ascii) :
  Forall (λ c, is_space c = false) l → rstrip_l l = l.
Proof.
  induction 1 as [|c l Hc _ IH]; [done|].
  cbn [rstrip_l]. rewrite IH, Hc. by destruct l.
Qed.

Lemma strip_l_id (l : list ascii) :
  Forall (λ c, is_space c = false) l → strip_l l = l.
Proof.
  intros H. unfold strip_l. destruct H as [|c l Hc H]; [done|].
  rewrite lstrip_l_id by done. apply rstrip_l_id. by apply Forall_cons.
Qed.

Lemma map_id_Forall {A : Type} (f : A → A) (l : list A) :
  Forall (λ x, f x = x) l → map f l = l.
Proof. induction 1 as [|x l Hx _ IH]; [done|]. simpl. by rewrite Hx, IH. Qed.

Lemma sub_runs_length (in_run : bool) (l : list ascii) :
  (length (sub_runs in_run l) ≤ length l)%nat.
Proof.
  revert in_run. induction l as [|c l IH]; intros in_run; [done|].
  cbn [sub_runs].
  destruct (is_name_char c); [specialize (IH false); cbn [length]; lia|].
  destruct in_run; specialize (IH true); cbn [length]; lia.
Qed.

Lemma length_list_ascii (s : string) :
  length (list_ascii_of_string s) = String.length s.
Proof. induction s as [|c s IH]; [done|]. simpl. by rewrite IH. Qed.

End NameFacts.

(** X13: the file name of an export is made of small letters, digits,
    underscores and hyphens only, is not longer than the text it is made
    from, lowered and stripped, and is its own file name; no name gives the
    empty file name. *)
Theorem X13_safe_filename (name : option string) :
  let text := PyStr.lower (PyStr.strip (PyStr.or_else name "")) in
  Forall (λ c, is_name_char c = true ∧ PyStr.lower_char c = c)
    (list_ascii_of_string (_safe_filename name))
  ∧ (String.length (_safe_filename name) ≤ String.length text)%nat
  ∧ _safe_filename (Some (_safe_filename name)) = _safe_filename name
  ∧ _safe_filename None = ""%string.
Proof.
  cbv zeta.
  assert (Hc : Forall (λ c, is_name_char c = true ∧ PyStr.lower_char c = c)
                 (list_ascii_of_string (_safe_filename name))).
  { unfold _safe_filename. rewrite list_ascii_of_string_of_list_ascii.
    eapply Forall_impl; [apply NameFacts.sub_runs_chars|].
    intros c [Hn [Hin| ->]]; (split; [done|]); [|done].
    unfold PyStr.lower in Hin.
    rewrite list_ascii_of_string_of_list_ascii in Hin.
    apply list_elem_of_In, in_map_iff in Hin as (c0 & <- & _).
    apply NameFacts.lower_char_idem. }
  split; [exact Hc|]. split.
  { unfold _safe_filename.
    rewrite <- !NameFacts.length_list_ascii,
      list_ascii_of_string_of_list_ascii.
    apply NameFacts.sub_runs_length. }
  split; [|reflexivity].
  set (out := _safe_filename name) in *.
  unfold _safe_filename at 1. rewrite or_else_empty.
  assert (PyStr.strip out = out) as ->.
  { unfold PyStr.strip. rewrite NameFacts.strip_l_id.
    - apply string_of_list_ascii_of_string.
    - eapply Forall_impl; [exact Hc|].
      intros c [H _]. by apply NameFacts.name_char_not_space. }
  assert (PyStr.lower out = out) as ->.
  { unfold PyStr.lower. rewrite NameFacts.map_id_Forall.
    - apply string_of_list_ascii_of_string.
    - eapply Forall_impl; [exact Hc|]. by intros c [_ H]. }
  rewrite NameFacts.sub_runs_id.
  - apply string_of_list_ascii_of_string.
  - eapply Forall_impl; [exact Hc|]. by intros c [H _].
Qed.

(** ** Grouping *)

Module GroupFacts.

Section Grouping.

Context {K V : Type} `{EqDecision K}.

Lemma items_get_setdefault (k k' : K) (v : V) (g : list (K * list V)) :
  items_get k' (setdefault_append k v g)
  = if decide (k' = k) then Some (default [] (items_get k g) ++ [v])
    else items_get k' g.
Proof.
  induction g as [|[k0 vs] g IH]; cbn [setdefault_append items_get].
  - destruct (decide (k' = k)) as [->|]; [|done].
    by destruct (decide (k = k)).
  - destruct (decide (k = k0)) as [->|Hne]; cbn [items_get].
    + destruct (decide (k' = k0)) as [->|]; [|done].
      by destruct (decide (k0 = k0)).
    + rewrite IH. destruct (decide (k' = k0)) as [->|].
      * by destruct (decide (k0 = k)); [congruence|].
      * done.
Qed.

Lemma keys_setdefault (k : K) (v : V) (g : list (K * list V)) :
  (setdefault_append k v g).*1
  = if decide (k ∈ g.*1) then g.*1 else g.*1 ++ [k].
Proof.
  induction g as [|[k0 vs] g IH]; cbn [setdefault_append]; [done|].
  destruct (decide (k = k0)) as [->|Hne].
  - rewrite decide_True by (by left). done.
  - rewrite !fmap_cons, IH. cbn.
    destruct (decide (k ∈ g.*1)) as [Hin|Hin].
    + rewrite decide_True by (by right). done.
    + rewrite decide_False; [done|].
      intros [?|?]%elem_of_cons; done.
Qed.

Lemma concat_setdefault (k : K) (v : V) (g : list (K * list V)) :
  concat (g.*2 : list (list V)) ++ [v]
  ≡ₚ concat ((setdefault_append k v g).*2 : list (list V)).
Proof.
  induction g as [|[k0 vs] g IH]; cbn [setdefault_append]; [done|].
  destruct (decide (k = k0)) as [->|Hne].
  - rewrite !fmap_cons. cbn. rewrite <- !app_assoc.
    apply Permutation_app_head, Permutation_app_comm.
  - rewrite !fmap_cons. cbn. rewrite <- app_assoc. by rewrite IH.
Qed.

Lemma nonempty_setdefault (k : K) (v : V) (g : list (K * list V)) :
  Forall (λ kv, kv.2 ≠ []) g →
  Forall (λ kv, kv.2 ≠ []) (setdefault_append k v g).
Proof.
  induction 1 as [|[k0 vs] g Hv Hg IH]; cbn [setdefault_append].
  - by apply Forall_singleton.
  - destruct (decide (k = k0)); apply Forall_cons; (split; [|done]).
    + cbn. by destruct vs.
    + done.
Qed.

Variable key : V → K.

(** The dictionary a loop of [setdefault(...).append(...)] builds. *)
Lemma group_spec (l : list V) :
  let g := foldl (λ grouped x, setdefault_append (key x) x grouped) [] l in
  NoDup g.*1
  ∧ Forall (λ kv, kv.2 ≠ []) g
  ∧ (∀ k, items_get k g
          = match filter (λ x, key x = k) l with
            | [] => None
            | xs => Some xs
            end)
  ∧ concat (g.*2 : list (list V)) ≡ₚ l.
Proof.
  cbv zeta. induction l as [|x l IH] using rev_ind.
  { split; [constructor|]. split; [constructor|]. done. }
  destruct IH as (Hnd & Hne & Hget & Hperm).
  rewrite foldl_app. cbn [foldl].
  set (g := foldl (λ grouped x, setdefault_append (key x) x grouped) [] l) in *.
  split; [|split; [|split]].
  - rewrite keys_setdefault. destruct (decide (key x ∈ g.*1)); [done|].
    apply NoDup_app. split; [done|]. split; [|apply NoDup_singleton].
    intros y Hy ->%list_elem_of_singleton. done.
  - by apply nonempty_setdefault.
  - intros k. rewrite items_get_setdefault, filter_app, filter_cons, filter_nil.
    rewrite !Hget.
    destruct (decide (k = key x)) as [->|Hk].
    + rewrite decide_True by done.
      by destruct (filter (λ y, key y = key x) l).
    + rewrite decide_False by done. by rewrite app_nil_r.
  - by rewrite <- concat_setdefault, Hperm.
Qed.

End Grouping.

End GroupFacts.

Lemma group_hits_spec (hits : list hit) :
  NoDup (group_hits hits).*1
  ∧ Forall (λ g, g.2 ≠ []) (group_hits hits)
  ∧ (∀ parent_id,
       items_get parent_id (group_hits hits)
       = match chunk_of <$> filter (λ h, hit_parent_id h = parent_id) hits with
         | [] => None
         | chunks => Some chunks
         end)
  ∧ concat ((group_hits hits).*2 : list (list kb_chunk)) ≡ₚ chunk_of <$> hits.
Proof.
  assert (E : group_hits hits
              = (λ kv : option string * list hit, (kv.1, chunk_of <$> kv.2))
                  <$> foldl (λ grouped h,
                               setdefault_append (hit_parent_id h) h grouped)
                        [] hits).
  { unfold group_hits. induction hits as [|h hits IH] using rev_ind; [done|].
    rewrite !foldl_app. cbn [foldl]. rewrite IH. clear IH.
    generalize (foldl (λ grouped h0,
                         setdefault_append (hit_parent_id h0) h0 grouped)
                  [] hits).
    intros g. induction g as [|[k vs] g IH]; [done|].
    cbn [setdefault_append fmap list_fmap fst snd].
    destruct (decide (hit_parent_id h = k)).
    - cbn. by rewrite fmap_app.
    - cbn. f_equal. apply IH. }
  destruct (GroupFacts.group_spec hit_parent_id hits) as (Hnd & Hne & Hget & Hp).
  set (g := foldl _ [] hits) in *. rewrite E. clearbody g. clear E.
  split; [|split; [|split]].
  - match goal with |- NoDup ?l => assert (l = g.*1) as ->; [|done] end.
    clear. induction g as [|[k vs] g IH]; [done|]. cbn. by rewrite IH.
  - apply Forall_fmap. eapply Forall_impl; [exact Hne|].
    intros [k vs] Hv. cbn in *. by destruct vs.
  - intros pid.
    assert (Hm : items_get pid
                   ((λ kv : option string * list hit,
                       (kv.1, chunk_of <$> kv.2)) <$> g)
                 = fmap (M := list) chunk_of <$> items_get pid g).
    { clear. induction g as [|[k vs] g IH]; [done|].
      cbn. by destruct (decide (pid = k)). }
    rewrite Hm, Hget. by destruct (filter _ hits).
  - rewrite <- Hp. clear.
    induction g as [|[k vs] g IH]; [done|].
    cbn. by rewrite fmap_app, IH.
Qed.

(** X14: [_rag_retrieve] answers the hits of the search grouped by parent:
    no two groups have the same parent, no group is empty, the group of a
    parent holds the hits of that parent in the order of the search, and
    all the groups together hold every hit once.  Without an embedding, or
    when the search raises, it answers no group. *)
Theorem X14_rag_groups (scalar : Type)
    (search : list scalar → option (list point))
    (q_emb_list : list (list scalar)) :
  let groups := _rag_retrieve scalar search q_emb_list in
  NoDup groups.*1
  ∧ Forall (λ g, g.2 ≠ []) groups
  ∧ (∀ q_emb rest results,
       q_emb_list = q_emb :: rest → q_emb ≠ [] →
       search q_emb = Some results →
       (∀ parent_id,
          items_get parent_id groups
          = match chunk_of
                  <$> filter (λ h, hit_parent_id h = parent_id)
                        (hit_of <$> results) with
            | [] => None
            | chunks => Some chunks
            end)
       ∧ concat (groups.*2 : list (list kb_chunk))
         ≡ₚ chunk_of <$> (hit_of <$> results))
  ∧ (q_emb_list = [] ∨ head q_emb_list = Some []
     ∨ (∃ q_emb, head q_emb_list = Some q_emb ∧ search q_emb = None) →
     groups = []).
Proof.
  cbv zeta. unfold _rag_retrieve.
  destruct q_emb_list as [|[|x q_emb] rest].
  1,2: split; [constructor|]; split; [constructor|]; split; [|done];
       intros ? ? ? [= <- <-]; done.
  destruct (search (x :: q_emb)) as [results|] eqn:Es.
  - destruct (group_hits_spec (hit_of <$> results)) as (Hnd & Hne & Hget & Hp).
    split; [done|]. split; [done|]. split.
    + intros ? ? ? [= <- <-] _. rewrite Es. intros [= <-]. done.
    + intros [?|[[=]|(? & [= <-] & ?)]]; congruence.
  - split; [constructor|]. split; [constructor|]. split; [|done].
    intros ? ? ? [= <- <-] _. by rewrite Es.
Qed.

(** ** The token budget *)

Section Budget.

Variable token : Type.
Variable encode : string → list token.

Lemma tokens_of_app (l1 l2 : list string) :
  tokens_of token encode (l1 ++ l2)
  = tokens_of token encode l1 + tokens_of token encode l2.
Proof.
  unfold tokens_of. induction l1 as [|t l1 IH]; [done|].
  cbn in *. rewrite IH. lia.
Qed.

Lemma kb_inner_spec (chunks : list kb_chunk) (used : Z) (kb : list string)
    (kb' : list string) (used' : Z) (stop : bool) :
  kb_inner token encode used kb chunks = Some (kb', used', stop) →
  ∃ taken,
    kb' = kb ++ taken
    ∧ used' = used + tokens_of token encode taken
    ∧ (used ≤ max_total_tokens → used' ≤ max_total_tokens)
    ∧ (if stop
       then ∃ content rest,
              ch_content <$> chunks = (Some <$> taken) ++ Some content :: rest
              ∧ max_total_tokens
                < used' + Z.of_nat (length (encode content))
       else ch_content <$> chunks = Some <$> taken).
Proof.
  revert used kb. induction chunks as [|ch chunks IH]; intros used kb.
  - intros [= <- <- <-]. exists []. rewrite app_nil_r.
    split; [done|]. split; [unfold tokens_of; cbn; lia|]. done.
  - cbn [kb_inner]. destruct (ch_content ch) as [content|] eqn:Ec; [|done].
    cbn [mbind option_bind].
    destruct (Z.ltb_spec max_total_tokens
                (used + Z.of_nat (length (encode content)))) as [Hlt|Hle].
    + intros [= <- <- <-]. exists []. rewrite app_nil_r.
      split; [done|]. split; [unfold tokens_of; cbn; lia|].
      split; [done|]. exists content, (ch_content <$> chunks).
      rewrite fmap_cons, Ec. done.
    + intros H. apply IH in H as (taken & -> & -> & Hmax & Hstop).
      exists (content :: taken). rewrite <- app_assoc. split; [done|].
      split; [unfold tokens_of; cbn; lia|]. split; [lia|].
      rewrite !fmap_cons, Ec. destruct stop.
      * destruct Hstop as (c & rest & -> & Hlt). by exists c, rest.
      * by rewrite Hstop.
Qed.

Lemma kb_outer_spec (kb_results : list (option string * list kb_chunk))
    (used : Z) (kb : list string) (kb' : list string) (used' : Z) :
  kb_outer token encode used kb kb_results = Some (kb', used') →
  ∃ taken,
    kb' = kb ++ taken
    ∧ used' = used + tokens_of token encode taken
    ∧ (used ≤ max_total_tokens → used' ≤ max_total_tokens)
    ∧ (contents_of kb_results = Some <$> taken
       ∨ ∃ content rest,
           contents_of kb_results = (Some <$> taken) ++ Some content :: rest
           ∧ max_total_tokens < used' + Z.of_nat (length (encode content))).
Proof.
  revert used kb. induction kb_results as [|group groups IH]; intros used kb.
  - intros [= <- <-]. exists []. rewrite app_nil_r.
    split; [done|]. split; [unfold tokens_of; cbn; lia|]. split; [done|].
    by left.
  - cbn [kb_outer].
    destruct (kb_inner token encode used kb group.2) as [[[kb1 used1] stop]|]
      eqn:Ei; [|done].
    cbn [mbind option_bind].
    apply kb_inner_spec in Ei as (taken1 & -> & -> & Hmax1 & Hstop).
    unfold contents_of. rewrite fmap_cons, concat_cons, fmap_app.
    destruct stop.
    + intros [= <- <-]. exists taken1. split; [done|]. split; [done|].
      split; [done|]. right.
      destruct Hstop as (c & rest & -> & Hlt).
      exists c, (rest ++ (ch_content <$> concat groups.*2)).
      by rewrite <- app_assoc.
    + intros H. apply IH in H as (taken2 & -> & -> & Hmax2 & Hrest).
      exists (taken1 ++ taken2). rewrite <- app_assoc. split; [done|].
      rewrite tokens_of_app. split; [lia|]. split; [lia|].
      rewrite Hstop, fmap_app.
      destruct Hrest as [Hall|(c & rest & Hc & Hlt)].
      * left. unfold contents_of in Hall. by rewrite Hall.
      * right. exists c, rest. unfold contents_of in Hc.
        rewrite Hc, <- app_assoc. split; [done|]. lia.
Qed.

End Budget.

(** X15: the budget of [generate_project_scope] keeps at most 5000 tokens
    of the RFP text, its first ones, and then the chunks of the knowledge
    base in the order of the retrieval for as long as they fit: the tokens
    used never exceed 124000, the chunks kept are the first ones, and the
    first chunk that is left out is one that did not fit, also when a later
    and shorter one would. *)
Theorem X15_token_budget (token : Type) (encode : string → list token)
    (rfp_text : string)
    (kb_results : list (option string * list kb_chunk))
    (rfp_tokens : list token) (kb_chunks : list string) (used_tokens : Z) :
  scope_budget token encode rfp_text kb_results
  = Some (rfp_tokens, kb_chunks, used_tokens) →
  (length rfp_tokens ≤ 5000)%nat
  ∧ rfp_tokens `prefix_of` encode rfp_text
  ∧ used_tokens
    = Z.of_nat (length rfp_tokens) + tokens_of token encode kb_chunks
  ∧ used_tokens ≤ max_total_tokens
  ∧ Some <$> kb_chunks `prefix_of` contents_of kb_results
  ∧ (∀ next rest,
       contents_of kb_results = (Some <$> kb_chunks) ++ next :: rest →
       ∃ content,
         next = Some content
         ∧ max_total_tokens
           < used_tokens + Z.of_nat (length (encode content))).
Proof.
  unfold scope_budget. cbv zeta.
  destruct (kb_outer _ _ _ _ _) as [[kb used]|] eqn:Eo; [|done].
  cbn [mbind option_bind]. intros [= <- <- <-].
  apply kb_outer_spec in Eo as (taken & -> & -> & Hmax & Hrest).
  cbn [app] in *.
  assert (Hlen : (length (trim_rfp token encode 5000 rfp_text) ≤ 5000)%nat).
  { unfold trim_rfp. cbv zeta.
    destruct (Nat.ltb_spec 5000 (length (encode rfp_text))); [|done].
    rewrite length_take. lia. }
  split; [done|]. split.
  { unfold trim_rfp. cbv zeta. destruct (_ <? _)%nat; [|done].
    apply prefix_take. }
  split; [lia|]. split.
  { apply Hmax. unfold max_total_tokens, context_limit. lia. }
  split.
  { destruct Hrest as [->|(c & rest & -> & _)]; [done|].
    by apply prefix_app_r. }
  intros next rest E.
  destruct Hrest as [Hall|(c & rest' & Hc & Hlt)].
  - rewrite Hall in E. apply (f_equal length) in E.
    rewrite length_app in E. cbn in E. lia.
  - rewrite Hc in E. apply app_inv_head in E as [= <- _]. by exists c.
Qed.

Lemma X15_token_budget_witness :
  (length (list_ascii_of_string "Build a data platform") ≤ 5000)%nat
  ∧ list_ascii_of_string "Build a data platform"
    `prefix_of` list_ascii_of_string "Build a data platform"
  ∧ 44
    = Z.of_nat (length (list_ascii_of_string "Build a data platform"))
      + tokens_of ascii list_ascii_of_string ["Use Spark"; "Use Airflow"; "SQL"]
  ∧ 44 ≤ max_total_tokens
  ∧ Some <$> ["Use Spark"; "Use Airflow"; "SQL"]%string
    `prefix_of` contents_of kb_example
  ∧ (∀ next rest,
       contents_of kb_example
       = (Some <$> ["Use Spark"; "Use Airflow"; "SQL"]%string) ++ next :: rest →
       ∃ content,
         next = Some content
         ∧ max_total_tokens
           < 44 + Z.of_nat (length (list_ascii_of_string content))).
Proof.
  assert (E : scope_budget ascii list_ascii_of_string "Build a data platform"
                kb_example
              = Some (list_ascii_of_string "Build a data platform",
                      ["Use Spark"; "Use Airflow"; "SQL"]%string, 44))
    by (vm_compute; reflexivity).
  exact (X15_token_budget ascii list_ascii_of_string "Build a data platform"
           kb_example _ _ _ E).
Defined.

Import PyDate PyDateFacts PyStrFacts PyNumFacts LoopFacts SortFacts NormalFacts
  CleanFacts PlanFacts.

(** * More of the code: the day counts of the second pass *)

Module UsageFacts.

Lemma overlap_days_nonneg (s e rel_start rel_end : Z) :
  0 ≤ overlap_days s e rel_start rel_end.
Proof. unfold overlap_days. cbv zeta. case_match; lia. Qed.

Lemma Zsum_app (l1 l2 : list Z) : Zsum (l1 ++ l2) = Zsum l1 + Zsum l2.
Proof. unfold Zsum. induction l1 as [|x l1 IH]; cbn in *; lia. Qed.

Lemma Zsum_perm (l1 l2 : list Z) : l1 ≡ₚ l2 → Zsum l1 = Zsum l2.
Proof. unfold Zsum. induction 1; cbn in *; lia. Qed.

Lemma listed_cons (role r : string) (roles : list string) :
  listed role (r :: roles)
  = (if decide (r = role) then 1 else 0) + listed role roles.
Proof.
  unfold listed. rewrite filter_cons.
  destruct (decide (r = role)); cbn [length]; lia.
Qed.

Lemma cell_init (total_months : nat) (role_order : list string)
    (role : string) (m_idx : nat) :
  cell total_months (usage_init total_months role_order) role m_idx = 0.
Proof.
  unfold cell.
  assert (days_of total_months (usage_init total_months role_order) role
          = zero_months total_months) as ->.
  { unfold days_of.
    destruct (usage_init total_months role_order !! role) as [cells|] eqn:E;
      [|done].
    unfold usage_init in E. apply elem_of_list_to_map_2 in E.
    apply list_elem_of_fmap in E as (r & [= -> ->] & _). done. }
  unfold zero_months.
  destruct (replicate total_months 0 !! m_idx) as [d|] eqn:E; [|done].
  by apply lookup_replicate in E as [-> _].
Qed.

(** One turn of [for r in involved_roles]. *)
Lemma cell_add_usage (total_months m_idx : nat) (days : Z)
    (u : gmap string (list Z)) (r role : string) (m : nat) :
  month_cells total_months u → (m_idx < total_months)%nat →
  cell total_months (add_usage total_months m_idx days u r) role m
  = cell total_months u role m
    + (if decide (r = role ∧ m = m_idx) then days else 0).
Proof.
  intros Hc Hm. unfold cell, days_of, add_usage.
  destruct (decide (r = role)) as [->|Hr].
  - destruct (u !! role) as [cells|] eqn:E.
    + rewrite lookup_alter_eq, E. cbn.
      destruct (decide (m = m_idx)) as [->|Hne].
      * rewrite decide_True by done. rewrite list_lookup_alter_eq.
        apply Hc in E.
        destruct (lookup_lt_is_Some_2 cells m_idx ltac:(lia)) as [d ->].
        done.
      * rewrite decide_False by (intros [_ ?]; done).
        rewrite list_lookup_alter_ne by done. lia.
    + rewrite lookup_alter_eq, lookup_insert_eq. cbn.
      destruct (decide (m = m_idx)) as [->|Hne].
      * rewrite decide_True by done. rewrite list_lookup_alter_eq.
        unfold zero_months. rewrite lookup_replicate_2 by done. done.
      * rewrite decide_False by (intros [_ ?]; done).
        rewrite list_lookup_alter_ne by done. lia.
  - rewrite decide_False by (intros [? _]; done).
    rewrite lookup_alter_ne by done.
    destruct (u !! r); [|rewrite lookup_insert_ne by done]; lia.
Qed.

Lemma cell_add_usages (total_months m_idx : nat) (days : Z)
    (roles : list string) (u : gmap string (list Z)) (role : string)
    (m : nat) :
  month_cells total_months u → (m_idx < total_months)%nat →
  cell total_months (foldl (add_usage total_months m_idx days) u roles) role m
  = cell total_months u role m
    + (if decide (m = m_idx) then listed role roles * days else 0).
Proof.
  intros Hc Hm. revert u Hc.
  induction roles as [|r roles IH]; intros u Hc.
  { cbn. unfold listed. cbn. destruct (decide _); lia. }
  cbn [foldl]. rewrite IH by (by apply add_usage_cells).
  rewrite cell_add_usage, listed_cons by done.
  destruct (decide (m = m_idx)) as [->|], (decide (r = role)) as [->|].
  - rewrite decide_True by done. lia.
  - rewrite decide_False by (intros [? _]; done). lia.
  - rewrite decide_False by (intros [_ ?]; done). lia.
  - rewrite decide_False by (intros [? _]; done). lia.
Qed.

(** [for m_idx in range(total_months)] for one activity. *)
Lemma cell_usage_of_months (total_months : nat) (min_start s e : Z)
    (roles : list string) (m_idxs : list nat) (u u' : gmap string (list Z))
    (role : string) (m : nat) :
  usage_of_months total_months min_start s e roles m_idxs u = Some u' →
  month_cells total_months u →
  Forall (λ m_idx, (m_idx < total_months)%nat) m_idxs → NoDup m_idxs →
  cell total_months u' role m
  = cell total_months u role m
    + (if decide (m ∈ m_idxs)
       then listed role roles
            * overlap_days s e (rel_start min_start m) (rel_end min_start m)
       else 0).
Proof.
  revert u. induction m_idxs as [|m_idx rest IH]; intros u E Hc Hlt Hnd.
  { injection E as <-. rewrite decide_False by (by intros ?%elem_of_nil). lia. }
  cbn [usage_of_months] in E.
  destruct (add_days min_start (Z.of_nat m_idx * 30)) as [rs|] eqn:Es; [|done].
  destruct (add_days min_start ((Z.of_nat m_idx + 1) * 30)) as [re|] eqn:Ee;
    [|done].
  cbn [mbind option_bind] in E.
  apply add_days_inv in Es, Ee. subst rs re.
  fold (rel_start min_start m_idx) in E. fold (rel_end min_start m_idx) in E.
  apply Forall_cons in Hlt as [Hm Hlt]. apply NoDup_cons in Hnd as [Hni Hnd].
  pose proof (overlap_days_nonneg s e (rel_start min_start m_idx)
                (rel_end min_start m_idx)) as H0.
  set (days := overlap_days s e (rel_start min_start m_idx)
                 (rel_end min_start m_idx)) in *.
  destruct (Z.ltb_spec 0 days) as [Hpos|Hzero].
  - rewrite (IH _ E) by (try done; by apply add_usages_cells).
    rewrite cell_add_usages by done.
    destruct (decide (m = m_idx)) as [->|Hne].
    + rewrite decide_False by done. rewrite decide_True by (by left).
      subst days. lia.
    + destruct (decide (m ∈ rest)) as [Hin|Hin].
      * rewrite decide_True by (by right). lia.
      * rewrite decide_False; [lia|]. by intros [?|?]%elem_of_cons.
  - rewrite (IH _ E) by done.
    destruct (decide (m = m_idx)) as [->|Hne].
    + rewrite decide_False by done. rewrite decide_True by (by left).
      subst days. assert (overlap_days s e (rel_start min_start m_idx)
                            (rel_end min_start m_idx) = 0) as -> by lia.
      lia.
    + destruct (decide (m ∈ rest)) as [Hin|Hin].
      * rewrite decide_True by (by right). done.
      * rewrite decide_False; [done|]. by intros [?|?]%elem_of_cons.
Qed.

(** The second pass over activities whose dates are known. *)
Lemma cell_usage_of_dts (total_months : nat) (min_start : Z)
    (l : list activity_dt) (u u' : gmap string (list Z)) (role : string)
    (m : nat) :
  usage_of_dts total_months min_start u l = Some u' →
  month_cells total_months u → (m < total_months)%nat →
  cell total_months u' role m
  = cell total_months u role m
    + Zsum ((λ a, listed role (dt_Owner a :: split_roles (dt_Resources a))
                  * overlap_days (dt_Start_Date a) (dt_End_Date a)
                      (rel_start min_start m) (rel_end min_start m))
              <$> l).
Proof.
  revert u. induction l as [|a l IH]; intros u E Hc Hm.
  { injection E as <-. cbn. lia. }
  cbn [usage_of_dts] in E.
  destruct (usage_of_dt total_months min_start u a) as [u1|] eqn:E1; [|done].
  cbn [mbind option_bind] in E. unfold usage_of_dt in E1.
  rewrite (IH _ E) by (try done; by eapply usage_of_months_cells).
  rewrite (cell_usage_of_months _ _ _ _ _ _ _ _ role m E1 Hc).
  - rewrite decide_True by (apply elem_of_seq; lia).
    rewrite fmap_cons. unfold Zsum. cbn [foldr]. lia.
  - apply Forall_forall. intros i Hi%elem_of_seq. lia.
  - apply NoDup_seq.
Qed.

End UsageFacts.

Lemma usage_of_dts_cells (total_months : nat) (min_start : Z)
    (l : list activity_dt) (u u' : gmap string (list Z)) :
  usage_of_dts total_months min_start u l = Some u' →
  month_cells total_months u → month_cells total_months u'.
Proof.
  revert u. induction l as [|a l IH]; intros u E Hc; [by injection E as <-|].
  cbn [usage_of_dts] in E.
  destruct (usage_of_dt total_months min_start u a) as [u1|] eqn:E1; [|done].
  cbn [mbind option_bind] in E. apply (IH _ E).
  by eapply usage_of_months_cells.
Qed.

(** The day counts [clean_scope] arrives at, cell by cell. *)
Lemma cell_day_usage (today : Z) (l : list activity_in)
    (usage : gmap string (list Z)) (role : string) (m : nat) :
  day_usage today l = Some usage → (m < months_of today l)%nat →
  cell (months_of today l) usage role m
  = days_given today (min_start_of today l) role m l.
Proof.
  unfold day_usage. intros E Hm.
  rewrite (UsageFacts.cell_usage_of_dts _ _ _ _ _ role m E)
    by (try done; apply usage_init_cells).
  rewrite UsageFacts.cell_init, Z.add_0_l.
  rewrite (UsageFacts.Zsum_perm _ _
             (fmap_Permutation _ _ _ (sort_by_start_perm _))).
  unfold days_given, first_pass. f_equal.
  apply fmap_imap_const. intros i a.
  cbn [dt_of dt_Owner dt_Resources dt_Start_Date dt_End_Date].
  destruct (raw_deps_of_ok a) as [Hok _].
  by rewrite split_roles_join.
Qed.

(** X16: every cell of the plan is the quantization of the days that the
    activities give its role in its month: for each activity, the days it
    shares with the window of the month, both ends counted, once for each
    time it lists the role as owner or resource. *)
Theorem X16_allocation_law (today : Z) (dynamic : gmap string Q)
    (data : scope_in) (out : scope_out) :
  Forall (supported today) (activities data) →
  clean_scope_with today dynamic data = Some out →
  Forall
    (λ entry,
       pe_months entry
       = (λ m_idx,
            quantize
              (days_given today (min_start_of today (activities data))
                 (pe_Resources entry) m_idx (activities data)))
           <$> seq 0 (months_of today (activities data)))
    (out_resourcing_plan out).
Proof.
  intros Hall E.
  destruct (clean_scope_with_supported today dynamic data Hall)
    as (usage & Hu & E').
  rewrite E in E'. injection E' as ->. cbn [out_resourcing_plan].
  assert (Hc : month_cells (months_of today (activities data)) usage).
  { unfold day_usage in Hu.
    eapply usage_of_dts_cells; [exact Hu|]. apply usage_init_cells. }
  apply Forall_forall. intros entry Hin.
  apply plan_entry_of in Hin as (i & role & _ & ->).
  destruct (entry_of_fields (months_of today (activities data)) usage dynamic
              (discount_percentage data) i role) as (_ & -> & _ & -> & _).
  apply list_eq. intros m. rewrite !list_lookup_fmap.
  destruct (decide (m < months_of today (activities data))%nat) as [Hm|Hm].
  - rewrite lookup_seq_lt by done. cbn.
    rewrite <- (cell_day_usage today _ usage role m Hu Hm). unfold cell.
    pose proof (days_of_length _ _ role Hc) as Hl.
    destruct (lookup_lt_is_Some_2
                (days_of (months_of today (activities data)) usage role) m
                ltac:(lia)) as [d ->].
    done.
  - rewrite lookup_seq_ge by lia.
    rewrite (lookup_ge_None_2 (days_of _ usage role)); [done|].
    rewrite days_of_length by done. lia.
Qed.

Lemma X16_allocation_law_witness :
  Forall
    (λ entry,
       pe_months entry
       = (λ m_idx,
            quantize
              (days_given a_today
                 (min_start_of a_today (activities two_activities))
                 (pe_Resources entry) m_idx (activities two_activities)))
           <$> seq 0 (months_of a_today (activities two_activities)))
    (out_resourcing_plan two_activities_out).
Proof.
  assert (E : clean_scope_with a_today ROLE_RATE_MAP two_activities
              = Some two_activities_out) by (vm_compute; reflexivity).
  exact (X16_allocation_law a_today ROLE_RATE_MAP two_activities
           two_activities_out (two_activities_supported a_today) E).
Defined.

(** ** The windows of the months *)

Lemma window_days_S (k : nat) (min_start s e : Z) :
  window_days (S k) min_start s e
  = window_days k min_start s e
    + overlap_days s e (rel_start min_start k) (rel_end min_start k).
Proof.
  unfold window_days. rewrite seq_S, fmap_app, UsageFacts.Zsum_app.
  cbn. unfold Zsum. cbn. lia.
Qed.

Lemma shared_limits_S (k : nat) (min_start s e : Z) :
  shared_limits (S (S k)) min_start s e
  = shared_limits (S k) min_start s e
    + (if decide (s ≤ rel_start min_start (S k) ≤ e) then 1 else 0).
Proof.
  unfold shared_limits.
  replace (S (S k) - 1)%nat with (S k) by lia.
  replace (S k - 1)%nat with k by lia.
  rewrite seq_S, filter_app, length_app, filter_cons, filter_nil.
  cbn [Nat.add].
  destruct (decide (s ≤ rel_start min_start (S k) ≤ e)); cbn [length]; lia.
Qed.

Ltac leb_cases :=
  repeat match goal with
    | |- context [?a <=? ?b] => destruct (Z.leb_spec a b)
    | |- context [decide ?P] => destruct (decide P)
    end.

Lemma window_days_clipped (k : nat) (min_start s e : Z) :
  min_start ≤ s → s ≤ e →
  window_days (S k) min_start s e
  = (if s <=? rel_end min_start k
     then Z.min e (rel_end min_start k) - s + 1 else 0)
    + shared_limits (S k) min_start s e.
Proof.
  intros Hs He. induction k as [|k IH].
  - rewrite window_days_S. unfold window_days, shared_limits, overlap_days,
      rel_start, rel_end, Zsum. cbn [seq fmap list_fmap foldr filter length
        Nat.sub list_filter].
    change (Z.of_nat 0) with 0. leb_cases; lia.
  - rewrite window_days_S, IH, shared_limits_S.
    unfold overlap_days, rel_start, rel_end in *.
    rewrite !Nat2Z.inj_succ. leb_cases; lia.
Qed.

(** X17: the windows of two successive months share their limit, the day
    30 days times m after the first start: over all the months an activity
    is counted for each of its days, and once more for each such limit it
    covers. *)
Theorem X17_window_days (total_months : nat) (min_start s e : Z) :
  (1 ≤ total_months)%nat → min_start ≤ s → s ≤ e →
  e ≤ min_start + 30 * Z.of_nat total_months →
  window_days total_months min_start s e
  = (e - s + 1) + shared_limits total_months min_start s e.
Proof.
  intros HK Hs He Hend. destruct total_months as [|k]; [lia|].
  rewrite window_days_clipped by done.
  unfold rel_end. rewrite Nat2Z.inj_succ in Hend.
  leb_cases; lia.
Qed.

(** Activity A of the scenario, 2025-01-01 to 2025-01-31, in a project of
    two months: 31 days, and the limit 2025-01-31 once more. *)
Lemma X17_window_days_witness :
  window_days 2 a_today a_today (a_today + 30)
  = (a_today + 30 - a_today + 1) + shared_limits 2 a_today a_today (a_today + 30).
Proof.
  apply (X17_window_days 2 a_today a_today (a_today + 30));
    unfold a_today; lia.
Defined.

Import PyDate PyDateFacts PyStrFacts PyNumFacts LoopFacts SortFacts NormalFacts
  CleanFacts PlanFacts.

(** * More of the code: the prompt and the questionnaire *)

(** ** The budget of the prompt *)

Section PromptBudget.

Variable token : Type.
Variable encode : string → list token.
Variable decode : list token → string.

Lemma tokens_of_nonneg (texts : list string) : 0 ≤ tokens_of token encode texts.
Proof.
  unfold tokens_of. induction texts as [|t texts IH]; cbn; lia.
Qed.

Lemma trim_rfp_take (limit : nat) (rfp_text : string) :
  trim_rfp token encode limit rfp_text = take limit (encode rfp_text).
Proof.
  unfold trim_rfp. cbv zeta.
  destruct (Nat.ltb_spec limit (length (encode rfp_text))); [done|].
  by rewrite take_ge.
Qed.

(** Chunks that fit are all kept. *)
Lemma safe_chunks_fit (kb_chunks : list string) (used : Z) (safe : list string) :
  used + tokens_of token encode kb_chunks ≤ max_total_tokens →
  safe_chunks token encode used safe kb_chunks
  = (safe ++ kb_chunks, used + tokens_of token encode kb_chunks).
Proof.
  revert used safe. induction kb_chunks as [|ch rest IH]; intros used safe Hfit.
  - cbn. rewrite app_nil_r. unfold tokens_of. cbn. f_equal. lia.
  - cbn [safe_chunks]. cbv zeta.
    pose proof (tokens_of_nonneg rest) as Hrest.
    assert (E : tokens_of token encode (ch :: rest)
                = Z.of_nat (length (encode ch)) + tokens_of token encode rest)
      by done.
    rewrite E in *.
    destruct (Z.ltb_spec max_total_tokens
                (used + Z.of_nat (length (encode ch)))) as [Hlt|Hle]; [lia|].
    rewrite IH by lia. rewrite <- app_assoc. cbn. f_equal. lia.
Qed.

(** What is kept is a prefix, within the budget. *)
Lemma safe_chunks_prefix (kb_chunks : list string) (used : Z)
    (safe : list string) :
  used ≤ max_total_tokens →
  ∃ taken,
    taken `prefix_of` kb_chunks
    ∧ safe_chunks token encode used safe kb_chunks
      = (safe ++ taken, used + tokens_of token encode taken)
    ∧ used + tokens_of token encode taken ≤ max_total_tokens.
Proof.
  revert used safe. induction kb_chunks as [|ch rest IH]; intros used safe Hu.
  - exists []. rewrite app_nil_r. unfold tokens_of. cbn.
    split; [done|]. split; [f_equal; lia|lia].
  - cbn [safe_chunks]. cbv zeta.
    destruct (Z.ltb_spec max_total_tokens
                (used + Z.of_nat (length (encode ch)))) as [Hlt|Hle].
    + exists []. rewrite app_nil_r. unfold tokens_of. cbn.
      split; [apply prefix_nil|]. split; [f_equal; lia|lia].
    + destruct (IH (used + Z.of_nat (length (encode ch))) (safe ++ [ch]) Hle)
        as (taken & Hp & -> & Hmax).
      exists (ch :: taken). split; [by apply prefix_cons|].
      assert (E : tokens_of token encode (ch :: taken)
                  = Z.of_nat (length (encode ch))
                    + tokens_of token encode taken) by done.
      rewrite E, <- app_assoc. cbn. split; [f_equal; lia|lia].
Qed.

End PromptBudget.

(** X18: what [generate_project_scope] hands to [_build_scope_prompt] is cut
    once more there: the prompt holds at most the first 3000 tokens of the
    RFP text, and chunks that are a prefix of those it is given, within the
    budget of 124000 tokens.  When the text that [generate_project_scope]
    has decoded from the tokens it kept does not encode to more tokens than
    those, the prompt holds every chunk that was kept. *)
Theorem X18_prompt_budget (token : Type) (encode : string → list token)
    (decode : list token → string) (rfp_text : string)
    (kb_results : list (option string * list kb_chunk))
    (rfp_tokens : list token) (kb_chunks : list string) (used_tokens : Z) :
  scope_budget token encode rfp_text kb_results
  = Some (rfp_tokens, kb_chunks, used_tokens) →
  let prompt := prompt_budget token encode decode (decode rfp_tokens) kb_chunks in
  let prompt_tokens := take 3000 (encode (decode rfp_tokens)) in
  prompt.1.1 = decode prompt_tokens
  ∧ prompt.1.2 `prefix_of` kb_chunks
  ∧ prompt.2
    = Z.of_nat (length prompt_tokens) + tokens_of token encode prompt.1.2
  ∧ prompt.2 ≤ max_total_tokens
  ∧ ((length (encode (decode rfp_tokens)) ≤ length rfp_tokens)%nat →
     prompt.1.2 = kb_chunks ∧ prompt.2 ≤ used_tokens).
Proof.
  intros E. cbv zeta. unfold prompt_budget. cbv zeta.
  rewrite trim_rfp_take.
  set (prompt_tokens := take 3000 (encode (decode rfp_tokens))).
  assert (Hlen : (length prompt_tokens ≤ 3000)%nat).
  { subst prompt_tokens. rewrite length_take. lia. }
  destruct (safe_chunks_prefix token encode kb_chunks
              (0 + Z.of_nat (length prompt_tokens)) [])
    as (taken & Hp & Es & Hmax).
  { unfold max_total_tokens, context_limit. lia. }
  split.
  { by destruct (safe_chunks _ _ _ _ _). }
  rewrite Es. cbn [fst snd app].
  split; [done|]. split; [lia|]. split; [lia|].
  intros Hre. unfold scope_budget in E. cbv zeta in E.
  destruct (kb_outer _ _ _ _ _) as [[kb used]|] eqn:Eo; [|done].
  cbn [mbind option_bind] in E. injection E as <- <- <-.
  apply kb_outer_spec in Eo as (kept & -> & -> & Hm & _).
  cbn [app] in *.
  assert (Hle : (length prompt_tokens
                 ≤ length (trim_rfp token encode 5000 rfp_text))%nat).
  { subst prompt_tokens. rewrite length_take. lia. }
  assert (Hfit : 0 + Z.of_nat (length prompt_tokens)
                 + tokens_of token encode kept ≤ max_total_tokens).
  { assert (0 + Z.of_nat (length (trim_rfp token encode 5000 rfp_text))
            ≤ max_total_tokens).
    { rewrite trim_rfp_take, length_take.
      unfold max_total_tokens, context_limit. lia. }
    lia. }
  rewrite (safe_chunks_fit token encode kept _ [] Hfit) in Es.
  cbn [app] in Es. injection Es as <- _. split; [done|]. lia.
Qed.

(** A tokenizer of one token for each character, which decodes to the text
    it has encoded. *)
Lemma X18_prompt_budget_witness :
  let prompt :=
    prompt_budget ascii list_ascii_of_string string_of_list_ascii
      (string_of_list_ascii (list_ascii_of_string "Build a data platform"))
      ["Use Spark"; "Use Airflow"; "SQL"]%string in
  prompt.1.2 = ["Use Spark"; "Use Airflow"; "SQL"]%string ∧ prompt.2 ≤ 44.
Proof.
  assert (E : scope_budget ascii list_ascii_of_string "Build a data platform"
                kb_example
              = Some (list_ascii_of_string "Build a data platform",
                      ["Use Spark"; "Use Airflow"; "SQL"]%string, 44))
    by (vm_compute; reflexivity).
  destruct (X18_prompt_budget ascii list_ascii_of_string string_of_list_ascii
              "Build a data platform" kb_example _ _ _ E)
    as (_ & _ & _ & _ & H).
  apply H. vm_compute. lia.
Defined.

(** ** The questionnaire read line by line *)

Module LineFacts.

Import PyStr.

Lemma drop_while_elem (p : ascii → bool) (c : ascii) (l : list ascii) :
  c ∈ l → p c = false → c ∈ drop_while p l.
Proof.
  intros Hin Hp. induction l as [|x l IH]; [done|]. cbn.
  destruct (p x) eqn:Ex; [|done].
  apply elem_of_cons in Hin as [->|Hin]; [congruence|auto].
Qed.

Lemma lstrip_l_keeps (c : ascii) (l : list ascii) :
  c ∈ l → is_space c = false → c ∈ lstrip_l l.
Proof.
  intros Hin Hp. induction l as [|x l IH]; [done|]. cbn.
  destruct (is_space x) eqn:Ex; [|done].
  apply elem_of_cons in Hin as [->|Hin]; [congruence|auto].
Qed.

Lemma rstrip_l_keeps (c : ascii) (l : list ascii) :
  c ∈ l → is_space c = false → c ∈ rstrip_l l.
Proof.
  intros Hin Hp. induction l as [|x l IH]; [done|]. cbn.
  apply elem_of_cons in Hin as [->|Hin].
  - destruct (rstrip_l l); [rewrite Hp|]; left.
  - specialize (IH Hin). destruct (rstrip_l l); [by apply elem_of_nil in IH|].
    by right.
Qed.

Lemma strip_l_keeps (c : ascii) (l : list ascii) :
  c ∈ l → is_space c = false → c ∈ strip_l l.
Proof.
  intros Hin Hp. apply rstrip_l_keeps; [|done]. by apply lstrip_l_keeps.
Qed.

Lemma has_qmark_elem (l : list ascii) :
  has_qmark l = true ↔ "?"%char ∈ l.
Proof.
  unfold has_qmark. rewrite existsb_exists. split.
  - intros (c & Hin & ->%Ascii.eqb_eq). by apply list_elem_of_In.
  - intros Hin. exists "?"%char. by rewrite <- list_elem_of_In.
Qed.

Lemma has_qmark_strip (l : list ascii) : has_qmark (strip_l l) = has_qmark l.
Proof.
  apply eq_true_iff_eq. rewrite !has_qmark_elem. split.
  - apply strip_l_elem.
  - intros. by apply strip_l_keeps.
Qed.

Lemma sub_number_keeps (c : ascii) (l : list ascii) :
  c ∈ l → is_digit c = false → is_number_sep c = false → c ∈ sub_number l.
Proof.
  intros Hin Hd Hs. unfold sub_number. destruct l as [|x l]; [done|].
  destruct (is_digit x) eqn:Ex; [|done].
  pose proof (drop_while_elem is_digit c (x :: l) Hin Hd) as Hk.
  destruct (drop_while is_digit (x :: l)) as [|s rest]; [done|].
  destruct (is_number_sep s) eqn:Es; [|done].
  apply elem_of_cons in Hk as [->|Hk]; [congruence|].
  by apply drop_while_elem.
Qed.

Lemma find_sub_char (c : ascii) (l : list ascii) :
  c ∈ l → is_Some (find_sub [c] l).
Proof.
  induction l as [|x l IH]; [by intros ?%elem_of_nil|].
  intros Hin. cbn [find_sub strip_prefix].
  destruct (Ascii.eqb_spec c x) as [->|Hne]; [done|].
  apply elem_of_cons in Hin as [->|Hin]; [done|].
  destruct (IH Hin) as [[pre post] ->]. done.
Qed.

(** The text of a question keeps its question mark and is stripped. *)
Lemma question_text_ok (line : list ascii) :
  has_qmark line = true →
  contains "?" (question_text line) = true
  ∧ strip (question_text line) = question_text line.
Proof.
  intros Hq%has_qmark_elem. unfold question_text. split.
  - unfold contains. rewrite list_ascii_of_string_of_list_ascii.
    destruct (find_sub_char "?" (strip_l (sub_number line))) as [x Hx].
    { apply strip_l_keeps; [|done]. by apply sub_number_keeps. }
    cbn in Hx |- *. by rewrite Hx.
  - unfold strip. by rewrite list_ascii_of_string_of_list_ascii, strip_l_idem.
Qed.

(** A heading holds no question mark. *)
Lemma heading_no_qmark (line : list ascii) :
  heading_match line = true → has_qmark line = false.
Proof.
  intros Hh. destruct (has_qmark line) eqn:Eq; [exfalso|done].
  apply has_qmark_elem in Eq.
  assert (Hs : "?"%char ∈ sub_hashes line).
  { unfold sub_hashes. destruct line as [|x l]; [done|].
    destruct (is_hash x); [|done].
    apply lstrip_l_keeps; [|done]. by apply drop_while_elem. }
  unfold heading_match in Hh.
  destruct (sub_hashes line) as [|c rest]; [done|].
  apply andb_true_iff in Hh as [Hu Hn].
  apply elem_of_cons in Hs as [<-|Hs]; [done|].
  assert (Hname : "?"%char ∈
            match rev rest with
            | last :: front => if Ascii.eqb last ":" then rev front else rest
            | [] => rest
            end).
  { destruct (rev rest) as [|last front] eqn:Er; [done|].
    destruct (Ascii.eqb_spec last ":") as [->|_]; [|done].
    apply (f_equal (@rev ascii)) in Er. rewrite rev_involutive in Er.
    rewrite Er in Hs. cbn [rev] in Hs.
    by apply elem_of_app in Hs as [Hs|Hs%list_elem_of_singleton]. }
  destruct (match rev rest with
            | last :: front => if Ascii.eqb last ":" then rev front else rest
            | [] => rest
            end) as [|y name]; [done|].
  rewrite forallb_forall in Hn. apply list_elem_of_In, Hn in Hname. done.
Qed.

Lemma setdefault_append_fmap {K A B : Type} `{EqDecision K} (f : A → B)
    (k : K) (v : A) (g : list (K * list A)) :
  setdefault_append k (f v) ((λ kv : K * list A, (kv.1, f <$> kv.2)) <$> g)
  = (λ kv : K * list A, (kv.1, f <$> kv.2)) <$> setdefault_append k v g.
Proof.
  induction g as [|[k0 vs] g IH]; [done|].
  cbn [setdefault_append fmap list_fmap fst snd].
  destruct (decide (k = k0)).
  - cbn. by rewrite fmap_app.
  - cbn. f_equal. apply IH.
Qed.

End LineFacts.

(** What the loop over the lines keeps. *)
Lemma lines_loop (lines : list (list ascii)) :
  ∃ (current_cat : string) (grouped : list (string * list string)),
    foldl line_step ("General"%string, []) lines
    = (current_cat,
       (λ kv : string * list string,
          (kv.1, (λ q, question_item (JsStr q)) <$> kv.2)) <$> grouped)
    ∧ NoDup grouped.*1
    ∧ Forall (λ g, g.2 ≠ []) grouped
    ∧ Forall
        (λ c, c = "General"%string
              ∨ ∃ line, line ∈ lines
                        ∧ heading_match (PyStr.strip_l line) = true
                        ∧ c = heading_name (PyStr.strip_l line))
        (current_cat :: grouped.*1)
    ∧ Forall (λ q, PyStr.contains "?" q = true ∧ PyStr.strip q = q)
        (concat (grouped.*2 : list (list string)))
    ∧ length (concat (grouped.*2 : list (list string)))
      = length (filter (λ line, has_qmark line = true) lines).
Proof.
  induction lines as [|line lines IH] using rev_ind.
  { exists "General"%string, []. cbn. split; [done|]. split; [constructor|].
    split; [constructor|]. split; [|done].
    apply Forall_singleton. by left. }
  destruct IH as (cat & g & E & Hnd & Hne & Hcat & Hq & Hlen).
  rewrite foldl_app. cbn [foldl]. rewrite E. clear E.
  rewrite filter_app, filter_cons, filter_nil, length_app.
  assert (Hmono : Forall
            (λ c, c = "General"%string
                  ∨ ∃ l, l ∈ lines ++ [line]
                         ∧ heading_match (PyStr.strip_l l) = true
                         ∧ c = heading_name (PyStr.strip_l l))
            (cat :: g.*1)).
  { eapply Forall_impl; [exact Hcat|]. intros c [->|(l & Hl & Hh & ->)].
    - by left.
    - right. exists l. split; [|done]. apply elem_of_app. by left. }
  unfold line_step. cbv zeta.
  rewrite <- (LineFacts.has_qmark_strip line).
  destruct (PyStr.strip_l line) as [|c l] eqn:El.
  { exists cat, g. cbn. rewrite Nat.add_0_r. done. }
  rewrite <- El in *.
  destruct (heading_match (PyStr.strip_l line)) eqn:Eh.
  - pose proof (LineFacts.heading_no_qmark _ Eh) as Hno.
    assert (He : ends_with_qmark (PyStr.strip_l line) = false).
    { unfold ends_with_qmark.
      destruct (rev (PyStr.strip_l line)) as [|x r] eqn:Er; [done|].
      destruct (Ascii.eqb_spec x "?") as [->|]; [|done].
      apply (f_equal (@rev ascii)) in Er. rewrite rev_involutive in Er.
      assert (Hin : "?"%char ∈ PyStr.strip_l line).
      { rewrite Er. cbn [rev]. apply elem_of_app. right. left. }
      apply LineFacts.has_qmark_elem in Hin. congruence. }
    rewrite He, Hno. cbn [andb negb].
    rewrite decide_False by done. cbn. rewrite Nat.add_0_r.
    exists (heading_name (PyStr.strip_l line)), g.
    split; [done|]. split; [done|]. split; [done|].
    split; [|done]. apply Forall_cons. split.
    + right. exists line. split; [|done]. apply elem_of_app. right. left.
    + by apply Forall_cons in Hmono as [_ ?].
  - cbn [andb].
    destruct (has_qmark (PyStr.strip_l line)) eqn:Eq.
    + rewrite decide_True by done.
      exists cat, (setdefault_append cat (question_text (PyStr.strip_l line)) g).
      rewrite (LineFacts.setdefault_append_fmap
                 (λ q, question_item (JsStr q))).
      split; [done|]. split.
      { rewrite GroupFacts.keys_setdefault.
        destruct (decide (cat ∈ g.*1)); [done|].
        apply NoDup_app. split; [done|]. split; [|apply NoDup_singleton].
        intros y Hy ->%list_elem_of_singleton. done. }
      split; [by apply GroupFacts.nonempty_setdefault|]. split.
      { apply Forall_cons in Hmono as [Hc Hg]. apply Forall_cons.
        split; [done|]. rewrite GroupFacts.keys_setdefault.
        destruct (decide (cat ∈ g.*1)); [done|].
        apply Forall_app. split; [done|]. by apply Forall_singleton. }
      split.
      { rewrite <- GroupFacts.concat_setdefault. apply Forall_app.
        split; [done|]. apply Forall_singleton.
        by apply LineFacts.question_text_ok. }
      rewrite <- GroupFacts.concat_setdefault, length_app. cbn. lia.
    + rewrite decide_False by done. cbn. rewrite Nat.add_0_r.
      by exists cat, g.
Qed.

(** X19: when the answer of the model is read line by line, the categories
    of the result have distinct names, each [General] or the name of a
    heading line of the text, and none is empty; every item is a question
    without an answer, its text stripped and with a question mark; and
    there is one item for each line of the text that holds a question
    mark, and no other. *)
Theorem X19_questions_from_lines (raw_text : string) :
  let lines := splitlines_l (list_ascii_of_string raw_text) in
  ∃ grouped : list (string * list string),
    questions_from_lines raw_text
    = (λ g : string * list string,
         category_dict (JsStr g.1)
           ((λ q, question_item (JsStr q)) <$> g.2)) <$> grouped
    ∧ NoDup grouped.*1
    ∧ Forall (λ g, g.2 ≠ []) grouped
    ∧ Forall
        (λ c, c = "General"%string
              ∨ ∃ line, line ∈ lines
                        ∧ heading_match (PyStr.strip_l line) = true
                        ∧ c = heading_name (PyStr.strip_l line))
        grouped.*1
    ∧ Forall (λ q, PyStr.contains "?" q = true ∧ PyStr.strip q = q)
        (concat (grouped.*2 : list (list string)))
    ∧ length (concat (grouped.*2 : list (list string)))
      = length (filter (λ line, has_qmark line = true) lines).
Proof.
  cbv zeta. unfold questions_from_lines.
  destruct (lines_loop (splitlines_l (list_ascii_of_string raw_text)))
    as (cat & g & -> & Hnd & Hne & Hcat & Hq & Hlen).
  exists g. split.
  { rewrite <- list_fmap_compose. done. }
  apply Forall_cons in Hcat as [_ Hcat]. done.
Qed.

(** ** The questionnaire in its nested form *)

Section NestedForm.

Variable json_loads : string → option jsonv.
Variable py_repr : jsonv → string.

Lemma question_item_normal (que : jsonv) : normal_item (question_item que).
Proof. by exists que, (JsStr ""), (JsStr ""). Qed.

Lemma nested_item_normal (i i' : jsonv) :
  nested_item i = Some i' → normal_item i'.
Proof.
  unfold nested_item. destruct i; try done. cbn.
  intros [= <-]. by eexists _, _, _.
Qed.

Lemma nested_item_id (i : jsonv) : normal_item i → nested_item i = Some i.
Proof. by intros (q & u & c & ->). Qed.

Lemma mapM_id {A : Type} (f : A → option A) (l : list A) :
  Forall (λ x, f x = Some x) l → mapM f l = Some l.
Proof.
  intros H. rewrite <- (list_fmap_id l) at 1.
  by apply mapM_fmap_Forall_Some.
Qed.

Lemma mapM_Forall {A B : Type} (f : A → option B) (P : B → Prop)
    (l : list A) (k : list B) :
  (∀ x y, f x = Some y → P y) → mapM f l = Some k → Forall P k.
Proof.
  intros Hf H%mapM_Some_1. induction H as [|x y l k Hxy _ IH]; [done|].
  apply Forall_cons. split; [by eapply Hf|done].
Qed.

Lemma nested_category_normal (cat cat' : jsonv) :
  nested_category cat = Some cat' → normal_category cat'.
Proof.
  unfold nested_category. destruct cat; try done. cbn.
  destruct (py_iter _) as [its|]; [|done]. cbn.
  destruct (mapM nested_item its) as [items|] eqn:Em; [|done]. cbn.
  intros [= <-]. eexists _, _. split; [done|].
  eapply mapM_Forall; [|exact Em]. apply nested_item_normal.
Qed.

Lemma get_category (dflt c : jsonv) (items : list jsonv) :
  py_get "category" dflt (category_dict c items) = Some c.
Proof. done. Qed.

Lemma get_items (dflt c : jsonv) (items : list jsonv) :
  py_get "items" dflt (category_dict c items) = Some (JsList items).
Proof. done. Qed.

Lemma nested_category_id (cat : jsonv) :
  normal_category cat → nested_category cat = Some cat.
Proof.
  intros (c & items & -> & Hi). unfold nested_category.
  rewrite get_category, get_items. cbn [mbind option_bind py_iter].
  rewrite mapM_id; [done|].
  eapply Forall_impl; [exact Hi|]. apply nested_item_id.
Qed.

Lemma flat_entry_normal (q : jsonv) (e : jkey * (jsonv * jsonv)) :
  flat_entry py_repr q = Some e → normal_item e.2.2.
Proof.
  unfold flat_entry. cbv zeta. destruct (key_of _); [|done]. cbn.
  intros [= <-]. apply question_item_normal.
Qed.

Lemma flat_groups_normal (entries : list (jkey * (jsonv * jsonv))) :
  Forall (λ e, normal_item e.2.2) entries →
  Forall (λ v : jsonv * jsonv, normal_item v.2)
    (concat ((foldl (λ grouped e, setdefault_append e.1 e.2 grouped) []
                entries).*2 : list (list (jsonv * jsonv)))).
Proof.
  induction entries as [|e entries IH] using rev_ind; [constructor|].
  intros [H1 H2%Forall_inv]%Forall_app.
  rewrite foldl_app. cbn [foldl].
  rewrite <- GroupFacts.concat_setdefault. apply Forall_app.
  split; [by apply IH|]. by apply Forall_singleton.
Qed.

Lemma flat_questions_normal (qdata result : list jsonv) :
  flat_questions py_repr qdata = Some result → Forall normal_category result.
Proof.
  unfold flat_questions.
  destruct (mapM (flat_entry py_repr) qdata) as [entries|] eqn:Em; [|done].
  cbn. intros [= <-].
  pose proof (flat_groups_normal entries) as Hg.
  assert (He : Forall (λ e : jkey * (jsonv * jsonv), normal_item e.2.2) entries).
  { eapply mapM_Forall; [|exact Em]. apply flat_entry_normal. }
  specialize (Hg He). apply Forall_concat in Hg.
  apply Forall_fmap. rewrite Forall_fmap in Hg.
  eapply Forall_impl; [exact Hg|]. intros [k vs] Hv. cbn in *.
  eexists _, _. split; [done|]. by apply Forall_fmap.
Qed.

Lemma structured_normal (parsed : jsonv) (result : list jsonv) :
  structured_questions py_repr parsed = Some result →
  Forall normal_category result.
Proof.
  unfold structured_questions. destruct parsed as [| | | |l|d]; try done.
  - intros [= <-]. apply Forall_singleton. eexists _, _. split; [done|].
    apply Forall_fmap, Forall_forall. intros q _. apply question_item_normal.
  - destruct (items_get _ d) as [[| | | |qdata|]|]; try done.
    destruct (forallb is_dict qdata); [|done].
    destruct qdata as [|[| | | | |first] rest]; try done.
    destruct (bool_decide _).
    + intros H. eapply mapM_Forall; [|exact H].
      apply nested_category_normal.
    + apply flat_questions_normal.
Qed.

Lemma lines_normal (raw_text : string) :
  Forall normal_category (questions_from_lines raw_text).
Proof.
  unfold questions_from_lines.
  destruct (lines_loop (splitlines_l (list_ascii_of_string raw_text)))
    as (cat & g & -> & _).
  rewrite <- list_fmap_compose. apply Forall_fmap, Forall_forall.
  intros [c qs] _. cbn. eexists _, _. split; [done|].
  apply Forall_fmap, Forall_forall. intros q _. apply question_item_normal.
Qed.

Lemma structured_id (d : list (string * jsonv)) (questions : list jsonv) :
  items_get "questions"%string d = Some (JsList questions) →
  Forall normal_category questions → questions ≠ [] →
  structured_questions py_repr (JsDict d) = Some questions.
Proof.
  intros Hd Hn Hne. unfold structured_questions. rewrite Hd.
  assert (Hall : forallb is_dict questions = true).
  { apply forallb_forall. intros cat Hin%list_elem_of_In.
    rewrite Forall_forall in Hn. by destruct (Hn cat Hin) as (? & ? & -> & _). }
  rewrite Hall. destruct questions as [|cat rest]; [done|].
  pose proof (Forall_inv Hn) as (c & items & -> & _).
  set (nested := mapM nested_category _).
  change (nested = Some (category_dict c items :: rest)). subst nested.
  apply mapM_id.
  eapply Forall_impl; [exact Hn|]. apply nested_category_id.
Qed.

End NestedForm.

(** X20: whatever the answer of the model, the questions read from it are
    in the nested form, every category a dict of a [category] and of
    [items] and every item a dict of a [question], a [user_understanding]
    and a [comment]; and an answer that holds such questions, at least one
    category of them, as its [questions] gives them back unchanged. *)
Theorem X20_questions_normal_form (json_loads : string → option jsonv)
    (py_repr : jsonv → string) (raw_text : string) :
  let questions := _extract_questions_from_text json_loads py_repr raw_text in
  Forall normal_category questions
  ∧ (∀ answer d,
       questions ≠ [] →
       _extract_json jsonv json_loads (JsDict []) answer = JsDict d →
       items_get "questions"%string d = Some (JsList questions) →
       _extract_questions_from_text json_loads py_repr answer = questions).
Proof.
  cbv zeta.
  assert (Hn : Forall normal_category
                 (_extract_questions_from_text json_loads py_repr raw_text)).
  { unfold _extract_questions_from_text.
    destruct (structured_questions _ _) as [r|] eqn:Es.
    - by eapply structured_normal.
    - apply lines_normal. }
  split; [done|]. intros answer d Hne Ha Hd.
  unfold _extract_questions_from_text at 1. rewrite Ha.
  by rewrite (structured_id py_repr d _ Hd Hn Hne).
Qed.

(** ** A flat list of questions *)

Lemma setdefault_append_map {K K' A B : Type} `{EqDecision K, EqDecision K'}
    (kf : K → K') (vf : A → B) (k : K) (v : A) (g : list (K * list A)) :
  Inj (=) (=) kf →
  setdefault_append (kf k) (vf v)
    ((λ kv : K * list A, (kf kv.1, vf <$> kv.2)) <$> g)
  = (λ kv : K * list A, (kf kv.1, vf <$> kv.2)) <$> setdefault_append k v g.
Proof.
  intros Hinj. induction g as [|[k0 vs] g IH]; [done|].
  cbn [setdefault_append fmap list_fmap fst snd].
  destruct (decide (k = k0)) as [->|Hne].
  - rewrite decide_True by done. cbn. by rewrite fmap_app.
  - rewrite decide_False by (intros ?%Hinj; done). cbn. f_equal. apply IH.
Qed.

Section Flat.

Variable py_repr : jsonv → string.

Lemma flat_entries (qs : list (string * jsonv)) :
  mapM (flat_entry py_repr) (flat_question <$> qs)
  = Some ((λ e : string * jsonv,
             (KStr e.1, (JsStr e.1, question_item e.2))) <$> qs).
Proof.
  induction qs as [|e qs IH]; [done|]. rewrite !fmap_cons. cbn [mapM].
  rewrite IH.
  change (flat_entry py_repr (flat_question e))
    with (Some (KStr e.1, (JsStr e.1, question_item e.2))).
  done.
Qed.

Lemma flat_groups (qs : list (string * jsonv)) :
  foldl (λ grouped (e : jkey * (jsonv * jsonv)),
           setdefault_append e.1 e.2 grouped) []
    ((λ e : string * jsonv, (KStr e.1, (JsStr e.1, question_item e.2)))
       <$> qs)
  = (λ kv : string * list (string * jsonv),
       (KStr kv.1,
        (λ e : string * jsonv, (JsStr e.1, question_item e.2)) <$> kv.2))
      <$> foldl (λ grouped e, setdefault_append e.1 e grouped) [] qs.
Proof.
  induction qs as [|e qs IH] using rev_ind; [done|].
  rewrite fmap_app, !foldl_app. cbn [fmap list_fmap foldl fst snd].
  rewrite IH.
  apply (setdefault_append_map KStr
           (λ e : string * jsonv, (JsStr e.1, question_item e.2))).
  by intros ? ? [= ->].
Qed.

End Flat.

(** X21: a flat list of questions, each with the text of its category, is
    grouped by category: no two categories of the result have the same
    name, a category holds the questions of that name in the order of the
    list, each as an item without an answer, and no question is lost or
    added. *)
Theorem X21_flat_questions (json_loads : string → option jsonv)
    (py_repr : jsonv → string) (raw_text : string)
    (d : list (string * jsonv)) (qs : list (string * jsonv)) :
  qs ≠ [] →
  _extract_json jsonv json_loads (JsDict []) raw_text = JsDict d →
  items_get "questions"%string d = Some (JsList (flat_question <$> qs)) →
  ∃ grouped : list (string * list jsonv),
    _extract_questions_from_text json_loads py_repr raw_text
    = (λ g : string * list jsonv,
         category_dict (JsStr g.1) (question_item <$> g.2)) <$> grouped
    ∧ NoDup grouped.*1
    ∧ (∀ c, items_get c grouped
            = match (filter (λ e : string * jsonv, e.1 = c) qs).*2 with
              | [] => None
              | questions => Some questions
              end)
    ∧ concat (grouped.*2 : list (list jsonv)) ≡ₚ qs.*2.
Proof.
  intros Hne Hj Hd.
  destruct (GroupFacts.group_spec (fst : string * jsonv → string) qs)
    as (Hnd & Hnn & Hget & Hp).
  set (G := foldl (λ grouped (e : string * jsonv),
                     setdefault_append e.1 e grouped) [] qs) in *.
  exists ((λ kv : string * list (string * jsonv), (kv.1, kv.2.*2)) <$> G).
  split; [|split; [|split]].
  - unfold _extract_questions_from_text. rewrite Hj.
    unfold structured_questions. rewrite Hd.
    assert (Hall : forallb is_dict (flat_question <$> qs) = true).
    { apply forallb_forall. intros q Hin%list_elem_of_In.
      by apply list_elem_of_fmap in Hin as (e & -> & _). }
    rewrite Hall. destruct qs as [|e qs]; [done|].
    set (flat := flat_questions py_repr _).
    match goal with
    | |- _ = ?rhs =>
        change (match flat with
                | Some questions => questions
                | None => questions_from_lines raw_text
                end = rhs)
    end.
    subst flat. unfold flat_questions.
    rewrite (flat_entries py_repr (e :: qs)). cbn [mbind option_bind].
    rewrite (flat_groups (e :: qs)). fold G.
    rewrite <- !list_fmap_compose. apply list_fmap_ext.
    intros _ [c vs] Hin%list_elem_of_lookup_2. cbn.
    unfold flat_category. cbn [fst snd].
    assert (Hc : Forall (λ x : string * jsonv, x.1 = c) vs ∧ vs ≠ []).
    { rewrite Forall_forall in Hnn. split; [|by apply (Hnn _ Hin)].
      assert (Hg : items_get c G = Some vs).
      { clear -Hin Hnd. induction G as [|[k0 v0] G IH]; [by apply elem_of_nil in Hin|].
        cbn in *. apply NoDup_cons in Hnd as [Hk Hnd].
        apply elem_of_cons in Hin as [[= <- <-]|Hin].
        - by rewrite decide_True.
        - rewrite decide_False; [by apply IH|].
          intros <-. apply Hk. apply list_elem_of_fmap. by exists (c, vs). }
      rewrite Hget in Hg.
      destruct (filter _ (e :: qs)) as [|x xs] eqn:Ef; [done|].
      injection Hg as <-. rewrite <- Ef.
      apply Forall_forall. by intros x' [? _]%list_elem_of_filter. }
    destruct Hc as [Hc Hv]. destruct vs as [|x vs]; [done|].
    apply Forall_cons in Hc as [<- Hc]. cbn. unfold category_dict.
    do 4 f_equal. by rewrite <- !list_fmap_compose.
  - by rewrite <- list_fmap_compose.
  - intros c.
    assert (Hm : items_get c
                   ((λ kv : string * list (string * jsonv), (kv.1, kv.2.*2))
                      <$> G)
                 = fmap (M := list) snd <$> items_get c G).
    { clear. induction G as [|[k vs] G IH]; [done|].
      cbn. by destruct (decide (c = k)). }
    rewrite Hm, Hget. by destruct (filter _ qs).
  - rewrite <- Hp. clear.
    induction G as [|[k vs] G IH]; [done|].
    cbn. by rewrite fmap_app, IH.
Qed.

Lemma X21_flat_questions_witness :
  ∃ grouped : list (string * list jsonv),
    _extract_questions_from_text
      (loads_as (JsDict [("questions"%string,
                          JsList (flat_question <$> flat_asked))]))
      (λ _, ""%string) "{}"
    = (λ g : string * list jsonv,
         category_dict (JsStr g.1) (question_item <$> g.2)) <$> grouped
    ∧ NoDup grouped.*1
    ∧ (∀ c, items_get c grouped
            = match (filter (λ e : string * jsonv, e.1 = c) flat_asked).*2 with
              | [] => None
              | questions => Some questions
              end)
    ∧ concat (grouped.*2 : list (list jsonv)) ≡ₚ flat_asked.*2.
Proof.
  apply (X21_flat_questions _ _ _
           [("questions"%string, JsList (flat_question <$> flat_asked))]).
  - done.
  - vm_compute. reflexivity.
  - vm_compute. reflexivity.
Defined.

(** ** The answers of the user *)

Section Answers.

Variable user_answers : list (string * jsonv).

(** The answers of a category are a dict, or a value that counts as none. *)
Hypothesis answers_ok :
  forallb (λ kv : string * jsonv, is_dict kv.2 || negb (js_truthy kv.2))
    user_answers = true.

Lemma items_get_elem {V : Type} (k : string) (v : V) (l : list (string * V)) :
  items_get k l = Some v → (k, v) ∈ l.
Proof.
  induction l as [|[k0 v0] l IH]; [done|]. cbn.
  destruct (decide (k = k0)) as [->|].
  - intros [= ->]. left.
  - intros. right. auto.
Qed.

Lemma answer_for_some (c q : string) :
  ∃ ans, answer_for user_answers (JsStr c) (JsStr q) = Some ans.
Proof.
  unfold answer_for. cbn [str_keys_get mbind option_bind].
  destruct (items_get c user_answers) as [v|] eqn:Ev; [|by eexists].
  destruct (js_truthy v) eqn:Et; [|by eexists].
  apply items_get_elem, list_elem_of_In in Ev.
  rewrite forallb_forall in answers_ok. apply answers_ok in Ev. cbn in Ev.
  rewrite Et in Ev. destruct v; try done. by eexists.
Qed.

(** An item before and after the answers: the same question and comment,
    and the answer given for it when it counts, the former one when not. *)
Lemma merge_item_law (c : string) (i : q_item) :
  ∃ i',
    merge_item user_answers (JsStr c) (item_json i) = Some (item_json i')
    ∧ qi_question i' = qi_question i
    ∧ qi_comment i' = qi_comment i
    ∧ ∃ ans,
        answer_for user_answers (JsStr c) (JsStr (qi_question i)) = Some ans
        ∧ qi_answer i' = if js_truthy ans then ans else qi_answer i.
Proof.
  destruct (answer_for_some c (qi_question i)) as [ans Ha].
  unfold merge_item.
  change (py_get "question" JsNull (item_json i))
    with (Some (JsStr (qi_question i))).
  cbn [mbind option_bind]. rewrite Ha. cbn [mbind option_bind].
  destruct (js_truthy ans) eqn:Et.
  - exists {| qi_question := qi_question i; qi_answer := ans;
              qi_comment := qi_comment i |}.
    split; [done|]. split; [done|]. split; [done|].
    exists ans. by rewrite Et.
  - exists i. split; [done|]. split; [done|]. split; [done|].
    exists ans. by rewrite Et.
Qed.

Lemma merge_item_again (c : string) (i i' : q_item) (ans : jsonv) :
  qi_question i' = qi_question i →
  answer_for user_answers (JsStr c) (JsStr (qi_question i)) = Some ans →
  qi_answer i' = (if js_truthy ans then ans else qi_answer i) →
  merge_item user_answers (JsStr c) (item_json i') = Some (item_json i').
Proof.
  intros Hq Ha Hi. unfold merge_item.
  change (py_get "question" JsNull (item_json i'))
    with (Some (JsStr (qi_question i'))).
  cbn [mbind option_bind]. rewrite Hq, Ha. cbn [mbind option_bind].
  destruct (js_truthy ans) eqn:Et; [|done].
  destruct i' as [q' a' c']. cbn in *. by subst.
Qed.

Lemma merge_items_law (c : string) (items : list q_item) :
  ∃ items',
    mapM (merge_item user_answers (JsStr c)) (item_json <$> items)
    = Some (item_json <$> items')
    ∧ mapM (merge_item user_answers (JsStr c)) (item_json <$> items')
      = Some (item_json <$> items')
    ∧ Forall2
        (λ i i',
           qi_question i' = qi_question i
           ∧ qi_comment i' = qi_comment i
           ∧ ∃ ans,
               answer_for user_answers (JsStr c) (JsStr (qi_question i))
               = Some ans
               ∧ qi_answer i' = if js_truthy ans then ans else qi_answer i)
        items items'.
Proof.
  induction items as [|i items (items' & E & E' & H)]; [by exists []|].
  destruct (merge_item_law c i) as (i' & Ei & Hq & Hc & ans & Ha & Hi).
  exists (i' :: items'). rewrite !fmap_cons. cbn [mapM].
  rewrite Ei, E, E', (merge_item_again c i i' ans Hq Ha Hi). cbn.
  split; [done|]. split; [done|]. apply Forall2_cons. split; [|done].
  split; [done|]. split; [done|]. by exists ans.
Qed.

Lemma merge_category_items (c : string) (items items' : list q_item) :
  mapM (merge_item user_answers (JsStr c)) (item_json <$> items)
  = Some (item_json <$> items') →
  merge_category user_answers (category_dict (JsStr c) (item_json <$> items))
  = Some (category_dict (JsStr c) (item_json <$> items')).
Proof.
  intros E. unfold merge_category. rewrite get_category, get_items.
  cbn [mbind option_bind category_dict]. by rewrite E.
Qed.

Lemma merge_categories_law (cats : list (string * list q_item)) :
  ∃ cats',
    mapM (merge_category user_answers) (categories_json cats)
    = Some (categories_json cats')
    ∧ mapM (merge_category user_answers) (categories_json cats')
      = Some (categories_json cats')
    ∧ Forall2
        (λ g g' : string * list q_item,
           g'.1 = g.1
           ∧ Forall2
               (λ i i',
                  qi_question i' = qi_question i
                  ∧ qi_comment i' = qi_comment i
                  ∧ ∃ ans,
                      answer_for user_answers (JsStr g.1)
                        (JsStr (qi_question i)) = Some ans
                      ∧ qi_answer i'
                        = if js_truthy ans then ans else qi_answer i)
               g.2 g'.2)
        cats cats'.
Proof.
  unfold categories_json.
  induction cats as [|[c items] cats (cats' & E & E' & H)]; [by exists []|].
  destruct (merge_items_law c items) as (items' & Ei & Ei' & Hi).
  exists ((c, items') :: cats'). rewrite !fmap_cons. cbn [mapM fst snd].
  rewrite (merge_category_items c items items' Ei),
    (merge_category_items c items' items' Ei'), E, E'. cbn.
  split; [done|]. split; [done|]. by apply Forall2_cons.
Qed.

End Answers.

Lemma get_questions (dflt : jsonv) (cats : list (string * list q_item)) :
  py_get "questions" dflt (questions_json cats)
  = Some (JsList (categories_json cats)).
Proof. done. Qed.

(** With no answers nothing changes. *)
Lemma merge_nothing (cats : list (string * list q_item)) :
  mapM (merge_category []) (categories_json cats) = Some (categories_json cats).
Proof.
  apply mapM_id, Forall_fmap, Forall_forall. intros [c items] _. cbn.
  apply (merge_category_items [] c items items).
  apply mapM_id, Forall_fmap, Forall_forall. intros i _. by destruct i.
Qed.

(** X22: when the answers of every category are a dict (or nothing), the
    answers of the user can be merged into a questionnaire of texts, and
    the result has the same categories, questions and comments in the same
    order; an item has the answer given for its category and question when
    that answer counts as one, and keeps the answer it had when not, so
    that an empty answer erases nothing; merging the same answers again
    changes nothing more, and merging no answers changes nothing. *)
Theorem X22_merge_answers (user_answers : list (string * jsonv))
    (cats : list (string * list q_item)) :
  forallb (λ kv : string * jsonv, is_dict kv.2 || negb (js_truthy kv.2))
    user_answers = true →
  ∃ cats',
    merged_questions user_answers (questions_json cats)
    = Some (questions_json cats')
    ∧ Forall2
        (λ g g' : string * list q_item,
           g'.1 = g.1
           ∧ Forall2
               (λ i i',
                  qi_question i' = qi_question i
                  ∧ qi_comment i' = qi_comment i
                  ∧ ∃ ans,
                      answer_for user_answers (JsStr g.1)
                        (JsStr (qi_question i)) = Some ans
                      ∧ qi_answer i'
                        = if js_truthy ans then ans else qi_answer i)
               g.2 g'.2)
        cats cats'
    ∧ merged_questions user_answers (questions_json cats')
      = Some (questions_json cats')
    ∧ merged_questions [] (questions_json cats) = Some (questions_json cats).
Proof.
  intros Hok.
  destruct (merge_categories_law user_answers Hok cats) as (cats' & E & E' & H).
  exists cats'. unfold merged_questions. rewrite !get_questions.
  cbn [mbind option_bind]. rewrite E, E', merge_nothing. done.
Qed.

Lemma X22_merge_answers_witness :
  ∃ cats',
    merged_questions answers_sent (questions_json asked)
    = Some (questions_json cats')
    ∧ Forall2
        (λ g g' : string * list q_item,
           g'.1 = g.1
           ∧ Forall2
               (λ i i',
                  qi_question i' = qi_question i
                  ∧ qi_comment i' = qi_comment i
                  ∧ ∃ ans,
                      answer_for answers_sent (JsStr g.1)
                        (JsStr (qi_question i)) = Some ans
                      ∧ qi_answer i'
                        = if js_truthy ans then ans else qi_answer i)
               g.2 g'.2)
        asked cats'
    ∧ merged_questions answers_sent (questions_json cats')
      = Some (questions_json cats')
    ∧ merged_questions [] (questions_json asked) = Some (questions_json asked).
Proof.
  assert (Hok : forallb (λ kv : string * jsonv,
                           is_dict kv.2 || negb (js_truthy kv.2))
                  answers_sent = true) by (vm_compute; reflexivity).
  exact (X22_merge_answers answers_sent asked Hok).
Defined.

(** ** The questions and answers of the prompt *)

Section Context.

Variable py_repr : jsonv → string.

Lemma mapM_fmap_is_Some {A B C : Type} (f : B → option C) (g : A → B)
    (P : A → Prop) (l : list A) :
  (∀ x, is_Some (f (g x)) ↔ P x) →
  is_Some (mapM f (g <$> l)) ↔ Forall P l.
Proof.
  intros H. rewrite mapM_is_Some, Forall_fmap. apply Forall_iff.
  intros x. apply H.
Qed.

Lemma qa_line_some (i : q_item) :
  is_Some (qa_line (item_json i))
  ↔ is_str (qi_answer i) = true ∧ is_str (qi_comment i) = true.
Proof.
  unfold qa_line.
  change (py_get "question" (JsStr "") (item_json i))
    with (Some (JsStr (qi_question i))).
  change (py_get "user_understanding" (JsStr "") (item_json i))
    with (Some (qi_answer i)).
  change (py_get "comment" (JsStr "") (item_json i))
    with (Some (qi_comment i)).
  cbn [mbind option_bind py_strip].
  destruct (qi_answer i) as [| | |a| |]; cbn [py_strip mbind option_bind is_str];
    try (split; [by intros [? [=]]|by intros [[=] _]]).
  destruct (qi_comment i) as [| | |c| |]; cbn [py_strip mbind option_bind is_str];
    (split; [by intros [? [=]]|by intros [_ [=]]]).
Qed.

Lemma qa_category_some (c : string) (items : list q_item) :
  is_Some (qa_category py_repr (category_dict (JsStr c) (item_json <$> items)))
  ↔ Forall (λ i, is_str (qi_answer i) = true ∧ is_str (qi_comment i) = true)
      items.
Proof.
  unfold qa_category. rewrite get_category, get_items.
  cbn [mbind option_bind py_iter].
  rewrite <- (mapM_fmap_is_Some qa_line item_json _ items qa_line_some).
  destruct (mapM qa_line (item_json <$> items)); cbn; split; done.
Qed.

Lemma questions_context_some (cats : list (string * list q_item)) :
  is_Some (questions_context py_repr (questions_json cats))
  ↔ Forall
      (λ g : string * list q_item,
         Forall (λ i, is_str (qi_answer i) = true ∧ is_str (qi_comment i) = true)
           g.2)
      cats.
Proof.
  unfold questions_context. rewrite get_questions.
  cbn [mbind option_bind py_iter].
  unfold categories_json.
  rewrite <- (mapM_fmap_is_Some (qa_category py_repr)
                (λ g : string * list q_item,
                   category_dict (JsStr g.1) (item_json <$> g.2)) _ cats
                (λ g, qa_category_some g.1 g.2)).
  destruct (mapM _ _); cbn; split; done.
Qed.

End Context.

(** X23: for a stored questionnaire of texts, the questions and answers of
    the prompt exist when, and only when, every answer and every comment is
    a text: one answer that is a number, a list or [null] leaves the prompt
    without any of the questions and answers. *)
Theorem X23_questions_context (py_repr : jsonv → string)
    (cats : list (string * list q_item)) :
  (questions_context py_repr (questions_json cats) ≠ None
   ↔ Forall
       (λ g : string * list q_item,
          Forall
            (λ i, is_str (qi_answer i) = true ∧ is_str (qi_comment i) = true)
            g.2)
       cats)
  ∧ questions_context py_repr (questions_json []) = Some ""%string.
Proof.
  split; [|done].
  rewrite <- questions_context_some, <- not_eq_None_Some. done.
Qed.

(** ** From the text of the model to the prompt *)

Lemma text_answers_ok (user_answers : list (string * jsonv)) :
  text_answers user_answers = true →
  forallb (λ kv : string * jsonv, is_dict kv.2 || negb (js_truthy kv.2))
    user_answers = true.
Proof.
  unfold text_answers. rewrite !forallb_forall. intros H kv Hin.
  specialize (H kv Hin). by destruct (kv.2).
Qed.

(** An answer out of answers that are texts is a text, or none. *)
Lemma answer_for_text (user_answers : list (string * jsonv)) (c q : string)
    (ans : jsonv) :
  text_answers user_answers = true →
  answer_for user_answers (JsStr c) (JsStr q) = Some ans →
  is_str ans = true ∨ ans = JsNull.
Proof.
  intros Hok. unfold answer_for. cbn [str_keys_get mbind option_bind].
  destruct (items_get c user_answers) as [v|] eqn:Ev;
    [|intros [= <-]; by right].
  destruct (js_truthy v) eqn:Et; [|intros [= <-]; by right].
  apply items_get_elem, list_elem_of_In in Ev.
  unfold text_answers in Hok. rewrite forallb_forall in Hok.
  apply Hok in Ev. cbn in Ev. destruct v as [| | | | |d]; try done.
  cbn [str_keys_get mbind option_bind].
  destruct (items_get q d) as [e|] eqn:Ee; intros [= <-]; [|by right].
  apply items_get_elem, list_elem_of_In in Ee.
  rewrite forallb_forall in Ev. left. by apply (Ev _ Ee).
Qed.

(** The questionnaire read line by line is one of texts, without answers
    or comments. *)
Lemma lines_are_texts (raw_text : string) :
  ∃ cats : list (string * list q_item),
    questions_from_lines raw_text = categories_json cats
    ∧ Forall
        (λ g : string * list q_item,
           Forall
             (λ i, is_str (qi_answer i) = true ∧ is_str (qi_comment i) = true)
             g.2)
        cats.
Proof.
  unfold questions_from_lines.
  destruct (lines_loop (splitlines_l (list_ascii_of_string raw_text)))
    as (cat & g & -> & _).
  exists ((λ kv : string * list string,
             (kv.1,
              (λ q, {| qi_question := q; qi_answer := JsStr "";
                       qi_comment := JsStr "" |}) <$> kv.2)) <$> g).
  split.
  - unfold categories_json. rewrite <- !list_fmap_compose.
    apply list_fmap_ext. intros _ [c qs] _. cbn.
    by rewrite <- list_fmap_compose.
  - apply Forall_fmap, Forall_forall. intros [c qs] _. cbn.
    apply Forall_fmap, Forall_forall. by intros q _.
Qed.

(** X24: a questionnaire that was read line by line from the text of the
    model, once stored, takes the answers of the user when these are
    texts, and what is stored then is again a questionnaire of texts, for
    which the questions and answers of the prompt exist. *)
Theorem X24_questionnaire_pipeline (json_loads : string → option jsonv)
    (py_repr : jsonv → string) (raw_text : string)
    (user_answers : list (string * jsonv)) :
  structured_questions py_repr
    (_extract_json jsonv json_loads (JsDict []) raw_text) = None →
  text_answers user_answers = true →
  ∃ (cats : list (string * list q_item)) (text : string),
    merged_questions user_answers
      (JsDict [("questions"%string,
                JsList (_extract_questions_from_text json_loads py_repr
                          raw_text))])
    = Some (questions_json cats)
    ∧ Forall
        (λ g : string * list q_item,
           Forall
             (λ i, is_str (qi_answer i) = true ∧ is_str (qi_comment i) = true)
             g.2)
        cats
    ∧ questions_context py_repr (questions_json cats) = Some text.
Proof.
  intros Hs Hok. unfold _extract_questions_from_text. rewrite Hs.
  destruct (lines_are_texts raw_text) as (cats0 & -> & Htexts).
  destruct (merge_categories_law user_answers (text_answers_ok _ Hok) cats0)
    as (cats & E & _ & H).
  assert (Hall : Forall
            (λ g : string * list q_item,
               Forall
                 (λ i, is_str (qi_answer i) = true
                       ∧ is_str (qi_comment i) = true) g.2)
            cats).
  { clear E. induction H as [|g g' cats0 cats [Hc Hi] _ IH]; [done|].
    apply Forall_cons in Htexts as [Hg Htexts].
    apply Forall_cons. split; [|by apply IH]. clear IH Htexts.
    induction Hi as [|i i' l l' (Hq & Hcm & ans & Ha & Han) _ IH]; [done|].
    apply Forall_cons in Hg as [[Hia Hic] Hg].
    apply Forall_cons. split; [|by apply IH].
    rewrite Hcm, Han. split; [|done].
    destruct (answer_for_text _ _ _ _ Hok Ha) as [Hstr| ->]; [|done].
    by destruct (js_truthy ans). }
  destruct (proj2 (questions_context_some py_repr cats) Hall) as [text Ht].
  exists cats, text. split; [|done].
  change (JsDict [("questions"%string, JsList (categories_json cats0))])
    with (questions_json cats0).
  unfold merged_questions. rewrite get_questions.
  cbn [mbind option_bind]. by rewrite E.
Qed.

Lemma X24_questionnaire_pipeline_witness :
  ∃ (cats : list (string * list q_item)) (text : string),
    merged_questions answers_sent
      (JsDict [("questions"%string,
                JsList (_extract_questions_from_text no_match (λ _, ""%string)
                          asked_text))])
    = Some (questions_json cats)
    ∧ Forall
        (λ g : string * list q_item,
           Forall
             (λ i, is_str (qi_answer i) = true ∧ is_str (qi_comment i) = true)
             g.2)
        cats
    ∧ questions_context (λ _, ""%string) (questions_json cats) = Some text.
Proof.
  apply X24_questionnaire_pipeline; vm_compute; reflexivity.
Defined.

(** ** Embeddings *)

Lemma as_vector_ok (v : jsonv) (xs : list jsonv) :
  as_vector v = Some xs → xs ≠ [] ∧ forallb is_number xs = true.
Proof.
  unfold as_vector. destruct v as [| | | |[|x l]|]; try done.
  destruct (forallb is_number (x :: l)) eqn:E; [|done].
  by intros [= <-].
Qed.

Lemma attempt_vectors_ok (data : jsonv) (valid_vectors : list (list jsonv)) :
  attempt_vectors data = Some valid_vectors →
  valid_vectors ≠ []
  ∧ Forall (λ v, v ≠ [] ∧ forallb is_number v = true) valid_vectors.
Proof.
  unfold attempt_vectors.
  destruct (py_get "embedding" JsNull data) as [e1|]; [|done].
  destruct (py_get "embeddings" JsNull data) as [e2|]; [|done].
  destruct (py_get "data" JsNull data) as [e3|]; [|done].
  cbn [mbind option_bind].
  destruct (normalize_embeddings _) as [embeddings|]; [|done].
  cbn [mbind option_bind].
  destruct (py_iter embeddings) as [vs|]; [|done]. cbn [mbind option_bind].
  destruct (omap as_vector vs) as [|v valid] eqn:Eo; [done|].
  intros [= <-]. split; [done|]. rewrite <- Eo.
  apply Forall_forall. intros xs (v' & _ & Hv)%list_elem_of_omap.
  by apply as_vector_ok in Hv.
Qed.

(** X25: [embed_text_ollama] asks at most twice, and a second time only
    when the first attempt has failed; without a text that is not blank it
    does not ask and answers no vector; what it answers is the vectors of
    the first attempt that gives any, each a list, not empty, of numbers,
    and no vector when both attempts fail. *)
Theorem X25_embedding_retry (texts : list (option string))
    (responses : list (option jsonv)) :
  let result := embed_text_ollama texts responses in
  Forall (λ v, v ≠ [] ∧ forallb is_number v = true) result.1
  ∧ (stripped_texts texts = [] → result = ([], responses))
  ∧ (stripped_texts texts ≠ [] →
     ∀ data rest first,
       responses = Some data :: rest →
       attempt_vectors data = Some first →
       result = (first, rest))
  ∧ (stripped_texts texts ≠ [] →
     ∀ r1 r2 rest,
       responses = r1 :: r2 :: rest →
       r1 ≫= attempt_vectors = None →
       result = (default [] (r2 ≫= attempt_vectors), rest)).
Proof.
  cbv zeta. unfold embed_text_ollama.
  destruct (stripped_texts texts) as [|t ts] eqn:Et.
  { split; [constructor|]. split; [done|]. split; done. }
  split; [|split; [done|split]].
  - destruct responses as [|r1 rest]; cbn [post].
    { cbn. constructor. }
    destruct (r1 ≫= attempt_vectors) as [vs|] eqn:E1.
    { destruct r1 as [data|]; [|done]. cbn.
      by apply attempt_vectors_ok in E1 as [_ ?]. }
    destruct rest as [|r2 rest]; cbn [post].
    { cbn. constructor. }
    destruct (r2 ≫= attempt_vectors) as [vs|] eqn:E2; cbn; [|constructor].
    destruct r2 as [data|]; [|done].
    by apply attempt_vectors_ok in E2 as [_ ?].
  - intros _ data rest first -> Hf. cbn. by rewrite Hf.
  - intros _ r1 r2 rest -> Hf. cbn [post]. rewrite Hf.
    by destruct (r2 ≫= attempt_vectors).
Qed.
